(* ===== verification/_CoqProject ===== *)
-Q . S2P
Prelude.v
Utf8.v
GoStrings.v
Sha256.v
Quote.v
Encoding.v
Bounce.v
Template.v
Crypto.v
Json.v
GoJson.v
Schema.v
GoTime.v
Netip.v
Program.v
Unsubscribe.v
NetMail.v
Mime.v
Mail.v
Addresses.v
MailReader.v
GoFlag.v
Dkim.v
Netguard.v
HttpClient.v
Config.v
Delivery.v
WebhookSend.v
StoreRecipients.v
Reading.v
StoreConn.v
StoreQueue.v
StoreMessages.v
StoreWebhooks.v
StoreKeys.v
Integrity.v
StoreConsole.v
Keys.v
ConsoleAuth.v
Console.v
ConsoleSafety.v
HttpApi.v
Acceptance.v
Optout.v
Mux.v
Middleware.v
Worker.v
Background.v
Protocol.v
Hooks.v
Ceiling.v
Pool.v
Admin.v
Lifecycle.v
Soundness.v
AdminSafety.v
System.v
Progress.v
