(* ===== verification/Prelude.v ===== *)
(** * AI-Email: a verification development for the mail service

    AI-Email is a Go service that accepts mail over a REST API, queues it in
    PostgreSQL, and drains the queue into an SMTP engine (Postal), signing,
    suppressing, retrying and reporting on the way.  This library models the
    program as it is written and proves what makes it correct.

    ** The program and how its parts interact

    A request reaches [internal/httpapi]: the bearer key is looked up by its hash
    ([internal/keys], [internal/store/keys.go]), the body is validated and
    rendered ([internal/mail], [internal/template]), suppressed recipients are
    set aside ([store/suppressions.go]), and the message is written with its
    idempotency record in one transaction ([store/messages.go], recipients
    encrypted under [internal/crypto]).  The worker ([internal/worker]) claims
    due messages ([store/queue.go]), signs them ([internal/dkim]), adds the
    unsubscribe link ([internal/unsubscribe]), hands them to the engine
    ([internal/delivery]) and records what came of it, which may suppress the
    address ([internal/bounce]) and queue webhooks ([store/webhooks.go]).  Two
    further loops deliver those webhooks ([internal/webhook], through the guarded
    client of [internal/netguard]) and check domain ownership over DNS
    ([internal/dnsverify]).  An operator signs in to the console
    ([internal/console]), which reads the tables and revokes keys, and runs the
    subcommands of [cmd/aiemail], which create what the rest uses: keys, domains
    with their signing keys, webhook endpoints, the schema.  The processes share
    nothing but the database.

    ** Files

    Foundations, the part of Go the source uses:
    - Prelude: byte strings, [result] with Go's sentinel errors, byte lemmas;
    - Utf8, GoStrings: runes, [strings], [strconv], [unicode];
    - Sha256: SHA-256, HMAC and hexadecimal, executable and checked on vectors;
    - Encoding: base64 and base32, with their round trips;
    - Quote: [strconv.Quote], whose output holds no control character, and the query
      strings of net/url;
    - Netip: net/netip's parser and printer of addresses, with their round trip;
    - NetMail: net/mail's address parser, display names, encoded words, comments and
      groups included;
    - HttpClient: [Client.Do] of net/http over its transport, for the program's two
      clients: the redirects it follows and the requests it writes again;
    - Json: a reader for JSON strings, the reference of the hand-written encoder;
    - GoJson, GoTime, GoFlag: the parts of encoding/json, [time] and [flag] the
      source uses, decoders included.

    State and effects:
    - Schema: migrations/*.sql; one record per table, one [DB] of finite maps
      that holds the tables;
    - Program: programs as trees of effects.  [statement] is one SQL statement
      (atomic), [tx] a transaction body run on a private copy of the tables,
      [prog] everything else (clock, pauses, randomness, DNS, HTTP).  [run] executes a
      program in a [world] (tables, clock, the HTTP requests made, each with the
      connection it took, how often it was written and its answer) under
      a script of [env], one per effect, that decides delays, failures before
      or after a statement took hold, other processes' writes in between, and
      peers' answers.  A theorem that quantifies over the script covers all of
      them.  [quiet] says that nobody else writes during one effect.
    - Reading: programs that cannot change the tables, closed under [bind];
    - Integrity: what a well-formed database is, table by table, and that each
      statement of the store keeps it so.

    Components, each a file with its data, its operations and its theorems
    (function names are the source's):
    - Bounce         internal/bounce/classify.go
    - Template       internal/template/render.go
    - Crypto         internal/crypto/envelope.go, the keeper of internal/dkim
    - Unsubscribe    internal/unsubscribe/token.go
    - Mail           internal/mail/address.go, build.go, qp.go, over Mime, the
                     quoted-printable writer and the Q encoding of the
                     standard library with their readers
    - Dkim           internal/dkim/custody.go, sign.go
    - Netguard       internal/netguard/netguard.go
    - Config         internal/config/config.go
    - Delivery       internal/delivery/engine.go
    - WebhookSend    internal/webhook/sign.go, sender.go
    - StoreRecipients, StoreConn, StoreQueue, StoreMessages, StoreWebhooks,
      StoreKeys, StoreConsole
                     internal/store: recipients.go and suppressions.go; store.go;
                     queue.go; messages.go; webhooks.go; keys.go and dkim.go;
                     console.go
    - Keys           internal/keys/keys.go
    - ConsoleAuth    internal/console/auth.go
    - Console        internal/console/console.go, views.go
    - HttpApi        internal/httpapi (auth, send, server, unsubscribe, wellknown)
    - Middleware     internal/httpapi/middleware.go: handlers as the calls they make
                     and how they end, a panic included
    - Worker         internal/worker/worker.go
    - Background     internal/worker/webhooks.go, internal/dnsverify
    - Admin          cmd/aiemail (main, admin, webhooks, console)
    - Lifecycle      cmd/aiemail/main.go: from a started mode to the exit code

    Composition, where the parts meet:
    - Acceptance: the API's handlers run against the store;
    - ConsoleSafety: the console's handlers run against the store and the
      session table, with other requests between any two steps;
    - Optout: what the API does to an address on the suppression list, over any
      number of requests and beside any other process that keeps the entry;
    - Mux: the server's whole handler, the API's and the console's in one mux;
    - Addresses: what an accepted address is, over net/mail's parser;
    - MailReader: a built message read back by a receiver;
    - Ceiling: the worker's [Run] against the store, over any number of ticks;
    - Pool: any number of such workers, interleaved effect by effect, that sleep,
      start and die;
    - Hooks: any number of webhook dispatchers over one table of deliveries;
    - AdminSafety: what a subcommand leaves behind, read by the API, the domain
      checker and the worker;
    - Soundness: every handler, loop and subcommand keeps the tables well formed;
    - Protocol: the contract between the worker and what it is wired to, one
      class per Go interface of worker.go; [obeys] checks a program effect by
      effect against the phases of a claim.  The worker is proved against the
      classes, and the store, the engine client and the DKIM signer are
      instances of them;
    - System: any number of workers over one store as a step relation: claims,
      single effects of any delivery, crashes, and steps of everything else;
    - Progress: the same executions with the claims that pass a message over counted.

    A Go struct is a Record, a string-typed enumeration an Inductive, a Go
    interface a Record of programs (a nil one is [None]), an error a value with
    the sentinel that [errors.Is] finds and its text, a method on the store a
    [prog], and a time a number of nanoseconds.  Table contents change only
    through statements, so [db_of (run p script wd)] is what a call leaves behind.

    ** What the theorems show

    - Delivery (System, Progress, Ceiling, Protocol, Worker, StoreQueue): no message is handed to
      the engine by two deliveries at once; there are at most [MaxAttempts] attempts,
      each of them one call of the engine's client, whose requests are bounded
      and all carry the message's id; the engine acknowledges a message at most once,
      and exactly when it is recorded as sent.  Delivery is at least once: an answer
      that is lost counts as no acknowledgement, the message is offered again under
      the same id, and telling the copies apart is the engine's part.  Every hour stays under the ceiling plus a
      batch for each worker that may run at once (Pool); a claim takes the oldest
      due messages and nothing else, so that a due message is passed over by a bounded
      number of claims; back-off is bounded.
    - Webhooks (Hooks, Background, WebhookSend): a delivery has at most eight attempts
      of at most three requests, redirects included, never by two dispatchers at
      once; every request goes to a checked address; the last answer decides; what
      is settled stays settled.
    - Acceptance (Acceptance, HttpApi, StoreMessages): a request queues at most
      one message, for a live key with the scope and a verified domain, to
      recipients that are not suppressed; every other request leaves the tables
      alone; refusals are uniform; acceptance is atomic and idempotent under
      every failure of the connection; accepted recipients are stored encrypted
      and read back as they were; to an unsubscribed recipient no later request
      queues anything for as long as the entry stays (Optout).
    - Content (Template, Mail, Addresses, MailReader, Dkim): an accepted address, where
      it has no quoted string, comment or group, is one mailbox, stored as it was
      checked, and every plain mailbox is accepted; rendering refines a declarative grammar, always
      ends, and cannot be made to emit markup by a value; the header block of a
      message reads back as the fields intended, whatever the values are; its parts
      decode to the text and the HTML that were given.
    - Answers (Middleware): around a handler that returns, the middlewares send its
      answer and log its status; after a panic the server goes on and answers 500.
    - Tables (Soundness, Integrity): unique columns, foreign keys, value checks
      and the code's own conventions survive every program, under any faults and
      any other writer that keeps them.
    - Console (ConsoleAuth, ConsoleSafety): the session table refines a history
      of creations, expiries and deletions; a session comes from the password; no
      page depends on stored secrets.  Of everything the server answers, only a
      send, an unsubscription and a signed-in operator's form change a table (Mux).
    - Commands (Admin, AdminSafety): an issued key opens the API for what it was
      issued for until it expires; a registered domain is proved by publishing
      the record printed; the server and the worker started from one
      environment agree on the keeper and on unsubscribe links.
    - Secrets (Keys, Unsubscribe, WebhookSend, Dkim, Crypto, StoreRecipients):
      tokens, signatures, keys and encrypted recipients round-trip, expire and
      bind what they should.
    - Boundaries (Netguard, Netip, Config, Bounce, Background): addresses are blocked
      by CIDR membership, in every spelling of a literal, and checked at the time of
      dialling; a loaded
      configuration is a safe one; bounce codes are found where they are; every
      outcome of a webhook and of a domain check is the one recorded.
    - Shortcomings the model exposed are theorems too: a message whose delivery
      died stays [sending] for ever ([stranded_forever]), one undecryptable row
      strands its batch ([claim_error_strands_batch]), a reason cut inside a
      rune blocks its own update ([split_rune_blocks_update]), a domain
      suspended by the checker never recovers ([suspended_is_final]), the guard
      against a signature's body-length tag can be passed
      ([length_tag_guard_incomplete]), reply_to is dropped
      ([reply_to_is_dropped]), registering a domain again loses its proof
      ([readd_domain_loses_proof]), a large lifetime wraps around
      ([key_lifetime_bounds]), a webhook delivery whose dispatcher died is never
      retried ([delivery_at_rest]), a recovered panic is logged without the
      request's id ([panic_answered]), a second header of a signed name goes
      unprotected ([headers_listed_once]), a quoted local part puts a second
      mailbox into the From line ([quoted_local_part_forges_mailbox]), and a comment
      hides a blank in an address ([comment_hides_blank]), a plain subject in the form
      of an encoded word is shown decoded ([subject_is_decoded]), and a redirect
      with 301, 302 or 303 turns the POST into a GET without its body, whose answer
      then counts as that of the message or the event ([redirect_drops_message],
      [redirect_drops_event]).

    ** Fuel

    Loops that are not structural take fuel from the length of their input, and
    each pass consumes at least one byte: [segs] and [split] (the lemmas
    [segs_fuel_enough] and [split_fuel_enough] show that more changes nothing),
    the base64 and base32 regrouping, decimal digits (one unit of fuel per bit),
    the loops of the address parser ([skip_comments_enough], [phrase_loop_enough],
    [group_members_enough]), and the template loops with [loop_fuel tmpl] = length + 1, for which
    [Render_Tags_total] shows that running out is impossible.  [read_headers],
    the reference reader of header blocks, is used with one unit more than the
    block has fields, and the reader of a message (MailReader) with its length.
    The client follows redirects for [cl_hops] requests, after which its own check
    refuses ([follow_enough]).
    A worker's [Run] is given a number of ticks, and what is proved of it holds
    for any number.

    ** What is a parameter

    Code outside the repository is a type class; its fields are the functions and
    the few documented facts relied on, and every theorem under one is applied
    at a concrete instance.  [UnicodeTables] (the tables above U+007F),
    [GoRuntime] (the local time zone, the order a map is ranged over), [AEAD] (AES-GCM),
    [Argon2] (password hashing), [DkimLib] and [DkimVerifier] (key generation,
    PKCS#8, go-msgauth),
    [UrlLib] ([url.Parse], the resolution of a redirect's target, a URL's forms for
    the Referer header and for error texts), [LowerLaws] (that lower-casing is
    idempotent and keeps what is a blank and what is valid UTF-8), [ApiLib]
    (ULIDs), [JsonErrors] (the texts of decoding errors), [DbLib] (the drivers and
    the migration tool) and [Postgres] (ordering of equal keys, JSONB input).
    A time the program stores passes the driver, which keeps microseconds
    ([timestamptz]); the database's own [now()] is the clock of the world, uncut.
    HMAC collisions are not assumed away: a theorem that needs two MACs to
    differ says so.

    ** What is not modelled

    - html/template and the console's templates: a page is a template's name and
      the view it is given.
    - The socket and net/http's server: requests arrive parsed, and a timeout of
      the server shows as a handler that is never called or whose answer is lost.
    - Logging, which nothing reads back, but for the request and panic lines of
      the middleware.
    - HTTP connections: a request over a kept-alive one may find it closed and is
      then written again on another, at most once for each idle connection (four for
      the engine, whose client one sequential worker uses); the guarded client keeps
      none alive.  Proxies and HTTP/2 are off in both transports.  A client's timeout
      is an answer that is an error.
    - A connection's own life: cancellation of a context, a lost connection and a
      timeout all appear as an effect that fails before or after it took hold.

    ** Plan

    Next: a loop's pauses as a bound on how often an idle worker queries. *)

From Stdlib Require Export ZArith Lia Ascii.
From stdpp Require Export base list gmap strings fin_maps sets option.

#[export] Set Default Goal Selector "!".

(** ** Go strings and bytes

    A Go [string] and a Go [[]byte] are both sequences of bytes; the source
    converts freely between them, so both are lists of 8-bit characters. *)

Abbreviation gostring := (list ascii).

Definition str (s : string) : gostring := String.list_ascii_of_string s.

Arguments str _ : simpl never.

(** The numeric value of a byte, and the byte of a number in [0..255]. *)
Definition byte_val (c : ascii) : Z := Z.of_N (N_of_ascii c).

Definition byte_of (z : Z) : ascii := ascii_of_N (Z.to_N z).

Definition len (s : gostring) : Z := Z.of_nat (length s).

Declare Scope go_scope.
Delimit Scope go_scope with go.
#[export] Set Warnings "-notation-overridden".

(** ** Errors

    A Go [error] is a value whose identity matters ([errors.Is] on a
    package's sentinels) and whose text is stored and logged.  Wrapping with
    [%w] keeps the identity; wrapping with [%v] keeps the text only. *)

Inductive sentinel :=
  | store_ErrNotFound
  | store_ErrIdempotencyMismatch
  | store_ErrIdempotencyInFlight
  | mail_ErrControlCharacter
  | mail_ErrTooManyRecipients
  | dnsverify_ErrNoRecord
  | dnsverify_ErrMismatch
  | dnsverify_ErrLookupFail
  | crypto_ErrNoPlaintext
  | crypto_ErrBadCiphertext
  | unsubscribe_ErrMalformed
  | unsubscribe_ErrExpired
  | unsubscribe_ErrBadSignature
  | netguard_ErrBlockedAddress
  | netguard_ErrBlockedScheme
  | netguard_ErrBlockedPort
  | netguard_ErrTooManyHops
  | keys_ErrMalformed
  | http_ErrServerClosed.

#[global] Instance sentinel_eq_dec : EqDecision sentinel.
Proof. solve_decision. Defined.

Record error := Error { err_is : option sentinel; err_text : gostring }.

#[global] Instance error_eq_dec : EqDecision error.
Proof. solve_decision. Defined.

(** [errors.Is(e, s)] *)
Definition errors_Is (e : error) (s : sentinel) : bool :=
  bool_decide (err_is e = Some s).

(** [errors.New(text)] for an error nobody compares against. *)
Definition errors_New (text : gostring) : error := Error None text.

(** [fmt.Errorf("<prefix>: %w", e)] and [fmt.Errorf("<prefix>: %v", e)] *)
Definition wrap_w (prefix : gostring) (e : error) : error :=
  Error (err_is e) (prefix ++ str ": " ++ err_text e).

Definition wrap_v (prefix : gostring) (e : error) : error :=
  Error None (prefix ++ str ": " ++ err_text e).

(** The [(value, error)] pair of a Go function that returns one or the other. *)
Inductive result (A : Type) :=
  | Ok (a : A)
  | Err (e : error).
Arguments Ok {A} a.
Arguments Err {A} e.

Definition is_ok {A} (r : result A) : bool :=
  match r with Ok _ => true | Err _ => false end.

Definition rbind {A B} (r : result A) (k : A -> result B) : result B :=
  match r with Ok a => k a | Err e => Err e end.

Notation "'let?' x := r 'in' k" := (rbind r (fun x => k))
  (at level 10, x pattern, r at level 100, k at level 200) : go_scope.

Lemma rbind_ok {A B} (r : result A) (k : A -> result B) b :
  rbind r k = Ok b <-> exists a, r = Ok a /\ k a = Ok b.
Proof. destruct r as [a|e]; simpl; [|naive_solver]. split; [by exists a|by intros (? & [= ->] & ?)]. Qed.

Lemma Ok_inj {A} (a b : A) : Ok a = Ok b -> a = b.
Proof. congruence. Qed.

(** ** Tactics *)

(** Turn the boolean comparisons of the code into propositions. *)
Ltac boolify :=
  repeat first
    [ progress rewrite ?andb_true_iff, ?orb_true_iff, ?negb_true_iff,
        ?andb_false_iff, ?orb_false_iff, ?negb_false_iff in *
    | progress rewrite ?Z.leb_le, ?Z.ltb_lt, ?Z.eqb_eq, ?Z.leb_gt, ?Z.ltb_ge, ?Z.eqb_neq in *
    | progress rewrite ?Nat.leb_le, ?Nat.ltb_lt, ?Nat.eqb_eq, ?Nat.leb_gt, ?Nat.ltb_ge,
        ?Nat.eqb_neq in *
    | progress rewrite ?bool_decide_eq_true, ?bool_decide_eq_false in * ].

(** Case analysis on every [if]/[match] in the goal, with the equation kept. *)
Ltac split_ifs :=
  repeat match goal with
    | |- context [if ?b then _ else _] => let E := fresh "Hif" in destruct b eqn:E
    end; try done.

(** Enumerate the 256 values of a byte. *)
Ltac byte_cases c := destruct c as [[] [] [] [] [] [] [] []].

Create HintDb golib discriminated.
#[export] Hint Constants Opaque : golib.
#[export] Hint Variables Opaque : golib.

(** ** Bytes *)

Lemma len_app (a b : gostring) : (len (a ++ b) = len a + len b)%Z.
Proof. unfold len. rewrite length_app. lia. Qed.

Lemma len_nonneg (s : gostring) : (0 <= len s)%Z.
Proof. unfold len. lia. Qed.

Lemma byte_val_range c : (0 <= byte_val c < 256)%Z.
Proof. byte_cases c; vm_compute; split; congruence. Qed.

Lemma byte_of_val c : byte_of (byte_val c) = c.
Proof. unfold byte_of, byte_val. rewrite N2Z.id. apply ascii_N_embedding. Qed.

Lemma byte_val_of z : (0 <= z < 256)%Z -> byte_val (byte_of z) = z.
Proof.
  intros. unfold byte_of, byte_val.
  rewrite N_ascii_embedding by lia. lia.
Qed.

Lemma byte_val_inj c d : byte_val c = byte_val d -> c = d.
Proof. intros E. by rewrite <- (byte_of_val c), <- (byte_of_val d), E. Qed.

Lemma byte_of_inj y z :
  (0 <= y < 256)%Z -> (0 <= z < 256)%Z -> byte_of y = byte_of z -> y = z.
Proof. intros Hy Hz E. rewrite <- (byte_val_of y), <- (byte_val_of z), E by done. done. Qed.

#[export] Hint Resolve byte_val_range : golib.

(** ** Lists *)

Lemma firstn_prefix {A} n (l : list A) : take n l `prefix_of` l.
Proof. exists (drop n l). by rewrite take_drop. Qed.

Lemma list_len_ind {A} (P : list A -> Prop) :
  (forall l, (forall l', length l' < length l -> P l') -> P l) -> forall l, P l.
Proof.
  intros H l. remember (length l) as n eqn:Hn. revert l Hn.
  induction n as [n IH] using lt_wf_ind. intros l ->. apply H.
  intros l' Hl. by eapply IH.
Qed.

Lemma forallb_Forall {A} (p : A -> bool) (l : list A) :
  forallb p l = true <-> Forall (fun x => p x = true) l.
Proof. rewrite List.forallb_forall, List.Forall_forall. done. Qed.

(** Filters that agree on the list's elements agree. *)
Lemma list_filter_iff' {A} (P Q : A -> Prop) `{!forall x, Decision (P x)} `{!forall x, Decision (Q x)}
    (l : list A) :
  (forall x, x ∈ l -> P x <-> Q x) -> base.filter P l = base.filter Q l.
Proof.
  induction l as [|x l IH]; intros Hpq; [done|]. rewrite !filter_cons.
  rewrite IH by (intros; apply Hpq; by right).
  destruct (decide (P x)), (decide (Q x)); try done; exfalso; specialize (Hpq x (list_elem_of_here _ _)); tauto.
Qed.
