(* ===== verification/Utf8.v ===== *)
(** * Runes: Go's UTF-8 decoding and encoding

    [for _, r := range s] walks the runes of a string; [string(r)] and
    [WriteRune] encode one.  An invalid byte decodes to U+FFFD with width one,
    exactly as [unicode/utf8] specifies. *)

From S2P Require Import Prelude.

Local Open Scope Z_scope.

Definition RuneError : Z := 65533.

Definition in_range (lo hi b : Z) : bool := (lo <=? b) && (b <=? hi).

Definition is_cont (b : Z) : bool := in_range 128 191 b.

(** Accept ranges of the second byte of a three- and a four-byte sequence. *)
Definition second3 (b0 b1 : Z) : bool :=
  if b0 =? 224 then in_range 160 191 b1
  else if b0 =? 237 then in_range 128 159 b1
  else is_cont b1.

Definition second4 (b0 b1 : Z) : bool :=
  if b0 =? 240 then in_range 144 191 b1
  else if b0 =? 244 then in_range 128 143 b1
  else is_cont b1.

(** [utf8.DecodeRuneInString]: the first rune, its bytes, and the rest. *)
Definition decode_rune (s : gostring) : option (Z * gostring * gostring) :=
  match s with
  | [] => None
  | c0 :: s1 =>
      let b0 := byte_val c0 in
      let bad := Some (RuneError, [c0], s1) in
      if b0 <? 128 then Some (b0, [c0], s1)
      else if in_range 194 223 b0 then
        match s1 with
        | c1 :: s2 =>
            let b1 := byte_val c1 in
            if is_cont b1 then Some ((b0 - 192) * 64 + (b1 - 128), [c0; c1], s2) else bad
        | _ => bad
        end
      else if in_range 224 239 b0 then
        match s1 with
        | c1 :: c2 :: s3 =>
            let b1 := byte_val c1 in let b2 := byte_val c2 in
            if second3 b0 b1 && is_cont b2
            then Some ((b0 - 224) * 4096 + (b1 - 128) * 64 + (b2 - 128), [c0; c1; c2], s3)
            else bad
        | _ => bad
        end
      else if in_range 240 244 b0 then
        match s1 with
        | c1 :: c2 :: c3 :: s4 =>
            let b1 := byte_val c1 in let b2 := byte_val c2 in let b3 := byte_val c3 in
            if second4 b0 b1 && is_cont b2 && is_cont b3
            then Some ((b0 - 240) * 262144 + (b1 - 128) * 4096 + (b2 - 128) * 64 + (b3 - 128),
                       [c0; c1; c2; c3], s4)
            else bad
        | _ => bad
        end
      else bad
  end.

(** The runes of a string, each with the bytes it was read from. *)
Fixpoint segs_fuel (fuel : nat) (s : gostring) : list (Z * gostring) :=
  match fuel with
  | O => []
  | S fuel =>
      match decode_rune s with
      | None => []
      | Some (r, u, rest) => (r, u) :: segs_fuel fuel rest
      end
  end.

Definition segs (s : gostring) : list (Z * gostring) := segs_fuel (length s) s.

(** [for _, r := range s] and [[]rune(s)] *)
Definition runes (s : gostring) : list Z := (segs s).*1.

(** Unicode scalar values: what [utf8.AppendRune] encodes as itself. *)
Definition valid_rune (r : Z) : bool :=
  in_range 0 55295 r || in_range 57344 1114111 r.

Definition encode_valid (r : Z) : gostring :=
  if r <? 128 then [byte_of r]
  else if r <? 2048 then [byte_of (192 + r / 64); byte_of (128 + r mod 64)]
  else if r <? 65536 then
    [byte_of (224 + r / 4096); byte_of (128 + (r / 64) mod 64); byte_of (128 + r mod 64)]
  else
    [byte_of (240 + r / 262144); byte_of (128 + (r / 4096) mod 64);
     byte_of (128 + (r / 64) mod 64); byte_of (128 + r mod 64)].

Definition encode_rune (r : Z) : gostring :=
  if valid_rune r then encode_valid r else encode_valid RuneError.

Definition encode_runes (rs : list Z) : gostring := rs ≫= encode_rune.

(** [utf8.ValidString]: every byte belongs to a well-formed sequence. *)
Definition valid_utf8 (s : gostring) : bool :=
  forallb (fun '(r, u) => bool_decide (u = encode_rune r)) (segs s).

Definition is_ascii (s : gostring) : bool := forallb (fun c => byte_val c <? 128) s.

(** ** Decoding consumes a non-empty prefix *)

Lemma decode_rune_app s r u rest :
  decode_rune s = Some (r, u, rest) -> s = u ++ rest /\ u <> [].
Proof.
  intros H. unfold decode_rune in H.
  repeat (case_match; simplify_eq/=; try done).
Qed.

Lemma decode_rune_nonempty s : s <> [] -> exists r u rest, decode_rune s = Some (r, u, rest).
Proof.
  intros Hs. destruct s as [|c0 s1]; [done|]. unfold decode_rune.
  repeat case_match; eauto.
Qed.

Lemma segs_fuel_enough n m s :
  (length s <= n)%nat -> (length s <= m)%nat -> segs_fuel n s = segs_fuel m s.
Proof.
  revert m s. induction n as [|n IH]; intros m s Hn Hm.
  - destruct s; [|simpl in *; lia]. by destruct m.
  - destruct s as [|c s]; [by destruct m|]. destruct m as [|m]; [simpl in *; lia|].
    cbn [segs_fuel]. destruct (decode_rune (c :: s)) as [[[r u] rest]|] eqn:E; [|done].
    apply decode_rune_app in E as [E Hu].
    f_equal. apply IH; destruct u; simplify_eq/=; rewrite length_app in *; lia.
Qed.

Lemma segs_nil : segs [] = [].
Proof. done. Qed.

Lemma segs_step s r u rest :
  decode_rune s = Some (r, u, rest) -> segs s = (r, u) :: segs rest.
Proof.
  intros E. unfold segs at 1. pose proof (decode_rune_app _ _ _ _ E) as [-> Hu].
  destruct u as [|c u]; [done|]. cbn [app length segs_fuel].
  change (c :: u ++ rest) with ((c :: u) ++ rest). rewrite E. f_equal.
  apply segs_fuel_enough; rewrite ?length_app; lia.
Qed.

(** Induction along the runes of a string. *)
Lemma rune_ind (P : gostring -> Prop) :
  P [] ->
  (forall s r u rest, decode_rune s = Some (r, u, rest) -> P rest -> P s) ->
  forall s, P s.
Proof.
  intros H0 HS s. induction s as [s IH] using list_len_ind.
  destruct (decide (s = [])) as [->|Hs]; [done|].
  destruct (decode_rune_nonempty s Hs) as (r & u & rest & E).
  apply (HS _ _ _ _ E), IH. apply decode_rune_app in E as [-> Hu].
  rewrite length_app. destruct u; [done|simpl; lia].
Qed.

(** No byte is lost: the source bytes of the runes are the string. *)
Lemma segs_concat s : concat (segs s).*2 = s.
Proof.
  induction s as [|s r u rest E IH] using rune_ind; [done|].
  rewrite (segs_step _ _ _ _ E). cbn. rewrite IH.
  by apply decode_rune_app in E as [-> _].
Qed.

Lemma segs_cons_ascii c s : byte_val c < 128 -> segs (c :: s) = (byte_val c, [c]) :: segs s.
Proof.
  intros H. apply segs_step. cbn. by rewrite (proj2 (Z.ltb_lt _ _) H).
Qed.

Lemma runes_cons_ascii c s : byte_val c < 128 -> runes (c :: s) = byte_val c :: runes s.
Proof. intros H. unfold runes. by rewrite segs_cons_ascii. Qed.

Lemma is_ascii_cons c s : is_ascii (c :: s) = true <-> byte_val c < 128 /\ is_ascii s = true.
Proof. unfold is_ascii. cbn [forallb]. by boolify. Qed.

Lemma is_ascii_app s1 s2 : is_ascii (s1 ++ s2) = true <-> is_ascii s1 = true /\ is_ascii s2 = true.
Proof. unfold is_ascii. by rewrite List.forallb_app, andb_true_iff. Qed.

Lemma runes_ascii s : is_ascii s = true -> runes s = byte_val <$> s.
Proof.
  induction s as [|c s IH]; [done|]. intros [Hc Hs]%is_ascii_cons.
  rewrite runes_cons_ascii by done. by rewrite IH.
Qed.

(** ** Encoding then decoding *)

Lemma valid_rune_range r : valid_rune r = true <-> 0 <= r <= 55295 \/ 57344 <= r <= 1114111.
Proof. unfold valid_rune, in_range. boolify. lia. Qed.

Lemma RuneError_valid : valid_rune RuneError = true.
Proof. done. Qed.

Ltac range_bools :=
  unfold second3, second4, is_cont, in_range;
  repeat match goal with
    | |- context [?a <? ?b] => destruct (Z.ltb_spec a b); try lia
    | |- context [?a <=? ?b] => destruct (Z.leb_spec a b); try lia
    | |- context [?a =? ?b] => destruct (Z.eqb_spec a b); try lia
    end; cbn.

Lemma decode_encode_valid r rest :
  valid_rune r = true -> decode_rune (encode_valid r ++ rest) = Some (r, encode_valid r, rest).
Proof.
  intros Hr%valid_rune_range. unfold encode_valid.
  destruct (Z.ltb_spec r 128); [|destruct (Z.ltb_spec r 2048); [|destruct (Z.ltb_spec r 65536)]];
    cbn; rewrite !byte_val_of by (Z.div_mod_to_equations; lia);
    Z.div_mod_to_equations; range_bools;
    repeat f_equal; lia.
Qed.

Lemma encode_rune_idemp r : encode_rune (if valid_rune r then r else RuneError) = encode_rune r.
Proof. unfold encode_rune at 2. by destruct (valid_rune r) eqn:E; unfold encode_rune; rewrite ?E. Qed.

(** The rune read back from [string(r)]: [r] itself, or U+FFFD. *)
Definition scalar (r : Z) : Z := if valid_rune r then r else RuneError.

Lemma decode_encode r rest :
  decode_rune (encode_rune r ++ rest) = Some (scalar r, encode_rune r, rest).
Proof.
  unfold encode_rune, scalar. destruct (valid_rune r) eqn:E; by apply decode_encode_valid.
Qed.

Lemma scalar_valid r : valid_rune (scalar r) = true.
Proof. unfold scalar. by destruct (valid_rune r) eqn:E. Qed.

Lemma scalar_id r : valid_rune r = true -> scalar r = r.
Proof. unfold scalar. by intros ->. Qed.

Lemma encode_scalar r : encode_rune (scalar r) = encode_rune r.
Proof. apply encode_rune_idemp. Qed.

Lemma segs_encode_cons r rest : segs (encode_rune r ++ rest) = (scalar r, encode_rune r) :: segs rest.
Proof. apply segs_step, decode_encode. Qed.

Lemma segs_encode_runes rs : segs (encode_runes rs) = (fun r => (scalar r, encode_rune r)) <$> rs.
Proof.
  induction rs as [|r rs IH]; [done|].
  change (encode_runes (r :: rs)) with (encode_rune r ++ encode_runes rs).
  by rewrite segs_encode_cons, IH.
Qed.

Lemma runes_encode_runes rs : runes (encode_runes rs) = scalar <$> rs.
Proof. unfold runes. rewrite segs_encode_runes, <- list_fmap_compose. done. Qed.

(** Anything written rune by rune is well-formed UTF-8. *)
Lemma valid_utf8_encode_runes rs : valid_utf8 (encode_runes rs) = true.
Proof.
  unfold valid_utf8. rewrite segs_encode_runes. apply List.forallb_forall.
  intros [r u] Hin. apply list_elem_of_In, list_elem_of_fmap in Hin as (r' & [= -> ->] & _).
  apply bool_decide_eq_true. by rewrite encode_scalar.
Qed.

Lemma encode_runes_app rs1 rs2 : encode_runes (rs1 ++ rs2) = encode_runes rs1 ++ encode_runes rs2.
Proof. apply bind_app. Qed.

Lemma encode_runes_cons r rs : encode_runes (r :: rs) = encode_rune r ++ encode_runes rs.
Proof. done. Qed.

Lemma encode_ascii c : byte_val c < 128 -> encode_rune (byte_val c) = [c].
Proof.
  intros H. pose proof (byte_val_range c). unfold encode_rune, encode_valid.
  rewrite (proj2 (valid_rune_range _)) by lia.
  rewrite (proj2 (Z.ltb_lt _ _)) by lia. by rewrite byte_of_val.
Qed.

(** A well-formed string is the encoding of its runes. *)
Lemma valid_utf8_encode s : valid_utf8 s = true -> encode_runes (runes s) = s.
Proof.
  induction s as [|s r u rest E IH] using rune_ind; [done|].
  unfold valid_utf8, runes. rewrite (segs_step _ _ _ _ E). cbn. boolify.
  intros [-> Hrest].
  change (encode_rune r ++ encode_runes (runes rest) = s). rewrite IH by done.
  by apply decode_rune_app in E as [-> _].
Qed.

Lemma valid_utf8_app s1 s2 : valid_utf8 s1 = true -> valid_utf8 s2 = true -> valid_utf8 (s1 ++ s2) = true.
Proof.
  intros <-%valid_utf8_encode <-%valid_utf8_encode.
  rewrite <- encode_runes_app. apply valid_utf8_encode_runes.
Qed.

Lemma valid_utf8_ascii s : is_ascii s = true -> valid_utf8 s = true.
Proof.
  induction s as [|c s IH]; [done|]. intros [Hc Hs]%is_ascii_cons.
  unfold valid_utf8. rewrite segs_cons_ascii by done. cbn. boolify.
  split; [by rewrite encode_ascii|by apply IH].
Qed.

#[export] Hint Resolve valid_utf8_app valid_utf8_encode_runes valid_utf8_ascii : golib.

(** The bytes of an encoded rune: the rune itself below 128, high bytes above. *)
Lemma encode_rune_bytes r :
  Forall (fun c => (0 <= r < 128 /\ byte_val c = r) \/ 128 <= byte_val c) (encode_rune r).
Proof.
  unfold encode_rune. destruct (valid_rune r) eqn:Hr.
  - apply valid_rune_range in Hr. unfold encode_valid.
    destruct (Z.ltb_spec r 128); [|destruct (Z.ltb_spec r 2048); [|destruct (Z.ltb_spec r 65536)]];
      rewrite !list.Forall_cons, list.Forall_nil, !byte_val_of by (Z.div_mod_to_equations; lia);
      Z.div_mod_to_equations; lia.
  - change (encode_valid RuneError) with (byte_of <$> [239; 191; 189]). cbn [fmap list_fmap].
    rewrite !list.Forall_cons, list.Forall_nil, !byte_val_of by lia. lia.
Qed.

(** An ASCII byte is always a rune of its own. *)
Lemma decode_rune_ascii s r u rest c :
  decode_rune s = Some (r, u, rest) -> c ∈ u -> byte_val c < 128 -> r = byte_val c.
Proof.
  destruct s as [|c0 s1]; [done|]. cbn. destruct (Z.ltb_spec (byte_val c0) 128).
  { intros [= <- <- <-] ->%list_elem_of_singleton. done. }
  unfold second3, second4, is_cont, in_range.
  repeat case_match; intros Heq Hin Hc; simplify_eq; boolify;
    repeat match goal with
      | Hin : _ ∈ _ :: _ |- _ => apply elem_of_cons in Hin as [->|Hin]
      | Hin : _ ∈ [] |- _ => by apply elem_of_nil in Hin
      end; repeat case_match; boolify; lia.
Qed.

Lemma ascii_in_runes c s : c ∈ s -> byte_val c < 128 -> byte_val c ∈ runes s.
Proof.
  intros Hin Hc. induction s as [|s r u rest E IH] using rune_ind; [by apply elem_of_nil in Hin|].
  pose proof (decode_rune_app _ _ _ _ E) as [-> _]. unfold runes. rewrite (segs_step _ _ _ _ E). cbn.
  apply elem_of_app in Hin as [Hin|Hin].
  - rewrite (decode_rune_ascii _ _ _ _ _ E Hin Hc). left.
  - right. by apply IH.
Qed.

(** ** Decoding then encoding *)

Section Sequences.
Variables c0 c1 c2 c3 : ascii.
Let b0 := byte_val c0.
Let b1 := byte_val c1.
Let b2 := byte_val c2.
Let b3 := byte_val c3.

Lemma encode_two :
  in_range 194 223 b0 = true -> is_cont b1 = true ->
  let r := (b0 - 192) * 64 + (b1 - 128) in [c0; c1] = encode_rune r /\ valid_rune r = true.
Proof.
  intros H0 H1 r. unfold is_cont, in_range in *. boolify.
  assert (128 <= r < 2048) by (unfold r; lia).
  assert (valid_rune r = true) as Hv by (apply valid_rune_range; lia).
  split; [|done]. unfold encode_rune, encode_valid. rewrite Hv.
  rewrite (proj2 (Z.ltb_ge r 128)), (proj2 (Z.ltb_lt r 2048)) by lia.
  replace (192 + r / 64) with b0 by (unfold r; Z.div_mod_to_equations; lia).
  replace (128 + r mod 64) with b1 by (unfold r; Z.div_mod_to_equations; lia).
  unfold b0, b1. by rewrite !byte_of_val.
Qed.

Lemma encode_three :
  in_range 224 239 b0 = true -> second3 b0 b1 && is_cont b2 = true ->
  let r := (b0 - 224) * 4096 + (b1 - 128) * 64 + (b2 - 128) in
  [c0; c1; c2] = encode_rune r /\ valid_rune r = true.
Proof.
  intros H0 [Hs Hc]%andb_true_iff r.
  assert (2048 <= r < 65536 /\ (r <= 55295 \/ 57344 <= r) /\ 128 <= b1 <= 191 /\ 128 <= b2 <= 191).
  { unfold second3, is_cont, in_range in *. unfold r.
    destruct (Z.eqb_spec b0 224); [|destruct (Z.eqb_spec b0 237)]; boolify; lia. }
  assert (valid_rune r = true) as Hv by (apply valid_rune_range; lia).
  split; [|done]. unfold encode_rune, encode_valid. rewrite Hv.
  rewrite (proj2 (Z.ltb_ge r 128)), (proj2 (Z.ltb_ge r 2048)), (proj2 (Z.ltb_lt r 65536)) by lia.
  replace (224 + r / 4096) with b0 by (unfold r; Z.div_mod_to_equations; lia).
  replace (128 + (r / 64) mod 64) with b1 by (unfold r; Z.div_mod_to_equations; lia).
  replace (128 + r mod 64) with b2 by (unfold r; Z.div_mod_to_equations; lia).
  unfold b0, b1, b2. by rewrite !byte_of_val.
Qed.

Lemma encode_four :
  in_range 240 244 b0 = true -> second4 b0 b1 && is_cont b2 && is_cont b3 = true ->
  let r := (b0 - 240) * 262144 + (b1 - 128) * 4096 + (b2 - 128) * 64 + (b3 - 128) in
  [c0; c1; c2; c3] = encode_rune r /\ valid_rune r = true.
Proof.
  intros H0 [[Hs Hc]%andb_true_iff Hd]%andb_true_iff r.
  assert (65536 <= r <= 1114111 /\ 128 <= b1 <= 191 /\ 128 <= b2 <= 191 /\ 128 <= b3 <= 191).
  { unfold second4, is_cont, in_range in *. unfold r.
    destruct (Z.eqb_spec b0 240); [|destruct (Z.eqb_spec b0 244)]; boolify; lia. }
  assert (valid_rune r = true) as Hv by (apply valid_rune_range; lia).
  split; [|done]. unfold encode_rune, encode_valid. rewrite Hv.
  rewrite (proj2 (Z.ltb_ge r 128)), (proj2 (Z.ltb_ge r 2048)), (proj2 (Z.ltb_ge r 65536)) by lia.
  replace (240 + r / 262144) with b0 by (unfold r; Z.div_mod_to_equations; lia).
  replace (128 + (r / 4096) mod 64) with b1 by (unfold r; Z.div_mod_to_equations; lia).
  replace (128 + (r / 64) mod 64) with b2 by (unfold r; Z.div_mod_to_equations; lia).
  replace (128 + r mod 64) with b3 by (unfold r; Z.div_mod_to_equations; lia).
  unfold b0, b1, b2, b3. by rewrite !byte_of_val.
Qed.
End Sequences.

(** A rune was read from its encoding, or from one byte that is part of none. *)
Lemma decode_rune_cases s r u rest :
  decode_rune s = Some (r, u, rest) ->
  (u = encode_rune r /\ valid_rune r = true) \/ (r = RuneError /\ length u = 1%nat).
Proof.
  destruct s as [|c0 s1]; [done|]. cbn [decode_rune]. pose proof (byte_val_range c0).
  destruct (Z.ltb_spec (byte_val c0) 128).
  { intros [= <- <- <-]. left. rewrite encode_ascii by done. split; [done|]. apply valid_rune_range. lia. }
  destruct (in_range 194 223 (byte_val c0)) eqn:E2.
  { destruct s1 as [|c1 s2]; [intros [= <- <- <-]; by right|].
    destruct (is_cont (byte_val c1)) eqn:Ec; intros [= <- <- <-]; [left; by apply encode_two|by right]. }
  destruct (in_range 224 239 (byte_val c0)) eqn:E3.
  { destruct s1 as [|c1 [|c2 s3]]; [intros [= <- <- <-]; by right..|].
    destruct (second3 _ _ && _) eqn:Ec; intros [= <- <- <-]; [left; by apply encode_three|by right]. }
  destruct (in_range 240 244 (byte_val c0)) eqn:E4; [|intros [= <- <- <-]; by right].
  destruct s1 as [|c1 [|c2 [|c3 s4]]]; [intros [= <- <- <-]; by right..|].
  destruct (second4 _ _ && _ && _) eqn:Ec; intros [= <- <- <-]; [left; by apply encode_four|by right].
Qed.

Lemma segs_cases s :
  Forall (fun '(r, u) => (u = encode_rune r /\ valid_rune r = true) \/ (r = RuneError /\ length u = 1%nat)) (segs s).
Proof.
  induction s as [|s r u rest E IH] using rune_ind; [constructor|].
  rewrite (segs_step _ _ _ _ E). constructor; [|exact IH]. by eapply decode_rune_cases.
Qed.
