(* ===== verification/GoStrings.v ===== *)
(** * The [strings], [strconv] and [unicode] functions the source calls

    Byte-level operations ([HasPrefix], [Index], [Cut], [Split], [Join]) and
    rune-level ones ([TrimSpace], [Fields], [FieldsFunc], [ToLower],
    [ToUpper], [EqualFold]).  The tables of the Unicode standard above
    U+007F are a parameter, the class [UnicodeTables]; white space is written
    out, since [unicode.IsSpace] is a short list. *)

From S2P Require Import Prelude Utf8.

(** ** Prefixes, suffixes and search *)

Definition has_prefix (p s : gostring) : bool := bool_decide (p = take (length p) s).

Definition has_suffix (p s : gostring) : bool := bool_decide (p = drop (length s - length p) s)
  && (length p <=? length s)%nat.

Definition trim_prefix (p s : gostring) : gostring :=
  if has_prefix p s then drop (length p) s else s.

Definition trim_suffix (p s : gostring) : gostring :=
  if has_suffix p s then take (length s - length p) s else s.

(** [strings.Index], with [None] for -1. *)
Fixpoint index (sub s : gostring) : option nat :=
  if has_prefix sub s then Some O
  else match s with
       | [] => None
       | _ :: s' => S <$> index sub s'
       end.

Definition contains (s sub : gostring) : bool :=
  match index sub s with Some _ => true | None => false end.

(** [strings.Cut] *)
Definition cut (s sep : gostring) : option (gostring * gostring) :=
  match index sep s with
  | Some i => Some (take i s, drop (i + length sep) s)
  | None => None
  end.

(** [strings.LastIndex(s, c)] for a one-byte [c]. *)
Fixpoint last_index_byte (c : ascii) (s : gostring) : option nat :=
  match s with
  | [] => None
  | d :: s' =>
      match last_index_byte c s' with
      | Some i => Some (S i)
      | None => if bool_decide (d = c) then Some O else None
      end
  end.

(** [strings.ContainsAny(s, chars)] for ASCII [chars]. *)
Definition contains_any (s chars : gostring) : bool :=
  existsb (fun c => bool_decide (c ∈ chars)) s.

(** [strings.Split(s, sep)] for a non-empty [sep]; every step removes one
    separator, so the length of [s] bounds the number of steps. *)
Fixpoint split_fuel (fuel : nat) (s sep : gostring) : list gostring :=
  match fuel with
  | O => [s]
  | S fuel =>
      match cut s sep with
      | Some (a, b) => a :: split_fuel fuel b sep
      | None => [s]
      end
  end.

Definition split (s sep : gostring) : list gostring := split_fuel (length s) s sep.

Fixpoint join (parts : list gostring) (sep : gostring) : gostring :=
  match parts with
  | [] => []
  | [p] => p
  | p :: ps => p ++ sep ++ join ps sep
  end.

(** ** White space and fields *)

(** [unicode.IsSpace] *)
Definition is_space (r : Z) : bool :=
  in_range 9 13 r || (r =? 32)%Z || (r =? 133)%Z || (r =? 160)%Z || (r =? 5760)%Z
  || in_range 8192 8202 r || (r =? 8232)%Z || (r =? 8233)%Z || (r =? 8239)%Z
  || (r =? 8287)%Z || (r =? 12288)%Z.

Fixpoint drop_while {A} (p : A -> bool) (l : list A) : list A :=
  match l with
  | [] => []
  | x :: l' => if p x then drop_while p l' else l
  end.

Definition seg_bytes (l : list (Z * gostring)) : gostring := concat l.*2.

(** [strings.TrimFunc(s, f)] and [strings.TrimSpace] *)
Definition trim_func (f : Z -> bool) (s : gostring) : gostring :=
  let p := fun '(r, _) => f r in
  seg_bytes (rev (drop_while p (rev (drop_while p (segs s))))).

Definition trim_space (s : gostring) : gostring := trim_func is_space s.

(** [strings.FieldsFunc(s, f)]: [cur] is the field being read. *)
Fixpoint fields_segs (f : Z -> bool) (l : list (Z * gostring)) (cur : gostring) : list gostring :=
  match l with
  | [] => if bool_decide (cur = []) then [] else [cur]
  | (r, u) :: l' =>
      if f r then
        if bool_decide (cur = []) then fields_segs f l' [] else cur :: fields_segs f l' []
      else fields_segs f l' (cur ++ u)
  end.

Definition fields_func (f : Z -> bool) (s : gostring) : list gostring := fields_segs f (segs s) [].

Definition fields (s : gostring) : list gostring := fields_func is_space s.

(** ** Case *)

(** The Unicode tables above U+007F.  [simple_fold_eq] is the relation
    [strings.EqualFold] walks with [unicode.SimpleFold]. *)
Class UnicodeTables := {
  lower_table : Z -> Z;
  upper_table : Z -> Z;
  simple_fold_eq : Z -> Z -> bool;
  simple_fold_refl : forall r, simple_fold_eq r r = true;
  (** [strconv.IsPrint] *)
  print_table : Z -> bool;
}.

(** The tables a deployment with ASCII-only data cannot tell from the full
    ones; used to evaluate the definitions on concrete inputs. *)
Definition ascii_tables : UnicodeTables :=
  {| lower_table r := r; upper_table r := r; simple_fold_eq := Z.eqb;
     simple_fold_refl := Z.eqb_refl; print_table _ := true |}.

Section Case.
Context `{UnicodeTables}.

(** [unicode.ToLower], [unicode.ToUpper] *)
Definition lower_rune (r : Z) : Z :=
  if (r <=? 127)%Z then (if in_range 65 90 r then r + 32 else r)%Z else lower_table r.

Definition upper_rune (r : Z) : Z :=
  if (r <=? 127)%Z then (if in_range 97 122 r then r - 32 else r)%Z else upper_table r.

(** [strings.ToLower], [strings.ToUpper]: an invalid byte becomes U+FFFD. *)
Definition to_lower (s : gostring) : gostring := encode_runes (lower_rune <$> runes s).

Definition to_upper (s : gostring) : gostring := encode_runes (upper_rune <$> runes s).

Definition fold_eq_rune (a b : Z) : bool :=
  if ((a <=? 127) && (b <=? 127))%Z then (lower_rune a =? lower_rune b)%Z else simple_fold_eq a b.

(** [strings.EqualFold] *)
Fixpoint equal_fold_runes (a b : list Z) : bool :=
  match a, b with
  | [], [] => true
  | x :: a', y :: b' => fold_eq_rune x y && equal_fold_runes a' b'
  | _, _ => false
  end.

Definition equal_fold (a b : gostring) : bool := equal_fold_runes (runes a) (runes b).

End Case.

(** On ASCII text the case functions work byte by byte. *)
Lemma to_lower_ascii `{UnicodeTables} s :
  is_ascii s = true -> to_lower s = (fun c => byte_of (lower_rune (byte_val c))) <$> s.
Proof.
  unfold to_lower. intros Hs. rewrite runes_ascii by done.
  induction s as [|c s IH]; [done|]. apply is_ascii_cons in Hs as [Hc Hs]. pose proof (byte_val_range c).
  assert (0 <= lower_rune (byte_val c) < 128)%Z as Hr
    by (unfold lower_rune, in_range; repeat case_match; boolify; lia).
  rewrite !fmap_cons. rewrite encode_runes_cons.
  rewrite IH by done. rewrite <- (byte_val_of (lower_rune (byte_val c))) at 1 by lia.
  rewrite encode_ascii by (rewrite byte_val_of; lia). done.
Qed.

Lemma to_upper_ascii `{UnicodeTables} s :
  is_ascii s = true -> to_upper s = (fun c => byte_of (upper_rune (byte_val c))) <$> s.
Proof.
  unfold to_upper. intros Hs. rewrite runes_ascii by done.
  induction s as [|c s IH]; [done|]. apply is_ascii_cons in Hs as [Hc Hs]. pose proof (byte_val_range c).
  assert (0 <= upper_rune (byte_val c) < 128)%Z as Hr
    by (unfold upper_rune, in_range; repeat case_match; boolify; lia).
  rewrite !fmap_cons. rewrite encode_runes_cons.
  rewrite IH by done. rewrite <- (byte_val_of (upper_rune (byte_val c))) at 1 by lia.
  rewrite encode_ascii by (rewrite byte_val_of; lia). done.
Qed.

(** ** Decimal numbers *)

Definition digit_char (d : Z) : ascii := byte_of (48 + d).

Definition is_digit (c : ascii) : bool := in_range 48 57 (byte_val c).

Fixpoint digits_fuel (fuel : nat) (n : Z) (acc : gostring) : gostring :=
  match fuel with
  | O => acc
  | S fuel =>
      let acc := digit_char (n mod 10) :: acc in
      if (n / 10 =? 0)%Z then acc else digits_fuel fuel (n / 10) acc
  end.

(** [%d]: the number of digits never exceeds the number of bits. *)
Definition format_int (n : Z) : gostring :=
  if (n <? 0)%Z then "-"%char :: digits_fuel (S (Z.to_nat (Z.log2 (- n)))) (- n) []
  else digits_fuel (S (Z.to_nat (Z.log2 n))) n [].

(** The value of a string of decimal digits. *)
Definition digits_val (s : gostring) : Z :=
  fold_left (fun n c => n * 10 + (byte_val c - 48))%Z s 0%Z.

Definition max_int64 : Z := 9223372036854775807.
Definition min_int64 : Z := -9223372036854775808.

(** The value an [int64] operation leaves of a result out of range. *)
Definition wrap_int64 (n : Z) : Z := (n - min_int64) mod 2 ^ 64 + min_int64.

(** [strconv.ParseInt(s, 10, 64)] and [strconv.Atoi] on a 64-bit platform. *)
Definition parse_int (s : gostring) : option Z :=
  let '(neg, body) :=
    match s with
    | c :: s' => if bool_decide (c = "-"%char) then (true, s')
                 else if bool_decide (c = "+"%char) then (false, s') else (false, s)
    | [] => (false, [])
    end in
  if bool_decide (body = []) || negb (forallb is_digit body) then None
  else
    let v := if (neg : bool) then (- digits_val body)%Z else digits_val body in
    if ((min_int64 <=? v) && (v <=? max_int64))%Z then Some v else None.

(** ** Lemmas: search *)

Lemma has_prefix_spec p s : has_prefix p s = true <-> p `prefix_of` s.
Proof.
  unfold has_prefix. rewrite bool_decide_eq_true. split.
  - intros E. exists (drop (length p) s). rewrite E at 1. by rewrite take_drop.
  - intros [k ->]. by rewrite take_app_length.
Qed.

Lemma has_prefix_app p s : has_prefix p (p ++ s) = true.
Proof. apply has_prefix_spec. by exists s. Qed.

Lemma trim_prefix_app p s : trim_prefix p (p ++ s) = s.
Proof. unfold trim_prefix. by rewrite has_prefix_app, drop_app_length. Qed.

(** [index] finds the leftmost occurrence, and fails only when there is none. *)
Lemma index_Some sub s i :
  index sub s = Some i <->
  take i s ++ sub ++ drop (i + length sub) s = s
  /\ (i <= length s)%nat
  /\ forall j, (j < i)%nat -> ~ sub `prefix_of` drop j s.
Proof.
  revert i. induction s as [|c s IH]; intros i; cbn [index].
  - destruct (has_prefix sub []) eqn:E.
    + apply has_prefix_spec in E as [k Hk]. symmetry in Hk.
      apply app_eq_nil in Hk as [-> ->]. cbn.
      split; [intros [= <-]; repeat split; [lia|intros; lia]|].
      intros (_ & Hi & _). destruct i; [done|lia].
    + split; [done|]. intros (Hs & _ & _). destruct i; cbn in Hs;
        (apply app_eq_nil in Hs as [-> _]; done).
  - destruct (has_prefix sub (c :: s)) eqn:E.
    + apply has_prefix_spec in E as Hp. split.
      * intros [= <-]. cbn. repeat split; [|lia|intros; lia].
        destruct Hp as [k ->]. by rewrite drop_app_length.
      * intros (_ & _ & Hmin). destruct i; [done|]. destruct (Hmin O); [lia|done].
    + assert (~ sub `prefix_of` c :: s) as Hn by (intros Hp%has_prefix_spec; congruence).
      destruct i as [|i].
      * split; [by destruct (index sub s)|]. intros (Hs & _ & _). cbn in Hs.
        destruct Hn. rewrite <- Hs. by apply prefix_app_r.
      * specialize (IH i). split.
        -- intros Hi. destruct (index sub s) as [k|] eqn:Ek; [|done].
           injection Hi as ->. destruct (proj1 IH eq_refl) as (H1 & H2 & H3).
           cbn. rewrite H1. repeat split; [lia|].
           intros [|j] Hj; [done|]. cbn. apply H3. lia.
        -- intros (H1 & H2 & H3). rewrite (proj2 IH); [done|].
           cbn in H1, H2. injection H1 as H1. repeat split; [done|lia|].
           intros j Hj. apply (H3 (S j)). lia.
Qed.

Lemma index_drop sub s i :
  index sub s = Some i -> drop i s = sub ++ drop (i + length sub) s.
Proof.
  intros (E & _ & _)%index_Some. rewrite <- (take_drop i s) in E at 3. by apply app_inv_head in E.
Qed.

Lemma index_None sub s : index sub s = None <-> forall a b, s <> a ++ sub ++ b.
Proof.
  induction s as [|c s IH]; cbn [index].
  - destruct (has_prefix sub []) eqn:E.
    + apply has_prefix_spec in E as [k Hk]. split; [done|].
      intros Hn. by destruct (Hn [] k).
    + split; [|done]. intros _ a b Hs. symmetry in Hs.
      apply app_eq_nil in Hs as [-> [-> ->]%app_eq_nil]. done.
  - destruct (has_prefix sub (c :: s)) eqn:E.
    + apply has_prefix_spec in E as [k Hk]. split; [done|].
      intros Hn. by destruct (Hn [] k).
    + split.
      * intros Hi [|d a] b Hs.
        -- cbn in Hs. rewrite Hs, has_prefix_app in E. done.
        -- injection Hs as -> Hs. destruct (index sub s) eqn:Ei; [done|].
           by eapply (proj1 IH eq_refl).
      * intros Hn. rewrite (proj2 IH); [done|].
        intros a b ->. by apply (Hn (c :: a) b).
Qed.

Lemma contains_spec s sub : contains s sub = true <-> exists a b, s = a ++ sub ++ b.
Proof.
  unfold contains. destruct (index sub s) as [i|] eqn:E.
  - split; [|done]. intros _. apply index_Some in E as (E & _ & _). eauto.
  - split; [done|]. intros (a & b & Hs). by eapply index_None in E.
Qed.

(** [Cut] splits at the leftmost separator. *)
Lemma cut_Some s sep a b :
  cut s sep = Some (a, b) ->
  s = a ++ sep ++ b /\ forall j, (j < length a)%nat -> ~ sep `prefix_of` drop j s.
Proof.
  unfold cut. destruct (index sep s) as [i|] eqn:E; [|done].
  intros [= <- <-]. apply index_Some in E as (E & Hi & Hmin).
  split; [done|]. rewrite length_take_le by done. done.
Qed.

Lemma cut_None s sep : cut s sep = None <-> forall a b, s <> a ++ sep ++ b.
Proof.
  unfold cut. rewrite <- index_None. by destruct (index sep s).
Qed.

(** A separator of one byte is found where it first occurs. *)
Lemma index_byte_app c a b : c ∉ a -> index [c] (a ++ c :: b) = Some (length a).
Proof.
  intros Ha. apply index_Some. rewrite take_app_length, <- drop_drop, drop_app_length.
  cbn. rewrite drop_0, length_app. cbn. repeat split; [lia|].
  intros j Hj [k Hk]. rewrite drop_app_le in Hk by lia.
  destruct (drop j a) as [|d a'] eqn:Ed.
  - apply (f_equal length) in Ed. rewrite length_drop in Ed. cbn in Ed. lia.
  - cbn in Hk. injection Hk as -> _. destruct Ha.
    apply list_elem_of_lookup. exists j.
    rewrite <- (Nat.add_0_r j), <- lookup_drop, Ed. done.
Qed.

Lemma cut_byte_app c a b : c ∉ a -> cut (a ++ c :: b) [c] = Some (a, b).
Proof.
  intros Ha. unfold cut. rewrite index_byte_app by done.
  rewrite take_app_length, <- drop_drop, drop_app_length. done.
Qed.

(** A separator of two bytes, the first of which does not occur before it. *)
Lemma cut_pair c d a b : c ∉ a -> cut (a ++ [c; d] ++ b) [c; d] = Some (a, b).
Proof.
  intros Hc. unfold cut.
  assert (index [c; d] (a ++ [c; d] ++ b) = Some (length a)) as ->.
  { induction a as [|x a IH].
    { assert (has_prefix [c; d] ([c; d] ++ b) = true) as E by apply has_prefix_app.
      cbn [app index length] in *. by rewrite E. }
    apply not_elem_of_cons in Hc as [Hx Hc].
    change (index [c; d] ((x :: a) ++ [c; d] ++ b)) with
      (if has_prefix [c; d] (x :: a ++ [c; d] ++ b) then Some 0%nat else S <$> index [c; d] (a ++ [c; d] ++ b)).
    rewrite IH by done. destruct (has_prefix [c; d] (x :: a ++ [c; d] ++ b)) eqn:E; [|done].
    apply has_prefix_spec in E as [k E]. exfalso. apply Hx. by injection E. }
  rewrite take_app_length. do 2 f_equal. rewrite app_assoc.
  replace (length a + length [c; d])%nat with (length (a ++ [c; d])) by (by rewrite length_app).
  by rewrite drop_app_length.
Qed.

Lemma index_byte_None c s : c ∉ s -> index [c] s = None.
Proof.
  intros Hs. apply index_None. intros a b ->. destruct Hs. set_solver.
Qed.

(** ** Lemmas: split and join *)

Lemma split_fuel_enough sep n m s :
  sep <> [] -> (length s <= n)%nat -> (length s <= m)%nat ->
  split_fuel n s sep = split_fuel m s sep.
Proof.
  intros Hsep. revert m s. induction n as [|n IH]; intros m s Hn Hm.
  - destruct s; [|simpl in *; lia]. destruct m; [done|]. cbn.
    destruct (cut [] sep) as [[a b]|] eqn:E; [|done].
    apply cut_Some in E as [E _]. by destruct a, sep.
  - destruct m as [|m].
    + destruct s; [|simpl in *; lia]. cbn.
      destruct (cut [] sep) as [[a b]|] eqn:E; [|done].
      apply cut_Some in E as [E _]. by destruct a, sep.
    + cbn. destruct (cut s sep) as [[a b]|] eqn:E; [|done].
      apply cut_Some in E as [-> _]. f_equal.
      apply IH; rewrite !length_app in *; destruct sep; cbn in *; (lia || done).
Qed.

Lemma split_nil_step s sep :
  sep <> [] ->
  split s sep = match cut s sep with Some (a, b) => a :: split b sep | None => [s] end.
Proof.
  intros Hsep. unfold split. destruct s as [|c s].
  - cbn. destruct (cut [] sep) as [[a b]|] eqn:E; [|done].
    apply cut_Some in E as [E _]. by destruct a, sep.
  - cbn [length split_fuel]. destruct (cut (c :: s) sep) as [[a b]|] eqn:E; [|done].
    apply cut_Some in E as [E _]. f_equal. apply split_fuel_enough; [done| |lia].
    apply (f_equal length) in E. rewrite !length_app in E. destruct sep; cbn in *; (done || lia).
Qed.

(** Splitting loses nothing. *)
Lemma join_split s sep : sep <> [] -> join (split s sep) sep = s.
Proof.
  intros Hsep. induction s as [s IH] using list_len_ind.
  rewrite split_nil_step by done. destruct (cut s sep) as [[a b]|] eqn:E; [|done].
  apply cut_Some in E as [-> _]. specialize (IH b).
  destruct (split b sep) as [|x xs] eqn:Ex.
  - rewrite split_nil_step in Ex by done. by destruct (cut b sep) as [[]|].
  - cbn [join]. cbn [join] in IH. rewrite IH; [done|].
    rewrite !length_app. destruct sep; cbn; (done || lia).
Qed.

Lemma split_byte_app c a b : c ∉ a -> split (a ++ c :: b) [c] = a :: split b [c].
Proof. intros Ha. rewrite split_nil_step by done. by rewrite cut_byte_app. Qed.

Lemma split_byte_single c s : c ∉ s -> split s [c] = [s].
Proof.
  intros Hs. rewrite split_nil_step by done. unfold cut. by rewrite index_byte_None.
Qed.

(** ** Lemmas: decimal numbers *)

Lemma digits_val_snoc s c : digits_val (s ++ [c]) = (digits_val s * 10 + (byte_val c - 48))%Z.
Proof. unfold digits_val. by rewrite fold_left_app. Qed.

Lemma is_digit_char d : (0 <= d < 10)%Z -> is_digit (digit_char d) = true.
Proof.
  intros Hd. unfold is_digit, digit_char, in_range. rewrite byte_val_of by lia. boolify. lia.
Qed.

Lemma digit_char_val d : (0 <= d < 10)%Z -> (byte_val (digit_char d) - 48 = d)%Z.
Proof. intros. unfold digit_char. rewrite byte_val_of; lia. Qed.

(** The digit loop is a prefix of digits in front of the accumulator. *)
Lemma digits_fuel_app fuel n acc :
  exists ds, digits_fuel fuel n acc = ds ++ acc
             /\ digits_fuel fuel n [] = ds.
Proof.
  revert n acc. induction fuel as [|fuel IH]; intros n acc; [by exists []|].
  cbn. case_match; [by exists [digit_char (n mod 10)]|].
  destruct (IH (n / 10)%Z (digit_char (n mod 10) :: acc)) as (ds & E1 & E2).
  destruct (IH (n / 10)%Z [digit_char (n mod 10)]) as (ds' & E1' & E2').
  exists (ds ++ [digit_char (n mod 10)]). rewrite E1, E1', <- app_assoc.
  by rewrite <- E2', E2.
Qed.

Lemma digits_fuel_spec fuel n :
  (0 <= n < 10 ^ Z.of_nat fuel)%Z -> fuel <> O ->
  let ds := digits_fuel fuel n [] in
  ds <> [] /\ forallb is_digit ds = true /\ digits_val ds = n.
Proof.
  revert n. induction fuel as [|fuel IH]; intros n Hn Hf; [done|]. cbn zeta.
  pose proof (Z.mod_pos_bound n 10 ltac:(lia)) as Hmod.
  cbn [digits_fuel]. destruct (Z.eqb_spec (n / 10) 0) as [Hz|Hz].
  - repeat split; [done|cbn; by rewrite is_digit_char|].
    unfold digits_val. cbn. rewrite digit_char_val by lia.
    Z.div_mod_to_equations. lia.
  - destruct (digits_fuel_app fuel (n / 10) [digit_char (n mod 10)]) as (ds & -> & E).
    assert (0 <= n / 10 < 10 ^ Z.of_nat fuel)%Z as Hd.
    { rewrite Nat2Z.inj_succ, Z.pow_succ_r in Hn by lia. split.
      - apply Z.div_pos; lia.
      - apply Z.div_lt_upper_bound; lia. }
    destruct fuel as [|fuel']; [rewrite Z.pow_0_r in Hd; lia|].
    destruct (IH _ Hd) as (H1 & H2 & H3); [done|]. rewrite E in H1, H2, H3.
    repeat split.
    + by destruct ds.
    + rewrite List.forallb_app, H2. cbn. by rewrite is_digit_char.
    + rewrite digits_val_snoc, H3, digit_char_val by lia. Z.div_mod_to_equations. lia.
Qed.

Lemma pow10_log2 n : (0 <= n)%Z -> (n < 10 ^ Z.of_nat (S (Z.to_nat (Z.log2 n))))%Z.
Proof.
  intros Hn. rewrite Nat2Z.inj_succ, Z2Nat.id by apply Z.log2_nonneg.
  destruct (decide (n = 0)%Z) as [->|]; [done|].
  apply Z.lt_le_trans with (2 ^ Z.succ (Z.log2 n))%Z.
  - apply Z.log2_spec. lia.
  - apply Z.pow_le_mono_l. pose proof (Z.log2_nonneg n). lia.
Qed.

Lemma format_int_digits n :
  (0 <= n)%Z ->
  format_int n <> [] /\ forallb is_digit (format_int n) = true /\ digits_val (format_int n) = n.
Proof.
  intros Hn. unfold format_int. rewrite (proj2 (Z.ltb_ge _ _)) by lia.
  apply digits_fuel_spec; [|done]. split; [done|by apply pow10_log2].
Qed.

Lemma is_digit_not_sign c : is_digit c = true -> c <> "-"%char /\ c <> "+"%char.
Proof. intros Hc. split; intros ->; done. Qed.

(** [ParseInt] reads back what [%d] printed, over the whole int64 range. *)
Lemma parse_format_int n :
  (min_int64 <= n <= max_int64)%Z -> parse_int (format_int n) = Some n.
Proof.
  intros Hn. destruct (Z.ltb_spec n 0) as [Hneg|Hpos].
  - assert (format_int n = "-"%char :: format_int (- n)) as ->.
    { unfold format_int. rewrite (proj2 (Z.ltb_lt n 0)), (proj2 (Z.ltb_ge (- n) 0)) by lia. done. }
    destruct (format_int_digits (- n)) as (H1 & H2 & H3); [lia|].
    unfold parse_int. rewrite bool_decide_eq_true_2 by done.
    rewrite bool_decide_eq_false_2, H2, H3 by done. cbn.
    rewrite Z.opp_involutive. by rewrite (proj2 (Z.leb_le _ _)), (proj2 (Z.leb_le _ _)) by lia.
  - destruct (format_int_digits n) as (H1 & H2 & H3); [lia|].
    unfold parse_int. destruct (format_int n) as [|c s] eqn:E; [done|].
    cbn in H2. apply andb_true_iff in H2 as [Hc Hs].
    destruct (is_digit_not_sign c Hc).
    rewrite !bool_decide_eq_false_2 by done. cbn [orb].
    cbn [forallb]. rewrite Hc, Hs, H3. cbn.
    by rewrite (proj2 (Z.leb_le _ _)), (proj2 (Z.leb_le _ _)) by lia.
Qed.

(** ** Lemmas: rune-level functions *)

Lemma equal_fold_refl `{UnicodeTables} s : equal_fold s s = true.
Proof.
  unfold equal_fold. induction (runes s) as [|r rs IH]; [done|]. cbn. rewrite IH, andb_true_r.
  unfold fold_eq_rune. case_match; [apply Z.eqb_refl|apply simple_fold_refl].
Qed.

Lemma to_lower_valid `{UnicodeTables} s : valid_utf8 (to_lower s) = true.
Proof. apply valid_utf8_encode_runes. Qed.

(** Trimming, splitting into fields and joining only rearrange bytes. *)
Lemma drop_while_suffix {A} (p : A -> bool) l : exists k, l = k ++ drop_while p l.
Proof.
  induction l as [|x l [k IH]]; [by exists []|]. cbn. destruct (p x); [|by exists []].
  exists (x :: k). cbn. by f_equal.
Qed.

Lemma elem_of_seg_bytes c l : c ∈ seg_bytes l <-> exists r u, (r, u) ∈ l /\ c ∈ u.
Proof.
  induction l as [|[r u] l IH].
  - split; [by intros ?%elem_of_nil|]. by intros (? & ? & ?%elem_of_nil & _).
  - unfold seg_bytes in *. cbn. rewrite elem_of_app, IH. split.
    + intros [Hc|(r' & u' & ? & ?)]; [exists r, u; split; [left|done]|exists r', u'; split; [by right|done]].
    + intros (r' & u' & [[= -> ->]|Hin]%elem_of_cons & Hc); [by left|right; by exists r', u'].
Qed.

Lemma elem_of_trim_func c f s : c ∈ trim_func f s -> c ∈ s.
Proof.
  unfold trim_func. rewrite elem_of_seg_bytes. intros (r & u & Hin & Hc).
  rewrite <- (segs_concat s). change (c ∈ seg_bytes (segs s)). rewrite elem_of_seg_bytes.
  exists r, u. split; [|done]. set (p := fun '(r, _) => f r) in Hin.
  destruct (drop_while_suffix p (segs s)) as [k1 ->].
  destruct (drop_while_suffix p (rev (drop_while p (segs s)))) as [k2 E].
  apply elem_of_app. right. rewrite <- (rev_involutive (drop_while p (segs s))), E.
  rewrite rev_app_distr. apply elem_of_app. by left.
Qed.

Lemma elem_of_fields_segs c f l cur w :
  w ∈ fields_segs f l cur -> c ∈ w -> c ∈ cur \/ c ∈ seg_bytes l.
Proof.
  revert cur; induction l as [|[r u] l IH]; intros cur; cbn.
  - case_bool_decide; [by intros ?%elem_of_nil|]. intros ->%list_elem_of_singleton. by left.
  - unfold seg_bytes. cbn. destruct (f r).
    + case_bool_decide.
      * intros Hw Hc. destruct (IH _ Hw Hc); [by left; subst|]. right. apply elem_of_app. by right.
      * intros [->|Hw]%elem_of_cons Hc; [by left|]. destruct (IH _ Hw Hc) as [Hn|Hin]; [by apply elem_of_nil in Hn|].
        right. apply elem_of_app. by right.
    + intros Hw Hc. destruct (IH _ Hw Hc) as [Hin|Hin].
      * apply elem_of_app in Hin as [?|?]; [by left|]. right. apply elem_of_app. by left.
      * right. apply elem_of_app. by right.
Qed.

Lemma elem_of_fields c s w : w ∈ fields s -> c ∈ w -> c ∈ s.
Proof.
  intros Hw Hc. destruct (elem_of_fields_segs _ _ _ _ _ Hw Hc) as [Hn|Hin]; [by apply elem_of_nil in Hn|].
  unfold seg_bytes in Hin. by rewrite segs_concat in Hin.
Qed.

Lemma elem_of_join c ws sep : c ∈ join ws sep -> c ∈ sep \/ exists w, w ∈ ws /\ c ∈ w.
Proof.
  induction ws as [|w [|w' ws] IH]; [by intros ?%elem_of_nil|..].
  - intros Hc. right. exists w. split; [left|done].
  - change (join (w :: w' :: ws) sep) with (w ++ sep ++ join (w' :: ws) sep).
    rewrite !elem_of_app. intros [Hc|[Hc|Hc]]; [|by left|].
    + right. exists w. split; [left|done].
    + destruct (IH Hc) as [?|(v & Hv & ?)]; [by left|]. right. exists v. split; [by right|done].
Qed.

#[export] Hint Resolve has_prefix_app to_lower_valid equal_fold_refl : golib.

Lemma drop_while_none {A} (p : A -> bool) l : Forall (fun x => p x = false) l -> drop_while p l = l.
Proof. by destruct 1 as [|x l E]; cbn; [|rewrite E]. Qed.

(** Text without white space is what trimming leaves of it. *)
Lemma trim_space_plain s :
  is_ascii s = true -> forallb (fun c => negb (is_space (byte_val c))) s = true -> trim_space s = s.
Proof.
  intros Ha Hs. unfold trim_space, trim_func.
  assert (Forall (fun x : Z * gostring => (let '(r, _) := x in is_space r) = false) (segs s)) as Hf.
  { induction s as [|c s IH]; [constructor|]. apply is_ascii_cons in Ha as [Hc Ha].
    cbn in Hs. apply andb_true_iff in Hs as [Hc' Hs]. rewrite segs_cons_ascii by done.
    constructor; [by apply negb_true_iff in Hc'|auto]. }
  rewrite (drop_while_none _ (segs s)) by done.
  rewrite (drop_while_none _ (rev (segs s))), rev_involutive by by apply Forall_rev. apply segs_concat.
Qed.

(** ** Trimming and lower-casing twice *)

(** What the Unicode tables promise of lower case: it is itself in lower case, and
    neither makes white space nor removes it. *)
Class LowerLaws `{UnicodeTables} := {
  lower_twice : forall r, lower_rune (lower_rune r) = lower_rune r;
  lower_valid : forall r, valid_rune r = true -> valid_rune (lower_rune r) = true;
  lower_space : forall r, valid_rune r = true -> is_space (lower_rune r) = is_space r;
}.

Definition trim_list {A} (p : A -> bool) (l : list A) : list A := rev (drop_while p (rev (drop_while p l))).

Lemma drop_while_fmap {A B} (p : B -> bool) (f : A -> B) l :
  drop_while p (f <$> l) = f <$> drop_while (fun x => p (f x)) l.
Proof. induction l as [|x l IH]; [done|]. cbn. by destruct (p (f x)). Qed.

Lemma trim_list_fmap {A B} (p : B -> bool) (f : A -> B) l : trim_list p (f <$> l) = f <$> trim_list (fun x => p (f x)) l.
Proof. unfold trim_list. by rewrite drop_while_fmap, <- map_rev, drop_while_fmap, <- map_rev. Qed.

Lemma drop_while_ext {A} (p q : A -> bool) l : Forall (fun x => p x = q x) l -> drop_while p l = drop_while q l.
Proof. induction 1 as [|x l E _ IH]; [done|]. cbn. rewrite E, IH. done. Qed.

Lemma drop_while_sub {A} (P : A -> Prop) (p : A -> bool) l : Forall P l -> Forall P (drop_while p l).
Proof. intros Hl. destruct (drop_while_suffix p l) as [k E]. rewrite E in Hl. by apply Forall_app in Hl as [_ ?]. Qed.

Lemma trim_list_ext {A} (p q : A -> bool) l : Forall (fun x => p x = q x) l -> trim_list p l = trim_list q l.
Proof.
  intros Hl. unfold trim_list. rewrite (drop_while_ext p q l) by done.
  rewrite (drop_while_ext p q); [done|]. by apply Forall_rev, drop_while_sub.
Qed.

Lemma trim_list_sub {A} (P : A -> Prop) (p : A -> bool) l : Forall P l -> Forall P (trim_list p l).
Proof. intros Hl. by apply Forall_rev, drop_while_sub, Forall_rev, drop_while_sub. Qed.

Lemma drop_while_head {A} (p : A -> bool) l x rest : drop_while p l = x :: rest -> p x = false.
Proof. induction l as [|y l IH]; [done|]. cbn. destruct (p y) eqn:E; [done|]. by intros [= <- _]. Qed.

Lemma trim_list_twice {A} (p : A -> bool) l : trim_list p (trim_list p l) = trim_list p l.
Proof.
  unfold trim_list. set (a := drop_while p l). set (b := drop_while p (rev a)).
  destruct (drop_while_suffix p (rev a)) as [k Ek]. fold b in Ek.
  assert (a = rev b ++ rev k) as Ea by (by rewrite <- rev_app_distr, <- Ek, rev_involutive).
  assert (drop_while p (rev b) = rev b) as ->.
  { destruct (rev b) as [|x rest] eqn:Eb; [done|]. cbn.
    destruct a as [|y a'] eqn:Ey; [done|]. injection Ea as -> _. by rewrite (drop_while_head p l x a'). }
  rewrite rev_involutive. assert (drop_while p b = b) as Eb2; [|by rewrite Eb2].
  destruct b as [|x rest] eqn:Eb; [done|]. cbn. by rewrite (drop_while_head p (rev a) x rest).
Qed.

Lemma trim_space_encode rs : Forall (fun r => valid_rune r = true) rs ->
  trim_space (encode_runes rs) = encode_runes (trim_list is_space rs).
Proof.
  intros Hv. unfold trim_space, trim_func. rewrite segs_encode_runes.
  rewrite (list_fmap_ext _ (fun r => (r, encode_rune r))).
  2:{ intros i r Hr. rewrite scalar_id; [done|]. exact (Forall_lookup_1 _ _ _ _ Hv Hr). }
  fold (trim_list (fun '(r, _) => is_space r) ((fun r => (r, encode_rune r)) <$> rs)).
  rewrite trim_list_fmap. unfold seg_bytes, encode_runes. rewrite <- list_fmap_compose. cbn.
  induction (trim_list is_space rs) as [|r l IH]; [done|]. cbn. by rewrite IH.
Qed.

Lemma to_lower_encode `{UnicodeTables} rs : Forall (fun r => valid_rune r = true) rs ->
  to_lower (encode_runes rs) = encode_runes (lower_rune <$> rs).
Proof.
  intros Hv. unfold to_lower. rewrite runes_encode_runes, <- list_fmap_compose. f_equal.
  apply list_fmap_ext. intros i r Hr. cbn. rewrite scalar_id; [done|]. exact (Forall_lookup_1 _ _ _ _ Hv Hr).
Qed.

(** An address in normal form is its own normal form. *)
Lemma lower_trim_twice `{UnicodeTables} `{!LowerLaws} s : valid_utf8 s = true ->
  let normal := to_lower (trim_space s) in to_lower (trim_space normal) = normal.
Proof.
  intros Hs. cbn zeta. rewrite <- (valid_utf8_encode s Hs).
  assert (Forall (fun r => valid_rune r = true) (runes s)) as Hv.
  { rewrite <- (valid_utf8_encode s Hs), runes_encode_runes. apply Forall_fmap, Forall_true. intros r. apply scalar_valid. }
  pose proof (trim_list_sub _ is_space _ Hv) as Ht.
  assert (Forall (fun r => valid_rune r = true) (lower_rune <$> trim_list is_space (runes s))) as Hl
    by (apply Forall_fmap; eapply list.Forall_impl; [exact Ht|]; apply lower_valid).
  rewrite trim_space_encode, to_lower_encode, trim_space_encode, trim_list_fmap by done.
  rewrite (trim_list_ext _ is_space), trim_list_twice.
  2:{ eapply list.Forall_impl; [exact Ht|]. apply lower_space. }
  rewrite to_lower_encode by done. f_equal. rewrite <- list_fmap_compose. apply list_fmap_ext.
  intros i r _. apply lower_twice.
Qed.

#[global] Instance ascii_lower_laws : LowerLaws (H := ascii_tables).
Proof.
  split; intros r; unfold lower_rune, lower_table, ascii_tables; [|intros Hv%valid_rune_range..].
  - destruct (Z.leb_spec r 127); [|by rewrite (proj2 (Z.leb_gt _ _)) by lia].
    unfold in_range. repeat (case_match; boolify); try lia; done.
  - apply valid_rune_range. unfold in_range. repeat (case_match; boolify); lia.
  - destruct (Z.leb_spec r 127); [|done]. destruct (in_range 65 90 r) eqn:E; [|done].
    unfold is_space, in_range in *. apply eq_true_iff_eq. boolify. lia.
Qed.
