(* ===== verification/Sha256.v ===== *)
(** * crypto/sha256 and crypto/hmac, as FIPS 180-4 and RFC 2104 define them

    The source hashes API keys, recipient addresses and request bodies, and
    signs unsubscribe links and webhooks.  The functions are executable, so the
    definitions that use them evaluate on concrete inputs. *)

From S2P Require Import Prelude.

Local Open Scope Z_scope.

Definition w32 : Z := 4294967296.

Definition add32 (x y : Z) : Z := (x + y) mod w32.

Definition rotr (n x : Z) : Z :=
  Z.lor (Z.shiftr x n) (Z.land (Z.shiftl x (32 - n)) (w32 - 1)).

Definition big_sigma0 (x : Z) : Z := Z.lxor (rotr 2 x) (Z.lxor (rotr 13 x) (rotr 22 x)).
Definition big_sigma1 (x : Z) : Z := Z.lxor (rotr 6 x) (Z.lxor (rotr 11 x) (rotr 25 x)).
Definition small_sigma0 (x : Z) : Z := Z.lxor (rotr 7 x) (Z.lxor (rotr 18 x) (Z.shiftr x 3)).
Definition small_sigma1 (x : Z) : Z := Z.lxor (rotr 17 x) (Z.lxor (rotr 19 x) (Z.shiftr x 10)).

Definition choose (x y z : Z) : Z := Z.lxor (Z.land x y) (Z.land (w32 - 1 - x) z).
Definition majority (x y z : Z) : Z := Z.lxor (Z.land x y) (Z.lxor (Z.land x z) (Z.land y z)).

(** FIPS 180-4 takes its constants from the fractional parts of the roots of the
    first primes, and so does this file. *)
Definition is_prime (n : nat) : bool :=
  forallb (fun d => negb (Nat.eqb (Nat.modulo n d) 0)) (seq 2 (n - 2)).

Definition primes (n : nat) : list Z :=
  Z.of_nat <$> take n (List.filter is_prime (seq 2 310)).

(** The integer cube root, bit by bit from [r] up. *)
Fixpoint cube_root (bits : nat) (x r : Z) : Z :=
  match bits with
  | O => r
  | S b =>
      let r' := r + 2 ^ Z.of_nat b in
      cube_root b x (if r' * r' * r' <=? x then r' else r)
  end.

(** The first 32 bits of the fraction of the cube root. *)
Definition cube_fraction (p : Z) : Z := cube_root 36 (p * 2 ^ 96) 0 mod w32.
Definition square_fraction (p : Z) : Z := Z.sqrt (p * 2 ^ 64) mod w32.

Definition round_constants : list Z := Eval vm_compute in cube_fraction <$> primes 64.

Record state256 := St256 { sa : Z; sb : Z; sc : Z; sd : Z; se : Z; sf : Z; sg : Z; sh : Z }.

Definition initial_state : state256 := Eval vm_compute in
  match square_fraction <$> primes 8 with
  | [a; b; c; d; e; f; g; h] => St256 a b c d e f g h
  | _ => St256 0 0 0 0 0 0 0 0
  end.

(** Big-endian words and bytes. *)
Definition word_of (a b c d : ascii) : Z :=
  byte_val a * 16777216 + byte_val b * 65536 + byte_val c * 256 + byte_val d.

Fixpoint words_of (s : gostring) : list Z :=
  match s with
  | a :: b :: c :: d :: s' => word_of a b c d :: words_of s'
  | _ => []
  end.

Fixpoint be_bytes (n : nat) (x : Z) : gostring :=
  match n with
  | O => []
  | S n' => be_bytes n' (x / 256) ++ [byte_of (x mod 256)]
  end.

(** The padding: a one bit, zeros up to 56 mod 64 bytes, the length in bits. *)
Definition pad (s : gostring) : gostring :=
  s ++ byte_of 128 :: replicate (Z.to_nat ((55 - len s) mod 64)) (byte_of 0)
    ++ be_bytes 8 (8 * len s).

(** The message schedule: [window] holds the last sixteen words. *)
Fixpoint schedule (n : nat) (window : list Z) : list Z :=
  match n, window with
  | S n', [x0; x1; x2; x3; x4; x5; x6; x7; x8; x9; x10; x11; x12; x13; x14; x15] =>
      let y := add32 (add32 (small_sigma1 x14) x9) (add32 (small_sigma0 x1) x0) in
      x0 :: schedule n' [x1; x2; x3; x4; x5; x6; x7; x8; x9; x10; x11; x12; x13; x14; x15; y]
  | _, _ => window
  end.

Definition round (s : state256) (kw : Z * Z) : state256 :=
  let '(St256 a b c d e f g h) := s in
  let t1 := add32 (add32 (add32 h (big_sigma1 e)) (add32 (choose e f g) kw.1)) kw.2 in
  let t2 := add32 (big_sigma0 a) (majority a b c) in
  St256 (add32 t1 t2) a b c (add32 d t1) e f g.

Definition compress (s : state256) (block : list Z) : state256 :=
  let '(St256 a b c d e f g h) := s in
  let '(St256 a' b' c' d' e' f' g' h') :=
    fold_left round (zip round_constants (schedule 48 block)) s in
  St256 (add32 a a') (add32 b b') (add32 c c') (add32 d d')
        (add32 e e') (add32 f f') (add32 g g') (add32 h h').

Fixpoint blocks (n : nat) (ws : list Z) (s : state256) : state256 :=
  match n with
  | O => s
  | S n' => blocks n' (drop 16 ws) (compress s (take 16 ws))
  end.

(** [sha256.Sum256] *)
Definition sha256 (msg : gostring) : gostring :=
  let ws := words_of (pad msg) in
  let '(St256 a b c d e f g h) := blocks (length ws / 16)%nat ws initial_state in
  be_bytes 4 a ++ be_bytes 4 b ++ be_bytes 4 c ++ be_bytes 4 d
  ++ be_bytes 4 e ++ be_bytes 4 f ++ be_bytes 4 g ++ be_bytes 4 h.

Definition xor_byte (x : Z) (c : ascii) : ascii := byte_of (Z.lxor x (byte_val c)).

(** [hmac.New(sha256.New, key)], [Write(msg)], [Sum(nil)] *)
Definition hmac_sha256 (key msg : gostring) : gostring :=
  let key := if 64 <? len key then sha256 key else key in
  let key := key ++ replicate (64 - length key) (byte_of 0) in
  sha256 ((xor_byte 92 <$> key) ++ sha256 ((xor_byte 54 <$> key) ++ msg)).

(** ** Digest length *)

Lemma length_be_bytes n x : length (be_bytes n x) = n.
Proof. revert x. induction n; intros x; cbn; [done|]. rewrite length_app, IHn. cbn. lia. Qed.

Lemma length_sha256 msg : length (sha256 msg) = 32%nat.
Proof.
  unfold sha256. destruct (blocks _ _ _). by rewrite !length_app, !length_be_bytes.
Qed.

Lemma length_hmac key msg : length (hmac_sha256 key msg) = 32%nat.
Proof. apply length_sha256. Qed.

#[global] Opaque sha256.

(** ** Test vectors *)

Definition hex_digit (z : Z) : ascii :=
  if z <? 10 then byte_of (48 + z) else byte_of (87 + z).

(** [hex.EncodeToString] *)
Definition hex_encode (s : gostring) : gostring :=
  s ≫= fun c => [hex_digit (byte_val c / 16); hex_digit (byte_val c mod 16)].

Example sha256_abc :
  hex_encode (sha256 (str "abc"))
  = str "ba7816bf8f01cfea414140de5dae2223b00361a396177a9cb410ff61f20015ad".
Proof. vm_compute. reflexivity. Qed.

Example sha256_two_blocks :
  hex_encode (sha256 (str "abcdbcdecdefdefgefghfghighijhijkijkljklmklmnlmnomnopnopq"))
  = str "248d6a61d20638b8e5c026930c3e6039a33ce45964ff2167f6ecedd419db06c1".
Proof. vm_compute. reflexivity. Qed.

(** RFC 4231, test case 2. *)
Example hmac_jefe :
  hex_encode (hmac_sha256 (str "Jefe") (str "what do ya want for nothing?"))
  = str "5bdcc146bf60754e6a042426089575c75a003f089d2739839dec58b964ec3843".
Proof. vm_compute. reflexivity. Qed.
