(* ===== verification/Quote.v ===== *)
(** * strconv.Quote and the query strings of net/url

    [%q] of an error text, and [url.ParseQuery] behind [u.Query().Get(key)].  A quoted
    text holds no control character, whatever it quotes. *)

From S2P Require Import Prelude Utf8 GoStrings Sha256.
Local Open Scope Z_scope.

Definition quotation : ascii := "034"%char.
Definition escape : ascii := "\"%char.

(** ** strconv.Quote *)

(** [lowerhex], [n] digits of [z] *)
Fixpoint lower_hex (n : nat) (z : Z) : gostring :=
  match n with O => [] | S n => lower_hex n (z / 16) ++ [hex_digit (z mod 16)] end.

(** The escapes with a letter of their own. *)
Definition letter_escape (r : Z) : option ascii :=
  if r =? 7 then Some "a"%char else if r =? 8 then Some "b"%char else if r =? 12 then Some "f"%char
  else if r =? 10 then Some "n"%char else if r =? 13 then Some "r"%char else if r =? 9 then Some "t"%char
  else if r =? 11 then Some "v"%char else None.

Section Quote.
Context `{UnicodeTables}.

(** [strconv.IsPrint] *)
Definition is_print (r : Z) : bool := if r <? 128 then in_range 32 126 r else print_table r.

(** [appendEscapedRune] *)
Definition escaped_rune (r : Z) : gostring :=
  if (r =? byte_val quotation) || (r =? byte_val escape) then [escape; byte_of r]
  else if is_print r then encode_rune r
  else match letter_escape r with
       | Some c => [escape; c]
       | None =>
           if (r <? 32) || (r =? 127) then escape :: "x"%char :: lower_hex 2 r
           else if r <? 65536 then escape :: "u"%char :: lower_hex 4 r
           else escape :: "U"%char :: lower_hex 8 r
       end.

(** A byte that is part of no rune *)
Definition invalid (r : Z) (bytes : gostring) : bool := (r =? RuneError) && (length bytes =? 1)%nat.

Definition quoted_seg (seg : Z * gostring) : gostring :=
  let '(r, bytes) := seg in
  if invalid r bytes then escape :: "x"%char :: (bytes ≫= fun c => lower_hex 2 (byte_val c)) else escaped_rune r.

Definition quote (s : gostring) : gostring := quotation :: (segs s ≫= quoted_seg) ++ [quotation].

(** ** No control character *)

Definition visible (c : ascii) : Prop := 32 <= byte_val c /\ byte_val c <> 127.

Lemma visible_digit z : Forall visible [hex_digit (z mod 16)].
Proof.
  pose proof (Z.mod_pos_bound z 16 ltac:(lia)) as Hb. unfold hex_digit, visible.
  constructor; [|constructor]. destruct (Z.ltb_spec (z mod 16) 10); rewrite byte_val_of by lia; lia.
Qed.

Lemma visible_hex n z : Forall visible (lower_hex n z).
Proof.
  revert z; induction n as [|n IH]; intros z; [constructor|].
  apply Forall_app. split; [apply IH|apply visible_digit].
Qed.

Lemma visible_seg seg : Forall visible (quoted_seg seg).
Proof.
  assert (Hesc : forall c t, visible c -> Forall visible t -> Forall visible (escape :: c :: t))
    by (intros c t Hc Ht; constructor; [by vm_compute|by constructor]).
  destruct seg as [r bytes]. unfold quoted_seg. destruct (invalid r bytes).
  { apply Hesc; [by vm_compute|]. induction bytes as [|c bytes IH]; [constructor|].
    apply Forall_app. split; [apply visible_hex|exact IH]. }
  unfold escaped_rune. destruct (_ || _) eqn:Ee.
  { apply orb_true_iff in Ee as [->%Z.eqb_eq| ->%Z.eqb_eq]; (apply Hesc; [by vm_compute|constructor]). }
  destruct (is_print r) eqn:Ep.
  { eapply list.Forall_impl; [apply encode_rune_bytes|]. cbn. intros c [[Hr Hc]|?]; unfold visible; [|lia].
    unfold is_print, in_range in Ep. destruct (Z.ltb_spec r 128); [boolify; lia|lia]. }
  unfold letter_escape. repeat case_match; simplify_eq; (apply Hesc; [by vm_compute|first [apply visible_hex | constructor]]).
Qed.

(** What is quoted cannot break a line of a log or of a response. *)
Lemma quote_visible s : Forall visible (quote s).
Proof.
  constructor; [by vm_compute|]. apply Forall_app. split; [|repeat constructor; by vm_compute].
  induction (segs s) as [|seg l IH]; [constructor|]. apply Forall_app. split; [apply visible_seg|exact IH].
Qed.

End Quote.

(** ** net/url: query strings *)

Definition hex_value (c : ascii) : option Z :=
  let v := byte_val c in
  if in_range 48 57 v then Some (v - 48) else if in_range 97 102 v then Some (v - 87)
  else if in_range 65 70 v then Some (v - 55) else None.

(** [QueryUnescape] *)
Fixpoint query_unescape (s : gostring) : option gostring :=
  match s with
  | [] => Some []
  | c :: t =>
      if bool_decide (c = "%"%char) then
        match t with
        | a :: b :: u =>
            match hex_value a, hex_value b with
            | Some x, Some y => cons (byte_of (16 * x + y)) <$> query_unescape u
            | _, _ => None
            end
        | _ => None
        end
      else cons (if bool_decide (c = "+"%char) then " "%char else c) <$> query_unescape t
  end.

Definition cut_or (s sep : gostring) : gostring * gostring := default (s, []) (cut s sep).

(** One setting of the query, or nothing: it holds a semicolon, is empty or is badly escaped. *)
Definition query_setting (part : gostring) : option (gostring * gostring) :=
  if contains part (str ";") || bool_decide (part = []) then None
  else
    let '(key, value) := cut_or part (str "=") in
    match query_unescape key, query_unescape value with
    | Some key, Some value => Some (key, value)
    | _, _ => None
    end.

(** [parseQuery], which reads nothing from more than ten thousand settings *)
Definition maxQueryParams : nat := Z.to_nat 10000.

Definition parse_query (query : gostring) : list (gostring * gostring) :=
  let parts := split query (str "&") in
  if (maxQueryParams <? length parts)%nat then [] else omap query_setting parts.

(** [Values.Get]: the first value, or nothing *)
Definition query_get (query key : gostring) : gostring :=
  default [] (snd <$> List.find (fun kv => bool_decide (kv.1 = key)) (parse_query query)).

(** ** Examples *)

#[local] Existing Instance ascii_tables.

Example quote_hostile : quote (str "a\b" ++ [byte_of 10; byte_of 1; byte_of 255; quotation])
  = quotation :: str "a\\b\n\x01\xff\" ++ [quotation; quotation].
Proof. vm_compute. reflexivity. Qed.

Example query_first : query_get (str "a=1&sslmode=dis%61ble&sslmode=require") (str "sslmode") = str "disable".
Proof. vm_compute. reflexivity. Qed.

Example query_bad : query_get (str "sslmode=%zz&x;y=1&=3&b+c=d+e") (str "b c") = str "d e".
Proof. vm_compute. reflexivity. Qed.
