(* ===== verification/Encoding.v ===== *)
(** * encoding/base64 and encoding/base32

    Both encodings regroup the bits of a byte string into digits of 6 or 5
    bits.  Decoders ignore line breaks, as Go's do, and do not check the unused
    bits of the last digit. *)

From S2P Require Import Prelude Utf8 GoStrings.

(** ** Bits *)

(** Most significant first. *)
Definition byte_bits (c : ascii) : list bool :=
  let 'Ascii b0 b1 b2 b3 b4 b5 b6 b7 := c in [b7; b6; b5; b4; b3; b2; b1; b0].

Definition bits (s : gostring) : list bool := s ≫= byte_bits.

(** Whole bytes; leftover bits are dropped. *)
Fixpoint bytes_of_bits (l : list bool) : gostring :=
  match l with
  | b7 :: b6 :: b5 :: b4 :: b3 :: b2 :: b1 :: b0 :: l' => Ascii b0 b1 b2 b3 b4 b5 b6 b7 :: bytes_of_bits l'
  | _ => []
  end.

Definition digit_of (l : list bool) : nat :=
  foldl (fun (n : nat) (b : bool) => 2 * n + (if b then 1 else 0)) 0 l.

Fixpoint digit_bits (w n : nat) : list bool :=
  match w with
  | O => []
  | S w' => digit_bits w' (n / 2) ++ [negb (n mod 2 =? 0)%nat]
  end.

(** Groups of [w] bits, the last one filled with zeros. *)
Fixpoint groups (fuel w : nat) (l : list bool) : list (list bool) :=
  match fuel, l with
  | S fuel', _ :: _ => take w (l ++ replicate w false) :: groups fuel' w (drop w l)
  | _, _ => []
  end.

Definition encode_digits (w : nat) (s : gostring) : list nat :=
  digit_of <$> groups (length (bits s)) w (bits s).

Definition decode_digits (w : nat) (ds : list nat) : gostring := bytes_of_bits (ds ≫= digit_bits w).

(** ** Alphabets *)

Definition upper_letters : gostring := str "ABCDEFGHIJKLMNOPQRSTUVWXYZ".
Definition lower_letters : gostring := str "abcdefghijklmnopqrstuvwxyz".

Definition base64_std : gostring := upper_letters ++ lower_letters ++ str "0123456789+/".
Definition base64_url : gostring := upper_letters ++ lower_letters ++ str "0123456789-_".
Definition base32_std : gostring := upper_letters ++ str "234567".

Fixpoint position (c : ascii) (alphabet : gostring) : option nat :=
  match alphabet with
  | [] => None
  | d :: rest => if decide (c = d) then Some 0 else S <$> position c rest
  end.

Definition letter (alphabet : gostring) (d : nat) : ascii := default "A"%char (alphabet !! d).

Definition is_line_break (c : ascii) : bool := bool_decide (c = "010"%char \/ c = "013"%char).

Definition drop_line_breaks (s : gostring) : gostring := List.filter (fun c => negb (is_line_break c)) s.

Definition digits_of (alphabet s : gostring) : option (list nat) := mapM (fun c => position c alphabet) s.

(** [RawURLEncoding] *)
Definition base64_raw_url_encode (s : gostring) : gostring := letter base64_url <$> encode_digits 6 s.

Definition base64_raw_url_decode (s : gostring) : option gostring :=
  match digits_of base64_url (drop_line_breaks s) with
  | Some ds => if (length ds mod 4 =? 1)%nat then None else Some (decode_digits 6 ds)
  | None => None
  end.

(** [RawStdEncoding] *)
Definition base64_raw_std_encode (s : gostring) : gostring := letter base64_std <$> encode_digits 6 s.

Definition base64_raw_std_decode (s : gostring) : option gostring :=
  match digits_of base64_std (drop_line_breaks s) with
  | Some ds => if (length ds mod 4 =? 1)%nat then None else Some (decode_digits 6 ds)
  | None => None
  end.

(** [StdEncoding]: padded to a multiple of four. *)
Definition padding (n : nat) : gostring := replicate ((4 - n mod 4) mod 4) "="%char.

Definition base64_std_encode (s : gostring) : gostring :=
  let ds := encode_digits 6 s in (letter base64_std <$> ds) ++ padding (length ds).

Definition base64_std_decode (s : gostring) : option gostring :=
  let s := drop_line_breaks s in
  let body := take (length s - length (drop_while (fun c => negb (bool_decide (c = "="%char))) s)) s in
  match digits_of base64_std body with
  | Some ds =>
      if (length ds mod 4 =? 1)%nat then None
      else if bool_decide (s = body ++ padding (length ds)) then Some (decode_digits 6 ds) else None
  | None => None
  end.

(** [base32.StdEncoding.WithPadding(NoPadding)] *)
Definition base32_encode (s : gostring) : gostring := letter base32_std <$> encode_digits 5 s.

Definition base32_decode (s : gostring) : option gostring :=
  match digits_of base32_std (drop_line_breaks s) with
  | Some ds => if existsb (Nat.eqb (length ds mod 8)) [1; 3; 6] then None else Some (decode_digits 5 ds)
  | None => None
  end.

(** ** Round trips *)

Lemma length_bits s : length (bits s) = 8 * length s.
Proof. induction s as [|c s IH]; [done|]. destruct c. cbn. unfold bits in IH. rewrite IH. lia. Qed.

Lemma bytes_of_bits_app s rest :
  length rest < 8 -> bytes_of_bits (bits s ++ rest) = s.
Proof.
  intros Hr. induction s as [|c s IH].
  - do 8 (destruct rest as [|? rest]; [done|]). cbn in Hr. lia.
  - destruct c. cbn. f_equal. exact IH.
Qed.

Lemma groups_concat fuel w l :
  0 < w -> length l <= fuel ->
  exists k, k < w /\ concat (groups fuel w l) = l ++ replicate k false.
Proof.
  intros Hw. revert l; induction fuel as [|fuel IH]; intros l Hl.
  { destruct l; [|cbn in Hl; lia]. by exists 0. }
  destruct l as [|b l']; [by exists 0|]. set (l := b :: l') in *.
  change (groups (S fuel) w l) with (take w (l ++ replicate w false) :: groups fuel w (drop w l)).
  destruct (decide (w <= length l)) as [Hge|Hlt].
  - destruct (IH (drop w l)) as (k & Hk & E); [rewrite length_drop; cbn in *; lia|].
    exists k. split; [done|]. cbn [concat]. rewrite E, take_app_le by done.
    by rewrite app_assoc, take_drop.
  - exists (w - length l). split; [unfold l; cbn; lia|]. cbn [concat].
    rewrite drop_ge by lia. replace (groups fuel w []) with (@nil (list bool)) by (by destruct fuel).
    cbn [concat]. rewrite app_nil_r, take_app_ge by lia. rewrite take_replicate. do 2 f_equal. lia.
Qed.

Lemma groups_length fuel w l : 0 < w -> Forall (fun g => length g = w) (groups fuel w l).
Proof.
  intros Hw. revert l; induction fuel as [|fuel IH]; intros [|b l]; cbn; try constructor; [|apply IH].
  rewrite length_take; cbn. rewrite length_app, length_replicate. lia.
Qed.

Lemma digit_of_snoc l b : digit_of (l ++ [b]) = 2 * digit_of l + (if b then 1 else 0).
Proof. unfold digit_of. by rewrite foldl_app. Qed.

Lemma digit_bits_of w l : length l = w -> digit_bits w (digit_of l) = l.
Proof.
  revert l; induction w as [|w IH]; intros l Hl.
  { by destruct l. }
  destruct (list.last l) as [b|] eqn:E; [|by apply last_None in E; subst].
  apply last_Some in E as [l' ->]. rewrite length_app in Hl; cbn in Hl.
  rewrite digit_of_snoc. cbn [digit_bits].
  replace ((2 * digit_of l' + (if b then 1 else 0)) / 2) with (digit_of l').
  2:{ rewrite Nat.mul_comm, Nat.div_add_l by done. by destruct b; cbn; rewrite Nat.add_0_r. }
  replace ((2 * digit_of l' + (if b then 1 else 0)) mod 2) with (if b then 1 else 0).
  2:{ rewrite Nat.mul_comm, Nat.add_comm, Nat.Div0.mod_add. by destruct b. }
  rewrite IH by lia. by destruct b.
Qed.

Lemma digit_of_lt l : digit_of l < 2 ^ length l.
Proof.
  induction l as [|b l IH] using rev_ind; [cbn; lia|]. rewrite digit_of_snoc, length_app, Nat.pow_add_r.
  cbn. destruct b; lia.
Qed.

Lemma decode_encode_digits w s : 0 < w -> w <= 8 -> decode_digits w (encode_digits w s) = s.
Proof.
  intros Hw Hw8. unfold decode_digits, encode_digits.
  assert (Hb : forall gs, Forall (fun g => length g = w) gs ->
    (digit_of <$> gs) ≫= digit_bits w = concat gs).
  { induction 1 as [|g gs Hg _ IH]; [done|]. cbn. by rewrite digit_bits_of, <- IH. }
  rewrite Hb by (by apply groups_length).
  destruct (groups_concat (length (bits s)) w (bits s)) as (k & Hk & ->); [done..|].
  apply bytes_of_bits_app. rewrite length_replicate. lia.
Qed.

Lemma encode_digits_lt w s : 0 < w -> Forall (fun d => d < 2 ^ w) (encode_digits w s).
Proof.
  intros Hw. unfold encode_digits. apply list.Forall_fmap.
  eapply list.Forall_impl; [by apply groups_length|]. cbn. intros g <-. apply digit_of_lt.
Qed.

(** How many digits a string has. *)
Lemma groups_count fuel w l :
  0 < w -> length l <= fuel -> length (groups fuel w l) = (length l + (w - 1)) / w.
Proof.
  intros Hw. revert l; induction fuel as [|fuel IH]; intros l Hl.
  { destruct l; [|cbn in Hl; lia]. cbn. rewrite Nat.div_small; lia. }
  destruct l as [|b l']; [cbn; rewrite Nat.div_small; lia|]. set (l := b :: l') in *.
  change (S (length (groups fuel w (drop w l))) = (length l + (w - 1)) / w).
  rewrite IH by (rewrite length_drop; cbn in *; lia). rewrite length_drop.
  destruct (decide (w <= length l)) as [Hge|Hlt].
  - replace (length l + (w - 1)) with ((length l - w + (w - 1)) + 1 * w) by lia.
    rewrite Nat.div_add by lia. lia.
  - replace (length l - w) with 0 by lia. rewrite (Nat.div_small (0 + _)) by lia.
    symmetry. replace (length l + (w - 1)) with ((length l - 1) + 1 * w) by (unfold l; cbn; lia).
    rewrite Nat.div_add by lia. rewrite Nat.div_small; lia.
Qed.

Lemma encode_digits_count w s : 0 < w -> length (encode_digits w s) = (8 * length s + (w - 1)) / w.
Proof.
  intros Hw. unfold encode_digits. rewrite length_fmap, groups_count by done. by rewrite length_bits.
Qed.

(** The letters of an alphabet stand for their positions. *)
Definition alphabet_ok (n : nat) (alphabet : gostring) : bool :=
  forallb (fun d => bool_decide (position (letter alphabet d) alphabet = Some d)
                    && negb (is_line_break (letter alphabet d))
                    && negb (bool_decide (letter alphabet d = "."%char))
                    && negb (bool_decide (letter alphabet d = "="%char))) (seq 0 n).

Lemma alphabets_ok :
  alphabet_ok 64 base64_std && alphabet_ok 64 base64_url && alphabet_ok 32 base32_std = true.
Proof. vm_compute. reflexivity. Qed.

Lemma alphabet_letters n alphabet d :
  alphabet_ok n alphabet = true -> d < n ->
  position (letter alphabet d) alphabet = Some d /\ is_line_break (letter alphabet d) = false
  /\ letter alphabet d <> "."%char /\ letter alphabet d <> "="%char.
Proof.
  intros Hok Hd. unfold alphabet_ok in Hok. rewrite List.forallb_forall in Hok.
  specialize (Hok d (proj2 (List.in_seq n 0 d) ltac:(lia))). boolify. tauto.
Qed.

Section Letters.
Context (n : nat) (alphabet : gostring) (Hok : alphabet_ok n alphabet = true).

Lemma letters_digits ds :
  Forall (fun d => d < n) ds ->
  digits_of alphabet (letter alphabet <$> ds) = Some ds
  /\ drop_line_breaks (letter alphabet <$> ds) = letter alphabet <$> ds
  /\ "."%char ∉ letter alphabet <$> ds /\ "="%char ∉ letter alphabet <$> ds.
Proof.
  induction 1 as [|d ds Hd _ (IH1 & IH2 & IH3 & IH4)]; [by split_and!; try apply not_elem_of_nil|].
  destruct (alphabet_letters _ _ _ Hok Hd) as (Hp & Hl & Hdot & Heq).
  unfold digits_of in *. cbn. rewrite Hp, Hl; cbn. rewrite IH1. cbn. unfold drop_line_breaks in IH2.
  split_and!; [done|by f_equal| |]; rewrite not_elem_of_cons; naive_solver.
Qed.
End Letters.

Lemma base64_url_ok : alphabet_ok 64 base64_url = true.
Proof. vm_compute. reflexivity. Qed.
Lemma base64_std_ok : alphabet_ok 64 base64_std = true.
Proof. vm_compute. reflexivity. Qed.
Lemma base32_std_ok : alphabet_ok 32 base32_std = true.
Proof. vm_compute. reflexivity. Qed.

Lemma count6 n : ((8 * n + (6 - 1)) / 6) mod 4 <> 1.
Proof.
  intros E. pose proof (Nat.div_mod_eq (8 * n + (6 - 1)) 6).
  pose proof (Nat.mod_upper_bound (8 * n + (6 - 1)) 6 ltac:(done)).
  pose proof (Nat.div_mod_eq ((8 * n + (6 - 1)) / 6) 4). lia.
Qed.

Lemma count5 n : existsb (Nat.eqb (((8 * n + (5 - 1)) / 5) mod 8)) [1; 3; 6] = false.
Proof.
  apply not_true_iff_false. rewrite List.existsb_exists. intros (x & Hx & E%Nat.eqb_eq).
  pose proof (Nat.div_mod_eq (8 * n + (5 - 1)) 5).
  pose proof (Nat.mod_upper_bound (8 * n + (5 - 1)) 5 ltac:(done)).
  pose proof (Nat.div_mod_eq ((8 * n + (5 - 1)) / 5) 8).
  destruct Hx as [<-|[<-|[<-|[]]]]; lia.
Qed.

Lemma base64_raw_url_roundtrip s : base64_raw_url_decode (base64_raw_url_encode s) = Some s.
Proof.
  unfold base64_raw_url_decode, base64_raw_url_encode.
  destruct (letters_digits _ _ base64_url_ok _ (encode_digits_lt 6 s ltac:(lia))) as (Hd & Hl & _).
  rewrite Hl, Hd, encode_digits_count by lia.
  rewrite (proj2 (Nat.eqb_neq _ _)) by apply count6. by rewrite decode_encode_digits by lia.
Qed.

Lemma base64_raw_std_roundtrip s : base64_raw_std_decode (base64_raw_std_encode s) = Some s.
Proof.
  unfold base64_raw_std_decode, base64_raw_std_encode.
  destruct (letters_digits _ _ base64_std_ok _ (encode_digits_lt 6 s ltac:(lia))) as (Hd & Hl & _).
  rewrite Hl, Hd, encode_digits_count by lia.
  rewrite (proj2 (Nat.eqb_neq _ _)) by apply count6. by rewrite decode_encode_digits by lia.
Qed.

Lemma base64_raw_url_no_dot s : "."%char ∉ base64_raw_url_encode s.
Proof. by destruct (letters_digits _ _ base64_url_ok _ (encode_digits_lt 6 s ltac:(lia))) as (_ & _ & Hdot & _). Qed.

Lemma base32_roundtrip s : base32_decode (base32_encode s) = Some s.
Proof.
  unfold base32_decode, base32_encode.
  destruct (letters_digits _ _ base32_std_ok _ (encode_digits_lt 5 s ltac:(lia))) as (Hd & Hl & _).
  rewrite Hl, Hd, encode_digits_count by lia. by rewrite count5, decode_encode_digits by lia.
Qed.

Example base64_rfc4648 : base64_std_encode (str "fooba") = str "Zm9vYmE=".
Proof. vm_compute. reflexivity. Qed.
Example base32_rfc4648 : base32_encode (str "fooba") = str "MZXW6YTB".
Proof. vm_compute. reflexivity. Qed.

(** ** Standard base64 *)

Lemma drop_while_all {A} (p : A -> bool) l rest :
  Forall (fun x => p x = true) l -> drop_while p (l ++ rest) = drop_while p rest.
Proof. induction 1 as [|x l Hx _ IH]; [done|]. cbn. by rewrite Hx. Qed.

Lemma drop_line_breaks_app a b : drop_line_breaks (a ++ b) = drop_line_breaks a ++ drop_line_breaks b.
Proof. apply List.filter_app. Qed.

Lemma drop_line_breaks_padding n : drop_line_breaks (padding n) = padding n.
Proof. unfold padding. by induction ((4 - n mod 4) mod 4) as [|k IH]; [|cbn; f_equal]. Qed.

Lemma base64_std_roundtrip s : base64_std_decode (base64_std_encode s) = Some s.
Proof.
  unfold base64_std_decode, base64_std_encode.
  pose proof (encode_digits_count 6 s ltac:(lia)) as Hcount.
  destruct (letters_digits _ _ base64_std_ok _ (encode_digits_lt 6 s ltac:(lia))) as (Hd & Hl & _ & Heq).
  set (ds := encode_digits 6 s) in *. set (body := letter base64_std <$> ds) in *.
  rewrite drop_line_breaks_app, Hl, drop_line_breaks_padding.
  assert (drop_while (fun c => negb (bool_decide (c = "="%char))) (body ++ padding (length ds))
          = padding (length ds)) as ->.
  { rewrite drop_while_all.
    - unfold padding. by destruct ((4 - length ds mod 4) mod 4).
    - apply list.Forall_forall. intros c Hc. apply negb_true_iff, bool_decide_eq_false. by intros ->. }
  rewrite length_app, Nat.add_sub, take_app_length, Hd.
  rewrite (proj2 (Nat.eqb_neq _ _)) by (rewrite Hcount; apply count6).
  rewrite bool_decide_eq_true_2 by done. unfold ds. by rewrite decode_encode_digits by lia.
Qed.

(** Every letter written passes a test that the alphabet passes. *)
Lemma encoded_letters_in (p : ascii -> bool) w alphabet s :
  (0 < w)%nat -> forallb (fun d => p (letter alphabet d)) (seq 0 (2 ^ w)) = true ->
  Forall (fun c => p c = true) (letter alphabet <$> encode_digits w s).
Proof.
  intros Hw Hall. apply Forall_fmap. eapply list.Forall_impl; [by apply encode_digits_lt|].
  intros d Hd. rewrite List.forallb_forall in Hall. apply Hall, List.in_seq. cbn in Hd. lia.
Qed.

Lemma encoded_letters (p : ascii -> bool) alphabet s :
  forallb (fun d => p (letter alphabet d)) (seq 0 64) = true ->
  Forall (fun c => p c = true) (letter alphabet <$> encode_digits 6 s).
Proof. intros Hall. by apply (encoded_letters_in p 6); [lia|]. Qed.

Lemma encoded_without (c : ascii) alphabet s :
  forallb (fun d => negb (bool_decide (letter alphabet d = c))) (seq 0 64) = true ->
  c ∉ letter alphabet <$> encode_digits 6 s.
Proof.
  intros Hall Hin. pose proof (encoded_letters (fun x => negb (bool_decide (x = c))) _ s Hall) as Hf.
  rewrite list.Forall_forall in Hf. apply Hf in Hin. by boolify.
Qed.

Lemma base64_raw_std_no_dollar s : "$"%char ∉ base64_raw_std_encode s.
Proof. by apply encoded_without. Qed.

Lemma base64_std_no_colon s : ":"%char ∉ base64_std_encode s.
Proof.
  unfold base64_std_encode. rewrite elem_of_app. intros [Hin|Hin].
  - by apply encoded_without in Hin.
  - unfold padding in Hin. apply elem_of_replicate in Hin as [? _]. done.
Qed.

Lemma base64_std_ascii s : is_ascii (base64_std_encode s) = true.
Proof.
  unfold base64_std_encode. apply is_ascii_app. split; apply List.forallb_forall; intros c Hc.
  - apply list_elem_of_In in Hc. revert c Hc. apply list.Forall_forall.
    by apply (encoded_letters (fun c => byte_val c <? 128)%Z).
  - apply list_elem_of_In, elem_of_replicate in Hc as [-> _]. done.
Qed.
