(* ===== verification/Bounce.v ===== *)
(** * internal/bounce: classifying delivery failures

    [Classify] reads an SMTP response or DSN body and decides whether the
    recipient is suppressed.  The status parsers are translated byte by byte;
    their theorems characterise what they find by its position in the text. *)

From S2P Require Import Prelude Utf8 GoStrings.

Inductive Kind := Unknown | Soft | Hard | Complaint.

#[global] Instance Kind_eq_dec : EqDecision Kind.
Proof. solve_decision. Defined.

Definition Kind_String (k : Kind) : gostring :=
  match k with
  | Soft => str "soft"
  | Hard => str "hard"
  | Complaint => str "complaint"
  | Unknown => str "unknown"
  end.

Definition Kind_Suppresses (k : Kind) : bool :=
  bool_decide (k = Hard) || bool_decide (k = Complaint).

Record Result := {
  r_Kind : Kind;
  r_Status : gostring;
  r_Reason : gostring;
  r_Retryable : bool;
}.

Definition Result_Suppresses (r : Result) : bool := Kind_Suppresses (r_Kind r).

Definition hardStatus : list (gostring * gostring) :=
  [ (str "5.1.1", str "no such user");
    (str "5.1.2", str "no such domain");
    (str "5.1.3", str "invalid address syntax");
    (str "5.1.6", str "mailbox has moved");
    (str "5.1.10", str "no such user, address rejected");
    (str "5.2.1", str "mailbox disabled");
    (str "5.4.4", str "unable to route to destination");
    (str "5.5.4", str "invalid recipient");
    (str "5.7.27", str "sender address rejected by policy") ].

Definition softStatus : list (gostring * gostring) :=
  [ (str "4.2.2", str "mailbox full");
    (str "4.2.1", str "mailbox disabled temporarily");
    (str "4.3.2", str "system not accepting messages");
    (str "4.4.1", str "no answer from host");
    (str "4.4.2", str "bad connection");
    (str "4.5.3", str "too many recipients");
    (str "4.7.0", str "policy deferral, often greylisting");
    (str "4.7.1", str "delivery not authorised, try later");
    (str "4.7.28", str "rate limited by the destination");
    (str "5.2.2", str "mailbox full") ].

Definition complaintPhrases : list gostring :=
  [ str "abuse report"; str "feedback-type: abuse"; str "this is an email abuse report";
    str "complaint about message"; str "spam report" ].

(** The lookup [m[k]] of a Go map literal. *)
Fixpoint assoc {V} (k : gostring) (m : list (gostring * V)) : option V :=
  match m with
  | [] => None
  | (k', v) :: m' => if bool_decide (k = k') then Some v else assoc k m'
  end.

Definition MaxReportBytes : Z := 1048576.

(** [s[:n]] for [n <= len(s)], the cap on what is read. *)
Definition cap_bytes (n : Z) (s : gostring) : gostring :=
  if (n <? len s)%Z then take (Z.to_nat n) s else s.

Fixpoint span_digits (s : gostring) : gostring * gostring :=
  match s with
  | c :: s' => if is_digit c then let '(d, r) := span_digits s' in (c :: d, r) else ([], s)
  | [] => ([], [])
  end.

(** The loop of [parseStatus] over its three sections. *)
Fixpoint parse_sections (sections : nat) (s : gostring) : option (list gostring) :=
  match sections with
  | O => Some []
  | S more =>
      let '(d, rest) := span_digits s in
      if (length d =? 0)%nat || (3 <? length d)%nat then None
      else match more with
           | O => Some [d]
           | S _ =>
               match rest with
               | c :: rest' =>
                   if bool_decide (c = "."%char)
                   then match parse_sections more rest' with
                        | Some parts => Some (d :: parts)
                        | None => None
                        end
                   else None
               | [] => None
               end
           end
  end.

Definition parseStatus (s : gostring) : option gostring :=
  match parse_sections 3 s with
  | Some parts => Some (join parts (str "."))
  | None => None
  end.

(** The scan of [findEnhancedStatus]; [prev] is the byte before the cursor. *)
Fixpoint find_status_from (prev : option ascii) (s : gostring) : option gostring :=
  match s with
  | [] => None
  | c :: s' =>
      if negb (bool_decide (c = "4"%char)) && negb (bool_decide (c = "5"%char))
      then find_status_from (Some c) s'
      else if match prev with Some p => is_digit p | None => false end
      then find_status_from (Some c) s'
      else match parseStatus s with
           | Some status => Some status
           | None => find_status_from (Some c) s'
           end
  end.

Definition findEnhancedStatus (s : gostring) : option gostring := find_status_from None s.

Definition reply_separator (r : Z) : bool :=
  ((r =? 32) || (r =? 10) || (r =? 13) || (r =? 9) || (r =? 45))%Z.

(** The body of [findReplyCode]'s loop: a field that is a reply code. *)
Definition reply_code (f : gostring) : option Z :=
  match f with
  | [a; b; c] =>
      if is_digit a && is_digit b && is_digit c then
        let code := ((byte_val a - 48) * 100 + (byte_val b - 48) * 10 + (byte_val c - 48))%Z in
        if ((200 <=? code) && (code <=? 599))%Z then Some code else None
      else None
  | _ => None
  end.

Fixpoint first_reply_code (fs : list gostring) : option Z :=
  match fs with
  | [] => None
  | f :: fs' => match reply_code f with Some code => Some code | None => first_reply_code fs' end
  end.

Definition findReplyCode (s : gostring) : option Z :=
  first_reply_code (fields_func reply_separator s).

Definition permanent_text : gostring := str "permanent failure reported by the destination".
Definition temporary_text : gostring := str "temporary failure reported by the destination".

(** The [findEnhancedStatus] block of [Classify]; [None] falls through. *)
Definition by_status (status : gostring) : option Result :=
  match assoc status hardStatus with
  | Some reason => Some (Build_Result Hard status reason false)
  | None =>
      match assoc status softStatus with
      | Some reason => Some (Build_Result Soft status reason true)
      | None =>
          match status with
          | c :: _ =>
              if bool_decide (c = "5"%char) then Some (Build_Result Hard status permanent_text false)
              else if bool_decide (c = "4"%char)
              then Some (Build_Result Soft status temporary_text true)
              else None
          | [] => None
          end
      end
  end.

(** The [findReplyCode] block of [Classify]. *)
Definition by_code (code : Z) : option Result :=
  if (500 <=? code)%Z then Some (Build_Result Hard (format_int code) permanent_text false)
  else if (400 <=? code)%Z then Some (Build_Result Soft (format_int code) temporary_text true)
  else None.

Definition unclassified : Result :=
  Build_Result Unknown [] (str "could not classify the response") true.

Definition complaint_result : Result :=
  Build_Result Complaint [] (str "recipient reported the message as spam") false.

Definition is_complaint `{UnicodeTables} (response : gostring) : bool :=
  existsb (contains (to_lower response)) complaintPhrases.

Definition Classify `{UnicodeTables} (response : gostring) : Result :=
  let response := cap_bytes MaxReportBytes response in
  if is_complaint response then complaint_result
  else
    match findEnhancedStatus response ≫= by_status with
    | Some r => r
    | None =>
        match findReplyCode response ≫= by_code with
        | Some r => r
        | None => unclassified
        end
    end.

(** ** The shape of an enhanced status code *)

(** One to three decimal digits. *)
Definition section_ok (d : gostring) : Prop :=
  Forall (fun c => is_digit c = true) d /\ (1 <= length d <= 3)%nat.

(** [s] starts with the code [a.b.c], and the code's last section ends there. *)
Definition starts_with_status (s status : gostring) : Prop :=
  exists a b c rest,
    section_ok a /\ section_ok b /\ section_ok c
    /\ status = a ++ str "." ++ b ++ str "." ++ c
    /\ s = status ++ rest
    /\ match rest with x :: _ => is_digit x = false | [] => True end.

(** A code may start here: a 4 or a 5 that no digit precedes. *)
Definition status_boundary (pre : gostring) (s : gostring) : Prop :=
  (exists c s', s = c :: s' /\ (c = "4"%char \/ c = "5"%char))
  /\ match list.last pre with Some p => is_digit p = false | None => True end.

Definition not_digit_first (s : gostring) : Prop :=
  match s with x :: _ => is_digit x = false | [] => True end.

Lemma span_digits_spec s :
  let '(d, r) := span_digits s in
  s = d ++ r /\ Forall (fun c => is_digit c = true) d /\ not_digit_first r.
Proof.
  induction s as [|c s IH]; [done|]. cbn. destruct (is_digit c) eqn:E.
  - destruct (span_digits s) as [d r]. destruct IH as (-> & Hd & Hr).
    repeat split; [|done]. by constructor.
  - repeat split; [constructor|done].
Qed.

Lemma span_digits_app d r :
  Forall (fun c => is_digit c = true) d -> not_digit_first r -> span_digits (d ++ r) = (d, r).
Proof.
  induction 1 as [|c d Hc Hd IH]; intros Hr; cbn.
  - destruct r as [|c r]; [done|]. cbn in *. by rewrite Hr.
  - by rewrite Hc, IH.
Qed.

Lemma section_test (d : gostring) :
  (length d =? 0)%nat || (3 <? length d)%nat = false <-> (1 <= length d <= 3)%nat.
Proof. boolify. lia. Qed.

(** One section of the parser, read as a statement about the text. *)
Lemma parse_last_section s parts :
  parse_sections 1 s = Some parts <->
  exists d rest : gostring, parts = [d] /\ s = d ++ rest /\ section_ok d /\ not_digit_first rest.
Proof.
  cbn [parse_sections]. pose proof (span_digits_spec s) as Hs.
  destruct (span_digits s) as [d r]. destruct Hs as (Es & Hd & Hr). split.
  - case_match eqn:Et; [done|]. intros [= <-]. apply section_test in Et.
    exists d, r. by split_and!.
  - intros (d' & r' & -> & -> & [Hd' Hl'] & Hr').
    assert ((d, r) = (d', r')) as [= -> ->].
    { rewrite <- (span_digits_app d r), <- (span_digits_app d' r') by done. by rewrite Es. }
    by rewrite (proj2 (section_test d') Hl').
Qed.

Lemma parse_sections_SS n s :
  parse_sections (S (S n)) s =
    let '(d, rest) := span_digits s in
    if (length d =? 0)%nat || (3 <? length d)%nat then None
    else match rest with
         | c :: rest' =>
             if bool_decide (c = "."%char)
             then cons d <$> parse_sections (S n) rest'
             else None
         | [] => None
         end.
Proof. reflexivity. Qed.

Lemma parse_more_sections n s parts :
  parse_sections (S (S n)) s = Some parts <->
  exists d rest parts', parts = d :: parts' /\ s = d ++ "."%char :: rest /\ section_ok d
                        /\ parse_sections (S n) rest = Some parts'.
Proof.
  rewrite parse_sections_SS. pose proof (span_digits_spec s) as Hs.
  destruct (span_digits s) as [d r]. destruct Hs as (Es & Hd & Hr). split.
  - case_match eqn:Et; [done|]. apply section_test in Et.
    destruct r as [|c r]; [done|]. case_bool_decide as Ec; [|done]. subst c.
    destruct (parse_sections (S n) r) as [ps|] eqn:Ep; [|done].
    intros [= <-]. exists d, r, ps. by split_and!.
  - intros (d' & r' & ps & -> & -> & [Hd' Hl'] & Hp).
    assert ((d, r) = (d', "."%char :: r')) as [= -> ->].
    { rewrite <- (span_digits_app d r), <- (span_digits_app d' ("."%char :: r')) by done.
      by rewrite Es. }
    rewrite (proj2 (section_test d') Hl'), bool_decide_eq_true_2 by done.
    by rewrite Hp.
Qed.

(** [parseStatus] accepts exactly the strings that start with a code. *)
Lemma parseStatus_spec s status :
  parseStatus s = Some status <-> starts_with_status s status.
Proof.
  unfold parseStatus, starts_with_status. split.
  - destruct (parse_sections 3 s) as [parts|] eqn:E; [|done]. intros [= <-].
    apply parse_more_sections in E as (a & s1 & ps1 & -> & -> & Ha & E).
    apply parse_more_sections in E as (b & s2 & ps2 & -> & -> & Hb & E).
    apply parse_last_section in E as (c & rest & -> & -> & Hc & Hr).
    exists a, b, c, rest. split_and!; try done. cbn. by rewrite <- !app_assoc.
  - intros (a & b & c & rest & Ha & Hb & Hc & -> & -> & Hr).
    assert (parse_sections 3 ((a ++ str "." ++ b ++ str "." ++ c) ++ rest) = Some [a; b; c]) as ->.
    { apply parse_more_sections. exists a, (b ++ str "." ++ c ++ rest), [b; c].
      split_and!; try done; [cbn; by rewrite <- !app_assoc|].
      apply parse_more_sections. exists b, (c ++ rest), [c]. split_and!; try done.
      apply parse_last_section. by exists c, rest. }
    done.
Qed.

Lemma starts_with_status_first s status :
  starts_with_status s status ->
  exists c s1 s2, s = c :: s1 /\ status = c :: s2 /\ is_digit c = true.
Proof.
  intros (a & b & c & rest & [Ha Hl] & _ & _ & -> & -> & _).
  destruct a as [|x a]; cbn in *; [lia|]. apply Forall_cons_1 in Ha as [Hx _]. eauto 10.
Qed.

(** Where the scan stops, described by positions in the whole text. *)
Definition status_found (pre s status : gostring) : Prop :=
  exists skip rest : gostring, s = skip ++ rest
    /\ status_boundary (pre ++ skip) rest
    /\ starts_with_status rest status
    /\ forall skip' rest' status' : gostring, s = skip' ++ rest' -> (length skip' < length skip)%nat ->
         status_boundary (pre ++ skip') rest' -> ~ starts_with_status rest' status'.

Lemma find_status_here pre c s' :
  match (if negb (bool_decide (c = "4"%char)) && negb (bool_decide (c = "5"%char)) then None
         else if match list.last pre with Some p => is_digit p | None => false end then None
         else parseStatus (c :: s')) with
  | Some status => status_boundary pre (c :: s') /\ starts_with_status (c :: s') status
  | None => forall status, status_boundary pre (c :: s') -> ~ starts_with_status (c :: s') status
  end.
Proof.
  destruct (negb _ && negb _) eqn:E1.
  { boolify. intros status [(c' & s'' & [= <- <-] & Hc) _]. naive_solver. }
  destruct (match list.last pre with Some p => is_digit p | None => false end) eqn:E2.
  { intros status [_ Hl]. destruct (list.last pre); congruence. }
  destruct (parseStatus (c :: s')) as [status|] eqn:E3.
  - split; [|by apply parseStatus_spec]. split; [|by destruct (list.last pre)].
    exists c, s'. split; [done|]. boolify. naive_solver.
  - intros status _ Hs%parseStatus_spec. congruence.
Qed.

Lemma find_status_from_Some pre s status :
  find_status_from (list.last pre) s = Some status -> status_found pre s status.
Proof.
  revert pre. induction s as [|c s IH]; intros pre; [done|].
  cbn [find_status_from]. pose proof (find_status_here pre c s) as Hhere.
  assert (find_status_from (list.last pre) (c :: s) = Some status ->
          (if negb (bool_decide (c = "4"%char)) && negb (bool_decide (c = "5"%char)) then None
           else if match list.last pre with Some p => is_digit p | None => false end then None
           else parseStatus (c :: s)) = Some status
          \/ (if negb (bool_decide (c = "4"%char)) && negb (bool_decide (c = "5"%char)) then None
              else if match list.last pre with Some p => is_digit p | None => false end then None
              else parseStatus (c :: s)) = None
             /\ find_status_from (Some c) s = Some status) as Hcase.
  { cbn [find_status_from]. repeat case_match; naive_solver. }
  intros H. destruct (Hcase H) as [E|[E Hrec]]; rewrite E in Hhere.
  - exists [], (c :: s). rewrite app_nil_r. destruct Hhere. split_and!; try done.
    intros skip' rest' status' _ Hl. cbn in Hl. lia.
  - rewrite <- (last_snoc c pre) in Hrec. apply IH in Hrec as (skip & rest & -> & Hb & Hs & Hmin).
    exists (c :: skip), rest. rewrite <- app_assoc in Hb. split_and!; try done.
    intros skip' rest' status' Hsplit Hl Hb'. destruct skip' as [|d skip'].
    + rewrite app_nil_r in Hb'. cbn in Hsplit. subst rest'. by apply Hhere.
    + injection Hsplit as -> Hsplit. eapply Hmin; [done|cbn in Hl; lia|].
      by rewrite <- app_assoc.
Qed.

Lemma find_status_from_None pre s :
  find_status_from (list.last pre) s = None ->
  forall skip rest status, s = skip ++ rest -> status_boundary (pre ++ skip) rest ->
    ~ starts_with_status rest status.
Proof.
  revert pre. induction s as [|c s IH]; intros pre H skip rest status Hsplit Hb.
  - symmetry in Hsplit. apply app_eq_nil in Hsplit as [-> ->].
    destruct Hb as [(c & s' & Hc & _) _]. done.
  - pose proof (find_status_here pre c s) as Hhere. cbn [find_status_from] in H.
    destruct skip as [|d skip].
    + cbn in Hsplit. subst rest. rewrite app_nil_r in Hb.
      repeat case_match; try done; by apply Hhere.
    + injection Hsplit as <- Hsplit.
      apply (IH (pre ++ [c])) with skip; [|done|by rewrite <- app_assoc].
      rewrite last_snoc. repeat case_match; done.
Qed.

(** ** What the classifier decides *)

(** The class of an enhanced code that suppresses: every 5.x.x but a full
    mailbox. *)
Definition status_suppresses (status : gostring) : bool :=
  has_prefix (str "5") status && negb (bool_decide (status = str "5.2.2")).

Lemma assoc_elem {V} k (m : list (gostring * V)) v : assoc k m = Some v -> (k, v) ∈ m.
Proof.
  induction m as [|[k' v'] m IH]; cbn; [done|].
  case_bool_decide; [intros [= <-]; subst; by left|]. intros. right. by apply IH.
Qed.

(** A table lookup has every property that all the table's rows have. *)
Lemma assoc_forallb {V} (p : gostring -> bool) k (m : list (gostring * V)) v :
  forallb (fun kv => p kv.1) m = true -> assoc k m = Some v -> p k = true.
Proof.
  intros Hp Hk%assoc_elem%list_elem_of_In. rewrite List.forallb_forall in Hp.
  apply (Hp _ Hk).
Qed.

Lemma hardStatus_suppresses status reason :
  assoc status hardStatus = Some reason -> status_suppresses status = true.
Proof. by apply assoc_forallb. Qed.

Lemma softStatus_keeps status reason :
  assoc status softStatus = Some reason -> status_suppresses status = false.
Proof. intros H. apply negb_true_iff. revert H. by apply (assoc_forallb (negb ∘ status_suppresses)). Qed.

(** The verdict on a code: never undecided, and suppressing by its class. *)
Lemma by_status_decides c rest :
  c = "4"%char \/ c = "5"%char ->
  exists r, by_status (c :: rest) = Some r
            /\ r_Status r = c :: rest
            /\ Result_Suppresses r = status_suppresses (c :: rest)
            /\ r_Retryable r = negb (status_suppresses (c :: rest)).
Proof.
  intros Hc. unfold by_status.
  destruct (assoc (c :: rest) hardStatus) eqn:Eh.
  { eexists. split_and!; [done..| |]; by rewrite (hardStatus_suppresses _ _ Eh). }
  destruct (assoc (c :: rest) softStatus) eqn:Es.
  { eexists. split_and!; [done..| |]; by rewrite (softStatus_keeps _ _ Es). }
  destruct Hc as [-> | ->].
  - by eexists.
  - assert (status_suppresses ("5"%char :: rest) = true) as ->; [|by eexists].
    unfold status_suppresses. rewrite bool_decide_eq_false_2 by (by intros [= ->]).
    done.
Qed.

Lemma by_code_decides code :
  match by_code code with
  | Some r => Result_Suppresses r = (500 <=? code)%Z /\ r_Retryable r = negb (500 <=? code)%Z
  | None => (code < 400)%Z
  end.
Proof.
  unfold by_code. destruct (Z.leb_spec 500 code); [done|].
  destruct (Z.leb_spec 400 code); [done|lia].
Qed.

Lemma starts_class s status :
  status_boundary [] s \/ (exists pre, status_boundary pre s) -> starts_with_status s status ->
  exists c rest, status = c :: rest /\ (c = "4"%char \/ c = "5"%char).
Proof.
  intros Hb (c & s1 & s2 & -> & -> & _)%starts_with_status_first.
  destruct Hb as [[(c' & s' & [= <- <-] & Hc) _]|(pre & (c' & s' & [= <- <-] & Hc) & _)]; eauto.
Qed.

(** ** Properties *)

(** C35: The status scanner is exact. What it returns is a code a.b.c of one to
    three digits per section that starts at a 4 or 5 not preceded by a digit,
    no earlier position holds such a code, and when it returns nothing there is
    no such position in the whole text. *)
Theorem findEnhancedStatus_exact (s : gostring) :
  match findEnhancedStatus s with
  | Some status => status_found [] s status
  | None => forall skip rest status : gostring, s = skip ++ rest ->
      status_boundary skip rest -> ~ starts_with_status rest status
  end.
Proof.
  unfold findEnhancedStatus. destruct (find_status_from None s) as [status|] eqn:E.
  - by apply (find_status_from_Some []).
  - intros skip rest status. by apply (find_status_from_None []).
Qed.

Lemma found_class s status :
  findEnhancedStatus s = Some status ->
  exists c rest, status = c :: rest /\ (c = "4"%char \/ c = "5"%char).
Proof.
  intros (skip & rest & _ & Hb & Hs & _)%(find_status_from_Some []).
  apply (starts_class rest); [|done]. right. by exists skip.
Qed.

(** The decision of [Classify], as a priority list over what was found. *)
Definition suppression_rule `{UnicodeTables} (response : gostring) : bool :=
  let text := cap_bytes MaxReportBytes response in
  is_complaint text
  || match findEnhancedStatus text with
     | Some status => status_suppresses status
     | None => match findReplyCode text with Some code => (500 <=? code)%Z | None => false end
     end.

(** C36: [Classify] suppresses exactly when the response is a complaint, or its
    first enhanced code is a 5.x.x other than 5.2.2, or it has no enhanced code
    and its first reply code is 5xx; and a result is retryable exactly when it
    does not suppress. *)
Theorem Classify_suppresses_iff `{UnicodeTables} (response : gostring) :
  Result_Suppresses (Classify response) = suppression_rule response
  /\ r_Retryable (Classify response) = negb (Result_Suppresses (Classify response)).
Proof.
  unfold Classify, suppression_rule. set (text := cap_bytes _ _).
  destruct (is_complaint text); [done|]. cbn [orb].
  destruct (findEnhancedStatus text) as [status|] eqn:Es; cbn.
  - apply found_class in Es as (c & rest & -> & Hc).
    by destruct (by_status_decides c rest Hc) as (r & -> & _ & -> & ->).
  - destruct (findReplyCode text) as [code|]; cbn; [|done].
    pose proof (by_code_decides code) as Hd. destruct (by_code code) as [r|].
    + by destruct Hd as [-> ->].
    + by rewrite (proj2 (Z.leb_gt 500 code)) by lia.
Qed.

(** ** The package's own tests, evaluated *)

Section Tests.
Local Existing Instance ascii_tables.

Example hard_no_such_user :
  Classify (str "550 5.1.1 <nobody@example.com>: Recipient address rejected: User unknown")
  = Build_Result Hard (str "5.1.1") (str "no such user") false.
Proof. vm_compute. reflexivity. Qed.

Example soft_full_mailbox :
  Classify (str "552 5.2.2 Mailbox full")
  = Build_Result Soft (str "5.2.2") (str "mailbox full") true.
Proof. vm_compute. reflexivity. Qed.

Example complaint_report :
  r_Kind (Classify (str "Feedback-Type: abuse")) = Complaint.
Proof. vm_compute. reflexivity. Qed.

Example unknown_reset : Classify (str "connection reset") = unclassified.
Proof. vm_compute. reflexivity. Qed.

Example bare_codes :
  (r_Kind (Classify (str "550 Requested action not taken")),
   r_Kind (Classify (str "451 Requested action aborted"))) = (Hard, Soft).
Proof. vm_compute. reflexivity. Qed.

Example unlisted_follows_class :
  r_Kind (Classify (str "550 5.7.99 blocked by an unusual policy")) = Hard.
Proof. vm_compute. reflexivity. Qed.

End Tests.
