(* ===== verification/Template.v ===== *)
(** * internal/template: merge-tag rendering

    [Render] and [Tags] share one scanning loop: find the next "{{", find the
    "}}" that closes it, trim and validate the name between them.  Go's map
    iteration order is unspecified, so the variables are a list of bindings in
    the order the runtime visits them, with distinct names. *)

From S2P Require Import Prelude Utf8 GoStrings.

Local Open Scope Z_scope.

Definition MaxTemplateBytes : Z := 524288.
Definition MaxOutputBytes : Z := 1048576.
Definition MaxVariables : Z := 100.
Definition MaxVariableNameLen : Z := 64.
Definition MaxTags : Z := 500.

Inductive render_error :=
  | ErrTemplateTooLarge
  | ErrOutputTooLarge
  | ErrTooManyTags
  | ErrTooManyVariables
  | ErrUnclosedTag
  | UnknownVariableError (name : gostring)
  | InvalidNameError (name : gostring).

#[global] Instance render_error_eq_dec : EqDecision render_error.
Proof. solve_decision. Defined.

Definition bindings := list (gostring * gostring).

(** [value, ok := variables[name]] *)
Fixpoint lookup_var (name : gostring) (vars : bindings) : option gostring :=
  match vars with
  | [] => None
  | (n, v) :: vars' => if bool_decide (name = n) then Some v else lookup_var name vars'
  end.

Definition name_rune_ok (r : Z) : bool :=
  in_range 97 122 r || in_range 65 90 r || in_range 48 57 r || (r =? 95).

Definition validateName (name : gostring) : option render_error :=
  if bool_decide (name = []) || (MaxVariableNameLen <? len name) then Some (InvalidNameError name)
  else if forallb name_rune_ok (runes name) then None
  else Some (InvalidNameError name).

Fixpoint validate_names (vars : bindings) : option render_error :=
  match vars with
  | [] => None
  | (n, _) :: vars' => match validateName n with Some e => Some e | None => validate_names vars' end
  end.

(** [html.EscapeString] *)
Definition escape_char (c : ascii) : gostring :=
  if bool_decide (c = "&"%char) then str "&amp;"
  else if bool_decide (c = "'"%char) then str "&#39;"
  else if bool_decide (c = "<"%char) then str "&lt;"
  else if bool_decide (c = ">"%char) then str "&gt;"
  else if bool_decide (byte_val c = 34) then str "&#34;"
  else [c].

Definition html_escape (s : gostring) : gostring := s ≫= escape_char.

Definition open_tag : gostring := ["{"%char; "{"%char].
Definition close_tag : gostring := ["}"%char; "}"%char].

(** One turn of the loops of [Render] and [Tags]: the literal text before the
    tag, the raw name inside it, and the rest. *)
Inductive scan_result :=
  | NoTag
  | Unclosed
  | Tag (lit raw rest : gostring).

Definition scan (rest : gostring) : scan_result :=
  match index open_tag rest with
  | None => NoTag
  | Some open =>
      match index close_tag (drop open rest) with
      | None => Unclosed
      | Some closing =>
          Tag (take open rest)
              (take (closing - 2) (drop (open + 2) rest))
              (drop (open + closing + 2) rest)
      end
  end.

(** The loop of [Render]; [out] is what the builder holds, [tags] the counter.
    [None] is running out of fuel. *)
Fixpoint render_loop (fuel : nat) (vars : bindings) (escape : bool)
    (rest out : gostring) (tags : Z) : option (gostring + render_error) :=
  match fuel with
  | O => None
  | S fuel =>
      match scan rest with
      | NoTag =>
          let out := out ++ rest in
          Some (if MaxOutputBytes <? len out then inr ErrOutputTooLarge else inl out)
      | Unclosed => Some (inr ErrUnclosedTag)
      | Tag lit raw rest' =>
          let out := out ++ lit in
          let name := trim_space raw in
          match validateName name with
          | Some e => Some (inr e)
          | None =>
              match lookup_var name vars with
              | None => Some (inr (UnknownVariableError name))
              | Some value =>
                  let value := if escape then html_escape value else value in
                  let out := out ++ value in
                  let tags := tags + 1 in
                  if MaxTags <? tags then Some (inr ErrTooManyTags)
                  else if MaxOutputBytes <? len out then Some (inr ErrOutputTooLarge)
                  else render_loop fuel vars escape rest' out tags
              end
          end
      end
  end.

(** Each turn removes at least four bytes, so the length is enough fuel. *)
Definition loop_fuel (tmpl : gostring) : nat := S (length tmpl).

Definition Render (tmpl : gostring) (vars : bindings) (escape : bool)
    : option (gostring + render_error) :=
  if MaxTemplateBytes <? len tmpl then Some (inr ErrTemplateTooLarge)
  else if MaxVariables <? Z.of_nat (length vars) then Some (inr ErrTooManyVariables)
  else match validate_names vars with
       | Some e => Some (inr e)
       | None => render_loop (loop_fuel tmpl) vars escape tmpl [] 0
       end.

Fixpoint tags_loop (fuel : nat) (rest : gostring) (names : list gostring)
    : option (list gostring + render_error) :=
  match fuel with
  | O => None
  | S fuel =>
      match scan rest with
      | NoTag => Some (inl names)
      | Unclosed => Some (inr ErrUnclosedTag)
      | Tag _ raw rest' =>
          let name := trim_space raw in
          match validateName name with
          | Some e => Some (inr e)
          | None =>
              let names := if bool_decide (name ∈ names) then names else names ++ [name] in
              if MaxTags <? Z.of_nat (length names) then Some (inr ErrTooManyTags)
              else tags_loop fuel rest' names
          end
      end
  end.

Definition Tags (tmpl : gostring) : option (list gostring + render_error) :=
  if MaxTemplateBytes <? len tmpl then Some (inr ErrTemplateTooLarge)
  else tags_loop (loop_fuel tmpl) tmpl [].

(** ** The template grammar: literal text and tags *)

Inductive segment := Lit (text : gostring) | Var (name : gostring).

(** [no_tag lit tail]: "{{" does not start inside [lit] when [tail] follows. *)
Definition leftmost (sub : gostring) (pre tail : gostring) : Prop :=
  forall j, (j < length pre)%nat -> ~ sub `prefix_of` drop j (pre ++ tail).

(** What a template means, without positions: a literal that opens no tag,
    then "{{", a raw name that closes no tag, "}}", and another template. *)
Inductive parses : gostring -> list segment -> Prop :=
  | parses_end text :
      (forall a b, text <> a ++ open_tag ++ b) -> parses text [Lit text]
  | parses_tag lit raw rest segments :
      leftmost open_tag lit (open_tag ++ raw ++ close_tag ++ rest) ->
      leftmost close_tag raw (close_tag ++ rest) ->
      parses rest segments ->
      parses (lit ++ open_tag ++ raw ++ close_tag ++ rest)
             (Lit lit :: Var (trim_space raw) :: segments).

(** The reference renderer: replace every tag by its value. *)
Definition subst_segment (vars : bindings) (escape : bool) (s : segment) : option gostring :=
  match s with
  | Lit text => Some text
  | Var name => (if escape then html_escape else id) <$> lookup_var name vars
  end.

Definition expand (vars : bindings) (escape : bool) (segments : list segment) : option gostring :=
  (@concat ascii) <$> mapM (subst_segment vars escape) segments.

Definition segment_names (segments : list segment) : list gostring :=
  omap (fun s => match s with Var n => Some n | Lit _ => None end) segments.

Definition count_tags (segments : list segment) : Z := Z.of_nat (length (segment_names segments)).

(** ** The scanner against the grammar *)

Lemma scan_NoTag rest : scan rest = NoTag -> forall a b, rest <> a ++ open_tag ++ b.
Proof.
  unfold scan. destruct (index open_tag rest) as [i|] eqn:E.
  - by destruct (index close_tag (drop i rest)).
  - intros _. by apply index_None.
Qed.

Lemma not_close_early (i : nat) s j :
  open_tag `prefix_of` drop i s -> (j < 2)%nat -> ~ close_tag `prefix_of` drop j (drop i s).
Proof.
  intros [k ->] Hj [k' Hk]. destruct j as [|[|j]]; [..|lia]; cbn in Hk; congruence.
Qed.

Lemma scan_Tag rest lit raw rest' :
  scan rest = Tag lit raw rest' ->
  rest = lit ++ open_tag ++ raw ++ close_tag ++ rest'
  /\ leftmost open_tag lit (open_tag ++ raw ++ close_tag ++ rest')
  /\ leftmost close_tag raw (close_tag ++ rest').
Proof.
  unfold scan. destruct (index open_tag rest) as [i|] eqn:Eo; [|done].
  destruct (index close_tag (drop i rest)) as [j|] eqn:Ec; [|done].
  intros [= <- <- <-].
  pose proof (index_drop _ _ _ Eo) as Ed. pose proof (index_drop _ _ _ Ec) as Edc.
  apply index_Some in Eo as (_ & Hi & Hmin). apply index_Some in Ec as (Ec & Hj & Hcmin).
  assert (2 <= j)%nat as Hj2.
  { destruct (decide (2 <= j)%nat); [done|]. exfalso.
    eapply (not_close_early i rest j); [rewrite Ed; by apply prefix_app_r|lia|].
    rewrite Edc. by apply prefix_app_r. }
  change (i + length open_tag)%nat with (i + 2)%nat in Ed.
  set (inner := drop (i + 2) rest) in *.
  assert (inner = take (j - 2) inner ++ close_tag ++ drop (i + j + 2) rest) as Ei.
  { rewrite Ed in Ec. destruct j as [|[|j]]; [lia..|].
    replace (S (S j) - 2)%nat with j by lia.
    replace (i + S (S j) + 2)%nat with ((i + 2) + (j + 2))%nat by lia.
    rewrite <- (drop_drop rest (j + 2)). fold inner.
    cbn in Ec. injection Ec as Ec. rewrite <- Ec at 1. cbn. by rewrite Nat.add_comm. }
  assert (rest = take i rest ++ open_tag ++ take (j - 2) inner ++ close_tag ++ drop (i + j + 2) rest)
    as Er by (rewrite <- Ei, <- Ed; by rewrite take_drop).
  split; [done|]. split.
  - unfold leftmost. rewrite <- Er. rewrite length_take. intros k Hk. apply Hmin. lia.
  - unfold leftmost. rewrite <- Ei. intros k Hk Hp. rewrite length_take in Hk.
    apply (Hcmin (k + 2)%nat); [lia|]. rewrite Ed. by rewrite Nat.add_comm.
Qed.

Lemma scan_Tag_shorter rest lit raw rest' :
  scan rest = Tag lit raw rest' -> (length rest' < length rest)%nat.
Proof.
  intros (-> & _ & _)%scan_Tag. rewrite !length_app. cbn. lia.
Qed.

(** ** The loop against the reference *)

Lemma render_loop_total fuel vars escape rest out tags :
  (length rest < fuel)%nat -> is_Some (render_loop fuel vars escape rest out tags).
Proof.
  revert rest out tags. induction fuel as [|fuel IH]; intros rest out tags Hf; [lia|].
  cbn. destruct (scan rest) as [| |lit raw rest'] eqn:E; [by eexists..|].
  apply scan_Tag_shorter in E.
  repeat (case_match; [try by eexists|try by eexists]); apply IH; lia.
Qed.

Lemma tags_loop_total fuel rest names :
  (length rest < fuel)%nat -> is_Some (tags_loop fuel rest names).
Proof.
  revert rest names. induction fuel as [|fuel IH]; intros rest names Hf; [lia|].
  cbn. destruct (scan rest) as [| |lit raw rest'] eqn:E; [by eexists..|].
  apply scan_Tag_shorter in E. case_match; [by eexists|].
  case_match; [by eexists|]. apply IH. lia.
Qed.

Lemma expand_cons vars escape s segments :
  expand vars escape (s :: segments) =
    x ← subst_segment vars escape s; y ← expand vars escape segments; Some (x ++ y).
Proof.
  unfold expand. cbn. destruct (subst_segment vars escape s); [|done]. cbn.
  by destruct (mapM (subst_segment vars escape) segments).
Qed.

Lemma count_tags_tag lit name segments :
  count_tags (Lit lit :: Var name :: segments) = 1 + count_tags segments.
Proof. unfold count_tags, segment_names. cbn. lia. Qed.

Lemma render_loop_sound fuel vars escape rest out tags result :
  render_loop fuel vars escape rest out tags = Some (inl result) ->
  exists segments body,
    parses rest segments /\ expand vars escape segments = Some body
    /\ result = out ++ body
    /\ tags + count_tags segments <= Z.max tags MaxTags
    /\ Forall (fun n => validateName n = None) (segment_names segments)
    /\ len result <= MaxOutputBytes.
Proof.
  revert rest out tags. induction fuel as [|fuel IH]; intros rest out tags; [done|].
  cbn [render_loop]. destruct (scan rest) as [| |lit raw rest'] eqn:E; [|done|].
  - destruct (Z.ltb_spec MaxOutputBytes (len (out ++ rest))); [done|]. intros [= <-].
    exists [Lit rest], rest. split_and!; try done.
    + constructor. by apply scan_NoTag.
    + unfold expand. cbn. by rewrite app_nil_r.
    + unfold count_tags. cbn. lia.
  - destruct (validateName (trim_space raw)) eqn:Ev; [done|].
    destruct (lookup_var (trim_space raw) vars) as [value|] eqn:El; [|done].
    destruct (Z.ltb_spec MaxTags (tags + 1)); [done|].
    set (v := if escape then html_escape value else value).
    destruct (Z.ltb_spec MaxOutputBytes (len ((out ++ lit) ++ v))); [done|].
    intros (segments & body & Hp & He & -> & Ht & Hn & Hl)%IH.
    apply scan_Tag in E as (-> & Ho & Hc).
    exists (Lit lit :: Var (trim_space raw) :: segments), (lit ++ v ++ body). split_and!.
    + by constructor.
    + rewrite !expand_cons. cbn. rewrite El, He. by destruct escape.
    + by rewrite <- !app_assoc.
    + rewrite count_tags_tag. lia.
    + by constructor.
    + done.
Qed.

(** A template has one reading. *)
Lemma leftmost_inj sub a b a' b' :
  a ++ sub ++ b = a' ++ sub ++ b' ->
  leftmost sub a (sub ++ b) -> leftmost sub a' (sub ++ b') -> a = a' /\ b = b'.
Proof.
  intros E Ha Ha'.
  assert (forall x y z w : gostring, x ++ sub ++ y = z ++ sub ++ w ->
            leftmost sub z (sub ++ w) -> (length z <= length x)%nat) as Hle.
  { intros x y z w Exz Hz. destruct (decide (length z <= length x)%nat); [done|]. exfalso.
    apply (Hz (length x)); [lia|]. rewrite <- Exz, drop_app_length. by apply prefix_app_r. }
  assert (length a = length a') as Hlen.
  { apply Nat.le_antisymm; eapply Hle; [symmetry; exact E|done|exact E|done]. }
  apply app_inj_1 in E as [-> E]; [|done]. by apply app_inv_head in E.
Qed.

Lemma parses_deterministic tmpl segs1 segs2 :
  parses tmpl segs1 -> parses tmpl segs2 -> segs1 = segs2.
Proof.
  intros H1. revert segs2. induction H1 as [text Hn|lit raw rest segs1 Ho Hc H1 IH]; intros segs2 H2.
  - inversion H2 as [|lit' raw' rest' segs' Ho' Hc' H' Et]; [done|]. subst.
    by destruct (Hn lit' (raw' ++ close_tag ++ rest')).
  - inversion H2 as [text' Hn' Et|lit' raw' rest' segs' Ho' Hc' H' Et]; subst.
    + by destruct (Hn' lit (raw ++ close_tag ++ rest)).
    + apply (leftmost_inj open_tag lit' (raw' ++ close_tag ++ rest')) in Et as [-> Et]; [|done..].
      apply (leftmost_inj close_tag raw' rest') in Et as [-> ->]; [|done..]. by rewrite (IH segs').
Qed.

Lemma scan_complete lit raw rest :
  leftmost open_tag lit (open_tag ++ raw ++ close_tag ++ rest) ->
  leftmost close_tag raw (close_tag ++ rest) ->
  scan (lit ++ open_tag ++ raw ++ close_tag ++ rest) = Tag lit raw rest.
Proof.
  intros Ho Hc. set (s := lit ++ _). destruct (scan s) as [| |lit' raw' rest'] eqn:E.
  - by destruct (scan_NoTag _ E lit (raw ++ close_tag ++ rest)).
  - exfalso. unfold scan in E. destruct (index open_tag s) as [i|] eqn:Ei; [|done].
    destruct (index close_tag (drop i s)) as [j|] eqn:Ej; [done|].
    apply index_Some in Ei as Hi. destruct Hi as (Es & Hi & Hmin).
    assert (take i s = lit) as El.
    { eapply (leftmost_inj open_tag _ (drop (i + 2) s) lit); [done| |done].
      unfold leftmost. change (i + 2)%nat with (i + length open_tag)%nat. rewrite Es, length_take.
      intros k Hk. apply Hmin. lia. }
    assert (length lit = i) as <- by (rewrite <- El, length_take; lia).
    unfold s in Ej. rewrite drop_app_length in Ej.
    rewrite index_None in Ej. apply (Ej (open_tag ++ raw) rest). by rewrite <- app_assoc.
  - apply scan_Tag in E as (Es & Ho' & Hc').
    apply leftmost_inj in Es as [-> Es]; [|done..].
    by apply leftmost_inj in Es as [-> ->].
Qed.

Lemma scan_end text : (forall a b, text <> a ++ open_tag ++ b) -> scan text = NoTag.
Proof. intros Hn. unfold scan. by rewrite (proj2 (index_None _ _)). Qed.

Lemma render_loop_complete fuel vars escape rest segments out tags body :
  parses rest segments -> expand vars escape segments = Some body ->
  Forall (fun n => validateName n = None) (segment_names segments) ->
  tags + count_tags segments <= MaxTags -> len (out ++ body) <= MaxOutputBytes ->
  (length rest < fuel)%nat ->
  render_loop fuel vars escape rest out tags = Some (inl (out ++ body)).
Proof.
  intros Hp. revert fuel out tags body.
  induction Hp as [text Hn|lit raw rest segments Ho Hc Hp IH];
    intros fuel out tags body He Hv Ht Hl Hf; (destruct fuel as [|fuel]; [lia|]); cbn [render_loop].
  - rewrite scan_end by done. unfold expand in He. cbn in He.
    rewrite app_nil_r in He. injection He as <-. by rewrite (proj2 (Z.ltb_ge _ _)).
  - rewrite scan_complete by done. apply Forall_cons_1 in Hv as [Hname Hv]. rewrite Hname.
    rewrite !expand_cons in He. cbn in He.
    destruct (lookup_var (trim_space raw) vars) as [value|]; [|done]. cbn in He.
    destruct (expand vars escape segments) as [body'|] eqn:Eb; [|done].
    cbn in He. injection He as <-. rewrite count_tags_tag in Ht.
    set (v := if escape then html_escape value else value).
    replace ((if escape then html_escape else id) value) with v in * by (by destruct escape).
    pose proof (len_nonneg body') as Hb.
    rewrite !len_app in Hl. unfold count_tags in *.
    rewrite (proj2 (Z.ltb_ge _ _)) by lia. rewrite !len_app, (proj2 (Z.ltb_ge _ _)) by lia.
    rewrite (IH fuel ((out ++ lit) ++ v) (tags + 1) body');
      [by rewrite <- !app_assoc|done|done|lia|rewrite !len_app; lia|].
    rewrite !length_app in Hf. cbn in Hf. lia.
Qed.

Lemma validate_names_spec vars :
  validate_names vars = None <-> Forall (fun kv => validateName kv.1 = None) vars.
Proof.
  induction vars as [|[n v] vars IH]; cbn; [by split|].
  rewrite list.Forall_cons. cbn. destruct (validateName n); naive_solver.
Qed.

(** [Tags] collects each name at its first use. *)
Definition first_uses (acc names : list gostring) : list gostring :=
  fold_left (fun acc n => if bool_decide (n ∈ acc) then acc else acc ++ [n]) names acc.

Lemma first_uses_app_length acc names : (length acc <= length (first_uses acc names))%nat.
Proof.
  revert acc. induction names as [|n names IH]; intros acc; [done|].
  apply Nat.le_trans with (length (if bool_decide (n ∈ acc) then acc else acc ++ [n])).
  - case_bool_decide; [done|]. rewrite length_app. lia.
  - apply IH.
Qed.

Lemma tags_loop_spec fuel rest acc names :
  (length rest < fuel)%nat -> Z.of_nat (length acc) <= MaxTags ->
  tags_loop fuel rest acc = Some (inl names) <->
  exists segments, parses rest segments
    /\ Forall (fun n => validateName n = None) (segment_names segments)
    /\ names = first_uses acc (segment_names segments)
    /\ Z.of_nat (length names) <= MaxTags.
Proof.
  revert rest acc. induction fuel as [|fuel IH]; intros rest acc Hf Ha; [lia|].
  cbn [tags_loop]. destruct (scan rest) as [| |lit raw rest'] eqn:E.
  - pose proof (scan_NoTag _ E) as Hn. split.
    + intros [= <-]. exists [Lit rest]. split_and!; [by constructor|constructor|done|done].
    + intros (segs & Hp & _ & -> & _). rewrite (parses_deterministic _ _ [Lit rest] Hp); [done|].
      by constructor.
  - split; [done|]. intros (segs & Hp & _). inversion Hp as [text Hn|lit raw r segs' Ho Hc Hp' Et]; subst.
    + by rewrite scan_end in E.
    + by rewrite scan_complete in E.
  - pose proof (scan_Tag_shorter _ _ _ _ E) as Hs. apply scan_Tag in E as (-> & Ho & Hc).
    set (acc' := if bool_decide (trim_space raw ∈ acc) then acc else acc ++ [trim_space raw]).
    assert (forall segs, parses (lit ++ open_tag ++ raw ++ close_tag ++ rest') segs ->
              exists segs', segs = Lit lit :: Var (trim_space raw) :: segs' /\ parses rest' segs')
      as Hinv.
    { intros segs Hp. inversion Hp as [text Hn|l r t segs' Ho' Hc' Hp' Et]; subst.
      - by destruct (Hn lit (raw ++ close_tag ++ rest')).
      - apply (leftmost_inj open_tag l (r ++ close_tag ++ t)) in Et as [-> Et]; [|done..].
        apply (leftmost_inj close_tag r t) in Et as [-> ->]; [|done..]. eauto. }
    destruct (validateName (trim_space raw)) eqn:Ev.
    { split; [done|]. intros (segs & Hp & Hv & _). apply Hinv in Hp as (segs' & -> & _).
      apply Forall_cons_1 in Hv as [Hv _]. congruence. }
    destruct (Z.ltb_spec MaxTags (Z.of_nat (length acc'))) as [Hbig|Hsmall].
    { split; [done|]. intros (segs & Hp & _ & -> & Hl). apply Hinv in Hp as (segs' & -> & _).
      pose proof (first_uses_app_length acc' (segment_names segs')) as Hgrow.
      change (first_uses acc _) with (first_uses acc' (segment_names segs')) in Hl. lia. }
    rewrite (IH rest' acc') by (done || lia). split.
    + intros (segs & Hp & Hv & -> & Hl). exists (Lit lit :: Var (trim_space raw) :: segs).
      split_and!; [by constructor|by constructor|done|done].
    + intros (segs & Hp & Hv & -> & Hl). apply Hinv in Hp as (segs' & -> & Hp').
      exists segs'. apply Forall_cons_1 in Hv as [_ Hv]. by split_and!.
Qed.

(** ** Markup *)

(** The characters that open a tag or leave an attribute value. *)
Definition markup (c : ascii) : bool :=
  bool_decide (c = "<"%char) || bool_decide (c = ">"%char) || bool_decide (c = "'"%char)
  || (byte_val c =? 34).

Definition markup_of (s : gostring) : gostring := List.filter markup s.

Lemma html_escape_no_markup s : markup_of (html_escape s) = [].
Proof.
  induction s as [|c s IH]; [done|]. unfold html_escape in *. cbn.
  unfold markup_of in *. rewrite List.filter_app, IH, app_nil_r. by byte_cases c.
Qed.

Definition literal_text (segments : list segment) : gostring :=
  segments ≫= fun s => match s with Lit t => t | Var _ => [] end.

Lemma expand_markup vars segments out :
  expand vars true segments = Some out -> markup_of out = markup_of (literal_text segments).
Proof.
  revert out. induction segments as [|s segments IH]; intros out.
  - unfold expand. cbn. by intros [= <-].
  - rewrite expand_cons. destruct (subst_segment vars true s) as [x|] eqn:Ex; [|done].
    destruct (expand vars true segments) as [y|] eqn:Ey; [|done]. cbn. intros [= <-].
    unfold literal_text, markup_of in *. cbn. rewrite !List.filter_app, (IH y) by done.
    f_equal. destruct s as [text|name]; cbn in Ex; [by injection Ex as <-|].
    destruct (lookup_var name vars); [|done]. injection Ex as <-. apply html_escape_no_markup.
Qed.

Lemma Render_success tmpl vars escape out :
  Render tmpl vars escape = Some (inl out) ->
  exists segments, parses tmpl segments /\ expand vars escape segments = Some out.
Proof.
  unfold Render. case_match; [done|]. case_match; [done|]. case_match; [done|].
  intros (segs & body & Hp & He & -> & _)%render_loop_sound. by exists segs.
Qed.

(** ** Properties *)

(** C24: Rendering is substitution. [Render] succeeds with [out] exactly when the
    template and the variables are within their limits, every variable and tag
    name is a plain identifier, the template reads as a sequence of literals and
    at most 500 tags, all of them bound, and [out] is that sequence with each tag
    replaced by its (escaped) value, within the output limit. *)
Theorem Render_correct (tmpl : gostring) (vars : bindings) (escape : bool) (out : gostring) :
  Render tmpl vars escape = Some (inl out) <->
  len tmpl <= MaxTemplateBytes /\ Z.of_nat (length vars) <= MaxVariables
  /\ Forall (fun kv => validateName kv.1 = None) vars
  /\ exists segments, parses tmpl segments
       /\ Forall (fun n => validateName n = None) (segment_names segments)
       /\ count_tags segments <= MaxTags
       /\ expand vars escape segments = Some out
       /\ len out <= MaxOutputBytes.
Proof.
  unfold Render. destruct (Z.ltb_spec MaxTemplateBytes (len tmpl)) as [Hbig|Hs]; [by split; [|lia]|].
  destruct (Z.ltb_spec MaxVariables (Z.of_nat (length vars))); [by split; [|lia]|].
  destruct (validate_names vars) eqn:Ev.
  { split; [done|]. intros (_ & _ & Hv & _). apply validate_names_spec in Hv. congruence. }
  apply validate_names_spec in Ev. split.
  - intros (segs & body & Hp & He & -> & Ht & Hn & Hl)%render_loop_sound.
    split_and!; try done. exists segs. by split_and!.
  - intros (_ & _ & _ & segs & Hp & Hn & Ht & He & Hl).
    rewrite (render_loop_complete _ _ _ _ segs _ _ out); try done. unfold loop_fuel. lia.
Qed.

(** C40: Values cannot write markup. Two renderings of one HTML template with any
    two sets of values contain exactly the same quotes and angle brackets in the
    same order: those of the template's own text. *)
Theorem Render_markup_independent (tmpl : gostring) (vars1 vars2 : bindings) (out1 out2 : gostring) :
  Render tmpl vars1 true = Some (inl out1) -> Render tmpl vars2 true = Some (inl out2) ->
  markup_of out1 = markup_of out2.
Proof.
  intros (segs1 & Hp1 & He1)%Render_success (segs2 & Hp2 & He2)%Render_success.
  rewrite (parses_deterministic _ _ _ Hp2 Hp1) in He2.
  by rewrite (expand_markup _ _ _ He1), (expand_markup _ _ _ He2).
Qed.

(** C30: [Render] and [Tags] always return: every turn of their loops consumes a
    tag, so the fuel of the model is never exhausted. *)
Theorem Render_Tags_total (tmpl : gostring) (vars : bindings) (escape : bool) :
  is_Some (Render tmpl vars escape) /\ is_Some (Tags tmpl).
Proof.
  split.
  - unfold Render. repeat (case_match; try by eexists).
    apply render_loop_total. unfold loop_fuel. lia.
  - unfold Tags. case_match; [by eexists|]. apply tags_loop_total. unfold loop_fuel. lia.
Qed.

(** [Tags] reports exactly the names [Render] will look up, each once, in the
    order of first use, and succeeds exactly on the templates within the limits
    whose tags are closed plain identifiers. *)
Theorem Tags_correct (tmpl : gostring) (names : list gostring) :
  Tags tmpl = Some (inl names) <->
  len tmpl <= MaxTemplateBytes
  /\ exists segments, parses tmpl segments
       /\ Forall (fun n => validateName n = None) (segment_names segments)
       /\ names = first_uses [] (segment_names segments)
       /\ Z.of_nat (length names) <= MaxTags.
Proof.
  unfold Tags. destruct (Z.ltb_spec MaxTemplateBytes (len tmpl)) as [Hbig|Hs]; [by split; [|lia]|].
  rewrite tags_loop_spec; [naive_solver|unfold loop_fuel; lia|done].
Qed.

(** ** Witnesses and tests *)

Definition hello : gostring := str "<p>Hi {{ name }}</p>".

Lemma Render_markup_independent_witness :
  markup_of (str "<p>Hi &lt;b&gt;</p>") = markup_of (str "<p>Hi Sok</p>").
Proof.
  apply (Render_markup_independent hello [(str "name", str "<b>")] [(str "name", str "Sok")]);
    vm_compute; reflexivity.
Defined.

Example data_is_not_rescanned :
  Render (str "{{a}}") [(str "a", str "{{b}}"); (str "b", str "x")] false
  = Some (inl (str "{{b}}")).
Proof. vm_compute. reflexivity. Qed.

Example unknown_fails :
  Render (str "Dear {{name}},") [] false = Some (inr (UnknownVariableError (str "name"))).
Proof. vm_compute. reflexivity. Qed.

Example attribute_access_refused :
  Render (str "{{ user.name }}") [(str "user", str "x")] false
  = Some (inr (InvalidNameError (str "user.name"))).
Proof. vm_compute. reflexivity. Qed.

Example unclosed_refused : Render (str "a {{ b") [] false = Some (inr ErrUnclosedTag).
Proof. vm_compute. reflexivity. Qed.
