(* ===== verification/Crypto.v ===== *)
(** * internal/crypto and the key custody of internal/dkim

    Two implementations of one interface: [crypto.Envelope] for recipient
    addresses and [dkim.EnvelopeKeeper] for signing keys.  AES-GCM itself is a
    parameter, the class [AEAD]; the interface and its law are the class
    [KeeperLaw], which both implementations discharge and the store uses. *)

From S2P Require Import Prelude GoStrings.

(** [cipher.NewGCM] fixes the standard nonce of 12 bytes. *)
Definition NonceSize : nat := 12.

(** AES-256-GCM under a 32-byte key: what is sealed under a nonce opens under
    the same key and nonce. *)
Class AEAD := {
  aead_seal : gostring -> gostring -> gostring -> gostring;
  aead_open : gostring -> gostring -> gostring -> option gostring;
  aead_open_seal : forall key nonce plaintext, length nonce = NonceSize ->
    aead_open key nonce (aead_seal key nonce plaintext) = Some plaintext;
}.

(** The outcome of one read of the system's random source. *)
Abbreviation entropy := (result gostring).

(** [io.ReadFull(rand.Reader, make([]byte, n))] *)
Definition read_full (n : nat) (e : entropy) : result gostring :=
  match e with
  | Ok bytes => Ok (take n (bytes ++ replicate n (byte_of 0)))
  | Err err => Err (wrap_w (str "generating nonce") err)
  end.

Lemma read_full_length n e nonce : read_full n e = Ok nonce -> length nonce = n.
Proof.
  destruct e as [bytes|]; [|done]. intros [= <-].
  rewrite length_take, length_app, length_replicate. lia.
Qed.

(** The interface [crypto.Keeper] (and [dkim.Keeper]). *)
Record Keeper := {
  Wrap : entropy -> gostring -> result gostring;
  Unwrap : gostring -> result gostring;
}.

(** What every implementation promises its callers: wrapped values unwrap to
    themselves, and a wrapped value is never empty, which is how the store tells
    an encrypted row from a clear one. *)
Class KeeperLaw (k : Keeper) := {
  unwrap_wrap : forall e plaintext ciphertext,
    Wrap k e plaintext = Ok ciphertext -> Unwrap k ciphertext = Ok plaintext;
  wrap_nonempty : forall e plaintext ciphertext,
    Wrap k e plaintext = Ok ciphertext -> ciphertext <> [];
}.

Section Envelope.
Context `{AEAD}.

Definition ErrNoPlaintext : error := Error (Some crypto_ErrNoPlaintext) (str "nothing to encrypt").
Definition ErrBadCiphertext : error :=
  Error (Some crypto_ErrBadCiphertext) (str "value could not be decrypted").

(** [Envelope.Wrap]: the nonce is prepended to what it sealed. *)
Definition Envelope_Wrap (master : gostring) (e : entropy) (plaintext : gostring) : result gostring :=
  if bool_decide (plaintext = []) then Err ErrNoPlaintext
  else match read_full NonceSize e with
       | Err err => Err err
       | Ok nonce => Ok (nonce ++ aead_seal master nonce plaintext)
       end.

Definition Envelope_Unwrap (master : gostring) (ciphertext : gostring) : result gostring :=
  if (length ciphertext <? NonceSize)%nat then Err ErrBadCiphertext
  else
    let nonce := take NonceSize ciphertext in
    let body := drop NonceSize ciphertext in
    match aead_open master nonce body with
    | Some plaintext => Ok plaintext
    | None => Err ErrBadCiphertext
    end.

(** [NewEnvelope]: only 32-byte keys are accepted. *)
Definition NewEnvelope (masterKey : gostring) : result Keeper :=
  if negb (length masterKey =? 32)%nat
  then Err (errors_New (str "master key must be 32 bytes, got " ++ format_int (len masterKey)))
  else Ok {| Wrap := Envelope_Wrap masterKey; Unwrap := Envelope_Unwrap masterKey |}.

Definition ErrNoKeyMaterial : error := errors_New (str "no key material").
Definition dkim_ErrBadCiphertext : error :=
  errors_New (str "key material could not be decrypted").

Definition EnvelopeKeeper_Wrap (master : gostring) (e : entropy) (plaintext : gostring)
    : result gostring :=
  if bool_decide (plaintext = []) then Err ErrNoKeyMaterial
  else match read_full NonceSize e with
       | Err err => Err err
       | Ok nonce => Ok (nonce ++ aead_seal master nonce plaintext)
       end.

Definition EnvelopeKeeper_Unwrap (master : gostring) (ciphertext : gostring) : result gostring :=
  if (length ciphertext <? NonceSize)%nat then Err dkim_ErrBadCiphertext
  else
    let nonce := take NonceSize ciphertext in
    let body := drop NonceSize ciphertext in
    match aead_open master nonce body with
    | Some plaintext => Ok plaintext
    | None => Err dkim_ErrBadCiphertext
    end.

Definition NewEnvelopeKeeper (masterKey : gostring) : result Keeper :=
  if negb (length masterKey =? 32)%nat
  then Err (errors_New (str "master key must be 32 bytes, got " ++ format_int (len masterKey)))
  else Ok {| Wrap := EnvelopeKeeper_Wrap masterKey; Unwrap := EnvelopeKeeper_Unwrap masterKey |}.

(** Nonce and body are found again where [Wrap] put them. *)
Lemma split_nonce (nonce body : gostring) :
  length nonce = NonceSize ->
  take NonceSize (nonce ++ body) = nonce /\ drop NonceSize (nonce ++ body) = body
  /\ (length (nonce ++ body) <? NonceSize)%nat = false.
Proof.
  intros <-. rewrite take_app_length, drop_app_length. split_and!; try done.
  apply Nat.ltb_ge. rewrite length_app. lia.
Qed.

Ltac unwraps master p :=
  case_bool_decide; [done|]; destruct (read_full NonceSize _) as [nonce|] eqn:En; [|done];
  apply read_full_length in En; intros [= <-];
  destruct (split_nonce nonce (aead_seal master nonce p) En) as (-> & -> & ->);
  by rewrite aead_open_seal.

Lemma Envelope_roundtrip master e p c :
  Envelope_Wrap master e p = Ok c -> Envelope_Unwrap master c = Ok p.
Proof. unfold Envelope_Wrap, Envelope_Unwrap. unwraps master p. Qed.

Lemma EnvelopeKeeper_roundtrip master e p c :
  EnvelopeKeeper_Wrap master e p = Ok c -> EnvelopeKeeper_Unwrap master c = Ok p.
Proof. unfold EnvelopeKeeper_Wrap, EnvelopeKeeper_Unwrap. unwraps master p. Qed.

Lemma nonce_app_nonempty (nonce body : gostring) : length nonce = NonceSize -> nonce ++ body <> [].
Proof. intros En E%(f_equal length). rewrite length_app, En in E. done. Qed.

(** Both constructors produce keepers that keep the interface's promise. *)
#[global] Instance Envelope_law master :
  KeeperLaw {| Wrap := Envelope_Wrap master; Unwrap := Envelope_Unwrap master |}.
Proof.
  split; cbn.
  - apply Envelope_roundtrip.
  - intros e p c. unfold Envelope_Wrap. case_bool_decide; [done|].
    destruct (read_full NonceSize e) eqn:En; [|done]. intros [= <-].
    by eapply nonce_app_nonempty, read_full_length.
Qed.

#[global] Instance EnvelopeKeeper_law master :
  KeeperLaw {| Wrap := EnvelopeKeeper_Wrap master; Unwrap := EnvelopeKeeper_Unwrap master |}.
Proof.
  split; cbn.
  - apply EnvelopeKeeper_roundtrip.
  - intros e p c. unfold EnvelopeKeeper_Wrap. case_bool_decide; [done|].
    destruct (read_full NonceSize e) eqn:En; [|done]. intros [= <-].
    by eapply nonce_app_nonempty, read_full_length.
Qed.

Lemma NewEnvelope_law master k : NewEnvelope master = Ok k -> KeeperLaw k.
Proof. unfold NewEnvelope. case_match; [done|]. intros [= <-]. apply _. Qed.

(** A master key is accepted exactly when it has 32 bytes, by both packages. *)
Lemma NewEnvelope_ok master :
  is_ok (NewEnvelope master) = (length master =? 32)%nat
  /\ is_ok (NewEnvelopeKeeper master) = (length master =? 32)%nat.
Proof. unfold NewEnvelope, NewEnvelopeKeeper. by destruct (length master =? 32)%nat. Qed.

End Envelope.

(** A transparent AEAD that satisfies the law, to evaluate definitions with. *)
Definition clear_aead : AEAD.
Proof. refine {| aead_seal _ _ p := p; aead_open _ _ c := Some c |}. done. Defined.
