(* ===== verification/Json.v ===== *)
(** * JSON strings, as far as the development reads them back

    A reader for RFC 8259 string literals without [\u] escapes and for objects
    with one string member.  It is the reference the hand-written encoder of the
    store is proved against, and what the PostgreSQL model's [->>] agrees with. *)

From S2P Require Import Prelude Utf8 GoStrings.
Local Open Scope Z_scope.

Definition dquote : ascii := "034"%char.
Definition backslash : ascii := "092"%char.

(** The character an escape stands for. *)
Definition unescape_char (c : ascii) : option ascii :=
  if decide (c = dquote) then Some dquote
  else if decide (c = backslash) then Some backslash
  else if decide (c = "/"%char) then Some "/"%char
  else if decide (c = "b"%char) then Some "008"%char
  else if decide (c = "f"%char) then Some "012"%char
  else if decide (c = "n"%char) then Some "010"%char
  else if decide (c = "r"%char) then Some "013"%char
  else if decide (c = "t"%char) then Some "009"%char
  else None.

(** Reads to the closing quote; the value and what follows it. *)
Fixpoint json_string_tail (s : gostring) : option (gostring * gostring) :=
  match s with
  | [] => None
  | c :: s' =>
      if decide (c = dquote) then Some ([], s')
      else if decide (c = backslash) then
        match s' with
        | [] => None
        | e :: s'' =>
            match unescape_char e, json_string_tail s'' with
            | Some x, Some (v, rest) => Some (x :: v, rest)
            | _, _ => None
            end
        end
      else if byte_val c <? 32 then None
      else match json_string_tail s' with
           | Some (v, rest) => Some (c :: v, rest)
           | None => None
           end
  end.

Definition json_string (s : gostring) : option (gostring * gostring) :=
  match s with
  | c :: s' => if decide (c = dquote) then json_string_tail s' else None
  | [] => None
  end.

(** [{"key":"value"}] *)
Definition json_single (s : gostring) : option (gostring * gostring) :=
  match s with
  | c :: s' =>
      if decide (c = "{"%char) then
        match json_string s' with
        | Some (k, d :: s'') =>
            if decide (d = ":"%char) then
              match json_string s'' with
              | Some (v, [e]) => if decide (e = "}"%char) then Some (k, v) else None
              | _ => None
              end
            else None
        | _ => None
        end
      else None
  | [] => None
  end.
