(* ===== verification/GoJson.v ===== *)
(** * encoding/json: the encoder and decoder of the values the source exchanges

    Strings, lists of strings, maps of strings and raw messages.  The encoder
    escapes HTML characters and replaces invalid UTF-8, as Go's default does.
    The decoder is the scanner's grammar read value by value: a value is the text
    it occupies, so a [json.RawMessage] is a value, and the members of an object
    are pairs of a decoded key and a value.  Decoding errors are [None]. *)

From stdpp Require Import sorting.
From S2P Require Import Prelude Utf8 GoStrings Sha256 Json.
Local Open Scope Z_scope.

(** ** Encoding *)

(** [htmlSafeSet] *)
Definition html_safe (b : Z) : bool :=
  (32 <=? b) && negb (existsb (Z.eqb b) [34; 38; 60; 62; 92]).

Definition hex2 (b : Z) : gostring := [hex_digit (b / 16); hex_digit (b mod 16)].

Definition unicode_escape (r : Z) : gostring :=
  backslash :: "u"%char :: hex2 (r / 256) ++ hex2 (r mod 256).

(** One rune of [appendString], with the bytes it was read from. *)
Definition append_rune (r : Z) (u : gostring) : gostring :=
  if r <? 128 then
    if html_safe r then u
    else if (r =? 34) || (r =? 92) then backslash :: u
    else if r =? 8 then [backslash; "b"%char]
    else if r =? 12 then [backslash; "f"%char]
    else if r =? 10 then [backslash; "n"%char]
    else if r =? 13 then [backslash; "r"%char]
    else if r =? 9 then [backslash; "t"%char]
    else unicode_escape r
  else if (r =? RuneError) && (length u =? 1)%nat then unicode_escape RuneError
  else if (r =? 8232) || (r =? 8233) then unicode_escape r
  else u.

Definition append_runes (l : list (Z * gostring)) : gostring := l ≫= fun '(r, u) => append_rune r u.

Definition json_of_string (s : gostring) : gostring :=
  dquote :: append_runes (segs s) ++ [dquote].

(** A nil slice is [null]; the model does not tell it from an empty one. *)
Definition json_of_strings (l : list gostring) : gostring :=
  match l with
  | [] => str "null"
  | _ => "["%char :: join (json_of_string <$> l) [","%char] ++ ["]"%char]
  end.

(** An object from its members, already encoded. *)
Definition json_of_members (l : list (gostring * gostring)) : gostring :=
  "{"%char :: join ((fun '(k, v) => json_of_string k ++ ":"%char :: v) <$> l) [","%char] ++ ["}"%char].

(** [<=] of Go's strings *)
Fixpoint string_le (a b : gostring) : bool :=
  match a, b with
  | [], _ => true
  | _ :: _, [] => false
  | x :: a', y :: b' =>
      (byte_val x <? byte_val y) || ((byte_val x =? byte_val y) && string_le a' b')
  end.

Definition member_le (x y : gostring * gostring) : Prop := string_le x.1 y.1 = true.

#[global] Instance member_le_dec : RelDecision member_le.
Proof. intros x y. unfold member_le. apply _. Defined.

(** A map is written in the order of its keys. *)
Definition sorted_members (m : gmap gostring gostring) : list (gostring * gostring) :=
  merge_sort member_le (map_to_list m).

Definition json_of_map (m : gmap gostring gostring) : gostring :=
  json_of_members ((fun '(k, v) => (k, json_of_string v)) <$> sorted_members m).

(** ** Scanning *)

Definition is_json_space (c : ascii) : bool :=
  bool_decide (c = " "%char \/ c = "009"%char \/ c = "010"%char \/ c = "013"%char).

Definition skip_ws (s : gostring) : gostring := drop_while is_json_space s.

Definition hex_value (c : ascii) : option Z :=
  let b := byte_val c in
  if in_range 48 57 b then Some (b - 48)
  else if in_range 97 102 b then Some (b - 87)
  else if in_range 65 70 b then Some (b - 55)
  else None.

(** [getu4], after the backslash and the u *)
Definition hex4 (s : gostring) : option (Z * gostring) :=
  match s with
  | a :: b :: c :: d :: rest =>
      match hex_value a, hex_value b, hex_value c, hex_value d with
      | Some a, Some b, Some c, Some d => Some (((a * 16 + b) * 16 + c) * 16 + d, rest)
      | _, _, _, _ => None
      end
  | _ => None
  end.

(** What follows a backslash.  A high surrogate joins the low one escaped right
    after it; a surrogate on its own is U+FFFD. *)
Definition escape (s : gostring) : option (Z * gostring) :=
  match s with
  | [] => None
  | c :: t =>
      if decide (c = "u"%char) then
        match hex4 t with
        | None => None
        | Some (r, t') =>
            if in_range 55296 57343 r then
              match t' with
              | x :: y :: t'' =>
                  match (if bool_decide (x = backslash /\ y = "u"%char) then hex4 t'' else None) with
                  | Some (r', t3) =>
                      if (r <? 56320) && in_range 56320 57343 r'
                      then Some ((r - 55296) * 1024 + (r' - 56320) + 65536, t3)
                      else Some (RuneError, t')
                  | None => Some (RuneError, t')
                  end
              | _ => Some (RuneError, t')
              end
            else Some (r, t')
        end
      else match unescape_char c with Some x => Some (byte_val x, t) | None => None end
  end.

(** The runes up to the closing quote, and what follows it. *)
Fixpoint string_tail (fuel : nat) (s : gostring) : option (list Z * gostring) :=
  match fuel with
  | O => None
  | S fuel =>
      match decode_rune s with
      | None => None
      | Some (r, _, s') =>
          if r =? 34 then Some ([], s')
          else
            match (if r =? 92 then escape s' else if r <? 32 then None else Some (r, s')) with
            | None => None
            | Some (r', t) =>
                match string_tail fuel t with
                | Some (rs, rest) => Some (r' :: rs, rest)
                | None => None
                end
            end
      end
  end.

Definition scan_string (s : gostring) : option (gostring * gostring) :=
  match s with
  | c :: t =>
      if decide (c = dquote) then
        match string_tail (length t) t with
        | Some (rs, rest) => Some (encode_runes rs, rest)
        | None => None
        end
      else None
  | [] => None
  end.

Definition skip_digits (s : gostring) : gostring := drop_while is_digit s.

(** At least one digit. *)
Definition some_digits (s : gostring) : option gostring :=
  match s with c :: t => if is_digit c then Some (skip_digits t) else None | [] => None end.

Definition scan_integer (s : gostring) : option gostring :=
  match s with
  | c :: t => if decide (c = "0"%char) then Some t else some_digits s
  | [] => None
  end.

Definition scan_fraction (s : gostring) : option gostring :=
  match s with c :: t => if decide (c = "."%char) then some_digits t else Some s | [] => Some s end.

Definition scan_exponent (s : gostring) : option gostring :=
  match s with
  | c :: t =>
      if decide (c = "e"%char \/ c = "E"%char) then
        match t with
        | d :: u => some_digits (if decide (d = "+"%char \/ d = "-"%char) then u else t)
        | [] => None
        end
      else Some s
  | [] => Some s
  end.

Definition scan_number (s : gostring) : option gostring :=
  let unsigned := match s with c :: t => if decide (c = "-"%char) then t else s | [] => s end in
  match scan_integer unsigned with
  | None => None
  | Some t => match scan_fraction t with None => None | Some u => scan_exponent u end
  end.

(** The text between two positions of the input. *)
Definition upto (s rest : gostring) : gostring := take (length s - length rest) s.

(** The members of an object, from its first key; [value] is the scanner of the
    values.  Answers what follows the closing brace too. *)
Fixpoint members_with (value : gostring -> option gostring) (fuel : nat) (s : gostring)
    : option (list (gostring * gostring) * gostring) :=
  match fuel with
  | O => None
  | S fuel =>
      match scan_string (skip_ws s) with
      | None => None
      | Some (key, s1) =>
          match skip_ws s1 with
          | c :: s2 =>
              if decide (c = ":"%char) then
                let s3 := skip_ws s2 in
                match value s3 with
                | None => None
                | Some s4 =>
                    match skip_ws s4 with
                    | d :: s5 =>
                        if decide (d = "}"%char) then Some ([(key, upto s3 s4)], s5)
                        else if decide (d = ","%char) then
                          match members_with value fuel s5 with
                          | Some (l, rest) => Some ((key, upto s3 s4) :: l, rest)
                          | None => None
                          end
                        else None
                    | [] => None
                    end
                end
              else None
          | [] => None
          end
      end
  end.

(** The elements of an array, from the first one. *)
Fixpoint elements_with (value : gostring -> option gostring) (fuel : nat) (s : gostring)
    : option (list gostring * gostring) :=
  match fuel with
  | O => None
  | S fuel =>
      let s3 := skip_ws s in
      match value s3 with
      | None => None
      | Some s4 =>
          match skip_ws s4 with
          | d :: s5 =>
              if decide (d = "]"%char) then Some ([upto s3 s4], s5)
              else if decide (d = ","%char) then
                match elements_with value fuel s5 with
                | Some (l, rest) => Some (upto s3 s4 :: l, rest)
                | None => None
                end
              else None
          | [] => None
          end
      end
  end.

(** After the opening brace or bracket; the collection may be empty. *)
Definition scan_members (value : gostring -> option gostring) (s : gostring)
    : option (list (gostring * gostring) * gostring) :=
  match skip_ws s with
  | c :: t => if decide (c = "}"%char) then Some ([], t) else members_with value (length s) s
  | [] => None
  end.

Definition scan_elements (value : gostring -> option gostring) (s : gostring)
    : option (list gostring * gostring) :=
  match skip_ws s with
  | c :: t => if decide (c = "]"%char) then Some ([], t) else elements_with value (length s) s
  | [] => None
  end.

(** What follows the value at the head of the input.  The recursion is on the
    depth still allowed. *)
Fixpoint scan_value (depth : nat) (s : gostring) : option gostring :=
  match s with
  | [] => None
  | c :: t =>
      if decide (c = dquote) then snd <$> scan_string s
      else if decide (c = "{"%char) then
        match depth with O => None | S depth => snd <$> scan_members (scan_value depth) t end
      else if decide (c = "["%char) then
        match depth with O => None | S depth => snd <$> scan_elements (scan_value depth) t end
      else if has_prefix (str "null") s then Some (drop 4 s)
      else if has_prefix (str "true") s then Some (drop 4 s)
      else if has_prefix (str "false") s then Some (drop 5 s)
      else scan_number s
  end.

Definition maxNestingDepth : nat := Z.to_nat 10000.

(** ** Decoding *)

(** [json.Unmarshal] reads one value and nothing after it. *)
Definition whole_value (s : gostring) : option gostring :=
  let s := skip_ws s in
  match scan_value maxNestingDepth s with
  | Some rest => if bool_decide (skip_ws rest = []) then Some (upto s rest) else None
  | None => None
  end.

(** [Decoder.Decode] reads one value and leaves what follows. *)
Definition first_value (s : gostring) : option gostring :=
  let s := skip_ws s in upto s <$> scan_value maxNestingDepth s.

Definition is_null (raw : gostring) : bool := bool_decide (raw = str "null").

(** Into a string that holds [old]: [null] leaves it. *)
Definition decode_string (old raw : gostring) : option gostring :=
  if is_null raw then Some old else fst <$> scan_string raw.

Definition decode_elements (raw : gostring) : option (list gostring) :=
  match raw with
  | c :: t => if decide (c = "["%char) then fst <$> scan_elements (scan_value maxNestingDepth) t else None
  | [] => None
  end.

Definition decode_members (raw : gostring) : option (list (gostring * gostring)) :=
  match raw with
  | c :: t => if decide (c = "{"%char) then fst <$> scan_members (scan_value maxNestingDepth) t else None
  | [] => None
  end.

(** Into a [[]string], whose elements start empty. *)
Definition decode_strings (raw : gostring) : option (list gostring) :=
  if is_null raw then Some [] else decode_elements raw ≫= mapM (decode_string []).

Fixpoint insert_members (l : list (gostring * gostring)) (m : gmap gostring gostring)
    : option (gmap gostring gostring) :=
  match l with
  | [] => Some m
  | (k, raw) :: l' => decode_string [] raw ≫= fun v => insert_members l' (<[k := v]> m)
  end.

(** Into a [map[string]string]: [null] makes it nil, an object adds to it. *)
Definition decode_map (old : option (gmap gostring gostring)) (raw : gostring)
    : option (option (gmap gostring gostring)) :=
  if is_null raw then Some None
  else decode_members raw ≫= fun l => Some <$> insert_members l (default ∅ old).

(** [json.Unmarshal] into a fresh variable of each type. *)
Definition unmarshal_string (s : gostring) : option gostring := whole_value s ≫= decode_string [].
Definition unmarshal_list (s : gostring) : option (list gostring) := whole_value s ≫= decode_strings.
Definition unmarshal_map (s : gostring) : option (gmap gostring gostring) :=
  default ∅ <$> (whole_value s ≫= decode_map None).

(** ** What the encoder writes, the decoder reads *)

Lemma decode_append_ascii (n : nat) rest fuel :
  (n < 128)%nat ->
  string_tail (S fuel) (append_rune (Z.of_nat n) [byte_of (Z.of_nat n)] ++ rest)
  = match string_tail fuel rest with Some (rs, t) => Some (Z.of_nat n :: rs, t) | None => None end.
Proof. do 128 (destruct n as [|n]; [reflexivity|]). lia. Qed.

Lemma append_rune_plain r :
  valid_rune r = true -> 128 <= r -> r <> 8232 -> r <> 8233 -> append_rune r (encode_rune r) = encode_rune r.
Proof.
  intros Hv H1 H2 H3. unfold append_rune.
  rewrite (proj2 (Z.ltb_ge _ _)), (proj2 (Z.eqb_neq r 8232)), (proj2 (Z.eqb_neq r 8233)) by lia.
  destruct (Z.eqb_spec r RuneError) as [->|]; done.
Qed.

Lemma string_tail_append r rest fuel :
  valid_rune r = true ->
  string_tail (S fuel) (append_rune r (encode_rune r) ++ rest)
  = match string_tail fuel rest with Some (rs, t) => Some (r :: rs, t) | None => None end.
Proof.
  intros Hv. pose proof (proj1 (valid_rune_range r) Hv) as Hr.
  destruct (Z.ltb_spec r 128) as [Hlt|Hge].
  - pose proof (decode_append_ascii (Z.to_nat r) rest fuel ltac:(lia)) as E.
    rewrite Z2Nat.id in E by lia.
    replace (encode_rune r) with [byte_of r]; [exact E|].
    symmetry. rewrite <- (byte_val_of r) at 1 by lia. apply encode_ascii. rewrite byte_val_of by lia. done.
  - destruct (decide (r = 8232)) as [->|H1]; [done|].
    destruct (decide (r = 8233)) as [->|H2]; [done|].
    rewrite append_rune_plain by done. cbn [string_tail]. rewrite decode_encode, scalar_id by done.
    rewrite (proj2 (Z.eqb_neq r 34)), (proj2 (Z.eqb_neq r 92)), (proj2 (Z.ltb_ge r 32)) by lia. done.
Qed.

Lemma encode_rune_nonempty r : encode_rune r <> [].
Proof. pose proof (decode_encode r []) as E. by apply decode_rune_app in E as [_ ?]. Qed.

Definition read_as (x : Z * gostring) : Prop :=
  (x.2 = encode_rune x.1 /\ valid_rune x.1 = true) \/ (x.1 = RuneError /\ length x.2 = 1%nat).

Lemma string_tail_seg r u rest fuel :
  read_as (r, u) ->
  string_tail (S fuel) (append_rune r u ++ rest)
  = match string_tail fuel rest with Some (rs, t) => Some (r :: rs, t) | None => None end.
Proof.
  intros [[Hu Hv]|[Hr Hl]]; cbn [fst snd] in *; subst; [by apply string_tail_append|].
  unfold append_rune. rewrite Hl. reflexivity.
Qed.

Lemma append_rune_nonempty r u : read_as (r, u) -> append_rune r u <> [].
Proof.
  intros Hu. assert (u <> []).
  { destruct Hu as [[Hu _]|[_ Hu]]; cbn in Hu; [subst; apply encode_rune_nonempty|by destruct u]. }
  unfold append_rune, unicode_escape. by repeat case_match.
Qed.

Lemma string_tail_segs l rest fuel :
  Forall read_as l -> (length l < fuel)%nat ->
  string_tail fuel (append_runes l ++ dquote :: rest) = Some (l.*1, rest).
Proof.
  intros Hl. revert fuel. induction Hl as [|[r u] l Hr Hl IH]; intros fuel Hf; (destruct fuel as [|fuel]; [lia|]).
  - done.
  - unfold append_runes in *. rewrite bind_cons, <- app_assoc.
    rewrite string_tail_seg by done. rewrite IH by (cbn in Hf; lia). done.
Qed.

Lemma append_runes_length l : Forall read_as l -> (length l <= length (append_runes l))%nat.
Proof.
  induction 1 as [|[r u] l Hu _ IH]; [done|]. unfold append_runes in *. rewrite bind_cons, length_app. cbn.
  pose proof (append_rune_nonempty r u Hu). destruct (append_rune r u); [done|]. cbn. lia.
Qed.

(** What is left of a string: the encoder replaces each invalid byte by U+FFFD. *)
Definition to_valid (s : gostring) : gostring := encode_runes (runes s).

Lemma to_valid_id s : valid_utf8 s = true -> to_valid s = s.
Proof. apply valid_utf8_encode. Qed.

Lemma scan_string_encoded s rest : scan_string (json_of_string s ++ rest) = Some (to_valid s, rest).
Proof.
  unfold json_of_string, scan_string. cbn [app]. rewrite decide_True by done.
  rewrite <- app_assoc. cbn [app].
  assert (Forall read_as (segs s)) as Hs.
  { eapply list.Forall_impl; [apply segs_cases|]. by intros []. }
  rewrite string_tail_segs; [done|done|]. rewrite length_app. cbn. pose proof (append_runes_length _ Hs). lia.
Qed.

(** A text that is a value wherever it stands. *)
Record is_value (value : gostring -> option gostring) (w : gostring) : Prop := {
  value_scanned rest : value (w ++ rest) = Some rest;
  value_at_once rest : skip_ws (w ++ rest) = w ++ rest;
  value_head : exists c w', w = c :: w' /\ c <> "]"%char;
}.

Lemma is_value_string depth s : is_value (scan_value depth) (json_of_string s).
Proof.
  split; [intros rest|done|by eexists _, _].
  pose proof (scan_string_encoded s rest) as E. unfold json_of_string in *. cbn [app] in *.
  destruct depth; cbn [scan_value]; rewrite decide_True by done; by rewrite E.
Qed.

Lemma upto_app (w rest : gostring) : upto (w ++ rest) rest = w.
Proof. unfold upto. rewrite length_app, Nat.add_sub. by rewrite take_app_length. Qed.

Lemma elements_encoded value ws rest fuel :
  ws <> [] -> Forall (is_value value) ws -> (length ws <= fuel)%nat ->
  elements_with value fuel (join ws [","%char] ++ "]"%char :: rest) = Some (ws, rest).
Proof.
  intros Hne Hws. revert fuel. induction Hws as [|w ws [Hv Hat _] Hws IH]; intros fuel Hf; [done|].
  destruct fuel as [|fuel]; [cbn in Hf; lia|]. cbn [elements_with]. destruct ws as [|w' ws].
  - cbn [join]. rewrite Hat, Hv, upto_app. done.
  - change (join (w :: w' :: ws) [","%char]) with (w ++ ","%char :: join (w' :: ws) [","%char]).
    rewrite <- app_assoc. cbn [app]. rewrite Hat, Hv, upto_app. cbn [skip_ws drop_while].
    change (is_json_space ","%char) with false. cbn iota. rewrite decide_False, decide_True by done.
    rewrite IH; [done|done|cbn in *; lia].
Qed.

Definition member_text (x : gostring * gostring) : gostring := json_of_string x.1 ++ ":"%char :: x.2.

(** The members as the decoder names them. *)
Definition read_keys (l : list (gostring * gostring)) : list (gostring * gostring) :=
  (fun x => (to_valid x.1, x.2)) <$> l.

Lemma read_keys_id l : Forall (fun x => valid_utf8 x.1 = true) l -> read_keys l = l.
Proof.
  induction 1 as [|[k v] l Hk Hl IH]; [done|]. cbn [read_keys fmap list_fmap fst snd] in *.
  unfold read_keys in IH. by rewrite to_valid_id, IH.
Qed.

Lemma members_encoded value l rest fuel :
  l <> [] -> Forall (fun x => is_value value x.2) l -> (length l <= fuel)%nat ->
  members_with value fuel (join (member_text <$> l) [","%char] ++ "}"%char :: rest) = Some (read_keys l, rest).
Proof.
  intros Hne Hl. revert fuel. induction Hl as [|[k w] l [Hv Hat _] Hl IH]; intros fuel Hf; [done|].
  destruct fuel as [|fuel]; [cbn in Hf; lia|]. cbn [members_with fst snd] in *. destruct l as [|x l].
  - cbn [join fmap list_fmap]. unfold member_text. cbn [fst snd]. rewrite <- app_assoc. cbn [app].
    change (skip_ws (json_of_string k ++ ?t)) with (json_of_string k ++ t).
    rewrite scan_string_encoded. cbn [skip_ws drop_while].
    change (is_json_space ":"%char) with false. cbn iota. rewrite decide_True by done.
    fold (skip_ws (w ++ "}"%char :: rest)). rewrite Hat, Hv, upto_app. done.
  - change (join (member_text <$> (k, w) :: x :: l) [","%char])
      with (member_text (k, w) ++ ","%char :: join (member_text <$> x :: l) [","%char]).
    unfold member_text at 1. cbn [fst snd]. rewrite <- !app_assoc. cbn [app].
    set (more := join _ _ ++ _).
    change (skip_ws (json_of_string k ++ ?t)) with (json_of_string k ++ t).
    rewrite scan_string_encoded. cbn [skip_ws drop_while].
    change (is_json_space ":"%char) with false. cbn iota. rewrite decide_True by done.
    fold (skip_ws (w ++ ","%char :: more)). rewrite Hat, Hv, upto_app. cbn [skip_ws drop_while].
    change (is_json_space ","%char) with false. cbn iota. rewrite decide_False, decide_True by done.
    unfold more. rewrite IH; [done|done|cbn in *; lia].
Qed.

Lemma join_length ws sep : Forall (fun w : gostring => w <> []) ws -> (length ws <= length (join ws sep))%nat.
Proof.
  induction 1 as [|w ws Hw _ IH]; [done|]. destruct w as [|c w]; [done|].
  destruct ws; cbn [join length] in *; rewrite ?length_app; cbn [length]; rewrite ?length_app; lia.
Qed.

Lemma scan_elements_encoded value ws rest :
  Forall (is_value value) ws ->
  scan_elements value (join ws [","%char] ++ "]"%char :: rest) = Some (ws, rest).
Proof.
  intros Hws. unfold scan_elements. destruct ws as [|w ws]; [done|].
  set (t := join (w :: ws) [","%char] ++ "]"%char :: rest).
  assert (exists u, t = w ++ u) as [u Hu].
  { unfold t. destruct ws; cbn [join]; [eauto|]. rewrite <- app_assoc. eauto. }
  destruct (Forall_inv Hws) as [_ Hat (c & w' & -> & Hc)]. rewrite Hu at 1. rewrite Hat. cbn [app].
  rewrite decide_False by done. unfold t. apply elements_encoded; [done|done|].
  rewrite length_app. etrans; [apply (join_length _ [","%char])|lia].
  eapply list.Forall_impl; [exact Hws|]. by intros ? [_ _ (? & ? & -> & _)].
Qed.

Lemma scan_members_encoded value l rest :
  Forall (fun x => is_value value x.2) l ->
  scan_members value (join (member_text <$> l) [","%char] ++ "}"%char :: rest) = Some (read_keys l, rest).
Proof.
  intros Hl. destruct l as [|x l]; [done|]. unfold scan_members.
  set (t := join _ _ ++ _).
  assert (exists u, t = dquote :: u) as [u Hu] by (unfold t; destruct l; cbn; eauto).
  rewrite Hu at 1. cbn [skip_ws drop_while]. change (is_json_space dquote) with false. cbn iota.
  rewrite decide_False by done. unfold t. apply members_encoded; [done|done|].
  rewrite length_app. pose proof (join_length (member_text <$> x :: l) [","%char]) as Hj.
  rewrite length_fmap in Hj. etrans; [apply Hj|cbn; lia]. apply Forall_fmap, Forall_true. done.
Qed.

Lemma maxNestingDepth_S : exists d, maxNestingDepth = S d.
Proof. exists (Z.to_nat 9999). reflexivity. Qed.

#[global] Opaque maxNestingDepth.

(** The encoder's arrays and objects are values in turn. *)
Lemma is_value_array depth ws :
  Forall (is_value (scan_value depth)) ws ->
  is_value (scan_value (S depth)) ("["%char :: join ws [","%char] ++ ["]"%char]).
Proof.
  intros Hws. split; [intros rest|done|by eexists _, _].
  cbn [app scan_value]. rewrite <- app_assoc. cbn [app]. rewrite !decide_False, decide_True by done.
  by rewrite scan_elements_encoded.
Qed.

Lemma json_of_members_text l :
  json_of_members l = "{"%char :: join (member_text <$> l) [","%char] ++ ["}"%char].
Proof. unfold json_of_members. do 3 f_equal. apply list_fmap_ext. by intros ? []. Qed.

Lemma is_value_object depth l :
  Forall (fun x => is_value (scan_value depth) x.2) l ->
  is_value (scan_value (S depth)) (json_of_members l).
Proof.
  intros Hl. rewrite json_of_members_text. split; [intros rest|done|by eexists _, _].
  cbn [app scan_value]. rewrite <- app_assoc. cbn [app]. rewrite decide_False, decide_True by done.
  by rewrite scan_members_encoded.
Qed.

Lemma whole_value_is w : is_value (scan_value maxNestingDepth) w -> whole_value w = Some w.
Proof.
  intros [Hv Hat _]. specialize (Hv []). specialize (Hat []). rewrite app_nil_r in *.
  unfold whole_value. rewrite Hat, Hv. unfold upto. rewrite Nat.sub_0_r, firstn_all. done.
Qed.

Lemma decode_string_encoded old s : decode_string old (json_of_string s) = Some (to_valid s).
Proof.
  unfold decode_string, is_null. rewrite bool_decide_eq_false_2 by done.
  pose proof (scan_string_encoded s []) as E. rewrite app_nil_r in E. by rewrite E.
Qed.

Lemma is_value_strings depth l : Forall (is_value (scan_value depth)) (json_of_string <$> l).
Proof. apply Forall_fmap, Forall_true. intros s. apply is_value_string. Qed.

(** [json.Unmarshal] of [json.Marshal], for each type the source marshals. *)
Lemma unmarshal_string_encoded s : unmarshal_string (json_of_string s) = Some (to_valid s).
Proof.
  unfold unmarshal_string. rewrite whole_value_is by apply is_value_string. by apply decode_string_encoded.
Qed.

Lemma decode_strings_encoded l : decode_strings (json_of_strings l) = Some (to_valid <$> l).
Proof.
  destruct l as [|s l']; [reflexivity|]. destruct maxNestingDepth_S as [d Ed].
  pose proof (is_value_strings (S d) (s :: l')) as HS.
  unfold decode_strings, is_null, json_of_strings, decode_elements.
  rewrite bool_decide_eq_false_2, decide_True by done. rewrite Ed, scan_elements_encoded by done.
  cbn [fmap option_fmap option_map fst mbind option_bind]. clear. generalize (s :: l') as l.
  induction l as [|x l IH]; [done|].
  cbn [fmap list_fmap mapM]. rewrite decode_string_encoded. cbn [mbind option_bind]. by rewrite IH.
Qed.

Lemma is_value_list depth l : is_value (scan_value (S depth)) (json_of_strings l).
Proof.
  destruct l; [|apply is_value_array, is_value_strings].
  split; [by intros rest|done|by eexists _, _].
Qed.

Lemma unmarshal_list_encoded l : unmarshal_list (json_of_strings l) = Some (to_valid <$> l).
Proof.
  destruct maxNestingDepth_S as [d Ed]. unfold unmarshal_list.
  rewrite whole_value_is by (rewrite Ed; apply is_value_list). apply decode_strings_encoded.
Qed.

Lemma to_valid_all l : Forall (fun s => valid_utf8 s = true) l -> to_valid <$> l = l.
Proof. induction 1 as [|s l Hs _ IH]; [done|]. cbn. by rewrite to_valid_id, IH. Qed.

Lemma insert_members_encoded l m0 :
  NoDup l.*1 -> Forall (fun x => valid_utf8 x.2 = true) l ->
  insert_members ((fun '(k, v) => (k, json_of_string v)) <$> l) m0 = Some (list_to_map l ∪ m0).
Proof.
  intros Hnd Hl. revert m0 Hnd. induction Hl as [|[k v] l Hv Hl IH]; intros m0 Hnd.
  { cbn. by rewrite (left_id_L ∅ (∪)). }
  cbn [fmap list_fmap insert_members fst snd] in *. apply list.NoDup_cons in Hnd as [Hk Hnd].
  rewrite decode_string_encoded, to_valid_id by done. cbn [mbind option_bind]. rewrite IH by done.
  f_equal. cbn [list_to_map foldr]. rewrite <- insert_union_l, <- insert_union_r; [done|].
  by apply not_elem_of_list_to_map_1.
Qed.

Lemma sorted_members_perm m : Permutation (sorted_members m) (map_to_list m).
Proof. apply merge_sort_Permutation. Qed.

Definition valid_member (x : gostring * gostring) : Prop := valid_utf8 x.1 = true /\ valid_utf8 x.2 = true.

Lemma is_value_members depth (l : list (gostring * gostring)) :
  Forall (fun x => is_value (scan_value depth) x.2) ((fun '(k, v) => (k, json_of_string v)) <$> l).
Proof. apply Forall_fmap, Forall_true. intros [k v]. apply is_value_string. Qed.

Lemma is_value_map depth m : is_value (scan_value (S depth)) (json_of_map m).
Proof. apply is_value_object, is_value_members. Qed.

(** An object's members, read back. *)
Lemma decode_members_encoded l :
  (forall depth, Forall (fun x => is_value (scan_value (S depth)) x.2) l) ->
  decode_members (json_of_members l) = Some (read_keys l).
Proof.
  intros Hl. destruct maxNestingDepth_S as [d Ed].
  rewrite json_of_members_text. unfold decode_members. rewrite decide_True by done.
  rewrite Ed, scan_members_encoded by done. done.
Qed.

Lemma decode_map_encoded m :
  map_Forall (fun k v => valid_member (k, v)) m -> decode_map None (json_of_map m) = Some (Some m).
Proof.
  intros Hm.
  assert (Forall valid_member (sorted_members m)) as Hl.
  { rewrite sorted_members_perm. apply list.Forall_forall. intros [k v] Hin%elem_of_map_to_list. by apply Hm. }
  unfold decode_map, is_null. rewrite bool_decide_eq_false_2 by done.
  unfold json_of_map. rewrite decode_members_encoded by (intros; apply is_value_members).
  cbn [mbind option_bind]. rewrite read_keys_id.
  2:{ apply Forall_fmap. eapply list.Forall_impl; [exact Hl|]. by intros [k v] [? _]. }
  rewrite insert_members_encoded.
  - cbn. do 2 f_equal. rewrite (right_id_L ∅ (∪)). rewrite <- (list_to_map_to_list m) at 2.
    apply list_to_map_proper; [|apply sorted_members_perm].
    rewrite sorted_members_perm. apply NoDup_fst_map_to_list.
  - rewrite sorted_members_perm. apply NoDup_fst_map_to_list.
  - eapply list.Forall_impl; [exact Hl|]. by intros [k v] [_ ?].
Qed.

Lemma unmarshal_map_encoded m :
  map_Forall (fun k v => valid_member (k, v)) m -> unmarshal_map (json_of_map m) = Some m.
Proof.
  intros Hm. destruct maxNestingDepth_S as [d Ed].
  unfold unmarshal_map. rewrite whole_value_is by (rewrite Ed; apply is_value_map).
  cbn [mbind option_bind]. by rewrite decode_map_encoded.
Qed.

(** The value of the first member of that name. *)
Definition member (key body : gostring) : option gostring :=
  decode_members body ≫= fun l => snd <$> List.find (fun x => bool_decide (x.1 = key)) l.

Definition string_member (key body : gostring) : option gostring := member key body ≫= decode_string [].

(** Picks the member of a literal object by its literal name. *)
Ltac find_member :=
  cbn -[str decode_string decode_strings decode_map json_of_string json_of_strings json_of_map];
  repeat match goal with
    | |- context [bool_decide (str ?a = str ?b)] =>
        let v := eval vm_compute in (bool_decide (str a = str b)) in
        change (bool_decide (str a = str b)) with v; cbn iota
    end;
  cbn [fmap option_fmap option_map snd mbind option_bind].

(** ** Examples *)

Example marshal_escapes :
  json_of_string (str "a<b> & \") = dquote :: str "a\u003cb\u003e \u0026 \\" ++ [dquote].
Proof. reflexivity. Qed.

Example invalid_bytes_are_replaced :
  json_of_string [byte_of 255] = dquote :: str "\ufffd" ++ [dquote].
Proof. reflexivity. Qed.

(** A surrogate pair, a [null] element and white space. *)
Example list_read :
  unmarshal_list (str " [" ++ dquote :: str "\u0041\ud83d\ude00" ++ dquote :: str " , null ] ")
  = Some [str "A" ++ (byte_of <$> [240; 159; 152; 128]); []].
Proof. vm_compute. reflexivity. Qed.

Example trailing_data_refused : unmarshal_list (str "[] x") = None.
Proof. vm_compute. reflexivity. Qed.

Example decoder_leaves_the_rest : first_value (str " [1.5e3,{}] x") = Some (str "[1.5e3,{}]").
Proof. vm_compute. reflexivity. Qed.
