(* ===== verification/Schema.v ===== *)
(** * migrations/*.sql: the tables, and what the code relies on of PostgreSQL

    One record per table with the columns the migrations declare, one [DB] of
    finite maps keyed by the primary (or, for suppressions, the unique) key.
    Times are nanoseconds since the epoch.  What PostgreSQL does beyond storing
    rows (ordering, JSONB input, the text of a constraint violation) is the
    class [Postgres], with an instance to evaluate queries with. *)

From Stdlib Require Export Sorted.
From S2P Require Import Prelude Utf8 GoStrings Json.
Local Open Scope Z_scope.

(** ** Durations *)

Definition Millisecond : Z := 1000000.
Definition Second : Z := 1000 * Millisecond.
Definition Minute : Z := 60 * Second.
Definition Hour : Z := 60 * Minute.

(** What a timestamptz column keeps of a [time.Time]: the driver cuts it to
    microseconds. *)
Definition timestamptz (t : Z) : Z := t / 1000 * 1000.

(** ** Rows *)

Inductive domain_status := dom_pending | dom_verified | dom_suspended.

Inductive message_status :=
  queued | sending | sent | delivered | deferred | bounced | failed | cancelled.

Inductive delivery_status := dl_pending | dl_delivering | dl_delivered | dl_failed.

#[global] Instance domain_status_eq_dec : EqDecision domain_status.
Proof. solve_decision. Defined.
#[global] Instance message_status_eq_dec : EqDecision message_status.
Proof. solve_decision. Defined.
#[global] Instance delivery_status_eq_dec : EqDecision delivery_status.
Proof. solve_decision. Defined.

(** The texts of the columns. *)
Definition status_text (st : message_status) : gostring :=
  match st with
  | queued => str "queued" | sending => str "sending" | sent => str "sent"
  | delivered => str "delivered" | deferred => str "deferred" | bounced => str "bounced"
  | failed => str "failed" | cancelled => str "cancelled"
  end.

Definition domain_status_text (st : domain_status) : gostring :=
  match st with
  | dom_pending => str "pending" | dom_verified => str "verified" | dom_suspended => str "suspended"
  end.

Record domain_row := DomainRec {
  dom_name : gostring;
  dom_token : gostring;
  dom_status : domain_status;
  dom_verified_at : option Z;
  dom_last_checked_at : option Z;
  dom_created_at : Z;
}.

Record api_key_row := APIKeyRec {
  key_name : gostring;
  key_prefix : gostring;
  key_secret_hash : gostring;
  key_scopes : list gostring;
  key_quota_per_hour : Z;
  key_expires_at : Z;
  key_revoked_at : option Z;
  key_last_used_at : option Z;
  key_last_used_ip : option gostring;
  key_created_at : Z;
}.

Record message_row := MessageRec {
  m_api_key_id : Z;
  m_domain_id : Z;
  m_status : message_status;
  m_from_address : gostring;
  m_recipients : option (list gostring);
  m_recipients_encrypted : option gostring;
  m_recipients_hash : list gostring;
  m_subject : gostring;
  m_body_html : gostring;
  m_body_text : gostring;
  m_headers : gostring;
  m_tags : gostring;
  m_attempts : Z;
  m_scheduled_at : option Z;
  m_locked_until : option Z;
  m_last_error : option gostring;
  m_signed_at : option Z;
  m_created_at : Z;
  m_updated_at : Z;
}.

Record event_row := EventRec {
  ev_message_id : gostring;
  ev_type : gostring;
  ev_detail : gostring;
  ev_occurred_at : Z;
}.

Record idempotency_row := IdempotencyRec {
  idem_request_hash : gostring;
  idem_message_id : option gostring;
  idem_created_at : Z;
  idem_expires_at : Z;
}.

Record endpoint_row := EndpointRec {
  ep_url : gostring;
  ep_secret : gostring;
  ep_active : bool;
  ep_created_at : Z;
}.

Record delivery_row := DeliveryRec {
  dl_endpoint_id : Z;
  dl_event_id : gostring;
  dl_message_id : gostring;
  dl_payload : gostring;
  dl_status : delivery_status;
  dl_attempts : Z;
  dl_next_attempt : Z;
  dl_locked_until : option Z;
  dl_last_error : option gostring;
  dl_created_at : Z;
}.

Record dkim_row := DkimRec {
  dk_domain_id : Z;
  dk_selector : gostring;
  dk_algorithm : gostring;
  dk_wrapped_secret : gostring;
  dk_public_record : gostring;
  dk_active : bool;
  dk_created_at : Z;
}.

Record suppression_row := SuppressionRec {
  sup_address : gostring;
  sup_reason : gostring;
  sup_detail : gostring;
  sup_message_id : option gostring;
  sup_created_at : Z;
}.

Record DB := {
  domains : gmap Z domain_row;
  api_keys : gmap Z api_key_row;
  messages : gmap gostring message_row;
  message_events : gmap Z event_row;
  idempotency_records : gmap (Z * gostring) idempotency_row;
  webhook_endpoints : gmap Z endpoint_row;
  webhook_deliveries : gmap Z delivery_row;
  dkim_keys : gmap Z dkim_row;
  suppressions : gmap gostring suppression_row;
}.

Definition empty_db : DB :=
  {| domains := ∅; api_keys := ∅; messages := ∅; message_events := ∅;
     idempotency_records := ∅; webhook_endpoints := ∅; webhook_deliveries := ∅;
     dkim_keys := ∅; suppressions := ∅ |}.

(** One setter per table. *)
Definition set_domains (f : gmap Z domain_row -> gmap Z domain_row) (db : DB) : DB :=
  let 'Build_DB d k m e i w l s p := db in Build_DB (f d) k m e i w l s p.
Definition set_api_keys (f : gmap Z api_key_row -> gmap Z api_key_row) (db : DB) : DB :=
  let 'Build_DB d k m e i w l s p := db in Build_DB d (f k) m e i w l s p.
Definition set_messages (f : gmap gostring message_row -> gmap gostring message_row) (db : DB) : DB :=
  let 'Build_DB d k m e i w l s p := db in Build_DB d k (f m) e i w l s p.
Definition set_events (f : gmap Z event_row -> gmap Z event_row) (db : DB) : DB :=
  let 'Build_DB d k m e i w l s p := db in Build_DB d k m (f e) i w l s p.
Definition set_idempotency
    (f : gmap (Z * gostring) idempotency_row -> gmap (Z * gostring) idempotency_row) (db : DB) : DB :=
  let 'Build_DB d k m e i w l s p := db in Build_DB d k m e (f i) w l s p.
Definition set_endpoints (f : gmap Z endpoint_row -> gmap Z endpoint_row) (db : DB) : DB :=
  let 'Build_DB d k m e i w l s p := db in Build_DB d k m e i (f w) l s p.
Definition set_deliveries (f : gmap Z delivery_row -> gmap Z delivery_row) (db : DB) : DB :=
  let 'Build_DB d k m e i w l s p := db in Build_DB d k m e i w (f l) s p.
Definition set_dkim (f : gmap Z dkim_row -> gmap Z dkim_row) (db : DB) : DB :=
  let 'Build_DB d k m e i w l s p := db in Build_DB d k m e i w l (f s) p.
Definition set_suppressions
    (f : gmap gostring suppression_row -> gmap gostring suppression_row) (db : DB) : DB :=
  let 'Build_DB d k m e i w l s p := db in Build_DB d k m e i w l s (f p).

(** [BIGSERIAL]: an id above every id the table has held (no code deletes from
    a table with a serial key). *)
Definition next_id {V} (m : gmap Z V) : Z :=
  1 + foldr Z.max 0 (map_to_list m).*1.

Lemma next_id_fresh {V} (m : gmap Z V) : m !! next_id m = None.
Proof.
  apply eq_None_not_Some. intros [v Hv]. apply elem_of_map_to_list in Hv.
  assert (Hle : forall (l : list (Z * V)) k, k ∈ l.*1 -> k <= foldr Z.max 0 l.*1).
  { induction l as [|x l IH]; intros k; [by intros ?%elem_of_nil|].
    rewrite fmap_cons, elem_of_cons. intros [->|Hk]; simpl; [lia|]. specialize (IH k Hk). simpl in *. lia. }
  assert (Hin : next_id m ∈ (map_to_list m).*1).
  { apply list_elem_of_fmap. by exists (next_id m, v). }
  apply Hle in Hin. unfold next_id in Hin at 1. lia.
Qed.

(** ** PostgreSQL *)

(** The reasons a statement is refused for its data. *)
Inductive violation :=
  | invalid_text
  | invalid_json
  | unique_violation
  | foreign_key_violation
  | check_violation
  | out_of_range.

(** [INTEGER] *)
Definition int4_ok (n : Z) : bool := (-2147483648 <=? n) && (n <=? 2147483647).

(** [TEXT] holds valid UTF-8 without NUL. *)
Definition text_ok (s : gostring) : bool :=
  valid_utf8 s && forallb (fun c => negb (byte_val c =? 0)) s.

(** Sort keys, compared in order; a [NULL] is the empty key, so [NULLS FIRST]. *)
Fixpoint key_le (a b : list Z) : bool :=
  match a, b with
  | [], _ => true
  | _ :: _, [] => false
  | x :: a, y :: b => if x <? y then true else if x =? y then key_le a b else false
  end.

Definition nulls_first (t : option Z) : list Z := match t with Some z => [z] | None => [] end.

Class Postgres := {
  (** [ORDER BY]: some order of the rows that respects the keys. *)
  order_by : forall {A : Type}, (A -> list Z) -> list A -> list A;
  order_by_perm : forall (A : Type) (key : A -> list Z) (l : list A), Permutation (order_by key l) l;
  order_by_sorted : forall (A : Type) (key : A -> list Z) (l : list A),
    StronglySorted (fun x y => key_le (key x) (key y) = true) (order_by key l);
  (** [RETURNING]: the affected rows, in an order that is not specified. *)
  returning : forall {A : Type}, list A -> list A;
  returning_perm : forall (A : Type) (l : list A), Permutation (returning l) l;
  (** The text form of a [JSONB] value, when the input is JSON. *)
  jsonb_in : gostring -> option gostring;
  (** [value->>'field'] *)
  jsonb_field : gostring -> gostring -> option gostring;
  (** An object with one string member has that member. *)
  jsonb_single : forall t k v, text_ok t = true -> json_single t = Some (k, v) ->
    exists j, jsonb_in t = Some j /\ jsonb_field j k = Some v;
  violation_text : violation -> gostring;
  (** The sort key of a text under the database's collation. *)
  collation_key : gostring -> list Z;
}.

Definition violation_error `{Postgres} (v : violation) : error := errors_New (violation_text v).

(** Refuse a statement unless the condition holds. *)
Definition ensure `{Postgres} {A} (ok : bool) (v : violation) (k : result A) : result A :=
  if ok then k else Err (violation_error v).

Lemma ensure_Ok `{Postgres} {A} ok v (k : result A) a :
  ensure ok v k = Ok a <-> ok = true /\ k = Ok a.
Proof. unfold ensure. destruct ok; naive_solver. Qed.

(** The rows of a table, as key and row. *)
Definition rows {K V} `{Countable K} (m : gmap K V) : list (K * V) := map_to_list m.

Lemma elem_of_rows {K V} `{Countable K} (m : gmap K V) k v : (k, v) ∈ rows m <-> m !! k = Some v.
Proof. apply elem_of_map_to_list. Qed.

Lemma NoDup_rows {K V} `{Countable K} (m : gmap K V) : NoDup (rows m).*1.
Proof. apply NoDup_fst_map_to_list. Qed.

Lemma sorted_app_elem {A} (R : A -> A -> Prop) l1 l2 x y :
  StronglySorted R (l1 ++ l2) -> x ∈ l1 -> y ∈ l2 -> R x y.
Proof.
  induction l1 as [|z l1 IH]; intros Hs Hx Hy; [by apply elem_of_nil in Hx|].
  inversion Hs as [|? ? Hs' Hall]; subst. apply elem_of_cons in Hx as [->|Hx]; [|by apply IH].
  rewrite list.Forall_forall in Hall. apply Hall, elem_of_app. by right.
Qed.

(** ** An instance: insertion sort, JSON texts kept as they are *)

Fixpoint insert_by {A} (key : A -> list Z) (x : A) (l : list A) : list A :=
  match l with
  | [] => [x]
  | y :: l' => if key_le (key x) (key y) then x :: l else y :: insert_by key x l'
  end.

Definition sort_by {A} (key : A -> list Z) (l : list A) : list A := foldr (insert_by key) [] l.

Lemma key_le_total a b : key_le a b = false -> key_le b a = true.
Proof.
  revert b; induction a as [|x a IH]; intros [|y b]; simpl; try done.
  split_ifs; boolify; try done; try lia. by apply IH.
Qed.

Lemma key_le_trans a b c : key_le a b = true -> key_le b c = true -> key_le a c = true.
Proof.
  revert b c; induction a as [|x a IH]; intros [|y b] [|z c]; simpl; try done.
  split_ifs; boolify; try done; try lia. intros. by eapply IH.
Qed.

Lemma insert_by_perm {A} key (x : A) l : Permutation (insert_by key x l) (x :: l).
Proof.
  induction l as [|y l IH]; simpl; [done|]. split_ifs.
  rewrite IH. apply Permutation_swap.
Qed.

Lemma sort_by_perm {A} key (l : list A) : Permutation (sort_by key l) l.
Proof. induction l as [|x l IH]; simpl; [done|]. by rewrite insert_by_perm, IH. Qed.

Lemma insert_by_sorted {A} key (x : A) l :
  StronglySorted (fun x y => key_le (key x) (key y) = true) l ->
  StronglySorted (fun x y => key_le (key x) (key y) = true) (insert_by key x l).
Proof.
  induction 1 as [|y l Hs IH Hall]; simpl; [by repeat constructor|].
  destruct (key_le (key x) (key y)) eqn:E.
  - constructor; [by constructor|]. constructor; [done|].
    eapply list.Forall_impl; [exact Hall|]. intros z Hz. by eapply key_le_trans.
  - constructor; [done|]. rewrite insert_by_perm. constructor; [by apply key_le_total|done].
Qed.

Lemma sort_by_sorted {A} key (l : list A) :
  StronglySorted (fun x y => key_le (key x) (key y) = true) (sort_by key l).
Proof. induction l; simpl; [constructor|by apply insert_by_sorted]. Qed.

Definition plain_jsonb_in (s : gostring) : option gostring := if text_ok s then Some s else None.

Definition plain_jsonb_field (s field : gostring) : option gostring :=
  match json_single s with
  | Some (k, v) => if decide (k = field) then Some v else None
  | None => None
  end.

Lemma plain_jsonb_single t k v :
  text_ok t = true -> json_single t = Some (k, v) ->
  exists j, plain_jsonb_in t = Some j /\ plain_jsonb_field j k = Some v.
Proof.
  intros Ht Hj. exists t. unfold plain_jsonb_in, plain_jsonb_field.
  by rewrite Ht, Hj, decide_True.
Qed.

Definition plain_postgres : Postgres := {|
  order_by := @sort_by;
  order_by_perm := @sort_by_perm;
  order_by_sorted := @sort_by_sorted;
  returning := fun _ l => l;
  returning_perm := fun _ _ => Permutation_refl _;
  jsonb_in := plain_jsonb_in;
  jsonb_field := plain_jsonb_field;
  jsonb_single := plain_jsonb_single;
  violation_text := fun v =>
    match v with
    | invalid_text => str "invalid byte sequence for encoding"
    | invalid_json => str "invalid input syntax for type json"
    | unique_violation => str "duplicate key value violates unique constraint"
    | foreign_key_violation => str "violates foreign key constraint"
    | check_violation => str "violates check constraint"
    | out_of_range => str "value is out of range for its column"
    end;
  collation_key := fun s => byte_val <$> s;
|}.
