(* ===== verification/GoTime.v ===== *)
(** * time: RFC 3339 timestamps and the text of a duration

    A time is the number of nanoseconds since the Unix epoch and a date the
    proleptic Gregorian one, as in Go.  [Parse] is the layout-driven parser, with
    what it accepts beyond the RFC (an hour of one digit, a comma before the
    fraction); the fast path the library tries first accepts less and answers the
    same. *)

From S2P Require Import Prelude Utf8 GoStrings Schema.
Local Open Scope Z_scope.

(** ** Dates *)

(** Days since the epoch of a date; the year starts in March, so that the leap
    day comes last. *)
Definition days_of_date (year month day : Z) : Z :=
  let y := if month <=? 2 then year - 1 else year in
  let era := y / 400 in
  let year_of_era := y mod 400 in
  let month_from_march := if month <=? 2 then month + 9 else month - 3 in
  let day_of_year := (153 * month_from_march + 2) / 5 + day - 1 in
  era * 146097 + year_of_era * 365 + year_of_era / 4 - year_of_era / 100 + day_of_year - 719468.

Definition date_of_days (days : Z) : Z * Z * Z :=
  let z := days + 719468 in
  let era := z / 146097 in
  let day_of_era := z mod 146097 in
  let year_of_era := (day_of_era - day_of_era / 1460 + day_of_era / 36524 - day_of_era / 146096) / 365 in
  let day_of_year := day_of_era - (365 * year_of_era + year_of_era / 4 - year_of_era / 100) in
  let month_from_march := (5 * day_of_year + 2) / 153 in
  let day := day_of_year - (153 * month_from_march + 2) / 5 + 1 in
  let month := if month_from_march <? 10 then month_from_march + 3 else month_from_march - 9 in
  let year := era * 400 + year_of_era in
  (if month <=? 2 then year + 1 else year, month, day).

Definition is_leap (year : Z) : bool :=
  (year mod 4 =? 0) && (negb (year mod 100 =? 0) || (year mod 400 =? 0)).

Definition days_in (month year : Z) : Z :=
  if month =? 2 then (if is_leap year then 29 else 28)
  else if existsb (Z.eqb month) [4; 6; 9; 11] then 30 else 31.

(** ** Formatting *)

(** [appendInt] with a width *)
Definition pad_int (width : nat) (n : Z) : gostring :=
  let digits := format_int (Z.abs n) in
  (if n <? 0 then ["-"%char] else []) ++ replicate (width - length digits) "0"%char ++ digits.

(** [t.UTC().Format(time.RFC3339)] *)
Definition format_rfc3339 (t : Z) : gostring :=
  let seconds := t / Second in
  let '(year, month, day) := date_of_days (seconds / 86400) in
  let s := seconds mod 86400 in
  pad_int 4 year ++ "-"%char :: pad_int 2 month ++ "-"%char :: pad_int 2 day
  ++ "T"%char :: pad_int 2 (s / 3600) ++ ":"%char :: pad_int 2 (s / 60 mod 60)
  ++ ":"%char :: pad_int 2 (s mod 60) ++ ["Z"%char].

(** The layouts of the console: [2006-01-02] and [2006-01-02 15:04]; and of a key
    selector, [200601]. *)
Definition format_date (t : Z) : gostring :=
  let '(year, month, day) := date_of_days (t / Second / 86400) in
  pad_int 4 year ++ "-"%char :: pad_int 2 month ++ "-"%char :: pad_int 2 day.

Definition format_minute (t : Z) : gostring :=
  let s := t / Second mod 86400 in
  format_date t ++ " "%char :: pad_int 2 (s / 3600) ++ ":"%char :: pad_int 2 (s / 60 mod 60).

Definition format_month (t : Z) : gostring :=
  let '(year, month, _) := date_of_days (t / Second / 86400) in pad_int 4 year ++ pad_int 2 month.

(** [t.Format(time.RFC1123Z)] in a zone [offset] seconds east of UTC. *)
Definition weekday (days : Z) : gostring :=
  str (nth (Z.to_nat ((days + 4) mod 7)) ["Sun"; "Mon"; "Tue"; "Wed"; "Thu"; "Fri"; "Sat"] "")%string.

Definition month_name (month : Z) : gostring :=
  str (nth (Z.to_nat (month - 1))
         ["Jan"; "Feb"; "Mar"; "Apr"; "May"; "Jun"; "Jul"; "Aug"; "Sep"; "Oct"; "Nov"; "Dec"] "")%string.

Definition format_rfc1123z (offset t : Z) : gostring :=
  let seconds := t / Second + offset in
  let '(year, month, day) := date_of_days (seconds / 86400) in
  let s := seconds mod 86400 in
  let zone := Z.quot offset 60 in
  weekday (seconds / 86400) ++ str ", " ++ pad_int 2 day ++ str " " ++ month_name month ++ str " " ++ pad_int 4 year
  ++ str " " ++ pad_int 2 (s / 3600) ++ ":"%char :: pad_int 2 (s / 60 mod 60) ++ ":"%char :: pad_int 2 (s mod 60)
  ++ str " " ++ (if zone <? 0 then "-"%char else "+"%char) :: pad_int 2 (Z.abs zone / 60) ++ pad_int 2 (Z.abs zone mod 60).

(** [fmtFrac]: the last [prec] digits, without trailing zeros, after a point. *)
Fixpoint strip_zeros (l : gostring) : gostring :=
  match l with
  | [] => []
  | c :: l' =>
      match strip_zeros l' with
      | [] => if decide (c = "0"%char) then [] else [c]
      | r => c :: r
      end
  end.

Definition fraction (n : Z) (prec : nat) : gostring :=
  match strip_zeros (pad_int prec n) with [] => [] | ds => "."%char :: ds end.

(** [Duration.String] *)
Definition duration_string (d : Z) : gostring :=
  let u := Z.abs d in
  let text :=
    if u <? Second then
      if u =? 0 then str "0s"
      else if u <? 1000 then format_int u ++ str "ns"
      else if u <? 1000000
      then format_int (u / 1000) ++ fraction (u mod 1000) 3 ++ (byte_of <$> [194; 181]) ++ str "s"
      else format_int (u / 1000000) ++ fraction (u mod 1000000) 6 ++ str "ms"
    else
      let s := u / Second in
      let rest := format_int (s mod 60) ++ fraction (u mod Second) 9 ++ str "s" in
      if s <? 60 then rest
      else
        let minutes := format_int (s / 60 mod 60) ++ "m"%char :: rest in
        if s <? 3600 then minutes else format_int (s / 3600) ++ "h"%char :: minutes in
  if d <? 0 then "-"%char :: text else text.

(** ** Parsing *)

(** [getnum]: two digits, or one when the layout does not fix the width. *)
Definition getnum (fixed : bool) (s : gostring) : option (Z * gostring) :=
  match s with
  | a :: t =>
      if negb (is_digit a) then None
      else match t with
           | b :: u => if is_digit b then Some (digits_val [a; b], u)
                       else if fixed then None else Some (digits_val [a], t)
           | [] => if fixed then None else Some (digits_val [a], t)
           end
  | [] => None
  end.

Definition skip_char (c : ascii) (s : gostring) : option gostring :=
  match s with d :: t => if decide (d = c) then Some t else None | [] => None end.

Definition number_after (c : ascii) (fixed : bool) (s : gostring) : option (Z * gostring) :=
  skip_char c s ≫= getnum fixed.

Definition parse_year (s : gostring) : option (Z * gostring) :=
  match s with
  | a :: b :: c :: d :: t =>
      if forallb is_digit [a; b; c; d] then Some (digits_val [a; b; c; d], t) else None
  | _ => None
  end.

(** A point or a comma and digits, of which nine count. *)
Definition parse_fraction (s : gostring) : Z * gostring :=
  match s with
  | c :: ((d :: _) as t) =>
      if bool_decide (c = "."%char \/ c = ","%char) && is_digit d then
        let rest := drop_while is_digit t in
        let ds := take 9 (take (length t - length rest) t) in
        (digits_val ds * 10 ^ (9 - len ds), rest)
      else (0, s)
  | _ => (0, s)
  end.

(** The zone's offset in seconds; the text ends with it. *)
Definition parse_zone (s : gostring) : option Z :=
  match s with
  | [sign; h1; h2; colon; m1; m2] =>
      if decide (colon = ":"%char) then
        match getnum true [h1; h2], getnum true [m1; m2] with
        | Some (hr, _), Some (mm, _) =>
            if (24 <? hr) || (60 <? mm) then None
            else if decide (sign = "+"%char) then Some ((hr * 60 + mm) * 60)
            else if decide (sign = "-"%char) then Some (- ((hr * 60 + mm) * 60))
            else None
        | _, _ => None
        end
      else None
  | [c] => if decide (c = "Z"%char) then Some 0 else None
  | _ => None
  end.

(** [time.Parse(time.RFC3339, s)] *)
Definition parse_rfc3339 (s : gostring) : option Z :=
  parse_year s ≫= fun '(year, s) =>
  number_after "-" true s ≫= fun '(month, s) =>
  if negb (in_range 1 12 month) then None else
  number_after "-" true s ≫= fun '(day, s) =>
  number_after "T" false s ≫= fun '(hour, s) =>
  if 24 <=? hour then None else
  number_after ":" true s ≫= fun '(minute, s) =>
  if 60 <=? minute then None else
  number_after ":" true s ≫= fun '(second, s) =>
  if 60 <=? second then None else
  let '(nanos, s) := parse_fraction s in
  parse_zone s ≫= fun offset =>
  if in_range 1 (days_in month year) day
  then Some ((days_of_date year month day * 86400 + hour * 3600 + minute * 60 + second - offset) * Second + nanos)
  else None.

(** ** Examples *)

Example mail_dates :
  format_rfc1123z 0 (1763460000 * Second) = str "Tue, 18 Nov 2025 10:00:00 +0000"
  /\ format_rfc1123z (-16200) 0 = str "Wed, 31 Dec 1969 19:30:00 -0430".
Proof. vm_compute. split; reflexivity. Qed.

Example leap_day : format_rfc3339 (1709164800 * Second) = str "2024-02-29T00:00:00Z".
Proof. vm_compute. reflexivity. Qed.

(** The last days of a leap and of a common century, and of the epoch's era. *)
Example century_days :
  date_of_days <$> [11016; -25509; 0; days_of_date 1899 12 31]
  = [(2000, 2, 29); (1900, 2, 28); (1970, 1, 1); (1899, 12, 31)].
Proof. vm_compute. reflexivity. Qed.

Example no_leap_day : parse_rfc3339 (str "2023-02-29T00:00:00Z") = None.
Proof. vm_compute. reflexivity. Qed.

Example lenient_hour_and_comma :
  parse_rfc3339 (str "2024-02-29T5:04:05,25+02:00") = Some (1709175845 * Second + 250 * Millisecond).
Proof. vm_compute. reflexivity. Qed.

Example durations :
  map duration_string [0; 90 * Second; 3661 * Second; 1500 * Millisecond]
  = [str "0s"; str "1m30s"; str "1h1m1s"; str "1.5s"].
Proof. vm_compute. reflexivity. Qed.
