(* ===== verification/Netip.v ===== *)
(** * net/netip: the addresses the source parses and prints

    [ParseAddr] and [Addr.String] of the standard library, for the literal hosts of
    internal/netguard and the client addresses of internal/httpapi, with the round
    trip between them. *)

From S2P Require Import Prelude Utf8 GoStrings.
Local Open Scope Z_scope.

(** The zero [netip.Addr], an IPv4 address, an IPv6 address (its sixteen bytes)
    with its zone. *)
Inductive Addr :=
  | AddrInvalid
  | Addr4 (b0 b1 b2 b3 : Z)
  | Addr6 (b : list Z) (zone : gostring).

Definition octet (b : Z) : Prop := 0 <= b < 256.

Definition addr_ok (a : Addr) : Prop :=
  match a with
  | AddrInvalid => False
  | Addr4 b0 b1 b2 b3 => octet b0 /\ octet b1 /\ octet b2 /\ octet b3
  | Addr6 b _ => length b = 16%nat /\ Forall octet b
  end.

Definition zeros (n : nat) : list Z := replicate n 0.

Definition byte_at (b : list Z) (i : nat) : Z := default 0 (b !! i).

Definition dot : ascii := "."%char.
Definition colon : ascii := ":"%char.
Definition percent : ascii := "%"%char.

(** ** Reading *)

(** [parseIPv4Fields]: the value and the digits of the octet so far, and the octets
    before it. *)
Fixpoint parseIPv4Fields (s : gostring) (val : Z) (digLen : nat) (fields : list Z) : option (list Z) :=
  match s with
  | [] => if (length fields <? 3)%nat then None else Some (fields ++ [val])
  | c :: s =>
      if is_digit c then
        if (digLen =? 1)%nat && (val =? 0) then None
        else
          let val := val * 10 + (byte_val c - 48) in
          if 255 <? val then None else parseIPv4Fields s val (S digLen) fields
      else if bool_decide (c = dot) then
        if (digLen =? 0)%nat || bool_decide (s = []) then None
        else if (length fields =? 3)%nat then None
        else parseIPv4Fields s 0 0 (fields ++ [val])
      else None
  end.

Definition parseIPv4 (s : gostring) : option Addr :=
  match parseIPv4Fields s 0 0 [] with
  | Some [b0; b1; b2; b3] => Some (Addr4 b0 b1 b2 b3)
  | _ => None
  end.

Definition hex_val (c : ascii) : option Z :=
  let v := byte_val c in
  if (48 <=? v) && (v <=? 57) then Some (v - 48)
  else if (97 <=? v) && (v <=? 102) then Some (v - 87)
  else if (65 <=? v) && (v <=? 70) then Some (v - 55)
  else None.

(** A run of hexadecimal digits: its value, its length and what follows. *)
Fixpoint hex_run (s : gostring) (acc : Z) (off : nat) : Z * nat * gostring :=
  match s with
  | c :: rest =>
      match hex_val c with
      | Some d => hex_run rest (acc * 16 + d) (S off)
      | None => (acc, off, s)
      end
  | [] => (acc, off, [])
  end.

Definition chunk (g : Z) : list Z := [g / 256; g mod 256].

(** The loop of [parseIPv6], at most [n] more turns: the bytes read and where the
    ellipsis stands. *)
Fixpoint v6_loop (n : nat) (s : gostring) (ip : list Z) (ellipsis : option nat) : option (list Z * option nat) :=
  match n with
  | O => if bool_decide (s = []) then Some (ip, ellipsis) else None
  | S n =>
      let '(acc, off, rest) := hex_run s 0 0 in
      if (off =? 0)%nat || (4 <? off)%nat then None
      else
        let ip' := ip ++ chunk acc in
        match rest with
        | [] => Some (ip', ellipsis)
        | c :: rest =>
            if bool_decide (c = dot) then
              if bool_decide (ellipsis = None) && negb (length ip =? 12)%nat then None
              else if (16 <? length ip + 4)%nat then None
              else (fun fields => (ip ++ fields, ellipsis)) <$> parseIPv4Fields s 0 0 []
            else if negb (bool_decide (c = colon)) then None
            else
              match rest with
              | [] => None
              | c :: rest' =>
                  if bool_decide (c = colon) then
                    match ellipsis with
                    | Some _ => None
                    | None =>
                        match rest' with
                        | [] => Some (ip', Some (length ip'))
                        | _ => v6_loop n rest' ip' (Some (length ip'))
                        end
                    end
                  else v6_loop n rest ip' ellipsis
              end
        end
  end.

(** The ellipsis stands for the missing bytes, at least one group of them. *)
Definition expand_ellipsis (ip : list Z) (ellipsis : option nat) : option (list Z) :=
  if (length ip <? 16)%nat then
    (fun e => take e ip ++ zeros (16 - length ip) ++ drop e ip) <$> ellipsis
  else match ellipsis with Some _ => None | None => Some ip end.

Definition parseIPv6_bytes (s : gostring) : option (list Z) :=
  match s with
  | c :: d :: rest =>
      if bool_decide (c = colon) && bool_decide (d = colon) then
        match rest with
        | [] => Some (zeros 16)
        | _ => v6_loop 8 rest [] (Some O) ≫= fun x => expand_ellipsis x.1 x.2
        end
      else v6_loop 8 s [] None ≫= fun x => expand_ellipsis x.1 x.2
  | _ => v6_loop 8 s [] None ≫= fun x => expand_ellipsis x.1 x.2
  end.

Definition parseIPv6 (s : gostring) : option Addr :=
  match cut s [percent] with
  | Some (s, zone) => if bool_decide (zone = []) then None else (fun b => Addr6 b zone) <$> parseIPv6_bytes s
  | None => (fun b => Addr6 b []) <$> parseIPv6_bytes s
  end.

(** What the text is tried as: decided by its first dot, colon or percent sign. *)
Fixpoint first_mark (s : gostring) : option ascii :=
  match s with
  | [] => None
  | c :: s => if bool_decide (c = dot \/ c = colon \/ c = percent) then Some c else first_mark s
  end.

Definition ParseAddr (s : gostring) : option Addr :=
  match first_mark s with
  | Some c =>
      if bool_decide (c = dot) then parseIPv4 s else if bool_decide (c = colon) then parseIPv6 s else None
  | None => None
  end.

(** ** Printing *)

Definition hex_char (n : Z) : ascii := byte_of (if n <? 10 then 48 + n else 87 + n).

(** A group without leading zeros. *)
Definition group_text (g : Z) : gostring :=
  if 4096 <=? g then [hex_char (g / 4096); hex_char (g / 256 mod 16); hex_char (g / 16 mod 16); hex_char (g mod 16)]
  else if 256 <=? g then [hex_char (g / 256); hex_char (g / 16 mod 16); hex_char (g mod 16)]
  else if 16 <=? g then [hex_char (g / 16); hex_char (g mod 16)]
  else [hex_char g].

Definition string4 (b0 b1 b2 b3 : Z) : gostring :=
  format_int b0 ++ dot :: format_int b1 ++ dot :: format_int b2 ++ dot :: format_int b3.

Fixpoint groups (b : list Z) : list Z :=
  match b with x :: y :: b => (256 * x + y) :: groups b | _ => [] end.

Fixpoint lead_zeros (gs : list Z) : nat :=
  match gs with g :: gs => if g =? 0 then S (lead_zeros gs) else O | [] => O end.

(** The start and the length of the first longest run of at least two zero groups
    from position [i] on, or the one found so far. *)
Fixpoint longest_run (gs : list Z) (i : nat) (best : nat * nat) : nat * nat :=
  match gs with
  | [] => best
  | _ :: rest =>
      let l := lead_zeros gs in
      longest_run rest (S i) (if (2 <=? l)%nat && (best.2 <? l)%nat then (i, l) else best)
  end.

Definition joined_groups (gs : list Z) : gostring := join (group_text <$> gs) [colon].

Definition string6 (b : list Z) : gostring :=
  let gs := groups b in
  let '(start, l) := longest_run gs 0 (O, O) in
  if (l =? 0)%nat then joined_groups gs
  else joined_groups (take start gs) ++ [colon; colon] ++ joined_groups (drop (start + l) gs).

Definition mapped (b : list Z) : bool := bool_decide (take 12 b = zeros 10 ++ [255; 255]).

Definition addr_string (a : Addr) : gostring :=
  match a with
  | AddrInvalid => str "invalid IP"
  | Addr4 b0 b1 b2 b3 => string4 b0 b1 b2 b3
  | Addr6 b zone =>
      (if mapped b then str "::ffff:" ++ string4 (byte_at b 12) (byte_at b 13) (byte_at b 14) (byte_at b 15)
       else string6 b)
      ++ (if bool_decide (zone = []) then [] else percent :: zone)
  end.

Example parsed :
  ParseAddr (str "169.254.169.254") = Some (Addr4 169 254 169 254)
  /\ ParseAddr (str "::1") = Some (Addr6 (zeros 15 ++ [1]) [])
  /\ ParseAddr (str "::ffff:10.0.0.1") = Some (Addr6 (zeros 10 ++ [255; 255; 10; 0; 0; 1]) [])
  /\ ParseAddr (str "fe80::1%eth0") = Some (Addr6 ([254; 128] ++ zeros 13 ++ [1]) (str "eth0"))
  /\ Forall (fun s => ParseAddr (str s) = None)
       ["127.1"; "2130706433"; "0127.0.0.1"; "1.2.3.4.5"; "1.2.3."; "::1::2"; "1:2:3"; ":1"; "fe80::1%"; "12345::"; "localhost"]%string.
Proof. repeat constructor; vm_compute; reflexivity. Qed.

Example printed :
  addr_string (Addr6 ([32; 1; 13; 184] ++ zeros 11 ++ [1]) []) = str "2001:db8::1"
  /\ addr_string (Addr6 (zeros 16) []) = str "::"
  /\ addr_string (Addr6 ([0; 1; 0; 0; 0; 2] ++ zeros 9 ++ [3]) (str "lo")) = str "1:0:2::3%lo"
  /\ addr_string (Addr6 (zeros 10 ++ [255; 255; 10; 0; 0; 1]) []) = str "::ffff:10.0.0.1".
Proof. repeat constructor; vm_compute; reflexivity. Qed.

(** ** Lemmas: IPv4 *)

(** Digits are read without looking at what follows. *)
Fixpoint octet_digits (ds : gostring) (val : Z) (digLen : nat) : option (Z * nat) :=
  match ds with
  | [] => Some (val, digLen)
  | c :: ds =>
      if (digLen =? 1)%nat && (val =? 0) then None
      else
        let val := val * 10 + (byte_val c - 48) in
        if 255 <? val then None else octet_digits ds val (S digLen)
  end.

Lemma parse_digits ds rest val digLen fields :
  forallb is_digit ds = true ->
  parseIPv4Fields (ds ++ rest) val digLen fields
  = match octet_digits ds val digLen with
    | Some (v, k) => parseIPv4Fields rest v k fields
    | None => None
    end.
Proof.
  revert val digLen. induction ds as [|c ds IH]; intros val digLen Hd; [done|].
  cbn [forallb] in Hd. apply andb_true_iff in Hd as [Hc Hd]. cbn [app parseIPv4Fields octet_digits]. rewrite Hc.
  destruct (_ && _); [done|]. destruct (255 <? _); [done|]. by apply IH.
Qed.

(** All of the octets, one by one. *)
Lemma octet_text b :
  octet b -> forallb is_digit (format_int b) = true
    /\ exists k, octet_digits (format_int b) 0 0 = Some (b, S k).
Proof.
  intros Hb. assert (Hall : forallb (fun n => let b := Z.of_nat n in
    forallb is_digit (format_int b)
    && match octet_digits (format_int b) 0 0 with Some (v, S _) => v =? b | _ => false end) (seq 0 256) = true)
    by (vm_compute; reflexivity).
  rewrite List.forallb_forall in Hall. specialize (Hall (Z.to_nat b)). rewrite List.in_seq in Hall.
  unfold octet in Hb. specialize (Hall ltac:(lia)). cbn zeta in Hall. rewrite Z2Nat.id in Hall by lia.
  apply andb_true_iff in Hall as [Hd Hv]. split; [done|].
  destruct (octet_digits _ 0 0) as [[v [|k]]|]; [done| |done]. apply Z.eqb_eq in Hv as ->. by exists k.
Qed.

Lemma parse_octet b rest fields :
  octet b -> exists k, parseIPv4Fields (format_int b ++ rest) 0 0 fields = parseIPv4Fields rest b (S k) fields.
Proof.
  intros Hb. destruct (octet_text b Hb) as (Hd & k & Hk). exists k. by rewrite parse_digits, Hk.
Qed.

Lemma octet_nonempty b : octet b -> format_int b <> [].
Proof. intros Hb. destruct (format_int_digits b); [unfold octet in Hb; lia|done]. Qed.

Lemma parse_octet_dot b rest fields :
  octet b -> rest <> [] -> length fields <> 3%nat ->
  parseIPv4Fields (format_int b ++ dot :: rest) 0 0 fields = parseIPv4Fields rest 0 0 (fields ++ [b]).
Proof.
  intros Hb Hr Hf. destruct (parse_octet b (dot :: rest) fields Hb) as [k ->]. cbn [parseIPv4Fields].
  change (is_digit dot) with false. cbn [Nat.eqb]. rewrite bool_decide_eq_true_2 by done.
  rewrite bool_decide_eq_false_2 by done. cbn [orb]. by rewrite (proj2 (Nat.eqb_neq _ _) Hf).
Qed.

Lemma parse_string4 b0 b1 b2 b3 :
  octet b0 -> octet b1 -> octet b2 -> octet b3 ->
  parseIPv4Fields (string4 b0 b1 b2 b3) 0 0 [] = Some [b0; b1; b2; b3].
Proof.
  intros H0 H1 H2 H3. unfold string4.
  rewrite !parse_octet_dot; try done; [|by apply octet_nonempty|by destruct (format_int b2)|by destruct (format_int b1)].
  rewrite <- (app_nil_r (format_int b3)). cbn [app]. by destruct (parse_octet b3 [] [b0; b1; b2] H3) as [k ->].
Qed.

(** ** Lemmas: IPv6 *)

Definition word (g : Z) : Prop := 0 <= g < 65536.

Lemma hex_val_char n : 0 <= n < 16 -> hex_val (hex_char n) = Some n.
Proof.
  intros Hn. unfold hex_val, hex_char. destruct (Z.ltb_spec n 10); rewrite byte_val_of by lia.
  - rewrite (proj2 (Z.leb_le 48 _)), (proj2 (Z.leb_le _ 57)) by lia. cbn. f_equal. lia.
  - rewrite (proj2 (Z.leb_gt _ 57)), andb_false_r by lia.
    rewrite (proj2 (Z.leb_le 97 _)), (proj2 (Z.leb_le _ 102)) by lia. cbn. f_equal. lia.
Qed.

(** What may follow a group. *)
Definition no_hex (s : gostring) : Prop := match s with c :: _ => hex_val c = None | [] => True end.

Lemma hex_run_stop s acc off : no_hex s -> hex_run s acc off = (acc, off, s).
Proof. destruct s as [|c s]; [done|]. cbn. by intros ->. Qed.

Lemma hex_run_char n rest acc off :
  0 <= n < 16 -> hex_run (hex_char n :: rest) acc off = hex_run rest (acc * 16 + n) (S off).
Proof. intros Hn. cbn [hex_run]. by rewrite hex_val_char. Qed.

Lemma group_read g rest :
  word g -> no_hex rest ->
  exists off, hex_run (group_text g ++ rest) 0 0 = (g, off, rest) /\ (1 <= off <= 4)%nat.
Proof.
  intros Hg Hr. unfold word in Hg. unfold group_text.
  pose proof (Z.mod_pos_bound g 16 ltac:(lia)). pose proof (Z.mod_pos_bound (g / 16) 16 ltac:(lia)).
  pose proof (Z.mod_pos_bound (g / 256) 16 ltac:(lia)).
  destruct (Z.leb_spec 4096 g); [exists 4%nat|destruct (Z.leb_spec 256 g); [exists 3%nat|
    destruct (Z.leb_spec 16 g); [exists 2%nat|exists 1%nat]]]; (split; [|lia]); cbn [app];
    rewrite !hex_run_char by (Z.to_euclidean_division_equations; lia); rewrite hex_run_stop by done;
    do 2 f_equal; Z.to_euclidean_division_equations; lia.
Qed.

(** One turn of the loop over a group. *)
Lemma loop_group n g rest ip ell :
  word g -> no_hex rest ->
  v6_loop (S n) (group_text g ++ rest) ip ell
  = match rest with
    | [] => Some (ip ++ chunk g, ell)
    | c :: rest =>
        if bool_decide (c = dot) then
          if bool_decide (ell = None) && negb (length ip =? 12)%nat then None
          else if (16 <? length ip + 4)%nat then None
          else (fun fields => (ip ++ fields, ell)) <$> parseIPv4Fields (group_text g ++ c :: rest) 0 0 []
        else if negb (bool_decide (c = colon)) then None
        else match rest with
             | [] => None
             | c :: rest' =>
                 if bool_decide (c = colon) then
                   match ell with
                   | Some _ => None
                   | None => match rest' with
                             | [] => Some (ip ++ chunk g, Some (length (ip ++ chunk g)))
                             | _ => v6_loop n rest' (ip ++ chunk g) (Some (length (ip ++ chunk g)))
                             end
                   end
                 else v6_loop n rest (ip ++ chunk g) ell
             end
    end.
Proof.
  intros Hg Hr. cbn [v6_loop]. destruct (group_read g rest Hg Hr) as (off & -> & Hoff).
  rewrite (proj2 (Nat.eqb_neq off 0)), (proj2 (Nat.ltb_ge 4 off)) by lia. by destruct rest.
Qed.

Lemma group_head g : word g -> exists c s, group_text g = c :: s /\ c <> colon.
Proof.
  intros Hg. unfold word in Hg. assert (Hc : forall n, 0 <= n < 16 -> hex_char n <> colon).
  { intros n Hn E. pose proof (hex_val_char n Hn) as Hv. rewrite E in Hv. discriminate Hv. }
  unfold group_text. destruct (Z.leb_spec 4096 g); [|destruct (Z.leb_spec 256 g); [|destruct (Z.leb_spec 16 g)]];
    (eexists _, _; split; [done|]; apply Hc; Z.to_euclidean_division_equations; lia).
Qed.

Definition bytes_of (gs : list Z) : list Z := gs ≫= chunk.

Lemma joined_cons g g' gs : joined_groups (g :: g' :: gs) = group_text g ++ colon :: joined_groups (g' :: gs).
Proof. done. Qed.

Lemma joined_head gs : Forall word gs -> gs <> [] -> exists c s, joined_groups gs = c :: s /\ c <> colon.
Proof.
  destruct gs as [|g [|g' gs]]; [done|..]; intros [Hg _]%list.Forall_cons _; destruct (group_head g Hg) as (c & s & E & Hc).
  - exists c, s. done.
  - rewrite joined_cons, E. by eexists _, _.
Qed.

(** The groups of a list, up to its end. *)
Lemma loop_all n gs ip ell :
  Forall word gs -> gs <> [] -> (length gs <= n)%nat ->
  v6_loop n (joined_groups gs) ip ell = Some (ip ++ bytes_of gs, ell).
Proof.
  revert n ip. induction gs as [|g gs IH]; intros n ip Hw Hne Hn; [done|].
  apply list.Forall_cons in Hw as [Hg Hw]. destruct n as [|n]; [cbn in Hn; lia|]. cbn in Hn.
  destruct gs as [|g' gs].
  - unfold joined_groups; cbn [fmap list_fmap join]. rewrite <- (app_nil_r (group_text g)), loop_group by done. cbn. done.
  - rewrite joined_cons, loop_group by done. destruct (joined_head (g' :: gs) Hw) as (c & s & E & Hc); [done|].
    rewrite E. rewrite bool_decide_eq_false_2 by done. cbn [negb bool_decide].
    rewrite (bool_decide_eq_false_2 (c = colon)) by done. rewrite bool_decide_eq_true_2 by done. cbn [negb].
    rewrite <- E, IH; [|done..|cbn in *; lia]. unfold bytes_of. cbn. by rewrite <- app_assoc.
Qed.

(** Groups, an ellipsis, more groups. *)
Lemma loop_ellipsis n pre post ip :
  Forall word pre -> Forall word post -> pre <> [] -> (length pre + length post <= n)%nat ->
  v6_loop n (joined_groups pre ++ [colon; colon] ++ joined_groups post) ip None
  = Some (ip ++ bytes_of pre ++ bytes_of post, Some (length (ip ++ bytes_of pre))).
Proof.
  revert n ip. induction pre as [|g pre IH]; intros n ip Hw Hw' Hne Hn; [done|].
  apply list.Forall_cons in Hw as [Hg Hw]. destruct n as [|n]; [cbn in Hn; lia|]. cbn in Hn.
  destruct pre as [|g' pre].
  - change (joined_groups [g]) with (group_text g). rewrite loop_group by done. cbn [app].
    rewrite bool_decide_eq_false_2 by done. rewrite !bool_decide_eq_true_2 by done. cbn [negb].
    assert (bytes_of [g] = chunk g) as -> by done.
    destruct post as [|h post]; [done|].
    destruct (joined_head (h :: post) Hw') as (c & s & E & Hc); [done|]. rewrite E, <- E.
    rewrite loop_all by (done || cbn in *; lia). by rewrite <- app_assoc.
  - rewrite joined_cons, <- app_assoc, <- app_comm_cons, loop_group by done.
    destruct (joined_head (g' :: pre) Hw) as (c & s & E & Hc); [done|]. rewrite E, <- app_comm_cons.
    rewrite bool_decide_eq_false_2 by done. rewrite (bool_decide_eq_false_2 (c = colon)) by done.
    rewrite bool_decide_eq_true_2 by done. cbn [negb].
    rewrite app_comm_cons, <- E, IH; [|done..|cbn in *; lia]. unfold bytes_of. cbn [mbind list_bind].
    by rewrite <- !app_assoc.
Qed.

(** ** Lemmas: bytes and groups *)

Lemma groups_bytes n b :
  length b = (2 * n)%nat -> Forall octet b ->
  bytes_of (groups b) = b /\ Forall word (groups b) /\ length (groups b) = n.
Proof.
  revert b. induction n as [|n IH]; intros [|x [|y b]] Hl Hb; cbn in Hl; try lia; [done|].
  apply list.Forall_cons in Hb as [Hx [Hy Hb]%list.Forall_cons]. destruct (IH b) as (E & Hw & Hn); [lia|done|].
  unfold octet in *. cbn [groups]. split_and!.
  - change (bytes_of (256 * x + y :: groups b)) with (chunk (256 * x + y) ++ bytes_of (groups b)). rewrite E. unfold chunk.
    cbn [app]. repeat f_equal; Z.to_euclidean_division_equations; lia.
  - constructor; [unfold word; lia|done].
  - cbn. by rewrite Hn.
Qed.

Lemma bytes_of_app gs gs' : bytes_of (gs ++ gs') = bytes_of gs ++ bytes_of gs'.
Proof. apply bind_app. Qed.

Lemma length_bytes_of gs : length (bytes_of gs) = (2 * length gs)%nat.
Proof. induction gs as [|g gs IH]; [done|]. change (bytes_of (g :: gs)) with (chunk g ++ bytes_of gs). cbn. lia. Qed.

Lemma bytes_of_zeros l : bytes_of (replicate l 0) = zeros (2 * l).
Proof.
  induction l as [|l IH]; [done|]. replace (2 * S l)%nat with (S (S (2 * l))) by lia. cbn [replicate].
  change (bytes_of (0 :: replicate l 0)) with (chunk 0 ++ bytes_of (replicate l 0)). by rewrite IH.
Qed.

Lemma lead_zeros_spec gs : take (lead_zeros gs) gs = replicate (lead_zeros gs) 0 /\ (lead_zeros gs <= length gs)%nat.
Proof.
  induction gs as [|g gs [E Hl]]; [done|]. cbn [lead_zeros]. destruct (Z.eqb_spec g 0) as [->|]; cbn; [|split; [done|lia]].
  rewrite E. split; [done|lia].
Qed.

Definition zero_run (gs : list Z) (r : nat * nat) : Prop :=
  r.2 = O \/ (take r.2 (drop r.1 gs) = replicate r.2 0 /\ (r.1 + r.2 <= length gs)%nat /\ (2 <= r.2)%nat).

Lemma longest_run_spec gs i best : zero_run gs best -> zero_run gs (longest_run (drop i gs) i best).
Proof.
  remember (drop i gs) as rest eqn:E. revert i best E. induction rest as [|g rest IH]; intros i best E Hb; [done|].
  cbn [longest_run]. apply IH.
  - replace (S i) with (i + 1)%nat by lia. by rewrite <- drop_drop, <- E.
  - destruct (lead_zeros_spec (g :: rest)) as [Hz Hl].
    destruct (Nat.leb_spec 2 (lead_zeros (g :: rest))); cbn [andb]; [|done].
    destruct (Nat.ltb_spec best.2 (lead_zeros (g :: rest))); [|done]. right. cbn [fst snd]. rewrite <- E.
    split_and!; [done| |done]. apply (f_equal length) in E. rewrite length_drop in E. cbn [length] in E, Hl. lia.
Qed.

Lemma split_run gs start l :
  take l (drop start gs) = replicate l 0 -> gs = take start gs ++ replicate l 0 ++ drop (start + l) gs.
Proof. intros <-. by rewrite <- drop_drop, take_drop, take_drop. Qed.

(** ** Lemmas: the characters of a text *)

Definition mark (c : ascii) : Prop := c = dot \/ c = colon \/ c = percent.

Lemma first_mark_skip a b : Forall (fun c => ~ mark c) a -> first_mark (a ++ b) = first_mark b.
Proof.
  induction 1 as [|c a Hc _ IH]; [done|]. cbn [app first_mark]. by rewrite bool_decide_eq_false_2.
Qed.

Lemma hex_not_mark c n : hex_val c = Some n -> ~ mark c.
Proof. by intros Hv [-> | [-> | ->]]. Qed.

Lemma group_not_mark g : word g -> Forall (fun c => ~ mark c) (group_text g).
Proof.
  intros Hg. unfold word in Hg. assert (Hc : forall n, 0 <= n < 16 -> ~ mark (hex_char n)).
  { intros n Hn. eapply hex_not_mark, hex_val_char, Hn. }
  unfold group_text. destruct (Z.leb_spec 4096 g); [|destruct (Z.leb_spec 256 g); [|destruct (Z.leb_spec 16 g)]];
    repeat constructor; apply Hc; Z.to_euclidean_division_equations; lia.
Qed.

Lemma digit_hex c : is_digit c = true -> exists n, hex_val c = Some n.
Proof.
  unfold is_digit, in_range, hex_val. intros Hd. exists (byte_val c - 48). by rewrite Hd.
Qed.

Lemma digits_not_mark ds : forallb is_digit ds = true -> Forall (fun c => ~ mark c) ds.
Proof.
  intros Hd. apply List.Forall_forall. intros c Hc. rewrite List.forallb_forall in Hd.
  destruct (digit_hex c (Hd c Hc)) as [n Hn]. by eapply hex_not_mark.
Qed.

Lemma octet_not_mark b : octet b -> Forall (fun c => ~ mark c) (format_int b).
Proof. intros Hb. apply digits_not_mark. by destruct (octet_text b Hb). Qed.

Lemma joined_mark gs rest :
  Forall word gs -> gs <> [] -> (length gs <> 1%nat \/ exists s, rest = colon :: s) ->
  first_mark (joined_groups gs ++ rest) = Some colon.
Proof.
  destruct gs as [|g [|g' gs]]; [done|..]; intros [Hg _]%list.Forall_cons _ Hr.
  - destruct Hr as [?|[s ->]]; [done|]. change (joined_groups [g]) with (group_text g).
    by rewrite first_mark_skip by (by apply group_not_mark).
  - rewrite joined_cons, <- app_assoc. by rewrite first_mark_skip by (by apply group_not_mark).
Qed.

Lemma no_percent_joined gs : Forall word gs -> percent ∉ joined_groups gs.
Proof.
  intros Hw [Hc|(w & Hw' & Hc)]%elem_of_join; [by apply list_elem_of_singleton in Hc|].
  apply list_elem_of_fmap in Hw' as (g & -> & Hg). rewrite list.Forall_forall in Hw.
  pose proof (group_not_mark g (Hw g Hg)) as Hm. rewrite list.Forall_forall in Hm. apply (Hm percent Hc).
  right. by right.
Qed.

Lemma no_percent_octet b : octet b -> percent ∉ format_int b.
Proof.
  intros Hb Hc. pose proof (octet_not_mark b Hb) as Hm. rewrite list.Forall_forall in Hm. apply (Hm _ Hc).
  right. by right.
Qed.

Lemma no_percent_string4 b0 b1 b2 b3 :
  octet b0 -> octet b1 -> octet b2 -> octet b3 -> percent ∉ string4 b0 b1 b2 b3.
Proof.
  intros H0 H1 H2 H3. unfold string4.
  rewrite !elem_of_app, !elem_of_cons, !elem_of_app, !elem_of_cons, !elem_of_app, !elem_of_cons.
  pose proof (no_percent_octet b0 H0). pose proof (no_percent_octet b1 H1).
  pose proof (no_percent_octet b2 H2). pose proof (no_percent_octet b3 H3).
  intuition discriminate.
Qed.

(** ** The round trip *)

Lemma expand_full ip : length ip = 16%nat -> expand_ellipsis ip None = Some ip.
Proof. unfold expand_ellipsis. by intros ->. Qed.

Lemma expand_at ip e :
  (length ip < 16)%nat -> expand_ellipsis ip (Some e) = Some (take e ip ++ zeros (16 - length ip) ++ drop e ip).
Proof. unfold expand_ellipsis. intros Hl. by rewrite (proj2 (Nat.ltb_lt _ _) Hl). Qed.

Lemma parse_bytes_plain c s :
  c <> colon ->
  parseIPv6_bytes (c :: s) = v6_loop 8 (c :: s) [] None ≫= fun x => expand_ellipsis x.1 x.2.
Proof. intros Hc. destruct s as [|d s]; [done|]. unfold parseIPv6_bytes. by rewrite (bool_decide_eq_false_2 (c = colon)). Qed.

Lemma parse_bytes_leading s :
  s <> [] -> parseIPv6_bytes (colon :: colon :: s) = v6_loop 8 s [] (Some O) ≫= fun x => expand_ellipsis x.1 x.2.
Proof. intros Hs. unfold parseIPv6_bytes. rewrite bool_decide_eq_true_2 by done. by destruct s. Qed.

(** How [string6] writes the groups of an address. *)
Inductive written (gs : list Z) : gostring -> Prop :=
  | written_all : written gs (joined_groups gs)
  | written_run pre l post :
      gs = pre ++ replicate l 0 ++ post -> (2 <= l)%nat ->
      written gs (joined_groups pre ++ [colon; colon] ++ joined_groups post).

Lemma string6_written b : written (groups b) (string6 b).
Proof.
  unfold string6. assert (zero_run (groups b) (longest_run (groups b) 0 (O, O))) as Hz
    by (apply (longest_run_spec _ 0); by left).
  destruct (longest_run (groups b) 0 (O, O)) as [start l]. destruct Hz as [Hl|(Hz & _ & Hl)]; cbn [fst snd] in *.
  - rewrite Hl. apply written_all.
  - rewrite (proj2 (Nat.eqb_neq l 0)) by lia. eapply written_run; [by apply split_run|done].
Qed.

Lemma parse_bytes_string6 b :
  length b = 16%nat -> Forall octet b -> parseIPv6_bytes (string6 b) = Some b.
Proof.
  intros Hl Hb. destruct (groups_bytes 8 b Hl Hb) as (E & Hw & Hn).
  destruct (string6_written b) as [|pre l post Hgs Hrun].
  - assert (groups b <> []) as Hne by (intros E0; by rewrite E0 in Hn).
    destruct (joined_head _ Hw Hne) as (c & s & Ec & Hc). rewrite Ec, parse_bytes_plain, <- Ec by done.
    rewrite loop_all by (done || lia). cbn. rewrite E. by apply expand_full.
  - rewrite Hgs in Hw, Hn. rewrite !length_app, length_replicate in Hn.
    apply list.Forall_app in Hw as [Hpre [_ Hpost]%list.Forall_app].
    rewrite <- E, Hgs, !bytes_of_app, bytes_of_zeros. pose proof (length_bytes_of pre). pose proof (length_bytes_of post).
    destruct (decide (pre = [])) as [->|Hp].
    + cbn [length] in Hn. cbn [joined_groups fmap list_fmap join app]. change (joined_groups []) with (@nil ascii). cbn [app].
      destruct (decide (post = [])) as [->|Hq].
      * cbn [length] in Hn. assert (l = 8%nat) as -> by lia. done.
      * destruct (joined_head post Hpost Hq) as (c & s & Ec & _). rewrite parse_bytes_leading by (by rewrite Ec).
        rewrite loop_all by (done || lia). cbn [mbind option_bind fst snd app].
        rewrite expand_at by lia. by replace (16 - length (bytes_of post))%nat with (2 * l)%nat by lia.
    + destruct (joined_head pre Hpre Hp) as (c & s & Ec & Hc). rewrite Ec, <- app_comm_cons, parse_bytes_plain by done.
      rewrite app_comm_cons, <- Ec, loop_ellipsis by (done || lia). cbn [mbind option_bind fst snd app].
      rewrite expand_at by (rewrite length_app; lia). rewrite take_app_length, drop_app_length, length_app.
      by replace (16 - (length (bytes_of pre) + length (bytes_of post)))%nat with (2 * l)%nat by lia.
Qed.

Lemma hex_run_digits ds rest acc off :
  forallb is_digit ds = true -> no_hex rest ->
  exists v, hex_run (ds ++ rest) acc off = (v, (off + length ds)%nat, rest).
Proof.
  revert acc off. induction ds as [|c ds IH]; intros acc off Hd Hr.
  - exists acc. rewrite Nat.add_0_r. by apply hex_run_stop.
  - cbn [forallb] in Hd. apply andb_true_iff in Hd as [Hc Hd]. destruct (digit_hex c Hc) as [n Hn].
    cbn [app hex_run]. rewrite Hn. destruct (IH (acc * 16 + n) (S off) Hd Hr) as [v ->]. exists v. do 2 f_equal. cbn. lia.
Qed.

Lemma octet_length b : octet b -> (1 <= length (format_int b) <= 3)%nat.
Proof.
  intros Hb. assert (Hall : forallb (fun n => let l := length (format_int (Z.of_nat n)) in
    (1 <=? l)%nat && (l <=? 3)%nat) (seq 0 256) = true) by (vm_compute; reflexivity).
  rewrite List.forallb_forall in Hall. specialize (Hall (Z.to_nat b)). rewrite List.in_seq in Hall.
  unfold octet in Hb. specialize (Hall ltac:(lia)). cbn zeta in Hall. rewrite Z2Nat.id in Hall by lia.
  apply andb_true_iff in Hall as [H1%Nat.leb_le H2%Nat.leb_le]. lia.
Qed.

Lemma string4_cons b0 b1 b2 b3 :
  octet b0 -> exists c s, string4 b0 b1 b2 b3 = c :: s /\ c <> colon.
Proof.
  intros H0. pose proof (octet_not_mark b0 H0) as Hm. pose proof (octet_length b0 H0) as Hl. unfold string4.
  destruct (format_int b0) as [|c s]; [cbn in Hl; lia|]. apply list.Forall_cons in Hm as [Hc _].
  eexists c, _. split; [done|]. intros ->. apply Hc. right. by left.
Qed.

Lemma parse_bytes_mapped b0 b1 b2 b3 :
  octet b0 -> octet b1 -> octet b2 -> octet b3 ->
  parseIPv6_bytes (str "::ffff:" ++ string4 b0 b1 b2 b3) = Some (zeros 10 ++ [255; 255; b0; b1; b2; b3]).
Proof.
  intros H0 H1 H2 H3. change (str "::ffff:" ++ ?t) with (colon :: colon :: group_text 65535 ++ colon :: t).
  rewrite parse_bytes_leading by done. rewrite loop_group by done. cbn [app chunk].
  rewrite bool_decide_eq_false_2 by done. rewrite bool_decide_eq_true_2 by done. cbn [negb].
  destruct (string4_cons b0 b1 b2 b3 H0) as (c & s & Ec & Hc). rewrite Ec, bool_decide_eq_false_2, <- Ec by done.
  cbn [v6_loop]. pose proof (parse_string4 b0 b1 b2 b3 H0 H1 H2 H3) as Hs. unfold string4 in *.
  pose proof (octet_length b0 H0) as Hl. destruct (octet_text b0 H0) as [Hd _].
  match goal with |- context [hex_run (_ ++ ?rest)] => destruct (hex_run_digits (format_int b0) rest 0 0 Hd eq_refl) as [v ->] end.
  cbn [plus]. rewrite (proj2 (Nat.eqb_neq (length (format_int b0)) 0)), (proj2 (Nat.ltb_ge 4 _)) by lia. cbn [orb].
  rewrite bool_decide_eq_true_2 by done. rewrite Hs. reflexivity.
Qed.

(** The two texts of an IPv6 address have a colon for their first mark and no
    percent sign. *)
Lemma string6_marks b rest :
  length b = 16%nat -> Forall octet b ->
  first_mark (string6 b ++ rest) = Some colon /\ percent ∉ string6 b.
Proof.
  intros Hl Hb. destruct (groups_bytes 8 b Hl Hb) as (_ & Hw & Hn).
  destruct (string6_written b) as [|pre l post Hgs Hrun].
  - split; [|by apply no_percent_joined]. apply joined_mark; [done| |left; lia]. intros E. by rewrite E in Hn.
  - rewrite Hgs in Hw. apply list.Forall_app in Hw as [Hpre [_ Hpost]%list.Forall_app]. split.
    + destruct (decide (pre = [])) as [->|Hp]; [done|]. rewrite <- app_assoc. apply joined_mark; [done..|].
      right. by eexists.
    + rewrite !elem_of_app, !elem_of_cons, elem_of_nil.
      pose proof (no_percent_joined pre Hpre). pose proof (no_percent_joined post Hpost).
      intros [?|[[?|[?|[]]]|?]]; done.
Qed.

Lemma parseIPv6_zone text b zone :
  percent ∉ text -> parseIPv6_bytes text = Some b ->
  parseIPv6 (text ++ (if bool_decide (zone = []) then [] else percent :: zone)) = Some (Addr6 b zone).
Proof.
  intros Hp Hb. unfold parseIPv6. case_bool_decide as Hz.
  - rewrite app_nil_r. unfold cut. rewrite index_byte_None by done. rewrite Hb. by subst.
  - rewrite cut_byte_app by done. rewrite bool_decide_eq_false_2 by done. by rewrite Hb.
Qed.

Lemma mapped_bytes b :
  length b = 16%nat -> mapped b = true ->
  b = zeros 10 ++ [255; 255; byte_at b 12; byte_at b 13; byte_at b 14; byte_at b 15].
Proof.
  intros Hl Hm%bool_decide_eq_true. rewrite <- (take_drop 12 b) at 1. rewrite Hm, <- app_assoc. do 2 f_equal.
  do 16 (destruct b as [|? b]; [discriminate Hl|]). destruct b; [reflexivity|discriminate Hl].
Qed.

(** The text of an address is read as that address. *)
Theorem ParseAddr_string a : addr_ok a -> ParseAddr (addr_string a) = Some a.
Proof.
  destruct a as [|b0 b1 b2 b3|b zone]; [done| |].
  - intros (H0 & H1 & H2 & H3). unfold ParseAddr, addr_string, parseIPv4. unfold string4 at 1.
    rewrite first_mark_skip by (by apply octet_not_mark). cbn [first_mark].
    rewrite bool_decide_eq_true_2 by (by left). rewrite bool_decide_eq_true_2 by done. by rewrite parse_string4.
  - intros [Hl Hb]. unfold ParseAddr, addr_string. destruct (mapped b) eqn:Hm.
    + pose proof (mapped_bytes b Hl Hm) as E.
      assert (forall i, (i < 16)%nat -> octet (byte_at b i)) as Hat.
      { intros i Hi. unfold byte_at. destruct (b !! i) as [x|] eqn:Hx.
        - rewrite list.Forall_forall in Hb. by eapply Hb, list_elem_of_lookup_2.
        - apply lookup_ge_None in Hx. lia. }
      change (first_mark _) with (Some colon). cbn [mbind option_bind]. rewrite bool_decide_eq_false_2 by done.
      rewrite bool_decide_eq_true_2 by done. rewrite (parseIPv6_zone _ b zone); [done| |].
      * rewrite elem_of_app. intros [Hc|Hc].
        -- revert Hc. change (percent ∉ str "::ffff:"). apply (bool_decide_eq_true_1 _). vm_compute. reflexivity.
        -- by apply no_percent_string4 in Hc; try apply Hat; lia || idtac.
      * rewrite parse_bytes_mapped by (apply Hat; lia). by rewrite <- E.
    + destruct (string6_marks b (if bool_decide (zone = []) then [] else percent :: zone) Hl Hb) as [-> Hp].
      rewrite bool_decide_eq_false_2 by done. rewrite bool_decide_eq_true_2 by done.
      apply parseIPv6_zone; [done|by apply parse_bytes_string6].
Qed.
