(* ===== verification/Program.v ===== *)
(** * Effects: what a goroutine of the program does between pure steps

    A function of the source that talks to PostgreSQL, the clock, the random
    source, DNS or an HTTP peer is a [prog]: a tree of effects.  Each SQL
    statement is one effect and is atomic; a transaction is one effect whose
    body is a sequence of statements.  [run] executes a tree against a [world]
    under a script, one [env] per effect, which decides everything the program
    does not: how long it takes, whether the connection fails before or after the
    statement took hold, what other processes did to the database meanwhile,
    what peers answer.  A missing entry is an uneventful one, so [run] is total
    and a theorem about every script is a theorem about every outcome. *)

From S2P Require Import Prelude GoStrings Schema Netip.
Local Open Scope Z_scope.

(** What one statement sees besides the tables: [now()], and which rows
    another transaction holds locked at that moment ([SKIP LOCKED]). *)
Record stmt_env := StmtEnv {
  se_now : Z;
  se_locked_message : gostring -> bool;
  se_locked_delivery : Z -> bool;
}.

(** A statement: refused with an error, or its result and the tables after it. *)
Abbreviation statement A := (stmt_env -> DB -> result (A * DB)).

(** A read-only statement. *)
Definition query {A} (f : stmt_env -> DB -> A) : statement A := fun env db => Ok (f env db, db).

(** ** Transactions *)

Record tx_state := TxState {
  tx_env : stmt_env;
  tx_db : DB;
  tx_faults : list (option error);
  tx_rand : result gostring;
}.

Abbreviation tx A := (tx_state -> result A * tx_state).

Definition tx_return {A} (r : result A) : tx A := fun s => (r, s).

Definition tx_bind {A B} (m : tx A) (k : result A -> tx B) : tx B :=
  fun s => let '(r, s') := m s in k r s'.

Notation "'let%' x := m 'in' k" := (tx_bind m (fun x => k))
  (at level 10, x pattern, m at level 100, k at level 200) : go_scope.

(** One statement of a transaction; the connection may fail at it. *)
Definition tx_exec {A} (q : statement A) : tx A := fun s =>
  let '(TxState env db faults rand) := s in
  let s' := TxState env db (tail faults) rand in
  match head faults with
  | Some (Some e) => (Err e, s')
  | _ => match q env db with
         | Ok (a, db') => (Ok a, TxState env db' (tail faults) rand)
         | Err e => (Err e, s')
         end
  end.

(** The random bytes a transaction's body draws. *)
Definition tx_entropy : tx gostring := fun s => (tx_rand s, s).

(** ** HTTP and DNS peers *)

Record http_request := {
  hr_method : gostring;
  hr_url : gostring;
  hr_headers : list (gostring * gostring);
  hr_body : gostring;
}.

(** [Header.Set]: the value replaces what the key had. *)
Definition set_header (k v : gostring) (r : http_request) : http_request :=
  {| hr_method := hr_method r; hr_url := hr_url r;
     hr_headers := base.filter (fun kv => kv.1 <> k) (hr_headers r) ++ [(k, v)]; hr_body := hr_body r |}.

(** What the client reads of a response: its status and its Location header. *)
Record http_answer := Answer { an_status : Z; an_location : gostring }.

(** The connection a request goes out on: a new one to this very address, or one
    to the request's host from a pool that keeps at most [idle] unused ones. *)
Inductive route :=
  | Fresh (ip : Addr)
  | Pooled (idle : nat).

(** [req.isReplayable()], for requests whose body can be read again. *)
Definition replayable (r : http_request) : bool :=
  bool_decide (hr_method r ∈ [str "GET"; str "HEAD"; str "OPTIONS"; str "TRACE"])
  || existsb (fun kv => bool_decide (kv.1 = str "Idempotency-Key") || bool_decide (kv.1 = str "X-Idempotency-Key"))
       (hr_headers r).

(** How often the transport writes the request again: a kept-alive connection may
    turn out closed by the far end after the request was written to it, and then a
    replayable request is tried on the next one; a new connection is not retried. *)
Definition resends (via : route) (r : http_request) (stale : nat) : nat :=
  match via with
  | Fresh _ => 0
  | Pooled idle => if replayable r then Nat.min idle stale else 0
  end.

(** One call of [Transport.RoundTrip]: what was asked of whom, how many copies the
    far end may have received besides the answered one, and the answer. *)
Record exchange := Exchange {
  ex_request : http_request;
  ex_route : route;
  ex_resent : nat;
  ex_answer : result http_answer;
}.

Inductive dns_answer :=
  | Records (l : list gostring)
  | NotFound
  | LookupError (e : error).

(** ** Effects *)

(** Answers are small types, so that programs can be kept in lists. *)
Inductive effect : Set -> Type :=
  | Stmt {A : Set} (q : statement A) : effect (result A)
  | Transact {A : Set} (body : tx A) (commit_prefix : A -> gostring) : effect (result A)
  | Now : effect Z
  | Entropy : effect (result gostring)
  (** [Transport.RoundTrip] *)
  | RoundTrip (via : route) (r : http_request) : effect (result http_answer)
  | LookupTXT (name : gostring) : effect dns_answer
  (** [Resolver.LookupNetIP], which answers with at least one address *)
  | LookupNetIP (host : gostring) : effect (result (Addr * list Addr))
  (** [select] on a timer and the end of the context: whether it ended *)
  | Wait (d : Z) : effect bool.

(** Whether an effect that reaches the database gets through: a lost one never
    ran, an unacknowledged one ran but its answer did not arrive. *)
Inductive fault := NoFault | Lost (e : error) | Unacked (e : error).

Record env := Env {
  e_others : DB -> DB;
  e_delay : N;
  e_fault : fault;
  e_begin : option error;
  e_tx_faults : list (option error);
  e_locked_message : gostring -> bool;
  e_locked_delivery : Z -> bool;
  e_entropy : result gostring;
  e_http : result http_answer;
  e_stale : nat;
  e_dns : dns_answer;
  e_ips : result (Addr * list Addr);
}.

(** Nothing goes wrong; peers accept. *)
Definition calm : env := {|
  e_others := id; e_delay := 1000; e_fault := NoFault; e_begin := None; e_tx_faults := [];
  e_locked_message := fun _ => false; e_locked_delivery := fun _ => false;
  e_entropy := Ok []; e_http := Ok (Answer 200 []); e_stale := 0; e_dns := Records [];
  e_ips := Ok (Addr4 93 184 216 34, []);
|}.

Record world := World {
  w_db : DB;
  w_clock : Z;
  w_requests : list exchange;
}.

(** The world when the effect takes place. *)
Definition arrive (e : env) (w : world) : world :=
  World (e_others e (w_db w)) (w_clock w + Z.of_N (e_delay e)) (w_requests w).

Definition set_db (db : DB) (w : world) : world := World db (w_clock w) (w_requests w).

Definition env_of (e : env) (w : world) : stmt_env :=
  StmtEnv (w_clock w) (e_locked_message e) (e_locked_delivery e).

Definition sem_stmt {A : Set} (q : statement A) (e : env) (w : world) : result A * world :=
  match e_fault e with
  | Lost err => (Err err, w)
  | f =>
      match q (env_of e w) (w_db w) with
      | Err err => (Err err, w)
      | Ok (a, db') =>
          (match f with Unacked err => Err err | _ => Ok a end, set_db db' w)
      end
  end.

Definition sem_transact {A : Set} (body : tx A) (commit_prefix : A -> gostring) (e : env) (w : world)
    : result A * world :=
  match e_begin e with
  | Some err => (Err (wrap_w (str "beginning transaction") err), w)
  | None =>
      match body (TxState (env_of e w) (w_db w) (e_tx_faults e) (e_entropy e)) with
      | (Err err, _) => (Err err, w)
      | (Ok a, s) =>
          match e_fault e with
          | NoFault => (Ok a, set_db (tx_db s) w)
          | Lost err => (Err (wrap_w (commit_prefix a) err), w)
          | Unacked err => (Err (wrap_w (commit_prefix a) err), set_db (tx_db s) w)
          end
      end
  end.

(** The end of a context shows as a fault. *)
Definition cancelled (e : env) : bool := match e_fault e with NoFault => false | _ => true end.

Definition slept (e : env) (d : Z) : Z := if cancelled e then 0 else Z.max 0 d.

Definition sem_at {X : Set} (op : effect X) (e : env) : world -> X * world :=
  match op in effect X return world -> X * world with
  | Stmt q => sem_stmt q e
  | Transact body prefix => sem_transact body prefix e
  | Now => fun w => (w_clock w, w)
  | Entropy => fun w => (e_entropy e, w)
  | RoundTrip via r => fun w =>
      (e_http e, World (w_db w) (w_clock w) (w_requests w ++ [Exchange r via (resends via r (e_stale e)) (e_http e)]))
  | LookupTXT _ => fun w => (e_dns e, w)
  | LookupNetIP _ => fun w => (e_ips e, w)
  | Wait d => fun w => (cancelled e, World (w_db w) (w_clock w + slept e d) (w_requests w))
  end.

Definition sem {X : Set} (op : effect X) (e : env) (w : world) : X * world := sem_at op e (arrive e w).

(** ** Programs *)

Inductive prog (A : Type) : Type :=
  | Ret (a : A)
  | Do {X : Set} (op : effect X) (k : X -> prog A).
Arguments Ret {A} a.
Arguments Do {A X} op k.

Fixpoint bind {A B} (p : prog A) (f : A -> prog B) : prog B :=
  match p with
  | Ret a => f a
  | Do op k => Do op (fun x => bind (k x) f)
  end.

Notation "'let!' x := p 'in' k" := (bind p (fun x => k))
  (at level 10, x pattern, p at level 100, k at level 200) : go_scope.

Definition perform {X : Set} (op : effect X) : prog X := Do op Ret.

(** [s.Pool.Exec], [Query] and [QueryRow] *)
Definition exec {A : Set} (q : statement A) : prog (result A) := perform (Stmt q).

(** [fmt.Errorf("<prefix>: %w", err)] around a statement's error. *)
Definition wrap_err {A} (prefix : gostring) (r : result A) : result A :=
  match r with Ok a => Ok a | Err e => Err (wrap_w prefix e) end.

Definition exec_wrapped {A : Set} (prefix : gostring) (q : statement A) : prog (result A) :=
  Do (Stmt q) (fun r => Ret (wrap_err prefix r)).

(** [if err != nil { return err }] after a call. *)
Definition and_then {A B} (p : prog (result A)) (k : A -> prog (result B)) : prog (result B) :=
  bind p (fun r => match r with Ok a => k a | Err e => Ret (Err e) end).

Notation "'try!' x := p 'in' k" := (and_then p (fun x => k))
  (at level 10, x pattern, p at level 100, k at level 200) : go_scope.

(** [for _, x := range l { body }] *)
Fixpoint for_each {A} (l : list A) (body : A -> prog ()) : prog () :=
  match l with
  | [] => Ret tt
  | x :: l' => bind (body x) (fun _ => for_each l' body)
  end.

Definition pop (script : list env) : env * list env :=
  match script with [] => (calm, []) | e :: script' => (e, script') end.

Fixpoint run {A} (p : prog A) (script : list env) (w : world) : A * (list env * world) :=
  match p with
  | Ret a => (a, (script, w))
  | Do op k =>
      let '(e, script') := pop script in
      let '(x, w') := sem op e w in
      run (k x) script' w'
  end.

Definition result_of {A} (r : A * (list env * world)) : A := r.1.
Definition world_of {A} (r : A * (list env * world)) : world := r.2.2.
Definition db_of {A} (r : A * (list env * world)) : DB := w_db (world_of r).

Lemma slept_nonneg e d : 0 <= slept e d.
Proof. unfold slept. case_match; lia. Qed.

Lemma run_bind {A B} (p : prog A) (f : A -> prog B) script w :
  run (bind p f) script w =
  let '(a, (script', w')) := run p script w in run (f a) script' w'.
Proof.
  revert script w. induction p as [a|X op k IH]; intros script w; simpl; [done|].
  destruct (pop script) as [e script'], (sem op e w) as [x w']. apply IH.
Qed.

Lemma run_and_then {A B} (p : prog (result A)) (k : A -> prog (result B)) script w :
  run (and_then p k) script w =
  let '(r, (script', w')) := run p script w in
  match r with Ok a => run (k a) script' w' | Err e => (Err e, (script', w')) end.
Proof.
  unfold and_then. rewrite run_bind. by destruct (run p script w) as [[a|e] [script' w']].
Qed.

(** A sequence that succeeded: its parts did, one after the other. *)
Lemma and_then_Ok {A B} (p : prog (result A)) (k : A -> prog (result B)) script w b :
  result_of (run (and_then p k) script w) = Ok b ->
  exists a script' w', run p script w = (Ok a, (script', w'))
    /\ run (and_then p k) script w = run (k a) script' w'.
Proof.
  rewrite run_and_then. destruct (run p script w) as [[a|e] [script' w']]; [|done]. eauto.
Qed.

Lemma bind_assoc_run {A B C} (p : prog A) (f : A -> prog B) (g : B -> prog C) script w :
  run (bind (bind p f) g) script w = run (bind p (fun a => bind (f a) g)) script w.
Proof.
  revert script w. induction p as [a|X op k IH]; intros script w; simpl; [done|].
  destruct (pop script) as [e script'], (sem op e w) as [x w']. apply IH.
Qed.

(** A statement that ran, or did not. *)
Lemma sem_stmt_cases {A : Set} (q : statement A) e wd r wd' :
  sem_stmt q e wd = (r, wd') ->
  wd' = wd \/ exists a db', q (env_of e wd) (w_db wd) = Ok (a, db') /\ wd' = set_db db' wd.
Proof.
  unfold sem_stmt. destruct (e_fault e), (q (env_of e wd) (w_db wd)) as [[a db']|]; intros [= <- <-]; eauto.
Qed.

(** One step, when nothing interferes with the statement itself. *)
Lemma run_exec {A : Set} (q : statement A) script w :
  run (exec q) script w =
  let '(e, script') := pop script in
  let '(r, w') := sem_stmt q e (arrive e w) in (r, (script', w')).
Proof.
  unfold exec, perform; simpl. destruct (pop script) as [e script'].
  unfold sem, sem_at. by destruct (sem_stmt q e (arrive e w)).
Qed.

(** The log of requests only grows. *)
Lemma sem_requests {X : Set} (op : effect X) e w :
  exists l, w_requests (sem op e w).2 = w_requests w ++ l.
Proof.
  assert (forall w' : world, w_requests w' = w_requests w -> exists l, w_requests w' = w_requests w ++ l) as Hsame
    by (intros w' ->; exists []; by rewrite app_nil_r).
  unfold sem. destruct op; cbn; try by apply Hsame.
  - apply Hsame. unfold sem_stmt. by repeat case_match.
  - apply Hsame. unfold sem_transact. by repeat case_match.
  - by eexists.
Qed.

Lemma run_requests {A} (p : prog A) script w :
  exists l, w_requests (world_of (run p script w)) = w_requests w ++ l.
Proof.
  revert script w. induction p as [a|X op k IH]; intros script w; [exists []; by rewrite app_nil_r|].
  cbn. destruct (pop script) as [e script']. destruct (sem_requests op e w) as [l Hl].
  destruct (sem op e w) as [x w']. cbn in Hl. destruct (IH x script' w') as [l' ->].
  exists (l ++ l'). by rewrite Hl, app_assoc.
Qed.

(** A program that only talks to peers. *)
Fixpoint talks {A} (p : prog A) : Prop :=
  match p with
  | Ret _ => True
  | Do op k => match op with RoundTrip _ _ | LookupNetIP _ => True | _ => False end /\ forall x, talks (k x)
  end.

Lemma talks_bind {A B} (p : prog A) (f : A -> prog B) : talks p -> (forall a, talks (f a)) -> talks (bind p f).
Proof.
  intros Hp Hf. induction p as [a|X op k IH]; cbn in *; [done|]. destruct Hp as [Ho Hk]. split; [done|eauto].
Qed.
