(* ===== verification/Unsubscribe.v ===== *)
(** * internal/unsubscribe/token.go: one-click unsubscribe tokens *)

From S2P Require Import Prelude Utf8 GoStrings Sha256 Encoding Schema.
Local Open Scope Z_scope.

Definition Lifetime : Z := 90 * 24 * Hour.

Definition ErrMalformed : error :=
  Error (Some unsubscribe_ErrMalformed) (str "unsubscribe link is malformed").
Definition ErrExpired : error :=
  Error (Some unsubscribe_ErrExpired) (str "unsubscribe link has expired").
Definition ErrBadSignature : error :=
  Error (Some unsubscribe_ErrBadSignature) (str "unsubscribe link is not valid").

Definition DeriveSecret (masterKey : gostring) : gostring :=
  hmac_sha256 masterKey (str "aiemail/unsubscribe/v1").

Record Token := { t_MessageID : gostring; t_Address : gostring; t_ExpiresAt : Z }.

(** [t.Unix()] *)
Definition unix (t : Z) : Z := t / Second.

Definition NUL : ascii := "000"%char.

Definition mac (secret payload : gostring) : gostring := hmac_sha256 secret payload.

Section Token.
Context `{UnicodeTables}.

Definition payloadOf (messageID address : gostring) (expiry : Z) : gostring :=
  messageID ++ [NUL] ++ to_lower (trim_space address) ++ [NUL] ++ format_int expiry.

Definition Sign (secret messageID address : gostring) (now : Z) : gostring :=
  let expiry := unix (now + Lifetime) in
  let payload := payloadOf messageID address expiry in
  let sig := mac secret payload in
  base64_raw_url_encode payload ++ ["."%char] ++ base64_raw_url_encode sig.

Definition Verify (secret token : gostring) (now : Z) : result Token :=
  match cut token ["."%char] with
  | None => Err ErrMalformed
  | Some (encodedPayload, encodedSig) =>
      match base64_raw_url_decode encodedPayload with
      | None => Err ErrMalformed
      | Some payload =>
          match base64_raw_url_decode encodedSig with
          | None => Err ErrMalformed
          | Some sig =>
              if negb (bool_decide (mac secret payload = sig)) then Err ErrBadSignature
              else match split payload [NUL] with
                   | [messageID; address; expiryText] =>
                       match parse_int expiryText with
                       | None => Err ErrMalformed
                       | Some expiry =>
                           if expiry * Second <? now then Err ErrExpired
                           else Ok {| t_MessageID := messageID; t_Address := address;
                                      t_ExpiresAt := expiry * Second |}
                       end
                   | _ => Err ErrMalformed
                   end
          end
      end
  end.

Definition Link (baseURL token : gostring) : gostring :=
  trim_suffix (str "/") baseURL ++ str "/u/" ++ token.

Definition Headers (link : gostring) : gostring * gostring :=
  (str "<" ++ link ++ str ">", str "List-Unsubscribe=One-Click").

(** ** Lemmas *)

Lemma digits_no_nul s : forallb is_digit s = true -> NUL ∉ s.
Proof.
  rewrite forallb_Forall, list.Forall_forall. intros Hd Hin. apply Hd in Hin. discriminate Hin.
Qed.

Lemma split_payload messageID address expiry :
  NUL ∉ messageID -> NUL ∉ to_lower (trim_space address) -> 0 <= expiry ->
  split (payloadOf messageID address expiry) [NUL]
  = [messageID; to_lower (trim_space address); format_int expiry].
Proof.
  intros Hm Ha He. unfold payloadOf. cbn [app].
  rewrite split_byte_app by done. rewrite split_byte_app by done.
  rewrite split_byte_single; [done|]. apply digits_no_nul, format_int_digits, He.
Qed.

(** A token of one's own is split back into what was signed. *)
Lemma Verify_of_Sign secret messageID address now later :
  NUL ∉ messageID -> NUL ∉ to_lower (trim_space address) ->
  0 <= now + Lifetime <= max_int64 ->
  Verify secret (Sign secret messageID address now) later =
    let expiry := unix (now + Lifetime) * Second in
    if expiry <? later then Err ErrExpired
    else Ok {| t_MessageID := messageID; t_Address := to_lower (trim_space address);
               t_ExpiresAt := expiry |}.
Proof.
  intros Hm Ha Hnow. unfold Verify, Sign. cbn zeta.
  set (expiry := unix (now + Lifetime)).
  assert (0 <= expiry <= max_int64) as He.
  { unfold expiry, unix. change Second with 1000000000. split; [apply Z.div_pos; lia|].
    apply Z.div_le_upper_bound; lia. }
  cbn [app]. rewrite cut_byte_app by apply base64_raw_url_no_dot.
  rewrite !base64_raw_url_roundtrip. rewrite bool_decide_eq_true_2 by done. cbn [negb].
  rewrite split_payload by (done || lia). rewrite parse_format_int by (unfold min_int64; lia). done.
Qed.

Definition nuls (s : gostring) : nat := length (base.filter (fun c => c = NUL) s).

Lemma nuls_app a b : nuls (a ++ b) = (nuls a + nuls b)%nat.
Proof. unfold nuls. by rewrite list.filter_app, length_app. Qed.

Lemma nuls_cons s : nuls (NUL :: s) = S (nuls s).
Proof. unfold nuls. by rewrite filter_cons, decide_True. Qed.

Lemma nuls_zero s : nuls s = 0%nat -> NUL ∉ s.
Proof.
  intros Hz%nil_length_inv Hin. assert (NUL ∈ base.filter (fun c => c = NUL) s) as H0
    by by apply list_elem_of_filter. rewrite Hz in H0. by apply not_elem_of_nil in H0.
Qed.

Lemma nuls_absent s : NUL ∉ s -> nuls s = 0%nat.
Proof.
  induction s as [|c s IH]; [done|]. intros [Hc Hs]%not_elem_of_cons. unfold nuls in *.
  rewrite filter_cons, decide_False by congruence. by apply IH.
Qed.

Lemma length_split_nul s : length (split s [NUL]) = S (nuls s).
Proof.
  remember (length s) as n eqn:Hn. revert s Hn. induction (lt_wf n) as [n _ IH]. intros s ->.
  destruct (decide (NUL ∈ s)) as [Hin|Hni].
  - apply list_elem_of_split_l in Hin as (a & b & -> & Ha). rewrite split_byte_app by done. cbn [length].
    rewrite (IH (length b)) by (done || (rewrite length_app; cbn; lia)). rewrite nuls_app.
    by rewrite (nuls_absent a), nuls_cons.
  - rewrite split_byte_single by done. by rewrite nuls_absent.
Qed.

(** A token of one's own that is accepted says what was signed, whatever that was. *)
Lemma own_token secret messageID address now later claim :
  Verify secret (Sign secret messageID address now) later = Ok claim ->
  t_MessageID claim = messageID /\ t_Address claim = to_lower (trim_space address).
Proof.
  unfold Verify, Sign. cbn zeta. cbn [app]. rewrite cut_byte_app by apply base64_raw_url_no_dot.
  rewrite !base64_raw_url_roundtrip. rewrite bool_decide_eq_true_2 by done. cbn [negb].
  set (expiry := unix (now + Lifetime)). pose proof (length_split_nul (payloadOf messageID address expiry)) as Hl.
  unfold payloadOf in *. cbn [app] in *. set (tail := format_int expiry) in *. rewrite nuls_app, nuls_cons, nuls_app, nuls_cons in Hl.
  destruct (split _ _) as [|x [|y [|z [|]]]] eqn:Es; try done. cbn [length] in Hl.
  rewrite split_byte_app, split_byte_app in Es by (apply nuls_zero; lia). injection Es as <- <- _.
  destruct (parse_int z); [|done]. case_match; [done|]. by intros [= <-].
Qed.

(** ** Properties *)

(** C32: A signed token verifies to exactly the message and the (normalised)
    recipient it was issued for until its lifetime has passed, and as expired
    afterwards. *)
Theorem Verify_Sign secret messageID address now later :
  NUL ∉ messageID -> NUL ∉ to_lower (trim_space address) ->
  0 <= now + Lifetime <= max_int64 ->
  Verify secret (Sign secret messageID address now) later =
    let expiry := unix (now + Lifetime) * Second in
    if expiry <? later then Err ErrExpired
    else Ok {| t_MessageID := messageID; t_Address := to_lower (trim_space address);
               t_ExpiresAt := expiry |}.
Proof. apply Verify_of_Sign. Qed.

(** Tokens are bound to message and recipient: two tokens issued under one
    secret are equal only when they name the same message, the same normalised
    address and the same expiry second. *)
Theorem Sign_binds secret id1 a1 now1 id2 a2 now2 :
  NUL ∉ id1 -> NUL ∉ to_lower (trim_space a1) -> NUL ∉ id2 -> NUL ∉ to_lower (trim_space a2) ->
  0 <= now1 + Lifetime -> 0 <= now2 + Lifetime ->
  Sign secret id1 a1 now1 = Sign secret id2 a2 now2 ->
  id1 = id2 /\ to_lower (trim_space a1) = to_lower (trim_space a2)
  /\ unix (now1 + Lifetime) = unix (now2 + Lifetime).
Proof.
  intros H1 H2 H3 H4 Hn1 Hn2 E. unfold Sign in E. cbn zeta in E.
  assert (Hp : payloadOf id1 a1 (unix (now1 + Lifetime)) = payloadOf id2 a2 (unix (now2 + Lifetime))).
  { apply (f_equal (fun t => cut t ["."%char])) in E. cbn [app] in E.
    rewrite !cut_byte_app in E by apply base64_raw_url_no_dot. injection E as E _.
    apply (f_equal base64_raw_url_decode) in E. rewrite !base64_raw_url_roundtrip in E. by injection E. }
  assert (Hu : forall n, 0 <= n -> 0 <= unix n) by (intros; apply Z.div_pos; [lia|done]).
  apply (f_equal (fun p => split p [NUL])) in Hp. rewrite !split_payload in Hp by eauto.
  injection Hp as -> -> Hd. split_and!; try done.
  destruct (format_int_digits (unix (now1 + Lifetime))) as (_ & _ & <-); [by apply Hu|].
  destruct (format_int_digits (unix (now2 + Lifetime))) as (_ & _ & <-); [by apply Hu|].
  by rewrite Hd.
Qed.

End Token.

Lemma Verify_Sign_witness :
  Verify (str "k") (Sign (H := ascii_tables) (str "k") (str "m1") (str " Ann@Y.io ") 0) 0
  = Ok {| t_MessageID := str "m1"; t_Address := str "ann@y.io"; t_ExpiresAt := Lifetime |}.
Proof.
  rewrite (Verify_Sign (H := ascii_tables) (str "k") (str "m1") (str " Ann@Y.io ") 0 0).
  - vm_compute. reflexivity.
  - apply (bool_decide_unpack _). vm_compute. exact I.
  - apply (bool_decide_unpack _). vm_compute. exact I.
  - vm_compute. split; discriminate.
Defined.

Lemma Sign_binds_witness :
  Sign (H := ascii_tables) (str "k") (str "m1") (str "Ann@y.io") 0
    = Sign (H := ascii_tables) (str "k") (str "m1") (str "ann@Y.io") 7
  /\ unix (0 + Lifetime) = unix (7 + Lifetime).
Proof.
  split; [vm_compute; reflexivity|].
  apply (Sign_binds (H := ascii_tables) (str "k") (str "m1") (str "Ann@y.io") 0
           (str "m1") (str "ann@Y.io") 7);
    first [ vm_compute; reflexivity | vm_compute; discriminate
          | apply (bool_decide_unpack _); vm_compute; exact I ].
Defined.
