(* ===== verification/NetMail.v ===== *)
(** * net/mail: the address parser

    [mail.ParseAddress] of the standard library, which internal/mail/address.go checks
    addresses with: atoms, quoted strings, domain literals, comments, display names with
    encoded words, groups.  A parser takes the text and gives what it read and what is
    left, or nothing where the code returns an error. *)

From S2P Require Import Prelude Utf8 GoStrings Encoding Quote Netip.
Local Open Scope Z_scope.
Local Open Scope go_scope.

(** ** Characters *)

Definition isVchar (r : Z) : bool := in_range 33 126 r || (128 <=? r).
Definition isWSP (r : Z) : bool := (r =? 32) || (r =? 9).
Definition isAtext (dot : bool) (r : Z) : bool :=
  if r =? 46 then dot
  else if bool_decide (r ∈ byte_val <$> quotation :: str "()<>[]:;@\,") then false
  else isVchar r.
Definition isQtext (r : Z) : bool :=
  if (r =? byte_val quotation) || (r =? byte_val escape) then false else isVchar r.
Definition isDtext (r : Z) : bool :=
  if bool_decide (r ∈ byte_val <$> str "[]\") then false else isVchar r.

Definition blank (c : ascii) : bool := isWSP (byte_val c).

Definition skipSpace (s : gostring) : gostring := drop_while blank s.

(** [p.consume(c)] *)
Definition consume (c : ascii) (s : gostring) : option gostring :=
  match s with d :: t => if bool_decide (d = c) then Some t else None | [] => None end.

(** ** Atoms, quoted strings, domain literals *)

Fixpoint scan_atom (dot : bool) (l : list (Z * gostring)) : option (gostring * gostring) :=
  match l with
  | [] => Some ([], [])
  | (r, bytes) :: l' =>
      if invalid r bytes then None
      else if negb (isAtext dot r) then Some ([], seg_bytes l)
      else (fun '(a, rest) => (bytes ++ a, rest)) <$> scan_atom dot l'
  end.

Definition consumeAtom (dot permissive : bool) (s : gostring) : option (gostring * gostring) :=
  match scan_atom dot (segs s) with
  | None => None
  | Some (atom, rest) =>
      if bool_decide (atom = []) then None
      else if negb permissive
        && (has_prefix (str ".") atom || contains atom (str "..") || has_suffix (str ".") atom) then None
      else Some (atom, rest)
  end.

(** The runes of a quoted string, after its opening quote. *)
Fixpoint scan_quoted (escaped : bool) (l : list (Z * gostring)) : option (gostring * gostring) :=
  match l with
  | [] => None
  | (r, bytes) :: l' =>
      let keep := (fun '(q, rest) => (encode_rune r ++ q, rest)) <$> scan_quoted false l' in
      if invalid r bytes then None
      else if escaped then if negb (isVchar r) && negb (isWSP r) then None else keep
      else if isQtext r || isWSP r then keep
      else if r =? byte_val quotation then Some ([], seg_bytes l')
      else if r =? byte_val escape then scan_quoted true l'
      else None
  end.

Definition consumeQuotedString (s : gostring) : option (gostring * gostring) :=
  scan_quoted false (segs (drop 1 s)).

Fixpoint scan_literal (l : list (Z * gostring)) : option (gostring * gostring) :=
  match l with
  | [] => None
  | (r, bytes) :: l' =>
      if bool_decide (bytes = ["]"%char]) then Some ([], seg_bytes l')
      else if invalid r bytes || negb (isDtext r) then None
      else (fun '(d, rest) => (bytes ++ d, rest)) <$> scan_literal l'
  end.

(** [net.ParseIP(s) != nil]: an address without a zone *)
Definition parses_ip (s : gostring) : bool :=
  match ParseAddr s with
  | Some (Addr6 _ zone) => bool_decide (zone = [])
  | Some _ => true
  | None => false
  end.

Definition consumeDomainLiteral (s : gostring) : option (gostring * gostring) :=
  match consume "["%char s with
  | None => None
  | Some s =>
      match scan_literal (segs s) with
      | Some (dtext, rest) => if parses_ip dtext then Some ("["%char :: dtext ++ ["]"%char], rest) else None
      | None => None
      end
  end.

(** ** Comments *)

(** The text of a comment [depth] parentheses deep, [None] if it does not end. *)
Fixpoint consumeComment (depth : nat) (s : gostring) : option (gostring * gostring) :=
  match s with
  | [] => None
  | c :: t =>
      let keep d := (fun '(comment, rest) => (c :: comment, rest)) <$> consumeComment d t in
      if bool_decide (c = escape) then
        match t with
        | d :: u => (fun '(comment, rest) => (d :: comment, rest)) <$> consumeComment depth u
        | [] => None
        end
      else if bool_decide (c = "("%char) then keep (S depth)
      else if bool_decide (c = ")"%char) then
        if (depth <=? 1)%nat then Some ([], t) else keep (pred depth)
      else keep depth
  end.

(** [skipCFWS]; every comment takes a byte, so the length of the text is enough turns. *)
Fixpoint skip_comments (fuel : nat) (s : gostring) : option gostring :=
  let s := skipSpace s in
  match fuel, consume "("%char s with
  | _, None => Some s
  | O, Some _ => None
  | S fuel, Some s => match consumeComment 1 s with Some (_, rest) => skip_comments fuel rest | None => None end
  end.

Definition skipCFWS (s : gostring) : option gostring := skip_comments (length s) s.

(** ** Encoded words *)

Fixpoint qDecode (s : gostring) : option gostring :=
  match s with
  | [] => Some []
  | c :: t =>
      if bool_decide (c = "_"%char) then cons " "%char <$> qDecode t
      else if bool_decide (c = "="%char) then
        match t with
        | a :: b :: u =>
            match hex_value a, hex_value b with
            | Some x, Some y => cons (byte_of (16 * x + y)) <$> qDecode u
            | _, _ => None
            end
        | _ => None
        end
      else if in_range 32 126 (byte_val c) || bool_decide (byte_val c ∈ [9; 10; 13]) then cons c <$> qDecode t
      else None
  end.

Section NetMail.
Context `{UnicodeTables}.

(** [WordDecoder.convert]; [None] is a charset nobody reads *)
Definition convert (charset content : gostring) : option gostring :=
  if equal_fold (str "utf-8") charset then Some content
  else if equal_fold (str "iso-8859-1") charset then Some (encode_runes (byte_val <$> content))
  else if equal_fold (str "us-ascii") charset then
    Some (content ≫= fun c => if 128 <=? byte_val c then encode_rune RuneError else [c])
  else None.

(** [mime.decode] of a text in an encoding of one letter *)
Definition decode_text (encoding text : gostring) : option gostring :=
  if bool_decide (encoding ∈ [str "B"; str "b"]) then base64_std_decode text
  else if bool_decide (encoding ∈ [str "Q"; str "q"]) then qDecode text
  else None.

(** [decodeRFC2047Word]: the word and whether it was encoded; [None] for a charset
    error, any other flaw leaves the word as it is. *)
Definition decodeRFC2047Word (word : gostring) : option (gostring * bool) :=
  let plain := Some (word, false) in
  if (length word <? 8)%nat || negb (has_prefix (str "=?") word) || negb (has_suffix (str "?=") word)
     || negb (length (List.filter (fun c => bool_decide (c = "?"%char)) word) =? 4)%nat then plain
  else
    let '(charset, text) := cut_or (take (length word - 4) (drop 2 word)) (str "?") in
    if bool_decide (charset = []) then plain
    else
      let '(encoding, text) := cut_or text (str "?") in
      match decode_text encoding text with
      | None => plain
      | Some content => (fun decoded => (decoded, true)) <$> convert charset content
      end.

(** ** Addresses *)

Definition consumeLocal (s : gostring) : option (gostring * gostring) :=
  match s with
  | [] => None
  | c :: _ =>
      if bool_decide (c = quotation) then
        match consumeQuotedString s with
        | Some (local, rest) => if bool_decide (local = []) then None else Some (local, rest)
        | None => None
        end
      else consumeAtom true false s
  end.

Definition consumeDomain (s : gostring) : option (gostring * gostring) :=
  match s with
  | [] => None
  | c :: _ => if bool_decide (c = "["%char) then consumeDomainLiteral s else consumeAtom true false s
  end.

Definition consumeAddrSpec (s : gostring) : option (gostring * gostring) :=
  match consumeLocal (skipSpace s) with
  | None => None
  | Some (local, s) =>
      match consume "@"%char s with
      | None => None
      | Some s =>
          match consumeDomain (skipSpace s) with
          | None => None
          | Some (domain, rest) => Some (local ++ "@"%char :: domain, rest)
          end
      end
  end.

(** A word of a phrase: the word, whether it was encoded, and the rest; an error
    leaves the text where the code leaves it. *)
Definition consumeWord (s : gostring) : option (gostring * bool) * gostring :=
  match s with
  | c :: _ =>
      if bool_decide (c = quotation) then
        match consumeQuotedString s with Some (word, rest) => (Some (word, false), rest) | None => (None, s) end
      else
        match consumeAtom true true s with
        | Some (word, rest) => (decodeRFC2047Word word, rest)
        | None => (None, s)
        end
  | [] => (None, [])
  end.

(** [words[len(words)-1] += word] *)
Definition add_word (words : list gostring) (merge : bool) (word : gostring) : list gostring :=
  match merge, reverse words with
  | true, w :: ws => reverse ws ++ [w ++ word]
  | _, _ => words ++ [word]
  end.

(** The loop of [consumePhrase]: every word takes a byte. *)
Fixpoint phrase_loop (fuel : nat) (words : list gostring) (prev : bool) (s : gostring) : option (gostring * gostring) :=
  match (if bool_decide (words = []) then Some s else skipCFWS s) with
  | None => None
  | Some s =>
      match consumeWord (skipSpace s), fuel with
      | (Some (word, encoded), s), S fuel =>
          phrase_loop fuel (add_word words (prev && encoded) word) encoded s
      | (_, s), _ => if bool_decide (words = []) then None else Some (join words (str " "), s)
      end
  end.

Definition consumePhrase (s : gostring) : option (gostring * gostring) := phrase_loop (length s) [] false s.

(** The words of a comment, decoded, joined by one space. *)
Definition consumeDisplayNameComment (s : gostring) : option (gostring * gostring) :=
  match consume "("%char s with
  | None => None
  | Some s =>
      match consumeComment 1 s with
      | None => None
      | Some (comment, rest) =>
          (fun words => (join words.*1 (str " "), rest)) <$> mapM decodeRFC2047Word (fields_func isWSP comment)
      end
  end.

(** The display name before an angle bracket, if there is one. *)
Definition display_name (s : gostring) : option (gostring * gostring) :=
  match consume "<"%char s with Some _ => Some ([], s) | None => consumePhrase s end.

(** [angle-addr] *)
Definition angle_addr (name s : gostring) : option (list (gostring * gostring) * gostring) :=
  match consume "<"%char s with
  | None => None
  | Some s =>
      match consumeAddrSpec s with
      | None => None
      | Some (spec, s) => (fun rest => ([(name, spec)], rest)) <$> consume ">"%char s
      end
  end.

(** [parseAddress]: [group] reads the members of a group, where groups are allowed. *)
Definition parse_address (group : option (gostring -> option (list (gostring * gostring) * gostring)))
  (s : gostring) : option (list (gostring * gostring) * gostring) :=
  let s := skipSpace s in
  if bool_decide (s = []) then None
  else match consumeAddrSpec s with
       | Some (spec, rest) =>
           let rest := skipSpace rest in
           match consume "("%char rest with
           | Some _ => (fun '(name, rest) => ([(name, spec)], rest)) <$> consumeDisplayNameComment rest
           | None => Some ([([], spec)], rest)
           end
       | None =>
           match display_name s with
           | None => None
           | Some (name, s) =>
               let s := skipSpace s in
               match group, consume ":"%char s with
               | Some group, Some s => group s
               | _, _ => angle_addr name s
               end
           end
       end.

(** The members of a group, each of which takes a byte. *)
Fixpoint group_members (fuel : nat) (s : gostring) : option (list (gostring * gostring) * gostring) :=
  match fuel, parse_address None (skipSpace s) with
  | O, _ | _, None => None
  | S fuel, Some (addrs, s) =>
      match skipCFWS s with
      | None => None
      | Some s =>
          match consume ";"%char s, consume ","%char s with
          | Some s, _ => (fun rest => (addrs, rest)) <$> skipCFWS s
          | None, Some s => (fun '(more, rest) => (addrs ++ more, rest)) <$> group_members fuel s
          | None, None => None
          end
      end
  end.

Definition consumeGroupList (s : gostring) : option (list (gostring * gostring) * gostring) :=
  let s := skipSpace s in
  match consume ";"%char s with
  | Some s => (fun rest => ([], rest)) <$> skipCFWS s
  | None => group_members (S (length s)) s
  end.

(** [mail.ParseAddress]: display name and address, [None] for an error *)
Definition net_mail_parse (s : gostring) : option (gostring * gostring) :=
  match parse_address (Some consumeGroupList) s with
  | Some ([addr], rest) =>
      match skipCFWS rest with Some [] => Some addr | _ => None end
  | _ => None
  end.

End NetMail.

(** ** What the scanners read *)

Lemma seg_bytes_segs s : seg_bytes (segs s) = s.
Proof. apply segs_concat. Qed.

(** Runes that are written as themselves *)
Definition runes_of (p : Z -> bool) (rs : list Z) : Prop := Forall (fun r => valid_rune r = true /\ p r = true) rs.

Lemma decoded_invalid s r u rest : decode_rune s = Some (r, u, rest) -> invalid r u = false ->
  u = encode_rune r /\ valid_rune r = true.
Proof.
  intros [?|[-> Hu]]%decode_rune_cases Hi; [done|]. unfold invalid in Hi. by rewrite Hu in Hi.
Qed.

Lemma encoded_not_invalid r : invalid (scalar r) (encode_rune r) = false.
Proof.
  unfold invalid. destruct (Z.eqb_spec (scalar r) RuneError) as [E|]; [|done].
  rewrite <- encode_scalar, E. done.
Qed.

Lemma scan_atom_spec dot s a rest : scan_atom dot (segs s) = Some (a, rest) ->
  s = a ++ rest /\ scan_atom dot (segs rest) = Some ([], rest)
  /\ exists rs, a = encode_runes rs /\ runes_of (isAtext dot) rs.
Proof.
  revert a; induction s as [|s r u t E IH] using rune_ind; intros a.
  { intros [= <- <-]. split_and!; [done..|]. exists []. split; [done|constructor]. }
  rewrite (segs_step _ _ _ _ E). cbn [scan_atom]. destruct (invalid r u) eqn:Ei; [done|].
  destruct (decoded_invalid _ _ _ _ E Ei) as [Hu Hr]. destruct (isAtext dot r) eqn:Ea; cbn [negb].
  - destruct (scan_atom dot (segs t)) as [[a' rest']|]; cbn; [|done]. intros [= <- <-].
    destruct (IH a' eq_refl) as (-> & Hstop & rs & -> & Hrs). apply decode_rune_app in E as [-> _].
    split; [by rewrite app_assoc|]. split; [done|]. exists (r :: rs). split; [by rewrite encode_runes_cons, Hu|].
    by constructor.
  - rewrite <- (segs_step _ _ _ _ E), seg_bytes_segs. intros [= <- <-]. rewrite (segs_step _ _ _ _ E). cbn [scan_atom].
    rewrite Ei, Ea. cbn [negb]. rewrite <- (segs_step _ _ _ _ E), seg_bytes_segs. split_and!; [done..|]. exists []. split; [done|constructor].
Qed.

Lemma scan_atom_app dot rs rest : runes_of (isAtext dot) rs -> scan_atom dot (segs rest) = Some ([], rest) ->
  scan_atom dot (segs (encode_runes rs ++ rest)) = Some (encode_runes rs, rest).
Proof.
  intros Hrs Hrest. induction Hrs as [|r rs [Hv Ha] _ IH]; [done|].
  rewrite encode_runes_cons, <- app_assoc, segs_encode_cons. cbn [scan_atom].
  rewrite encoded_not_invalid, (scalar_id _ Hv), Ha, IH. done.
Qed.

Lemma scan_atom_stop dot c t : byte_val c < 128 -> isAtext dot (byte_val c) = false ->
  scan_atom dot (segs (c :: t)) = Some ([], c :: t).
Proof.
  intros Hc Ha. rewrite segs_cons_ascii by done. cbn [scan_atom]. unfold invalid.
  replace (byte_val c =? RuneError) with false by (symmetry; apply Z.eqb_neq; unfold RuneError; lia).
  rewrite Ha. cbn. do 2 f_equal. unfold seg_bytes. cbn. by rewrite segs_concat.
Qed.

(** ** The parts of an address *)

Lemma consume_Some c s t : consume c s = Some t <-> s = c :: t.
Proof.
  destruct s as [|d s]; cbn; [done|]. case_bool_decide as Hd; [subst|]; split; congruence.
Qed.

Lemma consume_absent c s : c ∉ s -> consume c s = None.
Proof.
  destruct (consume c s) as [t|] eqn:E; [|done]. apply consume_Some in E as ->. intros []. left.
Qed.

Lemma skipSpace_spec s : exists p, s = p ++ skipSpace s /\ Forall (fun c => blank c = true) p.
Proof.
  induction s as [|c s (p & E & Hp)]; [by exists []|]. cbn. destruct (blank c) eqn:Ec; [|by exists []].
  exists (c :: p). split; [cbn; by f_equal|by constructor].
Qed.

Lemma skipSpace_id s : (forall c t, s = c :: t -> blank c = false) -> skipSpace s = s.
Proof. destruct s as [|c t]; [done|]. intros Hc. cbn. by rewrite (Hc c t eq_refl). Qed.

Lemma consumeAtom_spec dot permissive s a rest : consumeAtom dot permissive s = Some (a, rest) ->
  s = a ++ rest /\ a <> [] /\ exists rs, a = encode_runes rs /\ runes_of (isAtext dot) rs.
Proof.
  unfold consumeAtom. destruct (scan_atom dot (segs s)) as [[a' rest']|] eqn:E; [|done].
  apply scan_atom_spec in E as (Es & _ & Hrs). case_bool_decide; [done|].
  destruct (negb permissive && _); [done|]. by intros [= <- <-].
Qed.

Definition dot_atom (a : gostring) : bool := bool_decide (consumeAtom true false a = Some (a, [])).

Lemma consumeAtom_dot s a rest : consumeAtom true false s = Some (a, rest) -> dot_atom a = true.
Proof.
  unfold dot_atom, consumeAtom. destruct (scan_atom true (segs s)) as [[a' rest']|] eqn:E; [|done].
  apply scan_atom_spec in E as (Es & _ & rs & Ha & Hrs). case_bool_decide as Hn; [done|].
  destruct (negb false && _) eqn:Hd; [done|]. intros [= -> ->]. rewrite bool_decide_eq_true.
  rewrite Ha in Hn, Hd |- * at 1.
  pose proof (scan_atom_app true rs [] Hrs eq_refl) as E. rewrite app_nil_r in E. rewrite E.
  rewrite bool_decide_eq_false_2 by done. by rewrite Hd, Ha.
Qed.

Lemma dot_atom_runes a : dot_atom a = true -> a <> [] /\ exists rs, a = encode_runes rs /\ runes_of (isAtext true) rs.
Proof. intros H%bool_decide_eq_true. by apply consumeAtom_spec in H as (_ & ? & ?). Qed.

Lemma dot_atom_app a rest : dot_atom a = true -> scan_atom true (segs rest) = Some ([], rest) ->
  consumeAtom true false (a ++ rest) = Some (a, rest).
Proof.
  intros Ha Hrest. destruct (dot_atom_runes a Ha) as (Hn & rs & -> & Hrs).
  apply bool_decide_eq_true in Ha. unfold consumeAtom in *.
  pose proof (scan_atom_app true rs [] Hrs eq_refl) as E. rewrite app_nil_r in E. rewrite E in Ha.
  rewrite (scan_atom_app true rs rest Hrs Hrest). rewrite bool_decide_eq_false_2 in Ha |- * by done.
  by destruct (negb false && _).
Qed.

Lemma encode_rune_one r c : encode_rune r = [c] -> byte_val c < 128 -> r = byte_val c.
Proof.
  intros E Hc. pose proof (encode_rune_bytes r) as Hb. rewrite E in Hb.
  apply list.Forall_cons in Hb as [Hb _]. cbn in Hb. lia.
Qed.

Lemma scan_literal_spec s d rest : scan_literal (segs s) = Some (d, rest) ->
  s = d ++ "]"%char :: rest /\ exists rs, d = encode_runes rs /\ runes_of isDtext rs.
Proof.
  revert d; induction s as [|s r u t E IH] using rune_ind; intros d; [done|].
  rewrite (segs_step _ _ _ _ E). cbn [scan_literal]. pose proof (decode_rune_app _ _ _ _ E) as [-> _].
  case_bool_decide as Hu.
  { intros [= <- <-]. rewrite seg_bytes_segs, Hu. split; [done|]. exists []. split; [done|constructor]. }
  destruct (invalid r u) eqn:Ei; [done|]. destruct (isDtext r) eqn:Ed; cbn; [|done].
  destruct (decoded_invalid _ _ _ _ E Ei) as [Hr Hv].
  destruct (scan_literal (segs t)) as [[d' rest']|]; cbn; [|done]. intros [= <- <-].
  destruct (IH d' eq_refl) as (-> & rs & -> & Hrs). split; [by rewrite <- app_assoc|].
  exists (r :: rs). split; [by rewrite encode_runes_cons, Hr|by constructor].
Qed.

Lemma scan_literal_app rs rest : runes_of isDtext rs ->
  scan_literal (segs (encode_runes rs ++ "]"%char :: rest)) = Some (encode_runes rs, rest).
Proof.
  induction 1 as [|r rs [Hv Hd] _ IH].
  - cbn [encode_runes mbind list_bind app]. rewrite segs_cons_ascii by done. cbn. by rewrite seg_bytes_segs.
  - rewrite encode_runes_cons, <- app_assoc, segs_encode_cons. cbn [scan_literal].
    rewrite bool_decide_eq_false_2, encoded_not_invalid, (scalar_id _ Hv), Hd, IH; [done|].
    intros ->%encode_rune_one; done.
Qed.

Definition domain_ok (d : gostring) : bool := bool_decide (consumeDomain d = Some (d, [])).

Lemma consumeDomain_spec s d rest : consumeDomain s = Some (d, rest) -> s = d ++ rest /\ domain_ok d = true.
Proof.
  unfold domain_ok. rewrite bool_decide_eq_true. unfold consumeDomain at 1. destruct s as [|c s]; [done|].
  case_bool_decide as Hc.
  - subst c. unfold consumeDomainLiteral, consume. rewrite bool_decide_eq_true_2 by done.
    destruct (scan_literal (segs s)) as [[t rest']|] eqn:E; [|done].
    destruct (parses_ip t) eqn:Ei; [|done]. intros [= <- <-].
    apply scan_literal_spec in E as (-> & rs & -> & Hrs). split; [cbn; by rewrite <- app_assoc|].
    unfold consumeDomain, consumeDomainLiteral, consume. rewrite !bool_decide_eq_true_2 by done.
    by rewrite (scan_literal_app rs [] Hrs), Ei.
  - intros Ha. pose proof (consumeAtom_dot _ _ _ Ha) as Hd.
    apply consumeAtom_spec in Ha as (Es & Hn & _). split; [done|]. destruct d as [|c' d]; [done|].
    injection Es as <- _. unfold consumeDomain. rewrite bool_decide_eq_false_2 by done.
    by apply bool_decide_eq_true in Hd.
Qed.

(** Characters of an address, read by the standard parser alone. *)
Definition visible_runes (s : gostring) : Prop := exists rs, s = encode_runes rs /\ runes_of isVchar rs.

Lemma atext_visible dot r : isAtext dot r = true -> isVchar r = true.
Proof. unfold isAtext. destruct (Z.eqb_spec r 46) as [->|]; [done|]. by case_bool_decide. Qed.

Lemma dot_atom_visible a : dot_atom a = true -> visible_runes a.
Proof.
  intros (_ & rs & -> & Hrs)%dot_atom_runes. exists rs. split; [done|].
  eapply list.Forall_impl; [exact Hrs|]. cbn. intros r [? ?%atext_visible]; done.
Qed.

Lemma visible_app a b : visible_runes a -> visible_runes b -> visible_runes (a ++ b).
Proof.
  intros (rs & -> & Hr) (rs' & -> & Hr'). exists (rs ++ rs'). split; [by rewrite encode_runes_app|].
  by apply Forall_app.
Qed.

Lemma visible_char c : 33 <= byte_val c <= 126 -> visible_runes [c].
Proof.
  intros Hc. exists [byte_val c]. split; [cbn; by rewrite encode_ascii by lia|].
  constructor; [|constructor]. split; [apply valid_rune_range; lia|]. unfold isVchar, in_range. boolify. lia.
Qed.

Lemma domain_visible d : domain_ok d = true -> d <> [] /\ visible_runes d.
Proof.
  intros H%bool_decide_eq_true. unfold consumeDomain in H. destruct d as [|c d]; [done|]. split; [done|].
  case_bool_decide as Hc.
  - subst c. unfold consumeDomainLiteral, consume in H. rewrite bool_decide_eq_true_2 in H by done.
    destruct (scan_literal (segs d)) as [[t rest]|] eqn:E; [|done].
    destruct (parses_ip t); [|done]. injection H as <- ->.
    apply scan_literal_spec in E as (_ & rs & -> & Hrs).
    apply (visible_app [_] (_ ++ _)); [by apply visible_char|]. apply visible_app; [|by apply visible_char].
    exists rs. split; [done|]. eapply list.Forall_impl; [exact Hrs|]. cbn. intros r [? Hd]. split; [done|].
    unfold isDtext in Hd. by case_bool_decide.
  - by apply consumeAtom_dot, dot_atom_visible in H.
Qed.

(** ** Addresses without quoted strings, comments and groups *)

(** The address in [s] is [local@domain], perhaps with blanks about the at sign. *)
Definition spaced (s local domain : gostring) : Prop :=
  exists b1 b2, s = b1 ++ local ++ "@"%char :: b2 ++ domain
    /\ Forall (fun c => blank c = true) b1 /\ Forall (fun c => blank c = true) b2.

Definition mailbox (local domain : gostring) : gostring := local ++ "@"%char :: domain.

Lemma consumeAddrSpec_spec s spec rest : quotation ∉ s -> consumeAddrSpec s = Some (spec, rest) ->
  exists local domain s', spec = mailbox local domain /\ s = s' ++ rest /\ spaced s' local domain
    /\ dot_atom local = true /\ domain_ok domain = true.
Proof.
  intros Hq. unfold consumeAddrSpec. destruct (skipSpace_spec s) as (b1 & E1 & Hb1).
  destruct (consumeLocal (skipSpace s)) as [[l s1]|] eqn:El; [|done].
  destruct (consume "@"%char s1) as [s2|] eqn:Ea; [|done]. apply consume_Some in Ea as ->.
  destruct (consumeDomain (skipSpace s2)) as [[d s3]|] eqn:Ed; [|done]. intros [= <- <-].
  destruct (skipSpace_spec s2) as (b2 & E2 & Hb2).
  assert (Hl : consumeAtom true false (skipSpace s) = Some (l, "@"%char :: s2)).
  { unfold consumeLocal in El. destruct (skipSpace s) as [|c t] eqn:Es; [done|].
    case_bool_decide as Hc; [|done]. subst c. destruct Hq. rewrite E1. apply elem_of_app. right. left. }
  pose proof (consumeAtom_dot _ _ _ Hl) as Hdot. apply consumeAtom_spec in Hl as (E3 & _).
  apply consumeDomain_spec in Ed as [E4 Hd].
  exists l, d, (b1 ++ l ++ "@"%char :: b2 ++ d). split_and!; [done| |by exists b1, b2|done..].
  rewrite E1, E3, E2 at 1. rewrite E4 at 1. by rewrite <- !app_assoc; cbn; rewrite <- !app_assoc.
Qed.

Lemma visible_head s c t : visible_runes s -> s = c :: t -> blank c = false.
Proof.
  intros (rs & Hs & Hrs) E. destruct Hrs as [|r rs [Hv Hr] _]; [by rewrite E in Hs|].
  rewrite encode_runes_cons in Hs. pose proof (encode_rune_bytes r) as Hb.
  destruct (encode_rune r) as [|c' u] eqn:Er; [pose proof (decode_encode r []) as Hd; by rewrite Er in Hd|].
  rewrite E in Hs. injection Hs as -> _. apply list.Forall_cons in Hb as [Hb _].
  unfold blank, isWSP, isVchar, in_range in *. boolify. lia.
Qed.

Lemma mailbox_head local domain c t : dot_atom local = true -> mailbox local domain = c :: t -> blank c = false.
Proof.
  intros Hl. pose proof (dot_atom_visible _ Hl) as Hv. destruct (dot_atom_runes _ Hl) as [Hn _].
  unfold mailbox. destruct local as [|c' l]; [done|]. intros [= <- _]. exact (visible_head _ _ _ Hv eq_refl).
Qed.

Lemma consumeAddrSpec_mailbox local domain : dot_atom local = true -> domain_ok domain = true ->
  consumeAddrSpec (mailbox local domain) = Some (mailbox local domain, []).
Proof.
  intros Hl Hd. destruct (domain_visible _ Hd) as [_ Hv].
  unfold consumeAddrSpec. rewrite skipSpace_id by (by intros c t; apply mailbox_head).
  assert (consumeLocal (mailbox local domain) = Some (local, "@"%char :: domain)) as ->.
  { pose proof (dot_atom_app local ("@"%char :: domain) Hl (scan_atom_stop true "@"%char domain eq_refl eq_refl)) as Ha.
    unfold mailbox, consumeLocal. destruct local as [|c l]; [done|]. cbn [app] in *.
    rewrite bool_decide_eq_false_2; [done|]. intros ->. unfold dot_atom, consumeAtom in Hl.
    by rewrite (scan_atom_stop true quotation l) in Hl. }
  unfold consume. rewrite bool_decide_eq_true_2 by done.
  rewrite skipSpace_id by (intros c t; by apply visible_head).
  apply bool_decide_eq_true in Hd. by rewrite Hd.
Qed.

Lemma parse_mailbox `{UnicodeTables} local domain : dot_atom local = true -> domain_ok domain = true ->
  net_mail_parse (mailbox local domain) = Some ([], mailbox local domain).
Proof.
  intros Hl Hd. destruct (dot_atom_runes _ Hl) as [Hn _].
  unfold net_mail_parse, parse_address. rewrite skipSpace_id by (by intros c t; apply mailbox_head).
  rewrite bool_decide_eq_false_2 by (by destruct local). by rewrite consumeAddrSpec_mailbox.
Qed.

(** A text with no quote, parenthesis or colon: only atoms, encoded words and one
    address can be read from it. *)
Definition unmarked (s : gostring) : Prop := Forall (fun c => c ∉ quotation :: str "(:") s.

Lemma unmarked_app a b : unmarked (a ++ b) -> unmarked a /\ unmarked b.
Proof. apply Forall_app. Qed.

Lemma unmarked_not c s : unmarked s -> c ∈ quotation :: str "(:" -> c ∉ s.
Proof. intros Hs Hc Hin. by apply (proj1 (list.Forall_forall _ _) Hs c Hin). Qed.

Lemma unmarked_CFWS s : unmarked s -> skipCFWS s = Some (skipSpace s).
Proof.
  intros Hs. destruct (skipSpace_spec s) as (p & E & _). rewrite E in Hs. apply unmarked_app in Hs as [_ Hs].
  unfold skipCFWS. destruct (length s); cbn [skip_comments];
    by rewrite consume_absent by (apply unmarked_not; [done|right; left]).
Qed.

Lemma atom_no_char dot c a : runes_of (isAtext dot) a -> byte_val c < 128 -> isAtext dot (byte_val c) = false ->
  c ∉ encode_runes a.
Proof.
  intros Ha Hc Hd Hin. induction Ha as [|r a [_ Hr] _ IH]; [by apply elem_of_nil in Hin|].
  rewrite encode_runes_cons in Hin. apply elem_of_app in Hin as [Hin|Hin]; [|by apply IH].
  destruct (proj1 (list.Forall_forall _ _) (encode_rune_bytes r) c Hin) as [[_ Hb]|?]; [|lia].
  rewrite Hb in Hd. congruence.
Qed.

Lemma blanks_no_char p c : Forall (fun c => blank c = true) p -> blank c = false -> c ∉ p.
Proof. intros Hp Hc Hin. pose proof (proj1 (list.Forall_forall _ _) Hp c Hin). cbn in *. congruence. Qed.

Section Phrase.
Context `{UnicodeTables}.

Lemma consumeWord_unmarked s word rest : unmarked s -> consumeWord s = (word, rest) ->
  exists p, s = p ++ rest /\ "<"%char ∉ p.
Proof.
  intros Hs. unfold consumeWord. destruct s as [|c t] eqn:Es.
  { intros [= _ <-]. exists []. by split; [|apply not_elem_of_nil]. }
  rewrite bool_decide_eq_false_2.
  2:{ intros ->. apply list.Forall_cons in Hs as [Hs _]. apply Hs. left. }
  destruct (consumeAtom true true (c :: t)) as [[w rest']|] eqn:Ea; intros [= _ <-].
  - apply consumeAtom_spec in Ea as (-> & _ & rs & -> & Hrs). eexists. split; [done|].
    by apply (atom_no_char true).
  - exists []. by split; [|apply not_elem_of_nil].
Qed.

Lemma word_start (words : list gostring) s : unmarked s ->
  exists s1, (if bool_decide (words = []) then Some s else skipCFWS s) = Some s1
    /\ exists p, s = p ++ skipSpace s1 /\ "<"%char ∉ p.
Proof.
  intros Hs. destruct (skipSpace_spec s) as (b & Eb & Hb). destruct (skipSpace_spec (skipSpace s)) as (b' & Eb' & Hb').
  rewrite unmarked_CFWS by done. case_bool_decide; eexists; (split; [done|]).
  - exists b. split; [done|]. by eapply blanks_no_char.
  - exists (b ++ b'). split; [by rewrite <- app_assoc, <- Eb'|].
    apply (blanks_no_char (b ++ b')); [by apply Forall_app|done].
Qed.

Lemma phrase_loop_unmarked fuel words prev s phrase rest :
  unmarked s -> phrase_loop fuel words prev s = Some (phrase, rest) -> exists p, s = p ++ rest /\ "<"%char ∉ p.
Proof.
  revert words prev s; induction fuel as [|fuel IH]; intros words prev s Hs; cbn [phrase_loop];
    destruct (word_start words s Hs) as (s1 & -> & p1 & E1 & Hp1);
    rewrite E1 in Hs; apply unmarked_app in Hs as [_ Hs];
    destruct (consumeWord (skipSpace s1)) as [word s2] eqn:Ew;
    destruct (consumeWord_unmarked _ _ _ Hs Ew) as (p2 & E2 & Hp2);
    rewrite E2 in Hs; apply unmarked_app in Hs as [_ Hs];
    (assert (exists p, s = p ++ s2 /\ "<"%char ∉ p) as Hend
      by (exists (p1 ++ p2); rewrite <- app_assoc, <- E2; split; [done|]; rewrite elem_of_app; by intros [?|?])).
  - destruct word as [[? ?]|]; case_bool_decide; try done; by intros [= _ <-].
  - destruct word as [[w encoded]|]; [|case_bool_decide; [done|by intros [= _ <-]]].
    intros (p3 & -> & Hp3)%IH; [|done]. destruct Hend as (p & -> & Hp). exists (p ++ p3).
    rewrite <- app_assoc. split; [done|]. rewrite elem_of_app. by intros [?|?].
Qed.

Lemma display_name_unmarked s name rest : unmarked s -> display_name s = Some (name, rest) ->
  exists p, s = p ++ rest /\ "<"%char ∉ p.
Proof.
  intros Hs. unfold display_name. destruct (consume "<"%char s).
  - intros [= _ <-]. exists []. by split; [|apply not_elem_of_nil].
  - by apply phrase_loop_unmarked.
Qed.

(** The whole text is an address, or a display name and an address in angle brackets. *)
Inductive shape (s body : gostring) : Prop :=
  | bare post : s = body ++ post -> Forall (fun c => blank c = true) post -> shape s body
  | named pre post : s = pre ++ "<"%char :: body ++ ">"%char :: post -> "<"%char ∉ pre ->
      Forall (fun c => blank c = true) post -> shape s body.

Lemma CFWS_end s : unmarked s -> skipCFWS s = Some [] -> Forall (fun c => blank c = true) s.
Proof.
  intros Hs. rewrite unmarked_CFWS by done. destruct (skipSpace_spec s) as (p & E & Hp).
  intros [= En]. rewrite En, app_nil_r in E. by subst.
Qed.

Lemma spaced_blanks b s local domain : Forall (fun c => blank c = true) b ->
  spaced s local domain -> spaced (b ++ s) local domain.
Proof.
  intros Hb (b1 & b2 & -> & H1 & H2). exists (b ++ b1), b2. rewrite <- app_assoc. split; [done|].
  by split; [apply Forall_app|].
Qed.

Lemma angle_addr_spec name s addrs rest : unmarked s -> angle_addr name s = Some (addrs, rest) ->
  exists local domain body, addrs = [(name, mailbox local domain)] /\ s = "<"%char :: body ++ ">"%char :: rest
    /\ spaced body local domain /\ dot_atom local = true /\ domain_ok domain = true.
Proof.
  intros Hs. unfold angle_addr. destruct (consume "<"%char s) as [s1|] eqn:E1; [|done].
  apply consume_Some in E1 as ->. apply list.Forall_cons in Hs as [_ Hs].
  destruct (consumeAddrSpec s1) as [[spec s2]|] eqn:E2; [|done].
  destruct (consume ">"%char s2) as [s3|] eqn:E3; cbn; [|done]. apply consume_Some in E3 as ->. intros [= <- <-].
  apply consumeAddrSpec_spec in E2 as (l & d & body & -> & -> & Hsp & Hl & Hd).
  - by exists l, d, body.
  - apply unmarked_not; [done|left].
Qed.

Lemma net_mail_unmarked s name addr : unmarked s -> net_mail_parse s = Some (name, addr) ->
  exists local domain body, addr = mailbox local domain /\ dot_atom local = true /\ domain_ok domain = true
    /\ spaced body local domain /\ shape s body.
Proof.
  intros Hs. unfold net_mail_parse.
  destruct (parse_address (Some consumeGroupList) s) as [[[|[n a] [|? ?]] rest]|] eqn:Ep; try done.
  destruct (skipCFWS rest) as [[|? ?]|] eqn:Er; try done. intros [= -> ->].
  unfold parse_address in Ep. destruct (skipSpace_spec s) as (b & Eb & Hb). rewrite Eb in Hs.
  apply unmarked_app in Hs as [_ Hs]. case_bool_decide; [done|].
  destruct (consumeAddrSpec (skipSpace s)) as [[spec s1]|] eqn:Ea.
  - apply consumeAddrSpec_spec in Ea as (l & d & body & -> & E1 & Hsp & Hl & Hd); [|apply unmarked_not; [done|left]].
    rewrite E1 in Hs. apply unmarked_app in Hs as [_ Hs]. destruct (skipSpace_spec s1) as (b' & Eb' & Hb').
    rewrite Eb' in Hs. apply unmarked_app in Hs as [_ Hs].
    rewrite consume_absent in Ep by (apply unmarked_not; [done|right; left]). injection Ep as <- <- <-.
    exists l, d, (b ++ body). split_and!; try done; [by apply spaced_blanks|].
    apply (bare _ _ s1); [by rewrite <- app_assoc, <- E1|]. rewrite Eb'. apply Forall_app. split; [done|].
    by apply CFWS_end.
  - destruct (display_name (skipSpace s)) as [[n s1]|] eqn:En; [|done].
    destruct (display_name_unmarked _ _ _ Hs En) as (p & E1 & Hp). rewrite E1 in Hs.
    apply unmarked_app in Hs as [_ Hs]. destruct (skipSpace_spec s1) as (b' & Eb' & Hb').
    rewrite Eb' in Hs. apply unmarked_app in Hs as [_ Hs].
    rewrite consume_absent in Ep by (apply unmarked_not; [done|right; right; left]).
    destruct (angle_addr_spec _ _ _ _ Hs Ep) as (l & d & body & [= -> ->] & E2 & Hsp & Hl & Hd).
    exists l, d, body. split_and!; try done. apply (named _ _ (b ++ p ++ b') rest).
    + rewrite <- !app_assoc, <- E2, <- Eb', <- E1. done.
    + rewrite !elem_of_app. pose proof (blanks_no_char b "<"%char Hb eq_refl).
      pose proof (blanks_no_char b' "<"%char Hb' eq_refl). tauto.
    + apply CFWS_end; [|done]. rewrite E2 in Hs. apply list.Forall_cons in Hs as [_ Hs].
      apply unmarked_app in Hs as [_ Hs]. by apply list.Forall_cons in Hs as [_ Hs].
Qed.

End Phrase.

(** ** Marks *)

Lemma parseIPv4Fields_chars s val digLen fields l : parseIPv4Fields s val digLen fields = Some l ->
  Forall (fun c => is_digit c = true \/ c = dot) s.
Proof.
  revert val digLen fields; induction s as [|c s IH]; intros val digLen fields; [constructor|]. cbn.
  destruct (is_digit c) eqn:Ec.
  { repeat case_match; try done. intros Hs. constructor; [by left|by eapply IH]. }
  case_bool_decide as Hc; [|done]. repeat case_match; try done. intros Hs. constructor; [by right|by eapply IH].
Qed.

Lemma first_mark_in s c : first_mark s = Some c -> c ∈ s /\ (c = dot \/ c = colon \/ c = percent).
Proof.
  induction s as [|d s IH]; [done|]. cbn. case_bool_decide as Hd.
  - intros [= ->]. split; [left|done].
  - intros [Hin ?]%IH. split; [by right|done].
Qed.

Lemma parses_ip_chars s : colon ∉ s -> parses_ip s = true -> Forall (fun c => is_digit c = true \/ c = dot) s.
Proof.
  intros Hc. unfold parses_ip, ParseAddr. destruct (first_mark s) as [c|] eqn:Em; [|done].
  apply first_mark_in in Em as [Hin Hm]. case_bool_decide.
  - unfold parseIPv4. destruct (parseIPv4Fields s 0 0 []) as [l|] eqn:E; [|done]. intros _.
    by eapply parseIPv4Fields_chars.
  - case_bool_decide as Hcol; [by subst|done].
Qed.

Lemma marks_cases c : c ∈ str "<>@" -> c = "<"%char \/ c = ">"%char \/ c = "@"%char.
Proof. change (str "<>@") with ["<"%char; ">"%char; "@"%char]. rewrite !elem_of_cons, elem_of_nil. tauto. Qed.

Lemma dot_atom_no_mark a c : dot_atom a = true -> c ∈ str "<>@" -> c ∉ a.
Proof. intros (_ & rs & -> & Hrs)%dot_atom_runes [->|[->| ->]]%marks_cases; by apply (atom_no_char true). Qed.

Lemma domain_no_mark d c : unmarked d -> domain_ok d = true -> c ∈ str "<>@" -> c ∉ d.
Proof.
  intros Hm H%bool_decide_eq_true Hc. unfold consumeDomain in H. destruct d as [|c0 d]; [done|].
  case_bool_decide as Hb; [|by apply dot_atom_no_mark; [eapply consumeAtom_dot|]].
  subst c0. unfold consumeDomainLiteral, consume in H. rewrite bool_decide_eq_true_2 in H by done.
  destruct (scan_literal (segs d)) as [[t rest]|]; [|done].
  destruct (parses_ip t) eqn:Ei; [|done]. injection H as <- ->.
  apply list.Forall_cons in Hm as [_ Hm]. apply unmarked_app in Hm as [Hm _].
  apply parses_ip_chars in Ei; [|apply unmarked_not; [done|right; right; left]].
  rewrite elem_of_cons, elem_of_app, list_elem_of_singleton.
  intros [->|[Hin| ->]]; [by apply marks_cases in Hc as [|[|]]| |by apply marks_cases in Hc as [|[|]]].
  apply (proj1 (list.Forall_forall _ _) Ei) in Hin. by apply marks_cases in Hc as [->|[->| ->]]; destruct Hin.
Qed.

(** ** Enough turns

    Every loop takes a byte a turn, so more turns than the text has bytes change nothing. *)

Lemma shorter_app (p rest : gostring) : p <> [] -> (length rest < length (p ++ rest))%nat.
Proof. destruct p; [done|]. cbn. rewrite length_app. lia. Qed.

Lemma skipSpace_shorter s : (length (skipSpace s) <= length s)%nat.
Proof. destruct (skipSpace_spec s) as (p & E & _). rewrite E at 2. rewrite length_app. lia. Qed.

Lemma consume_shorter c s t : consume c s = Some t -> (length t < length s)%nat.
Proof. intros ->%consume_Some. cbn. lia. Qed.

Lemma consumeComment_shorter n : forall depth s comment rest, (length s <= n)%nat ->
  consumeComment depth s = Some (comment, rest) -> (length rest < length s)%nat.
Proof.
  induction n as [|n IH]; intros depth [|c s] comment rest Hn; cbn in Hn; try lia; [done..|]. cbn.
  assert (Hk : forall d x, (fun '(comment, rest) => (c :: comment, rest)) <$> consumeComment d s = Some (x, rest) ->
    (length rest < S (length s))%nat).
  { intros d x. destruct (consumeComment d s) as [[? ?]|] eqn:E; cbn; [|done]. intros [= _ <-].
    apply IH in E; lia. }
  case_bool_decide.
  - destruct s as [|d s]; [done|]. cbn in Hn. destruct (consumeComment depth s) as [[? ?]|] eqn:E; cbn; [|done].
    intros [= _ <-]. apply IH in E; lia.
  - case_bool_decide; [by apply Hk|]. case_bool_decide; [|by apply Hk].
    destruct (depth <=? 1)%nat; [|by apply Hk]. intros [= _ <-]. lia.
Qed.

Lemma skip_comments_enough n : forall m s, (length s <= n)%nat -> (length s <= m)%nat ->
  skip_comments n s = skip_comments m s.
Proof.
  induction n as [|n IH]; intros m s Hn Hm; pose proof (skipSpace_shorter s);
    destruct m as [|m]; cbn [skip_comments]; destruct (consume "("%char (skipSpace s)) as [t|] eqn:E; try done;
    apply consume_shorter in E; try lia.
  destruct (consumeComment 1 t) as [[? rest]|] eqn:Ec; [|done].
  apply (consumeComment_shorter (length t)) in Ec; [|done]. apply IH; lia.
Qed.

Lemma skip_comments_shorter n : forall s rest, skip_comments n s = Some rest -> (length rest <= length s)%nat.
Proof.
  induction n as [|n IH]; intros s rest; pose proof (skipSpace_shorter s); cbn [skip_comments];
    destruct (consume "("%char (skipSpace s)) as [t|] eqn:E; try done; try (intros [= <-]; lia).
  apply consume_shorter in E. destruct (consumeComment 1 t) as [[? r]|] eqn:Ec; [|done].
  apply (consumeComment_shorter (length t)) in Ec; [|done]. intros ?%IH. lia.
Qed.

Lemma scan_quoted_shorter escaped s q rest : scan_quoted escaped (segs s) = Some (q, rest) ->
  (length rest <= length s)%nat.
Proof.
  revert escaped q; induction s as [|s r u t E IH] using rune_ind; intros escaped q; [done|].
  rewrite (segs_step _ _ _ _ E). cbn [scan_quoted]. apply decode_rune_app in E as [-> _]. rewrite length_app.
  assert (Hk : forall x, (fun '(q, rest) => (encode_rune r ++ q, rest)) <$> scan_quoted false (segs t) = Some (x, rest) ->
    (length rest <= length u + length t)%nat).
  { intros x. destruct (scan_quoted false (segs t)) as [[? ?]|] eqn:E; cbn; [|done]. intros [= _ <-].
    apply IH in E. lia. }
  repeat case_match; try done; try (by apply Hk); [intros [= _ <-]; rewrite seg_bytes_segs; lia|].
  intros ?%IH. lia.
Qed.

Lemma consumeQuotedString_shorter s q rest : s <> [] -> consumeQuotedString s = Some (q, rest) ->
  (length rest < length s)%nat.
Proof.
  intros Hn Hs%scan_quoted_shorter. destruct s; [done|]. unfold drop in Hs. cbn [length].
  lia.
Qed.

Lemma consumeAtom_shorter dot permissive s a rest : consumeAtom dot permissive s = Some (a, rest) ->
  (length rest < length s)%nat.
Proof. intros (-> & ? & _)%consumeAtom_spec. by apply shorter_app. Qed.

Section Turns.
Context `{UnicodeTables}.

Lemma consumeWord_shorter s word s' : consumeWord s = (Some word, s') -> (length s' < length s)%nat.
Proof.
  unfold consumeWord. destruct s as [|c t]; [done|]. case_bool_decide.
  - destruct (consumeQuotedString (c :: t)) as [[? ?]|] eqn:E; [|done]. intros [= _ <-].
    by eapply consumeQuotedString_shorter.
  - destruct (consumeAtom true true (c :: t)) as [[? ?]|] eqn:E; [|done]. intros [= _ <-].
    by eapply consumeAtom_shorter.
Qed.

Lemma phrase_loop_enough n : forall m words prev s, (length s <= n)%nat -> (length s <= m)%nat ->
  phrase_loop n words prev s = phrase_loop m words prev s.
Proof.
  induction n as [|n IH]; intros m words prev s Hn Hm; destruct m as [|m]; cbn [phrase_loop];
    destruct (if bool_decide (words = []) then Some s else skipCFWS s) as [s1|] eqn:E; try done;
    (assert (length s1 <= length s)%nat as H1
      by (revert E; case_bool_decide; [intros [= ->]; done|apply skip_comments_shorter]));
    pose proof (skipSpace_shorter s1);
    destruct (consumeWord (skipSpace s1)) as [[[w encoded]|] s2] eqn:Ew; try done;
    apply consumeWord_shorter in Ew; try lia.
  apply IH; lia.
Qed.

Lemma phrase_loop_shorter n : forall words prev s phrase rest, phrase_loop n words prev s = Some (phrase, rest) ->
  (length rest <= length s)%nat.
Proof.
  induction n as [|n IH]; intros words prev s phrase rest; cbn [phrase_loop];
    destruct (if bool_decide (words = []) then Some s else skipCFWS s) as [s1|] eqn:E; try done;
    (assert (length s1 <= length s)%nat as H1
      by (revert E; case_bool_decide; [intros [= ->]; done|apply skip_comments_shorter]));
    pose proof (skipSpace_shorter s1);
    destruct (consumeWord (skipSpace s1)) as [[[w encoded]|] s2] eqn:Ew;
    (assert (length s2 <= length (skipSpace s1))%nat as H2
      by first [by apply consumeWord_shorter in Ew; lia
               | unfold consumeWord in Ew; repeat case_match; simplify_eq; try done;
                 apply Nat.lt_le_incl; by eapply consumeAtom_shorter]);
    try (case_bool_decide; [done|intros [= _ <-]; lia]).
  intros ?%IH. lia.
Qed.

Lemma consumeAddrSpec_shorter s spec rest : consumeAddrSpec s = Some (spec, rest) -> (length rest < length s)%nat.
Proof.
  unfold consumeAddrSpec. pose proof (skipSpace_shorter s).
  destruct (consumeLocal (skipSpace s)) as [[l s1]|] eqn:El; [|done].
  destruct (consume "@"%char s1) as [s2|] eqn:Ea; [|done]. apply consume_shorter in Ea.
  pose proof (skipSpace_shorter s2).
  destruct (consumeDomain (skipSpace s2)) as [[d s3]|] eqn:Ed; [|done]. intros [= _ <-].
  apply consumeDomain_spec in Ed as [Ed _]. apply (f_equal length) in Ed. rewrite length_app in Ed.
  assert (length s1 <= length (skipSpace s))%nat; [|lia].
  unfold consumeLocal in El. destruct (skipSpace s) as [|c t]; [done|]. case_bool_decide.
  - destruct (consumeQuotedString (c :: t)) as [[? ?]|] eqn:E; [|done]. case_bool_decide; [done|].
    injection El as <- <-. apply consumeQuotedString_shorter in E; [lia|done].
  - apply consumeAtom_shorter in El. lia.
Qed.

Lemma parse_address_shorter s addrs rest : parse_address None s = Some (addrs, rest) ->
  (length rest < length s)%nat.
Proof.
  unfold parse_address. pose proof (skipSpace_shorter s). case_bool_decide; [done|].
  destruct (consumeAddrSpec (skipSpace s)) as [[spec s1]|] eqn:Ea.
  - apply consumeAddrSpec_shorter in Ea. pose proof (skipSpace_shorter s1).
    destruct (consume "("%char (skipSpace s1)) as [t|] eqn:Ec; [|intros [= _ <-]; lia].
    unfold consumeDisplayNameComment. rewrite Ec. apply consume_shorter in Ec.
    destruct (consumeComment 1 t) as [[comment r]|] eqn:Er; [|done].
    apply (consumeComment_shorter (length t)) in Er; [|done].
    destruct (mapM _ _); cbn; [|done]. intros [= _ <-]. lia.
  - destruct (display_name (skipSpace s)) as [[name s1]|] eqn:En; [|done].
    assert (length s1 <= length (skipSpace s))%nat.
    { unfold display_name in En. destruct (consume "<"%char (skipSpace s)); [by injection En as _ <-|].
      by eapply phrase_loop_shorter. }
    pose proof (skipSpace_shorter s1). unfold angle_addr.
    destruct (consume "<"%char (skipSpace s1)) as [t|] eqn:Et; [|done]. apply consume_shorter in Et.
    destruct (consumeAddrSpec t) as [[spec s2]|] eqn:Es; [|done]. apply consumeAddrSpec_shorter in Es.
    destruct (consume ">"%char s2) as [r|] eqn:Er; cbn; [|done]. apply consume_shorter in Er. intros [= _ <-]. lia.
Qed.

Lemma group_members_enough n : forall m s, (length s < n)%nat -> (length s < m)%nat ->
  group_members n s = group_members m s.
Proof.
  induction n as [|n IH]; intros m s Hn Hm; [lia|]. destruct m as [|m]; [lia|]. cbn [group_members].
  pose proof (skipSpace_shorter s). destruct (parse_address None (skipSpace s)) as [[addrs s1]|] eqn:Ep; [|done].
  apply parse_address_shorter in Ep. destruct (skipCFWS s1) as [s2|] eqn:Es; [|done].
  apply skip_comments_shorter in Es. destruct (consume ";"%char s2); [done|].
  destruct (consume ","%char s2) as [s3|] eqn:Ec; [|done]. apply consume_shorter in Ec.
  by rewrite (IH m s3) by lia.
Qed.

End Turns.
