(* ===== verification/Mime.v ===== *)
(** * mime, mime/quotedprintable: the encoders of a message

    The quoted-printable [Writer] with its line buffer, the [Q] encoding of a
    header value, and the readers of RFC 2045 and RFC 2047 they are proved
    against.  A writer never fails here: it writes to a buffer. *)

From S2P Require Import Prelude Utf8 GoStrings Encoding Quote NetMail.
Local Open Scope Z_scope.
Local Open Scope go_scope.

Definition CR : ascii := "013"%char.
Definition LF : ascii := "010"%char.
Definition CRLF : gostring := [CR; LF].
Definition equals : ascii := "="%char.

(** ["0123456789ABCDEF"[n]] *)
Definition upperhex (n : Z) : ascii := byte_of (if n <? 10 then 48 + n else 55 + n).

Definition hex_escape (b : ascii) : gostring := [equals; upperhex (byte_val b / 16); upperhex (byte_val b mod 16)].

Definition isWhitespace (b : ascii) : bool := (byte_val b =? 32) || (byte_val b =? 9).

(** ** mime/quotedprintable *)

Definition lineMaxLen : Z := 76.

(** What was flushed, the line buffer, and whether the last byte was a CR. *)
Record Writer := QP { qp_out : gostring; qp_line : gostring; qp_cr : bool }.

Definition insertCRLF (w : Writer) : Writer := QP (qp_out w ++ qp_line w ++ CRLF) [] (qp_cr w).

Definition insertSoftLineBreak (w : Writer) : Writer := insertCRLF (QP (qp_out w) (qp_line w ++ [equals]) (qp_cr w)).

Definition encode (b : ascii) (w : Writer) : Writer :=
  let w := if lineMaxLen - 1 - len (qp_line w) <? 3 then insertSoftLineBreak w else w in
  QP (qp_out w) (qp_line w ++ hex_escape b) false.

(** A blank at the end of a line would be lost on the way. *)
Definition checkLastByte (w : Writer) : Writer :=
  match list.last (qp_line w) with
  | Some b =>
      if isWhitespace b
      then encode b (QP (qp_out w) (take (length (qp_line w) - 1) (qp_line w)) (qp_cr w)) else w
  | None => w
  end.

(** One turn of the loop of [write]. *)
Definition write_byte (b : ascii) (w : Writer) : Writer :=
  if bool_decide (b = LF) || bool_decide (b = CR) then
    if qp_cr w && bool_decide (b = LF) then QP (qp_out w) (qp_line w) false
    else
      let w := insertCRLF (checkLastByte w) in
      if bool_decide (b = CR) then QP (qp_out w) (qp_line w) true else w
  else
    let w := if len (qp_line w) =? lineMaxLen - 1 then insertSoftLineBreak w else w in
    QP (qp_out w) (qp_line w ++ [b]) false.

(** The bytes [Write] passes on as they are. *)
Definition simple (b : ascii) : bool :=
  let v := byte_val b in
  ((33 <=? v) && (v <=? 126) && negb (v =? 61)) || isWhitespace b || bool_decide (b = LF) || bool_decide (b = CR).

(** [Write], which hands runs of simple bytes to [write] in one call. *)
Definition write_step (w : Writer) (b : ascii) : Writer := if simple b then write_byte b w else encode b w.

Definition Write (p : gostring) (w : Writer) : Writer := foldl write_step w p.

Definition Close (w : Writer) : gostring := let w := checkLastByte w in qp_out w ++ qp_line w.

Definition quoted_printable (s : gostring) : gostring := Close (Write s (QP [] [] false)).

(** ** mime.QEncoding *)

Definition needsEncoding (s : gostring) : bool :=
  existsb (fun b => ((byte_val b <? 32) || (126 <? byte_val b)) && negb (byte_val b =? 9)) s.

Definition openWord : gostring := str "=?utf-8?q?".
Definition closeWord : gostring := str "?=".
Definition wordMark : gostring := str "=?".
Definition maxContentLen : Z := 75 - len (str "=?UTF-8?q?") - len closeWord.

Definition q_plain (b : ascii) : bool :=
  let v := byte_val b in (32 <=? v) && (v <=? 126) && negb ((v =? 61) || (v =? 63) || (v =? 95)).

Definition writeQString (s : gostring) : gostring :=
  concat ((fun b => if byte_val b =? 32 then ["_"%char] else if q_plain b then [b] else hex_escape b) <$> s).

(** The loop of [qEncode] over the runes of the value. *)
Fixpoint qEncode (runes : list gostring) (currentLen : Z) : gostring :=
  match runes with
  | [] => []
  | bytes :: runes =>
      let encLen := match bytes with [b] => if q_plain b then 1 else 3 | _ => 3 * len bytes end in
      if maxContentLen <? currentLen + encLen
      then closeWord ++ str " " ++ openWord ++ writeQString bytes ++ qEncode runes encLen
      else writeQString bytes ++ qEncode runes (currentLen + encLen)
  end.

(** [mime.QEncoding.Encode("utf-8", s)] *)
Definition q_encode (s : gostring) : gostring :=
  if needsEncoding s then openWord ++ qEncode (segs s).*2 0 ++ closeWord else s.

(** ** The readers *)

Definition hex_digit (c : ascii) : option Z :=
  let v := byte_val c in
  if (48 <=? v) && (v <=? 57) then Some (v - 48) else if (65 <=? v) && (v <=? 70) then Some (v - 55) else None.

(** An escape, after its equals sign. *)
Definition hex_byte (a b : ascii) : option ascii :=
  match hex_digit a, hex_digit b with Some x, Some y => Some (byte_of (16 * x + y)) | _, _ => None end.

(** RFC 2045, section 6.7 *)
Fixpoint qp_decode (s : gostring) : option gostring :=
  match s with
  | [] => Some []
  | c :: t =>
      if bool_decide (c = equals) then
        match t with
        | a :: b :: u =>
            if bool_decide (a = CR) && bool_decide (b = LF) then qp_decode u
            else match hex_byte a b with Some x => cons x <$> qp_decode u | None => None end
        | _ => None
        end
      else cons c <$> qp_decode t
  end.

Section Receiver.
Context `{UnicodeTables}.

(** An encoded word (RFC 2047, section 2) at the front of a text: what it stands for
    and what follows it.  Charset and encoding are read in either case, the encoding
    is Q or B, the charsets are UTF-8, ISO-8859-1 and US-ASCII. *)
Definition read_word (s : gostring) : option (gostring * gostring) :=
  if negb (has_prefix wordMark s) then None
  else
    match cut (drop 2 s) (str "?") with
    | Some (charset, encoding :: mark :: t) =>
        if bool_decide (mark = "?"%char) then
          match cut t closeWord with
          | Some (text, rest) =>
              match decode_text [encoding] text ≫= convert charset with
              | Some decoded => Some (decoded, rest)
              | None => None
              end
          | None => None
          end
        else None
    | _ => None
    end.

Definition linear_space (c : ascii) : bool := bool_decide (c ∈ [" "%char; "009"%char; CR; LF]).

(** Behind a word: the blanks before another one are dropped. *)
Definition behind_word (s : gostring) : gostring :=
  let t := drop_while linear_space s in if read_word t then t else s.

(** How a receiver shows a header value: encoded words are decoded, and the blanks
    between two of them do not count; what is not such a word is shown as it is. *)
Fixpoint decode_header (fuel : nat) (s : gostring) : gostring :=
  match fuel, s with
  | O, _ | _, [] => []
  | S fuel, c :: t =>
      match read_word s with
      | Some (text, rest) => text ++ decode_header fuel (behind_word rest)
      | None => c :: decode_header fuel t
      end
  end.

Definition shown (s : gostring) : gostring := decode_header (length s) s.

End Receiver.

Example shown_words :
  shown (H := ascii_tables) (str "Re: =?ISO-8859-1?Q?caf=E9_?=  =?utf-8?b?IQ==?= =?x-none?q?a?=")
  = str "Re: caf" ++ (byte_of <$> [195; 169]) ++ str " ! =?x-none?q?a?=".
Proof. vm_compute. reflexivity. Qed.

(** Line breaks of any kind become CRLF; [cr] says whether a CR came before. *)
Fixpoint crlf_lines (cr : bool) (s : gostring) : gostring :=
  match s with
  | [] => []
  | c :: t =>
      if bool_decide (c = CR) then CRLF ++ crlf_lines true t
      else if bool_decide (c = LF) then (if cr then [] else CRLF) ++ crlf_lines false t
      else c :: crlf_lines false t
  end.

(** A line a mail system carries unchanged: at most 76 printable characters and
    tabs, no blank at its end. *)
Definition line_char (c : ascii) : Prop := byte_val c = 9 \/ 32 <= byte_val c <= 126.

Definition safe_line (l : gostring) : Prop :=
  len l <= lineMaxLen /\ Forall line_char l /\ forall b, list.last l = Some b -> isWhitespace b = false.

Example qp_sample :
  quoted_printable (str "caf" ++ (byte_of <$> [195; 169]) ++ str " =" ++ [LF] ++ str "b ")
  = str "caf=C3=A9 =3D" ++ CRLF ++ str "b=20".
Proof. reflexivity. Qed.

Example q_sample : q_encode (str "caf" ++ (byte_of <$> [195; 169]) ++ str " a?") = str "=?utf-8?q?caf=C3=A9_a=3F?=".
Proof. reflexivity. Qed.

(** ** Escapes *)

(** No carriage return in a concrete string. *)
Ltac literal_no_CR := apply (bool_decide_unpack _); vm_compute; exact I.

Lemma hex_digit_upperhex n : 0 <= n < 16 -> hex_digit (upperhex n) = Some n.
Proof.
  intros Hn. unfold upperhex, hex_digit.
  destruct (Z.ltb_spec n 10); rewrite byte_val_of by lia;
    repeat (case_match; boolify; try lia); f_equal; lia.
Qed.

Lemma upperhex_not c n : 0 <= n < 16 -> hex_digit c = None -> upperhex n <> c.
Proof. intros Hn Hc <-. by rewrite hex_digit_upperhex in Hc. Qed.

Lemma hex_parts b : 0 <= byte_val b / 16 < 16 /\ 0 <= byte_val b mod 16 < 16.
Proof. pose proof (byte_val_range b). split; [split; [apply Z.div_pos|apply Z.div_lt_upper_bound]|apply Z.mod_pos_bound]; lia. Qed.

Lemma hex_byte_escape b : hex_byte (upperhex (byte_val b / 16)) (upperhex (byte_val b mod 16)) = Some b.
Proof.
  destruct (hex_parts b). unfold hex_byte. rewrite !hex_digit_upperhex by done.
  rewrite <- Z.div_mod by lia. by rewrite byte_of_val.
Qed.

Lemma upperhex_range n : 0 <= n < 16 -> 48 <= byte_val (upperhex n) <= 70.
Proof. intros Hn. unfold upperhex. destruct (Z.ltb_spec n 10); rewrite byte_val_of; lia. Qed.

Lemma hex_escape_chars b : Forall line_char (hex_escape b).
Proof.
  destruct (hex_parts b) as [H1%upperhex_range H2%upperhex_range]. unfold line_char.
  unfold hex_escape. repeat apply List.Forall_cons; [right; by cbn|right; lia..|constructor].
Qed.

(** ** Decoding piece by piece *)

Lemma qp_decode_escape b t : qp_decode (hex_escape b ++ t) = cons b <$> qp_decode t.
Proof.
  destruct (hex_parts b) as [H1 H2]. cbn [hex_escape app qp_decode]. rewrite bool_decide_eq_true_2 by done.
  rewrite (bool_decide_eq_false_2 (upperhex (byte_val b / 16) = CR)) by (by apply upperhex_not).
  cbn [andb]. by rewrite hex_byte_escape.
Qed.

Lemma qp_decode_app a b x y : qp_decode a = Some x -> qp_decode b = Some y -> qp_decode (a ++ b) = Some (x ++ y).
Proof.
  intros Ha Hb. revert x Ha. induction a as [a IH] using list_len_ind. intros x.
  destruct a as [|c t]; cbn; [by intros [= <-]|]. case_bool_decide.
  - destruct t as [|p [|q u]]; cbn; try done. destruct (_ && _); [intros Hu; apply IH; [cbn; lia|done]|].
    destruct (hex_byte p q) as [h|]; [|done]. destruct (qp_decode u) as [z|] eqn:Hu; [|done].
    intros [= <-]. by rewrite (IH u ltac:(cbn; lia) z Hu).
  - destruct (qp_decode t) as [z|] eqn:Ht; [|done]. intros [= <-]. by rewrite (IH t ltac:(cbn; lia) z Ht).
Qed.

(** A blank at the end stands for itself. *)
Lemma qp_decode_blank a b d :
  isWhitespace b = true -> qp_decode (a ++ [b]) = Some d -> exists x, qp_decode a = Some x /\ d = x ++ [b].
Proof.
  intros Hb. revert d. induction a as [a IH] using list_len_ind. intros d.
  assert (b <> equals /\ b <> LF /\ hex_digit b = None) as (He & Hl & Hh).
  { unfold isWhitespace in Hb. boolify. unfold hex_digit. split_and!; try (intros ->; destruct Hb; done).
    repeat (case_match; boolify; try lia); done. }
  destruct a as [|c t]; cbn.
  { rewrite bool_decide_eq_false_2 by done. intros [= <-]. by exists []. }
  case_bool_decide.
  - destruct t as [|p [|q u]]; cbn.
    + done.
    + rewrite (bool_decide_eq_false_2 (b = LF)), andb_false_r by done. unfold hex_byte. rewrite Hh.
      by destruct (hex_digit p).
    + destruct (_ && _).
      * intros (x & Hx & ->)%IH; [|cbn; lia]. eauto.
      * destruct (hex_byte p q) as [h|]; [|done]. destruct (qp_decode (u ++ [b])) as [z|] eqn:Hu; [|done].
        intros [= <-]. apply IH in Hu as (x & Hx & ->); [|cbn; lia]. rewrite Hx. by exists (h :: x).
  - destruct (qp_decode (t ++ [b])) as [z|] eqn:Ht; [|done]. intros [= <-].
    apply IH in Ht as (x & Hx & ->); [|cbn; lia]. rewrite Hx. by exists (c :: x).
Qed.

(** ** The writer's invariant *)

(** The buffer has room for the byte that ends the line; what was flushed are
    whole safe lines; and all of it reads back as [d]. *)
Record holds_text (w : Writer) (d : gostring) : Prop := {
  ht_reads : qp_decode (qp_out w ++ qp_line w) = Some d;
  ht_lines : exists ls, qp_out w = concat ((fun l => l ++ CRLF) <$> ls) /\ Forall safe_line ls;
  ht_short : len (qp_line w) <= lineMaxLen - 1;
  ht_chars : Forall line_char (qp_line w);
}.

Lemma len_one (b : ascii) : len [b] = 1.
Proof. done. Qed.

Lemma lines_snoc ls l : concat ((fun l => l ++ CRLF) <$> (ls ++ [l])) = concat ((fun l => l ++ CRLF) <$> ls) ++ l ++ CRLF.
Proof. rewrite fmap_app, concat_app. cbn. by rewrite app_nil_r. Qed.

(** Ending a line that may be ended. *)
Lemma insertCRLF_holds w d extra :
  holds_text w d -> qp_decode (extra ++ CRLF) = Some (if bool_decide (extra = []) then CRLF else []) ->
  safe_line (qp_line w ++ extra) ->
  holds_text (insertCRLF (QP (qp_out w) (qp_line w ++ extra) (qp_cr w))) (d ++ if bool_decide (extra = []) then CRLF else []).
Proof.
  intros [Hr (ls & Hls & Hs) _ _] He Hl. split; cbn [insertCRLF qp_out qp_line qp_cr].
  - rewrite app_nil_r, <- (app_assoc (qp_line w)), app_assoc. by apply qp_decode_app.
  - exists (ls ++ [qp_line w ++ extra]). rewrite lines_snoc, Hls. split; [done|]. apply Forall_app; auto.
  - done.
  - constructor.
Qed.

Lemma soft_holds w d : holds_text w d -> holds_text (insertSoftLineBreak w) d.
Proof.
  intros Hw. unfold insertSoftLineBreak. rewrite <- (app_nil_r d). apply (insertCRLF_holds w d [equals] Hw); [done|].
  destruct Hw as [_ _ Hs Hc]. split_and!.
  - rewrite len_app, len_one. lia.
  - apply Forall_app; split; [done|]. apply List.Forall_cons; [by right|constructor].
  - intros b. rewrite last_snoc. by intros [= <-].
Qed.

(** Adding a piece of text that fits. *)
Lemma extend_holds w d piece x cr :
  holds_text w d -> qp_decode piece = Some x -> len (qp_line w) + len piece <= lineMaxLen - 1 ->
  Forall line_char piece -> holds_text (QP (qp_out w) (qp_line w ++ piece) cr) (d ++ x).
Proof.
  intros [Hr Hl _ Hc] Hp Hlen Hpc. split; cbn [qp_out qp_line].
  - rewrite app_assoc. by apply qp_decode_app.
  - done.
  - by rewrite len_app.
  - by apply Forall_app.
Qed.

Lemma soft_line w : qp_line (insertSoftLineBreak w) = [].
Proof. done. Qed.

Lemma encode_holds w d b : holds_text w d -> holds_text (encode b w) (d ++ [b]).
Proof.
  intros Hw. unfold encode. apply extend_holds.
  - case_match; [by apply soft_holds|done].
  - rewrite <- (app_nil_r (hex_escape b)), qp_decode_escape. done.
  - change (len (hex_escape b)) with 3. destruct (Z.ltb_spec (lineMaxLen - 1 - len (qp_line w)) 3); [|lia].
    by rewrite soft_line.
  - apply hex_escape_chars.
Qed.

Lemma encode_last b w : list.last (qp_line (encode b w)) = Some (upperhex (byte_val b mod 16)).
Proof.
  unfold encode. cbn [qp_line]. unfold hex_escape.
  change [equals; ?x; ?y] with ([equals; x] ++ [y]). by rewrite app_assoc, last_snoc.
Qed.

Lemma hex_not_blank n : 0 <= n < 16 -> isWhitespace (upperhex n) = false.
Proof. intros Hn%upperhex_range. unfold isWhitespace. rewrite orb_false_iff, !Z.eqb_neq. lia. Qed.

Lemma checkLastByte_holds w d :
  holds_text w d ->
  holds_text (checkLastByte w) d /\ forall b, list.last (qp_line (checkLastByte w)) = Some b -> isWhitespace b = false.
Proof.
  intros Hw. unfold checkLastByte. destruct (list.last (qp_line w)) as [b|] eqn:E.
  2:{ split; [done|]. intros b. by rewrite E. }
  destruct (isWhitespace b) eqn:Hb.
  2:{ split; [done|]. intros b'. rewrite E. by intros [= <-]. }
  apply last_Some in E as [l E]. rewrite E, length_app, Nat.add_sub, take_app_length.
  destruct Hw as [Hr Hl Hs Hc]. rewrite E, app_assoc in Hr. apply qp_decode_blank in Hr as (x & Hx & ->); [|done].
  split.
  - apply encode_holds. split; cbn [qp_out qp_line]; [done|done| |].
    + rewrite E, len_app, len_one in Hs. lia.
    + rewrite E in Hc. by apply Forall_app in Hc as [? _].
  - intros b'. rewrite encode_last. intros [= <-]. apply hex_not_blank, hex_parts.
Qed.

Lemma hard_holds w d : holds_text w d -> holds_text (insertCRLF (checkLastByte w)) (d ++ CRLF).
Proof.
  intros [Hw Hlast]%checkLastByte_holds. destruct (checkLastByte w) as [out line cr] eqn:Ew.
  pose proof (insertCRLF_holds _ _ [] Hw) as H. cbn [qp_out qp_line qp_cr] in *. rewrite app_nil_r in H.
  apply H; [done|]. destruct Hw as [_ _ Hs Hc]. cbn in *. split_and!; [lia|done|done].
Qed.

Lemma simple_char b : simple b = true -> b <> LF -> b <> CR -> line_char b /\ b <> equals.
Proof.
  unfold simple, isWhitespace, line_char. intros Hs ??. rewrite !(bool_decide_eq_false_2 (b = _)) in Hs by done.
  assert (byte_val equals = 61) by done. boolify. split; [lia|intros ->; lia].
Qed.

Lemma plain_reads b : b <> equals -> qp_decode [b] = Some [b].
Proof. intros Hb. cbn. by rewrite bool_decide_eq_false_2. Qed.

Lemma encode_cr b w : qp_cr (encode b w) = false.
Proof. done. Qed.

Lemma checkLastByte_hard_cr w : qp_cr w = false -> qp_cr (insertCRLF (checkLastByte w)) = false.
Proof. unfold checkLastByte. intros H. repeat case_match; done. Qed.

(** One byte: what it adds to the text, and the flag it leaves. *)
Lemma write_step_holds w d b :
  holds_text w d ->
  exists x, holds_text (write_step w b) (d ++ x)
    /\ forall t, crlf_lines (qp_cr w) (b :: t) = x ++ crlf_lines (qp_cr (write_step w b)) t.
Proof.
  intros Hw. unfold write_step. destruct (simple b) eqn:Hb.
  2:{ exists [b]. split; [by apply encode_holds|]. intros t. cbn.
      rewrite !bool_decide_eq_false_2; [done|intros ->; done..]. }
  unfold write_byte. destruct (decide (b = CR)) as [->|Hcr].
  { cbn [bool_decide decide_rel]. exists CRLF. rewrite (bool_decide_eq_false_2 (CR = LF)), andb_false_r by done.
    rewrite (bool_decide_eq_true_2 (CR = CR)) by done. cbn [orb]. split; [|done].
    destruct (hard_holds w d Hw) as [Hr Hl Hs Hc]. by split. }
  destruct (decide (b = LF)) as [->|Hlf].
  { rewrite (bool_decide_eq_true_2 (LF = LF)), (bool_decide_eq_false_2 (LF = CR)) by done. cbn [orb].
    destruct (qp_cr w) eqn:Hf; cbn [andb].
    - exists []. rewrite app_nil_r. split; [|done]. destruct Hw. by split.
    - exists CRLF. split; [by apply hard_holds|]. intros t. by rewrite checkLastByte_hard_cr. }
  rewrite (bool_decide_eq_false_2 (b = LF)), (bool_decide_eq_false_2 (b = CR)) by done. cbn [orb].
  destruct (simple_char b Hb Hlf Hcr) as [Hch Hne]. exists [b]. split.
  - apply extend_holds; [by case_match; [apply soft_holds|]|by apply plain_reads| |by apply List.Forall_cons].
    rewrite len_one. destruct (Z.eqb_spec (len (qp_line w)) (lineMaxLen - 1)); [by rewrite soft_line|].
    destruct Hw. lia.
  - intros t. cbn. by rewrite !bool_decide_eq_false_2.
Qed.

Lemma Write_holds s w d :
  holds_text w d -> holds_text (Write s w) (d ++ crlf_lines (qp_cr w) s).
Proof.
  revert w d. induction s as [|b s IH]; intros w d Hw; [by rewrite app_nil_r|].
  destruct (write_step_holds w d b Hw) as (x & Hx & E). rewrite E, app_assoc. by apply IH.
Qed.

Lemma join_lines ls l : join (ls ++ [l]) CRLF = concat ((fun l => l ++ CRLF) <$> ls) ++ l.
Proof.
  induction ls as [|a ls IH]; [done|]. rewrite fmap_cons. cbn [concat]. rewrite <- !app_assoc, <- IH.
  cbn. destruct (ls ++ [l]) eqn:E; [|done]. by apply app_nil in E as [_ ?].
Qed.

(** The quoted-printable form of any text is made of safe lines, and reads back
    as the text with its line breaks as CRLF. *)
Lemma quoted_printable_correct s :
  exists ls, quoted_printable s = join ls CRLF /\ ls <> [] /\ Forall safe_line ls
    /\ qp_decode (quoted_printable s) = Some (crlf_lines false s).
Proof.
  assert (holds_text (QP [] [] false) []) as H0 by (split; [done|by exists []|done|constructor]).
  apply (Write_holds s) in H0. cbn [app qp_cr] in H0. apply checkLastByte_holds in H0 as [[Hr (ls & Hls & Hs) Hl Hc] Hlast].
  unfold quoted_printable, Close. exists (ls ++ [qp_line (checkLastByte (Write s (QP [] [] false)))]).
  split_and!; [by rewrite join_lines, Hls|by destruct ls| |done].
  apply Forall_app; split; [done|]. apply List.Forall_cons; [|constructor]. split_and!; [lia|done|done].
Qed.

(** ** Encoded words *)

Lemma hex_value_upperhex n : 0 <= n < 16 -> hex_value (upperhex n) = Some n.
Proof.
  intros Hn. unfold upperhex, hex_value, in_range.
  destruct (Z.ltb_spec n 10); rewrite byte_val_of by lia;
    repeat (case_match; boolify; try lia); f_equal; lia.
Qed.

Definition q_byte (b : ascii) : gostring :=
  if byte_val b =? 32 then ["_"%char] else if q_plain b then [b] else hex_escape b.

Lemma q_byte_spec b :
  (forall t, qDecode (q_byte b ++ t) = cons b <$> qDecode t) /\ Forall (fun c => 33 <= byte_val c <= 126 /\ c <> "?"%char) (q_byte b)
  /\ len (q_byte b) = if q_plain b then 1 else 3.
Proof.
  assert (byte_val "_"%char = 95 /\ byte_val "?"%char = 63 /\ byte_val equals = 61) as (Hu & Hq & He) by done.
  unfold q_byte. destruct (Z.eqb_spec (byte_val b) 32) as [E|Hne].
  { assert (b = " "%char) as -> by (by apply byte_val_inj). split_and!; [done| |done].
    apply List.Forall_cons; [split; [rewrite Hu; lia|done]|constructor]. }
  destruct (q_plain b) eqn:Hp.
  - unfold q_plain in Hp. boolify. split_and!; [|apply List.Forall_cons; [split; [lia|intros ->; lia]|constructor]|done].
    intros t. cbn [app qDecode]. rewrite (bool_decide_eq_false_2 (b = "_"%char)) by (intros ->; lia).
    rewrite (bool_decide_eq_false_2 (b = "="%char)) by (change "="%char with equals; intros ->; lia).
    assert (in_range 32 126 (byte_val b) = true) as -> by (unfold in_range; apply andb_true_iff; split; apply Z.leb_le; lia). done.
  - destruct (hex_parts b) as [H1 H2]. split_and!; [| |done].
    + intros t. unfold hex_escape. cbn [app qDecode]. rewrite (bool_decide_eq_false_2 (equals = "_"%char)) by done.
      rewrite bool_decide_eq_true_2 by done. rewrite !hex_value_upperhex by done.
      by rewrite <- Z.div_mod, byte_of_val by lia.
    + pose proof (upperhex_range _ H1). pose proof (upperhex_range _ H2). unfold hex_escape.
      assert (Hn : forall n, 0 <= n < 16 -> upperhex n <> "?"%char) by (intros; by apply upperhex_not).
      apply List.Forall_cons; [split; [rewrite He; lia|done]|].
      apply List.Forall_cons; [split; [lia|by apply Hn]|].
      apply List.Forall_cons; [split; [lia|by apply Hn]|constructor].
Qed.

Lemma writeQString_cons b s : writeQString (b :: s) = q_byte b ++ writeQString s.
Proof. done. Qed.

Lemma writeQString_app a b : writeQString (a ++ b) = writeQString a ++ writeQString b.
Proof. unfold writeQString. by rewrite fmap_app, concat_app. Qed.

Lemma qDecode_written s : qDecode (writeQString s) = Some s.
Proof.
  induction s as [|b s IH]; [done|]. rewrite writeQString_cons. destruct (q_byte_spec b) as [-> _]. by rewrite IH.
Qed.

Lemma written_chars s : Forall (fun c => 33 <= byte_val c <= 126 /\ c <> "?"%char) (writeQString s).
Proof. induction s as [|b s IH]; [constructor|]. rewrite writeQString_cons. apply Forall_app. split; [apply q_byte_spec|done]. Qed.

Lemma written_length s : len (writeQString s) <= 3 * len s.
Proof.
  induction s as [|b s IH]; [done|]. rewrite writeQString_cons, len_app. destruct (q_byte_spec b) as (_ & _ & ->).
  unfold len in *. cbn [length]. case_match; lia.
Qed.

Definition enc_len (bytes : gostring) : Z :=
  match bytes with [b] => if q_plain b then 1 else 3 | _ => 3 * len bytes end.

Lemma enc_len_enough bytes : len (writeQString bytes) <= enc_len bytes.
Proof.
  unfold enc_len. destruct bytes as [|b [|c l]]; [done| |apply written_length].
  rewrite writeQString_cons, app_nil_r. destruct (q_byte_spec b) as (_ & _ & ->). done.
Qed.

(** The runes of each word. *)
Fixpoint q_words (runes : list gostring) (currentLen : Z) : gostring * list gostring :=
  match runes with
  | [] => ([], [])
  | bytes :: runes =>
      if maxContentLen <? currentLen + enc_len bytes
      then let '(w, ws) := q_words runes (enc_len bytes) in ([], (bytes ++ w) :: ws)
      else let '(w, ws) := q_words runes (currentLen + enc_len bytes) in (bytes ++ w, ws)
  end.

Definition encoded_word (w : gostring) : gostring := openWord ++ writeQString w ++ closeWord.

Definition more_words (ws : list gostring) : gostring := concat ((fun w => str " " ++ encoded_word w) <$> ws).

Lemma qEncode_words runes cur w ws :
  q_words runes cur = (w, ws) -> qEncode runes cur ++ closeWord = writeQString w ++ closeWord ++ more_words ws.
Proof.
  revert cur w ws. induction runes as [|bytes runes IH]; intros cur w ws; cbn [q_words qEncode]; [by intros [= <- <-]|].
  change (match bytes with [b] => if q_plain b then 1 else 3 | _ => 3 * len bytes end) with (enc_len bytes).
  destruct (_ <? _).
  - destruct (q_words runes _) as [w' ws'] eqn:E. intros [= <- <-]. apply IH in E.
    change (more_words ((bytes ++ w') :: ws')) with ((str " " ++ encoded_word (bytes ++ w')) ++ more_words ws').
    unfold encoded_word. by rewrite writeQString_app, <- !app_assoc, E.
  - destruct (q_words runes _) as [w' ws'] eqn:E. intros [= <- <-]. apply IH in E.
    by rewrite <- !app_assoc, E, writeQString_app, <- !app_assoc.
Qed.

Lemma q_words_concat runes cur w ws : q_words runes cur = (w, ws) -> w ++ concat ws = concat runes.
Proof.
  revert cur w ws. induction runes as [|bytes runes IH]; intros cur w ws; cbn [q_words]; [by intros [= <- <-]|].
  destruct (_ <? _); destruct (q_words runes _) as [w' ws'] eqn:E; intros [= <- <-]; apply IH in E; cbn;
    by rewrite <- E, <- app_assoc.
Qed.

(** No word has more than 75 characters, its delimiters included. *)
Lemma q_words_short runes cur w ws :
  q_words runes cur = (w, ws) -> 0 <= cur <= maxContentLen -> Forall (fun bytes => enc_len bytes <= maxContentLen) runes ->
  cur + len (writeQString w) <= maxContentLen /\ Forall (fun w => len (writeQString w) <= maxContentLen) ws.
Proof.
  intros E Hc Hr. revert cur w ws E Hc. induction Hr as [|bytes runes Hb Hr IH]; intros cur w ws; cbn [q_words].
  { intros [= <- <-] Hc. split; [change (len (writeQString [])) with 0; lia|constructor]. }
  pose proof (enc_len_enough bytes) as He.
  assert (0 <= len (writeQString bytes)) as Hp by (unfold len; lia).
  destruct (Z.ltb_spec maxContentLen (cur + enc_len bytes)); destruct (q_words runes _) as [w' ws'] eqn:E; intros [= <- <-] Hc.
  - apply IH in E as [H1 H2]; [|lia]. split; [change (len (writeQString [])) with 0; lia|].
    apply List.Forall_cons; [|done]. rewrite writeQString_app, len_app. lia.
  - apply IH in E as [H1 H2]; [|lia]. split; [|done]. rewrite writeQString_app, len_app. lia.
Qed.

Section Shown.
Context `{UnicodeTables}.

Lemma read_encoded_word w rest : read_word (encoded_word w ++ rest) = Some (w, rest).
Proof.
  unfold encoded_word. rewrite <- !app_assoc.
  assert ("?"%char ∉ writeQString w) as Hq.
  { intros Hin. pose proof (written_chars w) as Hw. rewrite list.Forall_forall in Hw. by destruct (Hw _ Hin). }
  unfold read_word. change (has_prefix wordMark (openWord ++ ?x)) with true. cbn [negb].
  change (cut (drop 2 (openWord ++ ?x)) (str "?")) with (Some (str "utf-8", str "q?" ++ x)).
  change (str "q?" ++ ?x) with ("q"%char :: "?"%char :: x). cbv beta iota. rewrite bool_decide_eq_true_2 by done.
  change closeWord with ["?"%char; equals]. rewrite (cut_pair _ _ _ _ Hq).
  unfold decode_text. rewrite bool_decide_eq_false_2, bool_decide_eq_true_2 by (vm_compute; set_solver).
  rewrite qDecode_written. cbn [mbind option_bind]. unfold convert. by rewrite equal_fold_refl.
Qed.

Lemma read_no_word s : contains s wordMark = false -> read_word s = None.
Proof.
  intros Hc. unfold read_word. destruct (has_prefix wordMark s) eqn:E; [|done].
  apply has_prefix_spec in E as [k ->]. assert (contains (wordMark ++ k) wordMark = true); [|congruence].
  apply contains_spec. by exists [], k.
Qed.

Lemma behind_words ws : behind_word (more_words ws) = drop 1 (more_words ws).
Proof.
  unfold behind_word. destruct ws as [|w ws]; [done|].
  change (more_words (w :: ws)) with (" "%char :: (encoded_word w ++ more_words ws)).
  change (drop_while linear_space (" "%char :: (encoded_word w ++ more_words ws)))
    with (encoded_word w ++ more_words ws).
  by rewrite read_encoded_word.
Qed.

Lemma decode_words ws w fuel :
  (length ws < fuel)%nat -> decode_header fuel (encoded_word w ++ more_words ws) = w ++ concat ws.
Proof.
  revert w fuel. induction ws as [|w' ws IH]; intros w [|fuel] Hf; cbn [length] in Hf; try lia.
  - change (encoded_word w ++ more_words []) with (equals :: drop 1 (encoded_word w ++ more_words [])).
    cbn [decode_header]. change (equals :: drop 1 (encoded_word w ++ more_words [])) with (encoded_word w ++ more_words []).
    rewrite read_encoded_word, behind_words. by destruct fuel.
  - change (encoded_word w ++ more_words (w' :: ws)) with (equals :: drop 1 (encoded_word w ++ more_words (w' :: ws))).
    cbn [decode_header].
    change (equals :: drop 1 (encoded_word w ++ more_words (w' :: ws))) with (encoded_word w ++ more_words (w' :: ws)).
    rewrite read_encoded_word, behind_words.
    change (drop 1 (more_words (w' :: ws))) with (encoded_word w' ++ more_words ws). by rewrite IH by lia.
Qed.

Lemma more_words_length ws : (length ws <= length (more_words ws))%nat.
Proof.
  induction ws as [|w ws IH]; [done|].
  change (more_words (w :: ws)) with ((str " " ++ encoded_word w) ++ more_words ws).
  rewrite !length_app. change (length (str " ")) with 1%nat. cbn [length]. lia.
Qed.

Lemma decode_plain fuel s : contains s wordMark = false -> (length s <= fuel)%nat -> decode_header fuel s = s.
Proof.
  revert fuel. induction s as [|c t IH]; intros [|fuel] Hc Hf; cbn [length] in Hf; try done; try lia.
  cbn [decode_header]. rewrite read_no_word by done.
  rewrite IH; [done| |lia]. destruct (contains t wordMark) eqn:Ht; [|done].
  apply contains_spec in Ht as (a & b & ->).
  assert (contains (c :: a ++ wordMark ++ b) wordMark = true) as E by (apply contains_spec; by exists (c :: a), b).
  congruence.
Qed.

End Shown.

Definition short_word (w : gostring) : Prop :=
  len w <= 75 /\ Forall (fun c => 33 <= byte_val c <= 126) w.

Lemma encoded_word_short w : len (writeQString w) <= maxContentLen -> short_word (encoded_word w).
Proof.
  intros Hw. unfold encoded_word. split.
  - rewrite !len_app. change (len openWord) with 10. change (len closeWord) with 2. change maxContentLen with 63 in Hw. lia.
  - rewrite !Forall_app. split_and!; [|eapply Forall_impl; [|apply written_chars]; cbn; lia|];
      apply (bool_decide_unpack _); vm_compute; exact I.
Qed.

Lemma rune_bytes_short s r u rest : decode_rune s = Some (r, u, rest) -> (length u <= 4)%nat.
Proof.
  intros [[-> _]|[_ ->]]%decode_rune_cases; [|lia]. unfold encode_rune, encode_valid. repeat case_match; cbn; lia.
Qed.

Lemma seg_short s : Forall (fun bytes => enc_len bytes <= maxContentLen) (segs s).*2.
Proof.
  induction s as [|s r u rest Hd IH] using rune_ind; [constructor|].
  rewrite (segs_step _ _ _ _ Hd). apply List.Forall_cons; [|done].
  apply rune_bytes_short in Hd. change maxContentLen with 63. unfold enc_len, len. cbn [snd].
  repeat case_match; lia.
Qed.

(** A receiver shows an encoded header value as it was.  A value that needs no
    encoding goes out as it is, and is shown so unless something in it may be read as
    an encoded word. *)
Lemma q_encode_shown `{UnicodeTables} s :
  needsEncoding s = true \/ contains s wordMark = false -> shown (q_encode s) = s.
Proof.
  unfold shown, q_encode. destruct (needsEncoding s) eqn:Hn.
  - intros _. destruct (q_words (segs s).*2 0) as [w ws] eqn:E.
    pose proof (q_words_concat _ _ _ _ E) as Hc. rewrite segs_concat in Hc. apply qEncode_words in E.
    rewrite E.
    replace (openWord ++ writeQString w ++ closeWord ++ more_words ws) with (encoded_word w ++ more_words ws)
      by (unfold encoded_word; by rewrite <- !app_assoc).
    rewrite decode_words; [done|]. pose proof (more_words_length ws). rewrite length_app.
    unfold encoded_word. rewrite length_app. change (length openWord) with 10%nat. lia.
  - intros [?|Hc]; [done|]. by apply decode_plain.
Qed.

(** An encoded value is words of at most 75 printable characters, one blank apart. *)
Lemma q_encode_words s :
  needsEncoding s = true -> exists ws, q_encode s = join ws (str " ") /\ Forall short_word ws.
Proof.
  intros Hn. unfold q_encode. rewrite Hn. destruct (q_words (segs s).*2 0) as [w ws] eqn:E.
  destruct (q_words_short _ _ _ _ E ltac:(done) (seg_short s)) as [Hw Hws]. apply qEncode_words in E. rewrite E.
  exists (encoded_word <$> (w :: ws)). split.
  - replace (openWord ++ writeQString w ++ closeWord ++ more_words ws) with (encoded_word w ++ more_words ws)
      by (unfold encoded_word; by rewrite <- !app_assoc).
    clear. revert w. induction ws as [|w' ws IH]; intros w; [by rewrite app_nil_r|].
    change (more_words (w' :: ws)) with ((str " " ++ encoded_word w') ++ more_words ws).
    rewrite <- (app_assoc (str " ")), IH. done.
  - apply list.Forall_fmap, List.Forall_cons; [apply encoded_word_short; lia|].
    eapply Forall_impl; [|exact Hws]. intros w'. apply encoded_word_short.
Qed.
