(* ===== verification/Mail.v ===== *)
(** * internal/mail: address.go, build.go

    Validation of caller-supplied fields and assembly of the RFC 5322 message.
    The address parser is NetMail.v; the local time zone and the order a map is ranged
    over in are the class [GoRuntime]. *)

From S2P Require Import Prelude Utf8 GoStrings Quote GoTime NetMail Mime.
Local Open Scope Z_scope.
Local Open Scope go_scope.

Definition MaxRecipients : nat := 50.
Definition MaxSubjectLength : nat := 998.

Definition ErrControlCharacter : error :=
  Error (Some mail_ErrControlCharacter) (str "value contains a control character").
Definition ErrTooManyRecipients : error :=
  Error (Some mail_ErrTooManyRecipients) (str "a message may not exceed 50 recipients").

Class GoRuntime := {
  (** [time.Local]: seconds east of UTC at an instant *)
  local_offset : Z -> Z;
  (** [for k, v := range m] *)
  range_map : gmap gostring gostring -> list (gostring * gostring);
  range_map_perm : forall m, Permutation (range_map m) (map_to_list m);
}.

(** ** address.go *)

Definition ContainsControl (s : gostring) : bool :=
  existsb (fun r => if r =? 9 then false else (r <? 32) || (r =? 127)) (runes s).

Definition CleanHeaderValue (name value : gostring) : result gostring :=
  if ContainsControl value then Err (wrap_w name ErrControlCharacter) else Ok (trim_space value).

Record Address := { a_Name : gostring; a_Email : gostring; a_Domain : gostring }.

Definition addrSpec (raw : gostring) : gostring :=
  let trimmed := trim_space raw in
  match last_index_byte "<"%char trimmed with
  | Some opening =>
      match last_index_byte ">"%char trimmed with
      | Some closing =>
          if (opening <? closing)%nat then take (closing - (opening + 1)) (drop (opening + 1) trimmed)
          else trimmed
      | None => trimmed
      end
  | None => trimmed
  end.

Definition blanks : gostring := [" "%char; "009"%char].

Section Mail.
Context `{UnicodeTables} `{GoRuntime}.

Definition invalid_address (raw : gostring) : error :=
  errors_New (quote raw ++ str " is not a valid address").

Definition ParseAddress (raw : gostring) : result Address :=
  if ContainsControl raw then Err ErrControlCharacter
  else if contains_any (addrSpec raw) blanks then Err (invalid_address raw)
  else match net_mail_parse (trim_space raw) with
       | None => Err (invalid_address raw)
       | Some (name, address) =>
           match last_index_byte "@"%char address with
           | None => Err (invalid_address raw)
           | Some at_ =>
               if (at_ =? 0)%nat || (at_ =? length address - 1)%nat then Err (invalid_address raw)
               else
                 let domain := to_lower (drop (at_ + 1) address) in
                 if contains_any domain blanks then Err (invalid_address raw)
                 else Ok {| a_Name := name; a_Email := address; a_Domain := domain |}
           end
       end.

(** The loop of [ParseRecipients]; [seen] holds the lowered addresses. *)
Fixpoint parse_recipients (raw : list gostring) (seen : gset gostring) : result (list gostring) :=
  match raw with
  | [] => Ok []
  | r :: raw' =>
      match ParseAddress r with
      | Err e => Err e
      | Ok addr =>
          let lowered := to_lower (a_Email addr) in
          if bool_decide (lowered ∈ seen) then parse_recipients raw' seen
          else match parse_recipients raw' ({[lowered]} ∪ seen) with
               | Err e => Err e
               | Ok out => Ok (a_Email addr :: out)
               end
      end
  end.

Definition ParseRecipients (raw : list gostring) : result (list gostring) :=
  if bool_decide (raw = []) then Err (errors_New (str "at least one recipient is required"))
  else if (MaxRecipients <? length raw)%nat then Err ErrTooManyRecipients
  else parse_recipients raw ∅.

Definition ValidateSubject (s : gostring) : result () :=
  if bool_decide (trim_space s = []) then Err (errors_New (str "subject is required"))
  else if ContainsControl s then Err ErrControlCharacter
  else if (MaxSubjectLength <? length (runes s))%nat
  then Err (errors_New (str "subject may not exceed 998 characters"))
  else Ok tt.

Definition ValidateCustomHeader (name value : gostring) : result () :=
  if bool_decide (name = []) then Err (errors_New (str "header name is required"))
  else if negb (has_prefix (str "X-") (to_upper name))
  then Err (errors_New (str "custom header " ++ quote name ++ str " must start with X-"))
  else if existsb (fun r => (127 <? r) || (r <=? 32) || (r =? 58)) (runes name)
  then Err (errors_New (str "header name " ++ quote name ++ str " contains an illegal character"))
  else if ContainsControl value then Err (wrap_w (str "header " ++ quote name) ErrControlCharacter)
  else Ok tt.

(** ** qp.go *)

(** A writer on an empty buffer *)
Definition newQPWriter : Writer := QP [] [] false.

(** ** build.go *)

Record Envelope := {
  e_MessageID : gostring;
  e_From : gostring;
  e_To : list gostring;
  e_Subject : gostring;
  e_HTML : gostring;
  e_Text : gostring;
  e_ReplyTo : gostring;
  e_Extra : gmap gostring gostring;
  e_Date : option Z;
  e_UnsubscribeURL : gostring;
}.

Definition header_line (name value : gostring) : gostring := name ++ str ": " ++ value ++ CRLF.

(** The closure [write] *)
Definition write (buf name value : gostring) : result gostring :=
  if ContainsControl value then Err (wrap_w name ErrControlCharacter)
  else Ok (buf ++ header_line name value).

(** [for name, value := range e.Extra] *)
Fixpoint write_extra (buf : gostring) (extra : list (gostring * gostring)) : result gostring :=
  match extra with
  | [] => Ok buf
  | (name, value) :: extra' =>
      match ValidateCustomHeader name value with
      | Err e => Err e
      | Ok _ =>
          match write buf name value with
          | Err e => Err e
          | Ok buf => write_extra buf extra'
          end
      end
  end.

(** One rune of [PlainTextFrom]'s loop. *)
Definition strip_step (st : bool * list Z) (r : Z) : bool * list Z :=
  let '(inTag, out) := st in
  if r =? 60 then (true, out)
  else if r =? 62 then (false, out ++ [32])
  else if negb inTag then (inTag, out ++ [r])
  else (inTag, out).

Definition PlainTextFrom (html : gostring) : gostring :=
  let out := encode_runes (foldl strip_step (false, []) (runes html)).2 in
  trim_space (join (fields out) (str " ")).

(** The writer is given the text in one call and closed. *)
Definition quotedPrintable (s : gostring) : gostring := Close (Write s newQPWriter).

(** [multipart.Writer]: one part, after the first preceded by a line break. *)
Definition part (boundary lead contentType body : gostring) : gostring :=
  lead ++ str "--" ++ boundary ++ CRLF
  ++ header_line (str "Content-Transfer-Encoding") (str "quoted-printable")
  ++ header_line (str "Content-Type") contentType ++ CRLF ++ body.

Definition multipart_body (boundary text html : gostring) : gostring :=
  part boundary [] (str "text/plain; charset=utf-8") (quotedPrintable text)
  ++ part boundary CRLF (str "text/html; charset=utf-8") (quotedPrintable html)
  ++ CRLF ++ str "--" ++ boundary ++ str "--" ++ CRLF.

Definition quoted_boundary (boundary : gostring) : gostring := "034"%char :: boundary ++ ["034"%char].

(** [now] is the clock, [boundary] what [multipart.NewWriter] drew. *)
Definition Build (now : Z) (boundary : gostring) (e : Envelope) : result gostring :=
  let? _ := ValidateSubject (e_Subject e) in
  if bool_decide (e_To e = []) then Err (errors_New (str "at least one recipient is required"))
  else
    let date := default now (e_Date e) in
    let? buf := write [] (str "From") (e_From e) in
    let? buf := write buf (str "To") (join (e_To e) (str ", ")) in
    let? buf := if bool_decide (e_ReplyTo e <> []) then write buf (str "Reply-To") (e_ReplyTo e) else Ok buf in
    let? buf := write buf (str "Subject") (q_encode (e_Subject e)) in
    let? buf := write buf (str "Message-ID") (str "<" ++ e_MessageID e ++ str ">") in
    let? buf := write buf (str "Date") (format_rfc1123z (local_offset date) date) in
    let? buf := write buf (str "MIME-Version") (str "1.0") in
    let? buf := if bool_decide (e_UnsubscribeURL e <> []) then
                  let? buf := write buf (str "List-Unsubscribe") (str "<" ++ e_UnsubscribeURL e ++ str ">") in
                  write buf (str "List-Unsubscribe-Post") (str "List-Unsubscribe=One-Click")
                else Ok buf in
    let? buf := write_extra buf (range_map (e_Extra e)) in
    let text := if bool_decide (trim_space (e_Text e) = []) then PlainTextFrom (e_HTML e) else e_Text e in
    if bool_decide (trim_space (e_HTML e) = []) then
      Ok (buf ++ header_line (str "Content-Type") (str "text/plain; charset=utf-8")
          ++ header_line (str "Content-Transfer-Encoding") (str "quoted-printable") ++ CRLF
          ++ quotedPrintable text)
    else
      Ok (buf ++ header_line (str "Content-Type")
                   (str "multipart/alternative; boundary=" ++ quoted_boundary boundary) ++ CRLF
          ++ multipart_body boundary text (e_HTML e)).

(** ** Lemmas *)

Lemma no_control_no_CR s : ContainsControl s = false -> CR ∉ s.
Proof.
  intros Hc Hin. apply not_true_iff_false in Hc. apply Hc. unfold ContainsControl.
  apply List.existsb_exists. exists (byte_val CR). split; [|done].
  apply list_elem_of_In. by apply ascii_in_runes.
Qed.

(** A line without CR ends at the first CRLF. *)
Lemma cut_line l rest : CR ∉ l -> cut (l ++ CRLF ++ rest) CRLF = Some (l, rest).
Proof. apply cut_pair. Qed.

(** How a receiver reads a header block: lines up to the first empty one. *)
Fixpoint read_headers (fuel : nat) (s : gostring) : option (list gostring * gostring) :=
  match fuel with
  | O => None
  | S fuel =>
      match cut s CRLF with
      | None => None
      | Some ([], rest) => Some ([], rest)
      | Some (l, rest) => prod_map (cons l) id <$> read_headers fuel rest
      end
  end.

Definition field_text (f : gostring * gostring) : gostring := f.1 ++ str ": " ++ f.2.

Definition block (fields : list (gostring * gostring)) : gostring :=
  concat ((fun f => header_line f.1 f.2) <$> fields).

Definition field_safe (f : gostring * gostring) : Prop := CR ∉ f.1 /\ CR ∉ f.2.

Lemma read_headers_block fields body fuel :
  Forall field_safe fields -> (length fields < fuel)%nat ->
  read_headers fuel (block fields ++ CRLF ++ body) = Some (field_text <$> fields, body).
Proof.
  intros Hs. revert fuel; induction Hs as [|[n v] fields [Hn Hv] _ IH]; intros [|fuel] Hf; cbn in Hf; try lia.
  - done.
  - change (block ((n, v) :: fields)) with (header_line n v ++ block fields).
    unfold header_line. cbn [fst snd] in *.
    replace (((n ++ str ": " ++ v ++ CRLF) ++ block fields) ++ CRLF ++ body)
      with (field_text (n, v) ++ CRLF ++ (block fields ++ CRLF ++ body))
      by (unfold field_text; by rewrite <- !app_assoc).
    cbn [read_headers]. rewrite cut_line.
    2:{ unfold field_text; cbn [fst snd]. rewrite !elem_of_app. intros [?|[Hin|?]]; try done.
        revert Hin. apply (bool_decide_unpack _). vm_compute. exact I. }
    rewrite IH by lia. unfold field_text at 1; cbn. by destruct n.
Qed.

(** The fields [Build] means to write. *)
Definition header_fields (now : Z) (boundary : gostring) (e : Envelope) : list (gostring * gostring) :=
  [(str "From", e_From e); (str "To", join (e_To e) (str ", "))]
  ++ (if bool_decide (e_ReplyTo e <> []) then [(str "Reply-To", e_ReplyTo e)] else [])
  ++ [(str "Subject", q_encode (e_Subject e)); (str "Message-ID", str "<" ++ e_MessageID e ++ str ">");
      (str "Date", format_rfc1123z (local_offset (default now (e_Date e))) (default now (e_Date e))); (str "MIME-Version", str "1.0")]
  ++ (if bool_decide (e_UnsubscribeURL e <> []) then
        [(str "List-Unsubscribe", str "<" ++ e_UnsubscribeURL e ++ str ">");
         (str "List-Unsubscribe-Post", str "List-Unsubscribe=One-Click")] else [])
  ++ range_map (e_Extra e)
  ++ (if bool_decide (trim_space (e_HTML e) = [])
      then [(str "Content-Type", str "text/plain; charset=utf-8");
            (str "Content-Transfer-Encoding", str "quoted-printable")]
      else [(str "Content-Type", str "multipart/alternative; boundary=" ++ quoted_boundary boundary)]).

(** A buffer that holds exactly these safe fields. *)
Definition holds (buf : gostring) (fields : list (gostring * gostring)) : Prop :=
  buf = block fields /\ Forall field_safe fields.

Lemma block_app f1 f2 : block (f1 ++ f2) = block f1 ++ block f2.
Proof. unfold block. by rewrite fmap_app, concat_app. Qed.

Lemma holds_app b1 f1 b2 f2 : holds b1 f1 -> holds b2 f2 -> holds (b1 ++ b2) (f1 ++ f2).
Proof. intros [-> ?] [-> ?]. split; [by rewrite block_app|by apply Forall_app]. Qed.

Lemma holds_field n v : CR ∉ n -> CR ∉ v -> holds (header_line n v) [(n, v)].
Proof. intros. split; [|by repeat constructor]. unfold block; cbn. by rewrite app_nil_r. Qed.

Lemma write_holds buf fields n v buf' :
  write buf n v = Ok buf' -> CR ∉ n -> holds buf fields -> holds buf' (fields ++ [(n, v)]).
Proof.
  unfold write. destruct (ContainsControl v) eqn:E; [done|]. intros [= <-] Hn Hb.
  apply holds_app; [done|]. apply holds_field; [done|by apply no_control_no_CR].
Qed.

Lemma write_extra_holds extra buf fields buf' :
  write_extra buf extra = Ok buf' -> holds buf fields -> holds buf' (fields ++ extra).
Proof.
  revert buf fields; induction extra as [|[n v] extra IH]; intros buf fields; cbn.
  { intros [= <-]. by rewrite app_nil_r. }
  destruct (ValidateCustomHeader n v) as [[]|] eqn:Ev; [|done].
  destruct (write buf n v) as [buf1|] eqn:Ew; [|done]. intros Hx Hb.
  assert (CR ∉ n) as Hn.
  { unfold ValidateCustomHeader in Ev. repeat case_match; try done. intros Hin.
    match goal with He : existsb _ (runes n) = false |- _ => apply not_true_iff_false in He; apply He end.
    apply List.existsb_exists. exists (byte_val CR). split; [|done].
    apply list_elem_of_In. by apply ascii_in_runes. }
  replace (fields ++ (n, v) :: extra) with ((fields ++ [(n, v)]) ++ extra) by (by rewrite <- app_assoc).
  eapply IH; [exact Hx|]. by eapply write_holds.
Qed.

(** One header write of [Build], and what comes after it. *)
Lemma write_then buf fields n v k (raw : gostring) :
  holds buf fields -> CR ∉ n -> (let? b := write buf n v in k b) = Ok raw ->
  exists b, holds b (fields ++ [(n, v)]) /\ k b = Ok raw.
Proof.
  intros Hh Hn (b & Hw & Hk)%rbind_ok. exists b. split; [|done]. by eapply write_holds.
Qed.

Lemma optional_then (c : bool) buf fields f fs k (raw : gostring) :
  holds buf fields ->
  (forall b, f = Ok b -> holds b (fields ++ fs)) ->
  (let? b := if c then f else Ok buf in k b) = Ok raw ->
  exists b, holds b (fields ++ (if c then fs else [])) /\ k b = Ok raw.
Proof.
  intros Hh Hf (b & Hw & Hk)%rbind_ok. exists b. split; [|done].
  destruct c; [by apply Hf|]. injection Hw as <-. by rewrite app_nil_r.
Qed.

Ltac next_field H Hh :=
  eapply write_then in H; [|exact Hh|literal_no_CR]; clear Hh; destruct H as (? & Hh & H).

(** The text of a message, derived from its HTML when it has none, and what
    [Build] puts after the headers. *)
Definition text_of (e : Envelope) : gostring :=
  if bool_decide (trim_space (e_Text e) = []) then PlainTextFrom (e_HTML e) else e_Text e.

Definition body_of (boundary : gostring) (e : Envelope) : gostring :=
  if bool_decide (trim_space (e_HTML e) = []) then quotedPrintable (text_of e)
  else multipart_body boundary (text_of e) (e_HTML e).

Lemma write_extra_valid buf extra buf' :
  write_extra buf extra = Ok buf' -> Forall (fun f => ValidateCustomHeader f.1 f.2 = Ok tt) extra.
Proof.
  revert buf. induction extra as [|[n v] extra IH]; intros buf; cbn; [constructor|].
  destruct (ValidateCustomHeader n v) as [[]|] eqn:Ev; [|done]. destruct (write buf n v); [|done].
  intros Hx. constructor; [done|by eapply IH].
Qed.

(** The header block of a built message and its body. *)
Lemma Build_holds now boundary e raw :
  CR ∉ boundary -> Build now boundary e = Ok raw ->
  exists buf, holds buf (header_fields now boundary e) /\ raw = buf ++ CRLF ++ body_of boundary e
    /\ Forall (fun f => ValidateCustomHeader f.1 f.2 = Ok tt) (range_map (e_Extra e)).
Proof.
  intros Hb (_ & _ & Hk)%rbind_ok. revert Hk. case_bool_decide; [done|]. cbn zeta. intros Hk.
  assert (holds [] []) as Hh by (split; [done|constructor]).
  next_field Hk Hh. next_field Hk Hh.
  eapply optional_then in Hk; [|exact Hh|intros b Hw; eapply write_holds; [exact Hw|literal_no_CR|exact Hh]].
  clear Hh; destruct Hk as (? & Hh & Hk).
  do 4 next_field Hk Hh.
  eapply optional_then with (fs := [(str "List-Unsubscribe", _); (str "List-Unsubscribe-Post", _)]) in Hk;
    [|exact Hh|].
  2:{ intros b Hw. eapply write_then in Hw; [|exact Hh|literal_no_CR]. destruct Hw as (b' & Hh' & Hw).
      apply (write_holds _ _ _ _ _ Hw) in Hh'; [|literal_no_CR]. rewrite <- app_assoc in Hh'. exact Hh'. }
  clear Hh; destruct Hk as (? & Hh & Hk). apply rbind_ok in Hk as (buf & Hx & Hk).
  apply (write_extra_holds _ _ _ _ Hx) in Hh. apply write_extra_valid in Hx. unfold header_fields.
  set (ct := if bool_decide (trim_space (e_HTML e) = []) then _ else _).
  assert (exists content, raw = buf ++ content ++ CRLF ++ body_of boundary e /\ holds content ct)
    as (content & -> & Hc).
  { subst ct. unfold body_of. destruct (bool_decide (trim_space (e_HTML e) = [])); apply Ok_inj in Hk as <-.
    - exists (header_line (str "Content-Type") (str "text/plain; charset=utf-8")
              ++ header_line (str "Content-Transfer-Encoding") (str "quoted-printable")).
      split; [rewrite <- (app_assoc (header_line _ _)); reflexivity|].
      apply (holds_app _ [_] _ [_]); apply holds_field; literal_no_CR.
    - eexists (header_line _ _). split; [reflexivity|]. apply holds_field; [literal_no_CR|].
      unfold quoted_boundary. rewrite elem_of_app, elem_of_cons, elem_of_app.
      intros [Hin|[?|[?|Hin]]]; try done; revert Hin; literal_no_CR. }
  exists (buf ++ content). split; [|by rewrite <- !app_assoc].
  pose proof (holds_app _ _ _ _ Hh Hc) as Hall. rewrite <- !app_assoc in Hall. exact Hall.
Qed.

(** C28: No caller-supplied value can add, split or end a header. When [Build]
    produces a message, a receiver reading lines up to the first empty one finds
    exactly the header fields [Build] means to write, in order, one line each, and
    then the body. *)
Theorem Build_headers now boundary e raw :
  CR ∉ boundary ->
  Build now boundary e = Ok raw ->
  exists body, read_headers (S (length (header_fields now boundary e))) raw
    = Some (field_text <$> header_fields now boundary e, body).
Proof.
  intros Hb Hbuild. destruct (Build_holds _ _ _ _ Hb Hbuild) as (buf & [-> Hs] & -> & _).
  exists (body_of boundary e). apply read_headers_block; [done|lia].
Qed.

(** The loop keeps one spelling of every address, in order. *)
Lemma parse_recipients_Ok raw seen out :
  parse_recipients raw seen = Ok out ->
  (length out <= length raw)%nat /\ NoDup (to_lower <$> out)
  /\ (forall a, a ∈ to_lower <$> out -> a ∉ seen)
  /\ (forall a, a ∈ out -> exists r addr, r ∈ raw /\ ParseAddress r = Ok addr /\ a = a_Email addr)
  /\ (forall r, r ∈ raw -> exists addr, ParseAddress r = Ok addr
        /\ (to_lower (a_Email addr) ∈ seen \/ to_lower (a_Email addr) ∈ to_lower <$> out)).
Proof.
  revert seen out; induction raw as [|r raw IH]; intros seen out; cbn [parse_recipients].
  { intros [= <-]. split_and!; [done|constructor| | |]; intros ? ?%elem_of_nil; done. }
  destruct (ParseAddress r) as [addr|] eqn:Ep; [|done]. case_bool_decide as Hseen.
  - intros (Hl & Hn & Hs & Ho & Hr)%IH. split_and!; [cbn; lia|done|done| |].
    + intros a (r' & addr' & ? & ?)%Ho. exists r', addr'. split; [by right|done].
    + intros r' [->|Hr']%elem_of_cons; [|by apply Hr]. exists addr. auto.
  - destruct (parse_recipients raw _) as [out'|] eqn:E; [|done]. intros [= <-].
    apply IH in E as (Hl & Hn & Hs & Ho & Hr). rewrite fmap_cons. split_and!.
    + cbn; lia.
    + constructor; [|done]. intros Hin%Hs. set_solver.
    + intros a [->|Ha]%elem_of_cons; [done|]. apply Hs in Ha. set_solver.
    + intros a [->|Ha]%elem_of_cons; [exists r, addr; split; [left|done]|].
      apply Ho in Ha as (r' & addr' & ? & ?). exists r', addr'. split; [by right|done].
    + intros r' [->|Hr']%elem_of_cons; [exists addr; split; [done|]; right; left|].
      apply Hr in Hr' as (addr' & ? & Hor). exists addr'. split; [done|].
      rewrite elem_of_cons. set_solver.
Qed.

(** A parsed recipient list is non-empty, has at most fifty entries, no two
    of them equal up to case, each one the address of some input, and every input
    is represented. *)
Theorem ParseRecipients_correct raw out :
  ParseRecipients raw = Ok out ->
  out <> [] /\ (length out <= MaxRecipients)%nat /\ NoDup (to_lower <$> out)
  /\ (forall a, a ∈ out -> exists r addr, r ∈ raw /\ ParseAddress r = Ok addr /\ a = a_Email addr)
  /\ (forall r, r ∈ raw -> exists addr, ParseAddress r = Ok addr
        /\ to_lower (a_Email addr) ∈ to_lower <$> out).
Proof.
  unfold ParseRecipients. case_bool_decide as Hne; [done|].
  destruct (Nat.ltb_spec MaxRecipients (length raw)) as [|Hmax]; [done|].
  intros (Hl & Hn & _ & Ho & Hr)%parse_recipients_Ok.
  assert (Hrep : forall r, r ∈ raw -> exists addr, ParseAddress r = Ok addr
    /\ to_lower (a_Email addr) ∈ to_lower <$> out).
  { intros r (addr & ? & [Hin|?])%Hr; [set_solver|by exists addr]. }
  split_and!; try done; [|lia]. intros ->. destruct raw as [|r raw]; [done|].
  destruct (Hrep r) as (addr & _ & Hin); [left|]. by apply elem_of_nil in Hin.
Qed.

Lemma strip_step_markup rs st :
  60 ∉ st.2 -> 62 ∉ st.2 ->
  60 ∉ (foldl strip_step st rs).2 /\ 62 ∉ (foldl strip_step st rs).2.
Proof.
  revert st; induction rs as [|r rs IH]; intros [inTag out] H1 H2; [done|]. cbn.
  apply IH; unfold strip_step;
    destruct (Z.eqb_spec r 60), (Z.eqb_spec r 62), inTag; cbn in *; try done;
    rewrite elem_of_app, list_elem_of_singleton; naive_solver lia.
Qed.

Lemma ascii_elem_encode c rs : c ∈ encode_runes rs -> byte_val c < 128 -> byte_val c ∈ rs.
Proof.
  induction rs as [|r rs IH]; [by intros ?%elem_of_nil|]. cbn. rewrite elem_of_app, elem_of_cons.
  intros [Hc|Hc] Hb; [|right; by apply IH]. left.
  pose proof (encode_rune_bytes r) as Hr. rewrite list.Forall_forall in Hr. apply Hr in Hc. lia.
Qed.

(** The derived plain text contains no markup: neither angle bracket of the
    HTML survives. *)
Theorem PlainTextFrom_no_markup html :
  "<"%char ∉ PlainTextFrom html /\ ">"%char ∉ PlainTextFrom html.
Proof.
  destruct (strip_step_markup (runes html) (false, [])) as [H1 H2]; [apply not_elem_of_nil..|].
  assert (Hc : forall c, c ∈ PlainTextFrom html -> c = " "%char
    \/ c ∈ encode_runes (foldl strip_step (false, []) (runes html)).2).
  { intros c Hin%elem_of_trim_func. apply elem_of_join in Hin as [Hin|(w & Hw & Hin)].
    - left. by apply list_elem_of_singleton in Hin.
    - right. by eapply elem_of_fields. }
  split; intros [?|Hin]%Hc; try done.
  - apply H1. by apply (ascii_elem_encode "<"%char).
  - apply H2. by apply (ascii_elem_encode ">"%char).
Qed.

End Mail.

(** ** A concrete library and witnesses *)

Definition plain_runtime : GoRuntime.
Proof.
  refine {| local_offset _ := 0; range_map m := map_to_list m |}.
  done.
Defined.

Definition sample_envelope : Envelope :=
  {| e_MessageID := str "m1@x.io"; e_From := str "shop@x.io"; e_To := [str "ann@y.io"];
     e_Subject := str "Hi"; e_HTML := str "<p>Hello</p>"; e_Text := []; e_ReplyTo := [];
     e_Extra := {[ str "X-Tag" := str "a" ]}; e_Date := None; e_UnsubscribeURL := str "https://x.io/u/t" |}.

Definition sample_raw : gostring :=
  match Build (H := ascii_tables) (H0 := plain_runtime) 0 (str "b0") sample_envelope with
  | Ok raw => raw
  | Err _ => []
  end.

Lemma Build_headers_witness :
  exists body, read_headers (S (length (header_fields (H0 := plain_runtime) 0 (str "b0") sample_envelope)))
      sample_raw
    = Some (field_text <$> header_fields (H0 := plain_runtime) 0 (str "b0") sample_envelope, body).
Proof.
  apply (Build_headers (H := ascii_tables) (H0 := plain_runtime) 0 (str "b0") sample_envelope sample_raw).
  - apply (bool_decide_unpack _). vm_compute. exact I.
  - vm_compute. reflexivity.
Defined.

Lemma ParseRecipients_correct_witness :
  ParseRecipients (H := ascii_tables) [str "Ann@y.io"; str "ann@Y.io"; str "bo@y.io"]
    = Ok [str "Ann@y.io"; str "bo@y.io"]
  /\ (length [str "Ann@y.io"; str "bo@y.io"] <= MaxRecipients)%nat.
Proof.
  split; [vm_compute; reflexivity|].
  apply (ParseRecipients_correct (H := ascii_tables)
           [str "Ann@y.io"; str "ann@Y.io"; str "bo@y.io"] [str "Ann@y.io"; str "bo@y.io"]).
  vm_compute. reflexivity.
Defined.
