(* ===== verification/Addresses.v ===== *)
(** * internal/mail: what an accepted address is

    ParseAddress over the standard parser of NetMail.v: for a text without quoted
    strings, comments and groups, the part that was checked for blanks is the address
    that is stored, and reading the stored address gives it back; each of the three
    exceptions is shown by an example. *)

From S2P Require Import Prelude Utf8 GoStrings Quote Netip NetMail GoTime Mime Mail.
Local Open Scope Z_scope.
Local Open Scope go_scope.

(** ** Positions of single bytes *)

Lemma last_index_byte_None c s : c ∉ s -> last_index_byte c s = None.
Proof.
  induction s as [|d s IH]; [done|]. intros [Hd Hs]%not_elem_of_cons. cbn. rewrite IH by done.
  by rewrite bool_decide_eq_false_2.
Qed.

Lemma last_index_byte_app c a b : c ∉ b -> last_index_byte c (a ++ c :: b) = Some (length a).
Proof.
  intros Hb. induction a as [|d a IH]; cbn; [|by rewrite IH].
  rewrite last_index_byte_None by done. by rewrite bool_decide_eq_true_2.
Qed.

Lemma contains_any_false s chars : contains_any s chars = false <-> forall c, c ∈ chars -> c ∉ s.
Proof.
  unfold contains_any. rewrite <- not_true_iff_false, List.existsb_exists. split.
  - intros Hn c Hc Hs. apply Hn. exists c. rewrite bool_decide_eq_true. by rewrite <- list_elem_of_In.
  - intros Hn (c & Hin & Hc%bool_decide_eq_true). apply list_elem_of_In in Hin. by apply (Hn c).
Qed.

Lemma blank_in_blanks c : blank c = true -> c ∈ blanks.
Proof.
  unfold blank, isWSP. rewrite orb_true_iff, !Z.eqb_eq.
  intros [E|E]; rewrite <- (byte_of_val c), E; [left|right; left].
Qed.

Lemma no_blanks p s : contains_any s blanks = false -> Forall (fun c => blank c = true) p ->
  (forall c, c ∈ p -> c ∈ s) -> p = [].
Proof.
  intros Hs Hp Hin. destruct Hp as [|c p Hc _]; [done|]. destruct (proj1 (contains_any_false _ _) Hs c).
  - by apply blank_in_blanks.
  - apply Hin. left.
Qed.

Lemma is_ascii_elem s c : is_ascii s = true -> c ∈ s -> byte_val c < 128.
Proof.
  intros Hs Hc. apply list_elem_of_In in Hc. unfold is_ascii in Hs. rewrite forallb_forall in Hs.
  by apply Z.ltb_lt, Hs.
Qed.

(** ** The part that is checked *)

Lemma unmarked_trim s : unmarked s -> unmarked (trim_space s).
Proof. unfold unmarked. rewrite !list.Forall_forall. intros Hs c Hc. by eapply Hs, elem_of_trim_func. Qed.

Lemma mailbox_no_mark local domain c : dot_atom local = true -> domain_ok domain = true ->
  unmarked domain -> c ∈ str "<>" -> c ∉ mailbox local domain.
Proof.
  intros Hl Hd Hm Hc. assert (c ∈ str "<>@") as Hc'.
  { change (str "<>@") with (str "<>" ++ str "@"). apply elem_of_app. by left. }
  unfold mailbox. rewrite elem_of_app, elem_of_cons. intros [Hin|[->|Hin]].
  - by eapply dot_atom_no_mark.
  - revert Hc. change (str "<>") with ["<"%char; ">"%char]. rewrite !elem_of_cons, elem_of_nil. intuition discriminate.
  - by eapply domain_no_mark.
Qed.

Lemma spaced_tight body local domain : spaced body local domain -> contains_any body blanks = false ->
  body = mailbox local domain.
Proof.
  intros (b1 & b2 & -> & H1 & H2) Hb.
  rewrite (no_blanks b1 _ Hb H1), (no_blanks b2 _ Hb H2); [done|..]; intros c; rewrite !elem_of_app, !elem_of_cons, elem_of_app; tauto.
Qed.

Lemma spaced_elem body local domain c : spaced body local domain -> c ∈ body ->
  blank c = true \/ c ∈ mailbox local domain.
Proof.
  intros (b1 & b2 & -> & H1 & H2). unfold mailbox. rewrite !elem_of_app, !elem_of_cons, elem_of_app.
  intros [Hc|[?|[?|[Hc|?]]]]; try tauto; left;
    [exact (proj1 (list.Forall_forall _ _) H1 c Hc)|exact (proj1 (list.Forall_forall _ _) H2 c Hc)].
Qed.

Lemma spaced_unmarked body local domain : spaced body local domain -> unmarked body -> unmarked domain.
Proof.
  intros (b1 & b2 & -> & _ & _) Hb. apply unmarked_app in Hb as [_ Hb]. apply unmarked_app in Hb as [_ Hb].
  apply list.Forall_cons in Hb as [_ Hb]. by apply unmarked_app in Hb as [_ Hb].
Qed.

Lemma spaced_no_mark body local domain c : spaced body local domain -> unmarked body ->
  dot_atom local = true -> domain_ok domain = true -> c ∈ str "<>" -> c ∉ body.
Proof.
  intros Hs Hm Hl Hd Hc Hin. destruct (spaced_elem _ _ _ _ Hs Hin) as [Hb|Hb].
  - revert Hc. change (str "<>") with ["<"%char; ">"%char]. rewrite !elem_of_cons, elem_of_nil.
    intros [->|[->|[]]]; done.
  - revert Hb. apply mailbox_no_mark; [done..| |done]. by eapply spaced_unmarked.
Qed.

(** [addrSpec] finds the address of a text the parser reads one from. *)
Lemma addrSpec_shape raw body local domain : unmarked raw -> shape (trim_space raw) body ->
  spaced body local domain -> dot_atom local = true -> domain_ok domain = true ->
  contains_any (addrSpec raw) blanks = false -> addrSpec raw = mailbox local domain.
Proof.
  intros Hm Hsh Hs Hl Hd Hb. apply unmarked_trim in Hm. unfold addrSpec in *.
  destruct Hsh as [post E Hp|pre post E Hpre Hp]; rewrite E in Hm, Hb |- *.
  - apply unmarked_app in Hm as [Hm _]. rewrite last_index_byte_None in Hb |- *.
    2,3: rewrite elem_of_app; intros [Hin|Hin];
      [revert Hin; eapply spaced_no_mark; [done..|left]|revert Hin; by eapply blanks_no_char].
    rewrite (no_blanks post _ Hb Hp) in Hb |- * by (intros c; rewrite elem_of_app; tauto).
    rewrite app_nil_r in Hb |- *. by apply spaced_tight.
  - apply unmarked_app in Hm as [_ Hm]. apply list.Forall_cons in Hm as [_ Hm]. apply unmarked_app in Hm as [Hm _].
    pose proof (spaced_no_mark body local domain "<"%char Hs Hm Hl Hd ltac:(left)) as H1.
    pose proof (spaced_no_mark body local domain ">"%char Hs Hm Hl Hd ltac:(right; left)) as H2.
    rewrite last_index_byte_app in Hb |- *.
    2,3: rewrite elem_of_app, elem_of_cons; intros [?|[?|Hin]]; try done; revert Hin; by eapply blanks_no_char.
    change (pre ++ "<"%char :: body ++ ">"%char :: post) with (pre ++ ("<"%char :: body) ++ ">"%char :: post) in Hb |- *.
    rewrite app_assoc, last_index_byte_app in Hb |- * by (by eapply blanks_no_char).
    replace (length pre <? length (pre ++ "<"%char :: body))%nat with true in Hb |- *
      by (symmetry; apply Nat.ltb_lt; rewrite length_app; cbn; lia).
    assert (take (length (pre ++ "<"%char :: body) - (length pre + 1))
              (drop (length pre + 1) ((pre ++ "<"%char :: body) ++ ">"%char :: post)) = body) as Et.
    { rewrite <- app_assoc, <- drop_drop, drop_app_length. cbn [app drop].
      rewrite length_app. replace (_ - _)%nat with (length body) by (cbn; lia). apply take_app_length. }
    rewrite Et in Hb |- *. by apply spaced_tight.
Qed.

(** ** What is accepted *)

(** The next reader of the address sees the address that was checked. *)
Record agreed (raw : gostring) (a : Address) (local domain : gostring) : Prop := {
  ag_email : a_Email a = mailbox local domain;
  ag_local : dot_atom local = true;
  ag_domain : domain_ok domain = true;
  ag_checked : addrSpec raw = a_Email a;
}.

Section Addresses.
Context `{UnicodeTables}.

(** Split the result of an accepted address. *)
Lemma ParseAddress_Ok raw a : ParseAddress raw = Ok a ->
  ContainsControl raw = false /\ contains_any (addrSpec raw) blanks = false
  /\ net_mail_parse (trim_space raw) = Some (a_Name a, a_Email a)
  /\ exists at_, last_index_byte "@"%char (a_Email a) = Some at_ /\ a_Domain a = to_lower (drop (at_ + 1) (a_Email a)).
Proof.
  unfold ParseAddress. destruct (ContainsControl raw); [done|].
  destruct (contains_any (addrSpec raw) blanks); [done|].
  destruct (net_mail_parse (trim_space raw)) as [[name address]|]; [|done].
  destruct (last_index_byte "@"%char address) as [at_|] eqn:Ea; [|done].
  destruct (_ || _); [done|]. destruct (contains_any _ _); [done|]. intros [= <-]. cbn.
  split_and!; try done. by exists at_.
Qed.

Lemma last_at local domain : unmarked domain -> domain_ok domain = true ->
  last_index_byte "@"%char (mailbox local domain) = Some (length local).
Proof.
  intros. apply last_index_byte_app, domain_no_mark; [done..|].
  change (str "<>@") with (str "<>" ++ str "@"). apply elem_of_app. by right; left.
Qed.

Lemma drop_local local domain : drop (length local + 1) (mailbox local domain) = domain.
Proof.
  unfold mailbox. change (local ++ "@"%char :: domain) with (local ++ ["@"%char] ++ domain).
  rewrite app_assoc. apply drop_app_length'. rewrite length_app. cbn. lia.
Qed.

(** C26: without quoted strings, comments and groups, an accepted text holds one
    mailbox; the part of it that was required to be free of blanks is that mailbox byte
    for byte, its domain is the one that is authorised, and the standard parser reads the
    stored address as itself. *)
Theorem ParseAddress_agreed raw a : ParseAddress raw = Ok a -> unmarked raw ->
  exists local domain, agreed raw a local domain /\ a_Domain a = to_lower domain
    /\ net_mail_parse (a_Email a) = Some ([], a_Email a).
Proof.
  intros (_ & Hb & Hp & at_ & Ha & Hdom)%ParseAddress_Ok Hm.
  destruct (net_mail_unmarked _ _ _ (unmarked_trim _ Hm) Hp) as (l & d & body & E & Hl & Hd & Hs & Hsh).
  pose proof (addrSpec_shape _ _ _ _ Hm Hsh Hs Hl Hd Hb) as Hc.
  assert (Hmd : unmarked d).
  { apply unmarked_trim in Hm. eapply spaced_unmarked; [exact Hs|].
    destruct Hsh as [post Et _|pre post Et _ _]; rewrite Et in Hm; [by apply unmarked_app in Hm as []|].
    apply unmarked_app in Hm as [_ Hm]. apply list.Forall_cons in Hm as [_ Hm]. by apply unmarked_app in Hm as []. }
  exists l, d. split; [by split; rewrite ?E, ?Hc|]. rewrite E in Ha, Hdom |- *. split; [|by apply parse_mailbox].
  rewrite last_at in Ha by done. injection Ha as <-. by rewrite Hdom, drop_local.
Qed.

(** ** No plain address is refused *)

Lemma visible_no_control s : visible_runes s -> ContainsControl s = false.
Proof.
  intros (rs & -> & Hrs). unfold ContainsControl. rewrite runes_encode_runes.
  induction Hrs as [|r rs [Hv Hr] _ IH]; [done|]. cbn [fmap list_fmap existsb]. rewrite IH, (scalar_id _ Hv), orb_false_r.
  unfold isVchar, in_range in Hr. destruct (Z.eqb_spec r 9); [done|]. boolify. lia.
Qed.

Lemma visible_byte s c : visible_runes s -> c ∈ s -> is_space (byte_val c) = true -> 128 <= byte_val c.
Proof.
  intros (rs & -> & Hrs) Hin Hsp. destruct (Z.le_gt_cases 128 (byte_val c)) as [|Hc]; [done|].
  apply ascii_elem_encode in Hin; [|lia]. apply (proj1 (list.Forall_forall _ _) Hrs) in Hin as [_ Hin].
  unfold isVchar, is_space, in_range in *. boolify. lia.
Qed.

Lemma mailbox_visible local domain : dot_atom local = true -> domain_ok domain = true ->
  visible_runes (mailbox local domain).
Proof.
  intros Hl%dot_atom_visible [_ Hd]%domain_visible. apply visible_app; [done|].
  apply (visible_app [_]); [by apply visible_char|done].
Qed.

Lemma visible_no_blank s : visible_runes s -> contains_any s blanks = false.
Proof.
  intros Hs. apply contains_any_false. intros c Hc Hin.
  assert (is_space (byte_val c) = true /\ byte_val c < 128) as [Hsp Hb].
  { revert Hc. change blanks with [" "%char; "009"%char]. rewrite !elem_of_cons, elem_of_nil. by intros [->|[->|[]]]. }
  pose proof (visible_byte _ _ Hs Hin Hsp). lia.
Qed.

Lemma to_lower_blank s : is_ascii s = true -> visible_runes s -> contains_any (to_lower s) blanks = false.
Proof.
  intros Ha Hs. apply contains_any_false. intros c Hc Hin.
  assert (byte_val c = 32 \/ byte_val c = 9) as Hb.
  { revert Hc. change blanks with [" "%char; "009"%char]. rewrite !elem_of_cons, elem_of_nil.
    intros [->|[->|[]]]; [by left|by right]. }
  apply ascii_elem_encode in Hin; [|lia]. rewrite runes_ascii in Hin by done.
  apply list_elem_of_fmap in Hin as (r & Hr & (d & -> & Hd)%list_elem_of_fmap).
  assert (byte_val d < 128) as Hd' by (by eapply is_ascii_elem).
  assert (byte_val d = byte_val c) as Hdc.
  { unfold lower_rune, in_range in Hr. repeat case_match; boolify; lia. }
  pose proof (visible_byte _ d Hs Hd) as Hv. rewrite Hdc in Hv. unfold is_space, in_range in Hv.
  destruct Hb as [Hb|Hb]; rewrite Hb in Hv; specialize (Hv eq_refl); lia.
Qed.

Lemma addrSpec_bare raw : "<"%char ∉ trim_space raw -> addrSpec raw = trim_space raw.
Proof. intros. unfold addrSpec. by rewrite last_index_byte_None. Qed.

(** An ASCII [local@domain] is accepted as it is, white space about it aside. *)
Lemma ParseAddress_mailbox raw local domain : trim_space raw = mailbox local domain -> ContainsControl raw = false ->
  is_ascii domain = true -> unmarked domain -> dot_atom local = true -> domain_ok domain = true ->
  ParseAddress raw = Ok {| a_Name := []; a_Email := mailbox local domain; a_Domain := to_lower domain |}.
Proof.
  intros Ht Hc Ha Hm Hl Hd. destruct (dot_atom_runes _ Hl) as [Hn _]. destruct (domain_visible _ Hd) as [Hn' Hvd].
  assert (addrSpec raw = mailbox local domain) as Hs.
  { rewrite addrSpec_bare; [done|]. rewrite Ht. apply mailbox_no_mark; [done..|left]. }
  unfold ParseAddress.
  rewrite Hc, Hs, Ht, parse_mailbox, last_at, drop_local by done.
  rewrite visible_no_blank by by apply mailbox_visible. rewrite to_lower_blank by done.
  replace ((_ =? 0)%nat || _) with false; [done|]. symmetry. unfold mailbox. rewrite length_app.
  destruct local as [|? l]; [done|]. destruct domain as [|? d]; [done|]. cbn [length].
  apply orb_false_iff. split; apply Nat.eqb_neq; lia.
Qed.

(** C27: an ASCII text without angle brackets, quoted strings, comments and groups is
    accepted exactly when it is one mailbox, white space about it aside, and then the
    mailbox is stored as it stands. *)
Theorem ParseAddress_bare raw a : is_ascii raw = true -> unmarked raw -> "<"%char ∉ raw ->
  (ParseAddress raw = Ok a <->
    exists local domain, agreed raw a local domain /\ trim_space raw = a_Email a
      /\ ContainsControl raw = false /\ a_Name a = [] /\ a_Domain a = to_lower domain).
Proof.
  intros Ha Hm Hlt. assert (addrSpec raw = trim_space raw) as Hs.
  { apply addrSpec_bare. intros Hin. by apply Hlt, (elem_of_trim_func _ is_space). }
  pose proof (unmarked_trim _ Hm) as Hmt. split.
  - intros Hok. destruct (ParseAddress_Ok _ _ Hok) as (Hc & Hb & Hp & at_ & Hat & Hdom).
    destruct (net_mail_unmarked _ _ _ Hmt Hp) as (l & d & body & E & Hl & Hd & Hsp & Hsh).
    pose proof (addrSpec_shape _ _ _ _ Hm Hsh Hsp Hl Hd Hb) as Hcd. rewrite Hs in Hcd.
    rewrite Hcd, parse_mailbox in Hp by done. injection Hp as Hn _.
    rewrite Hcd in Hmt. unfold mailbox in Hmt. apply unmarked_app in Hmt as [_ [_ Hmd]%list.Forall_cons].
    exists l, d. rewrite E, last_at in Hat by done. injection Hat as <-. rewrite E, drop_local in Hdom.
    split_and!; try done; [|by rewrite E]. split; [done..|]. by rewrite Hs, E.
  - intros (l & d & [He Hl Hd Hchk] & Ht & Hc & Hn & Hdom). rewrite He in Ht.
    rewrite (ParseAddress_mailbox raw l d); [by destruct a; cbn in *; subst|done..| | |done|done].
    + assert (is_ascii (mailbox l d) = true) as Hall.
      { rewrite <- Ht. unfold is_ascii. apply forallb_forall. intros c Hin%list_elem_of_In.
        apply Z.ltb_lt. eapply is_ascii_elem; [exact Ha|]. by eapply elem_of_trim_func. }
      unfold mailbox in Hall. apply is_ascii_app in Hall as [_ Hall]. by apply is_ascii_cons in Hall as [_ Hall].
    + rewrite Ht in Hmt. unfold mailbox in Hmt. apply unmarked_app in Hmt as [_ Hmt]. by apply list.Forall_cons in Hmt as [_ Hmt].
Qed.

End Addresses.

(** ** Where the three exceptions lead *)

#[local] Existing Instances ascii_tables plain_runtime.

Definition quoted (s : gostring) : gostring := quotation :: s ++ [quotation].

(** The standard parser takes the quotes off a quoted local part, and the address is
    stored without them: the From line of a message from one verified domain then names
    two mailboxes, the first at any domain. *)
Theorem quoted_local_part_forges_mailbox :
  exists a raw,
    ParseAddress (quoted (str "ceo@bank.com,x") ++ str "@shop.io") = Ok a
    /\ a_Domain a = str "shop.io"
    /\ split (a_Email a) (str ",") = [str "ceo@bank.com"; str "x@shop.io"]
    /\ net_mail_parse (str "ceo@bank.com") = Some ([], str "ceo@bank.com")
    /\ net_mail_parse (a_Email a) = None
    /\ Build 0 (str "b0") {| e_MessageID := str "m1@x.io"; e_From := a_Email a; e_To := [str "ann@y.io"];
         e_Subject := str "Hi"; e_HTML := []; e_Text := str "Hello"; e_ReplyTo := []; e_Extra := ∅; e_Date := None;
         e_UnsubscribeURL := [] |} = Ok raw
    /\ has_prefix (str "From: ceo@bank.com,x@shop.io" ++ CRLF) raw = true.
Proof.
  eexists _, _. split; [vm_compute; reflexivity|]. do 4 (split; [vm_compute; reflexivity|]).
  split; vm_compute; reflexivity.
Qed.

(** A comment after the address holds the last angle bracket: the text checked for
    blanks is the comment's, and an address with a blank in it is accepted. *)
Theorem comment_hides_blank :
  addrSpec (str "<ann@ shop.io>(<x>)") = str "x"
  /\ ParseAddress (str "<ann@ shop.io>(<x>)")
     = Ok {| a_Name := []; a_Email := str "ann@shop.io"; a_Domain := str "shop.io" |}.
Proof. split; vm_compute; reflexivity. Qed.

(** A group of one member is an address. *)
Example group_accepted :
  ParseAddress (str "team:ann@shop.io;") = Ok {| a_Name := []; a_Email := str "ann@shop.io"; a_Domain := str "shop.io" |}.
Proof. vm_compute. reflexivity. Qed.

Lemma ParseAddress_agreed_witness :
  exists local domain, agreed (str "Ann B. <ann.b+x@Shop.io>")
      {| a_Name := str "Ann B."; a_Email := str "ann.b+x@Shop.io"; a_Domain := str "shop.io" |} local domain
    /\ str "shop.io" = to_lower domain /\ net_mail_parse (str "ann.b+x@Shop.io") = Some ([], str "ann.b+x@Shop.io").
Proof.
  apply (ParseAddress_agreed (str "Ann B. <ann.b+x@Shop.io>")
           {| a_Name := str "Ann B."; a_Email := str "ann.b+x@Shop.io"; a_Domain := str "shop.io" |}).
  - vm_compute. reflexivity.
  - apply (bool_decide_unpack _). vm_compute. exact I.
Defined.

Lemma ParseAddress_bare_witness :
  ParseAddress (str " ann@Shop.io ")
    = Ok {| a_Name := []; a_Email := str "ann@Shop.io"; a_Domain := str "shop.io" |}.
Proof.
  apply (ParseAddress_bare (str " ann@Shop.io ")
           {| a_Name := []; a_Email := str "ann@Shop.io"; a_Domain := str "shop.io" |}).
  - reflexivity.
  - apply (bool_decide_unpack _). vm_compute. exact I.
  - apply (bool_decide_unpack _). vm_compute. exact I.
  - exists (str "ann"), (str "Shop.io"). split_and!; [split; vm_compute; reflexivity|vm_compute; reflexivity..].
Defined.
