(* ===== verification/MailReader.v ===== *)
(** * How a receiver reads what internal/mail builds

    The reader of a message: the header block, the content type it names, the
    parts between the boundary lines and their transfer encoding (RFC 5322, 2045
    and 2046, as far as a built message uses them).  It is the specification of
    [Mail.Build]: what was put in comes out. *)

From S2P Require Import Prelude Utf8 GoStrings GoTime Mime Mail.
Local Open Scope Z_scope.
Local Open Scope go_scope.

(** The value of the first field of that name. *)
Definition field_value (name : gostring) (lines : list gostring) : option gostring :=
  drop (length name + 2) <$> List.find (has_prefix (name ++ str ": ")) lines.

Definition transfer_decode (lines : list gostring) (content : gostring) : option gostring :=
  if bool_decide (field_value (str "Content-Transfer-Encoding") lines = Some (str "quoted-printable"))
  then qp_decode content else Some content.

(** A part, or a message without parts: its content type and its text. *)
Definition read_leaf (lines : list gostring) (content : gostring) : option (gostring * gostring) :=
  match field_value (str "Content-Type") lines, transfer_decode lines content with
  | Some ct, Some text => Some (ct, text)
  | _, _ => None
  end.

Definition delimiter (boundary : gostring) : gostring := CRLF ++ str "--" ++ boundary.

(** The parts, from behind the first delimiter. *)
Fixpoint read_parts (fuel : nat) (boundary s : gostring) : option (list (gostring * gostring)) :=
  match fuel with
  | O => None
  | S fuel =>
      if has_prefix (str "--") s then Some []
      else match cut (drop 2 s) (delimiter boundary) with
           | None => None
           | Some (p, rest) =>
               match read_headers (length p) p with
               | None => None
               | Some (lines, content) =>
                   match read_leaf lines content, read_parts fuel boundary rest with
                   | Some leaf, Some leaves => Some (leaf :: leaves)
                   | _, _ => None
                   end
               end
           end
  end.

Definition alternative_prefix : gostring := str "multipart/alternative; boundary=" ++ ["034"%char].

Definition read_message (raw : gostring) : option (list (gostring * gostring)) :=
  match read_headers (length raw) raw with
  | None => None
  | Some (lines, body) =>
      match field_value (str "Content-Type") lines with
      | None => None
      | Some ct =>
          if has_prefix alternative_prefix ct then
            let boundary := take (length ct - length alternative_prefix - 1) (drop (length alternative_prefix) ct) in
            match cut (CRLF ++ body) (delimiter boundary) with
            | Some (_, rest) => read_parts (length raw) boundary rest
            | None => None
            end
          else match read_leaf lines body with Some leaf => Some [leaf] | None => None end
      end
  end.

(** The subject as it is shown. *)
Definition read_subject `{UnicodeTables} (raw : gostring) : option gostring :=
  match read_headers (length raw) raw with
  | Some (lines, _) => shown <$> field_value (str "Subject") lines
  | None => None
  end.

(** ** Finding the delimiter *)

(** An occurrence of [c :: t] in [p ++ c :: t ++ rest] before the end of [p] lies
    within [p] when [c] is not in [t]. *)
Lemma cut_marked c t p rest :
  c ∉ t -> contains p (c :: t) = false -> cut (p ++ (c :: t) ++ rest) (c :: t) = Some (p, rest).
Proof.
  intros Hc Hp. unfold cut.
  assert (index (c :: t) (p ++ (c :: t) ++ rest) = Some (length p)) as ->.
  { induction p as [|x p IH].
    { change (index (c :: t) ([] ++ (c :: t) ++ rest)) with
        (if has_prefix (c :: t) ((c :: t) ++ rest) then Some 0%nat else S <$> index (c :: t) (t ++ rest)).
      by rewrite has_prefix_app. }
    change (index (c :: t) ((x :: p) ++ (c :: t) ++ rest)) with
      (if has_prefix (c :: t) (x :: p ++ (c :: t) ++ rest) then Some 0%nat
       else S <$> index (c :: t) (p ++ (c :: t) ++ rest)).
    rewrite IH.
    2:{ apply not_true_iff_false. intros Hin. apply not_true_iff_false in Hp. apply Hp, contains_spec.
        apply contains_spec in Hin as (a & b & ->). by exists (x :: a), b. }
    destruct (has_prefix _ _) eqn:E; [|done]. exfalso. apply has_prefix_spec in E as [k E]. injection E as -> E.
    destruct (decide (length t <= length p)%nat) as [Hle|Hgt].
    - apply not_true_iff_false in Hp. apply Hp, contains_spec. exists [], (drop (length t) p). cbn. f_equal.
      apply (f_equal (take (length t))) in E. rewrite take_app_length, take_app_le in E by done.
      rewrite <- E at 1. by rewrite take_drop.
    - apply Hc. apply (f_equal (fun l => l !! length p)) in E.
      rewrite lookup_app_r, Nat.sub_diag in E by done. cbn in E.
      rewrite lookup_app_l in E by lia. symmetry in E. by eapply list_elem_of_lookup_2. }
  rewrite take_app_length. do 2 f_equal. rewrite app_assoc.
  replace (length p + length (c :: t))%nat with (length (p ++ c :: t)) by (by rewrite length_app).
  by rewrite drop_app_length.
Qed.

Section Reader.
Context `{UnicodeTables} `{GoRuntime}.

(** ** Header fields *)

(** A custom header has another name than those the reader looks for. *)
Lemma custom_name n v : ValidateCustomHeader n v = Ok tt -> exists c t, n = c :: t /\ c <> "C"%char.
Proof.
  unfold ValidateCustomHeader. repeat case_match; try done; boolify. intros _.
  destruct n as [|c t]; [done|]. exists c, t. split; [done|]. intros ->.
  match goal with Hp : has_prefix _ _ = true |- _ => revert Hp end.
  unfold to_upper. rewrite runes_cons_ascii by done. cbn [fmap list_fmap].
  change (upper_rune (byte_val "C"%char)) with (byte_val "C"%char).
  rewrite encode_runes_cons, (encode_ascii "C"%char) by done. intros [k E]%has_prefix_spec. discriminate E.
Qed.

Lemma other_field n v name : head n <> head name -> name <> [] -> n <> [] ->
  has_prefix (name ++ str ": ") (field_text (n, v)) = false.
Proof.
  intros Hh Hname Hn. apply not_true_iff_false. intros [k E]%has_prefix_spec.
  destruct name as [|x name], n as [|y n]; try done. injection E as ->. by apply Hh.
Qed.

Definition content_fields (boundary : gostring) (e : Envelope) : list (gostring * gostring) :=
  if bool_decide (trim_space (e_HTML e) = [])
  then [(str "Content-Type", str "text/plain; charset=utf-8");
        (str "Content-Transfer-Encoding", str "quoted-printable")]
  else [(str "Content-Type", str "multipart/alternative; boundary=" ++ quoted_boundary boundary)].

Lemma find_app {A} (f : A -> bool) l1 l2 :
  Forall (fun x => f x = false) l1 -> List.find f (l1 ++ l2) = List.find f l2.
Proof. induction 1 as [|x l Hx _ IH]; cbn; [done|]. by rewrite Hx. Qed.

(** Only the content fields begin with a C. *)
Lemma content_field name now boundary e :
  head name = Some "C"%char ->
  Forall (fun f => ValidateCustomHeader f.1 f.2 = Ok tt) (range_map (e_Extra e)) ->
  field_value name (field_text <$> header_fields now boundary e) = field_value name (field_text <$> content_fields boundary e).
Proof.
  intros Hname Hx. unfold field_value. f_equal. unfold header_fields. fold (content_fields boundary e).
  rewrite !fmap_app, !app_assoc, find_app; [done|].
  assert (Hf : forall n v, n <> [] -> head n <> Some "C"%char -> has_prefix (name ++ str ": ") (field_text (n, v)) = false).
  { intros n v Hn Hh. apply other_field; [by rewrite Hname|by intros ->|done]. }
  assert (Hl : forall l, Forall (fun f : gostring * gostring => f.1 <> [] /\ head f.1 <> Some "C"%char) l ->
    Forall (fun x => has_prefix (name ++ str ": ") x = false) (field_text <$> l)).
  { intros l Hall. apply list.Forall_fmap. eapply Forall_impl; [|exact Hall]. intros [n v] [? ?]. by apply Hf. }
  rewrite <- !fmap_app. apply Hl. rewrite !Forall_app. split_and!; try (repeat constructor; done).
  - case_bool_decide; [repeat constructor; done|constructor].
  - case_bool_decide; [repeat constructor; done|constructor].
  - eapply Forall_impl; [|exact Hx]. intros [n v] (c & t & Hn & Hc)%custom_name. cbn in Hn |- *. subst n.
    split; [done|]. intros E%(inj Some). done.
Qed.

Lemma subject_field now boundary e :
  field_value (str "Subject") (field_text <$> header_fields now boundary e) = Some (q_encode (e_Subject e)).
Proof.
  unfold field_value, header_fields. rewrite app_assoc, fmap_app, find_app; [done|].
  assert (Hf : forall n v, n <> [] -> head n <> Some "S"%char -> has_prefix (str "Subject" ++ str ": ") (field_text (n, v)) = false).
  { intros n v Hn Hh. by apply other_field. }
  case_bool_decide; cbn [app fmap list_fmap]; repeat (apply List.Forall_cons; [by apply Hf|]); constructor.
Qed.

(** Fuel for the header block is the message's length. *)
Lemma block_fuel fields body : (length fields < length (block fields ++ CRLF ++ body))%nat.
Proof.
  rewrite length_app. assert (length fields <= length (block fields))%nat; [|cbn; lia].
  induction fields as [|f fields IH]; [done|]. change (block (f :: fields)) with (header_line f.1 f.2 ++ block fields).
  unfold header_line. rewrite !length_app. cbn [length]. change (length CRLF) with 2%nat. lia.
Qed.

(** ** The body *)

Definition part_fields (ct : gostring) : list (gostring * gostring) :=
  [(str "Content-Transfer-Encoding", str "quoted-printable"); (str "Content-Type", ct)].

Definition part_text (ct text : gostring) : gostring := block (part_fields ct) ++ CRLF ++ quotedPrintable text.

(** The line of the boundary does not occur in the encoded parts. *)
Definition boundary_fresh (boundary : gostring) (e : Envelope) : Prop :=
  trim_space (e_HTML e) <> [] ->
  contains (part_text (str "text/plain; charset=utf-8") (text_of e)) (delimiter boundary) = false
  /\ contains (part_text (str "text/html; charset=utf-8") (e_HTML e)) (delimiter boundary) = false.

Lemma part_shape boundary lead ct text :
  part boundary lead ct (quotedPrintable text) = lead ++ str "--" ++ boundary ++ CRLF ++ part_text ct text.
Proof. unfold part, part_text, block, part_fields. cbn [fmap list_fmap concat fst snd]. by rewrite app_nil_r, <- !app_assoc. Qed.

Lemma multipart_shape boundary text html :
  CRLF ++ multipart_body boundary text html
  = [] ++ delimiter boundary ++ (CRLF ++ part_text (str "text/plain; charset=utf-8") text
      ++ delimiter boundary ++ (CRLF ++ part_text (str "text/html; charset=utf-8") html
      ++ delimiter boundary ++ (str "--" ++ CRLF))).
Proof. unfold multipart_body, delimiter. rewrite !part_shape. by rewrite <- !app_assoc. Qed.

Lemma delimiter_marked boundary : CR ∉ boundary -> CR ∉ LF :: str "--" ++ boundary.
Proof. intros Hb. rewrite elem_of_cons, elem_of_app. intros [?|[Hin|?]]; [done| |done]. revert Hin. literal_no_CR. Qed.

Lemma cut_delimiter boundary p rest :
  CR ∉ boundary -> contains p (delimiter boundary) = false ->
  cut (p ++ delimiter boundary ++ rest) (delimiter boundary) = Some (p, rest).
Proof. intros Hb. apply (cut_marked CR (LF :: str "--" ++ boundary)). by apply delimiter_marked. Qed.

Lemma read_leaf_part ct text :
  read_leaf (field_text <$> part_fields ct) (quotedPrintable text) = Some (ct, crlf_lines false text).
Proof.
  destruct (quoted_printable_correct text) as (_ & _ & _ & _ & Hr).
  unfold read_leaf, transfer_decode. change (quotedPrintable text) with (quoted_printable text). rewrite Hr.
  assert (field_value (str "Content-Transfer-Encoding") (field_text <$> part_fields ct) = Some (str "quoted-printable")) as -> by done.
  rewrite bool_decide_eq_true_2 by done. done.
Qed.

Lemma read_part fuel boundary ct text rest leaves :
  CR ∉ boundary -> CR ∉ ct -> contains (part_text ct text) (delimiter boundary) = false ->
  read_parts fuel boundary rest = Some leaves ->
  read_parts (S fuel) boundary (CRLF ++ part_text ct text ++ delimiter boundary ++ rest)
  = Some ((ct, crlf_lines false text) :: leaves).
Proof.
  intros Hb Hct Hfree Hrest. cbn [read_parts].
  assert (forall x, has_prefix (str "--") (CRLF ++ x) = false) as ->.
  { intros x. apply not_true_iff_false. intros [k E]%has_prefix_spec. discriminate E. }
  change (drop 2 (CRLF ++ ?x)) with x. rewrite (cut_delimiter _ _ _ Hb Hfree).
  assert (read_headers (length (part_text ct text)) (part_text ct text)
    = Some (field_text <$> part_fields ct, quotedPrintable text)) as ->.
  { apply read_headers_block; [repeat constructor; cbn [fst snd]; try literal_no_CR; done|].
    unfold part_text. apply block_fuel. }
  by rewrite read_leaf_part, Hrest.
Qed.

(** A receiver finds in a built message just the texts that were given, under
    their content types, with their line breaks as CRLF. *)
Definition parts_of (e : Envelope) : list (gostring * gostring) :=
  if bool_decide (trim_space (e_HTML e) = [])
  then [(str "text/plain; charset=utf-8", crlf_lines false (text_of e))]
  else [(str "text/plain; charset=utf-8", crlf_lines false (text_of e));
        (str "text/html; charset=utf-8", crlf_lines false (e_HTML e))].

(** C29: The content of a message survives its assembly: a receiver who reads the
    built message by its headers, its boundary lines and its transfer encoding
    finds exactly the text, and the HTML where there is one, under their content
    types, whatever bytes they contain, with line breaks of any kind as CRLF.  A
    receiver of encoded words (RFC 2047, in either case, Q or B) is shown the subject,
    in any script, whenever it needed encoding or does not contain the two characters
    that open an encoded word.  The condition on the boundary is that what was drawn
    does not occur as a line start in the encoded parts. *)
Theorem Build_content now boundary e raw :
  CR ∉ boundary -> boundary_fresh boundary e ->
  Build now boundary e = Ok raw ->
  read_message raw = Some (parts_of e)
  /\ (needsEncoding (e_Subject e) = true \/ contains (e_Subject e) wordMark = false ->
      read_subject raw = Some (e_Subject e)).
Proof.
  intros Hb Hf Hbuild. destruct (Build_holds _ _ _ _ Hb Hbuild) as (buf & [-> Hs] & -> & Hx).
  unfold read_message, read_subject. rewrite read_headers_block; [|done|apply block_fuel].
  split; [|intros Hsub; rewrite subject_field; cbn; by rewrite q_encode_shown].
  rewrite content_field by done. unfold body_of, parts_of.
  destruct (bool_decide (trim_space (e_HTML e) = [])) eqn:Hhtml.
  - unfold content_fields. rewrite Hhtml. unfold read_leaf, transfer_decode. rewrite !content_field by done.
    unfold content_fields. rewrite Hhtml.
    destruct (quoted_printable_correct (text_of e)) as (_ & _ & _ & _ & Hr).
    change (quotedPrintable (text_of e)) with (quoted_printable (text_of e)). rewrite Hr.
    rewrite (bool_decide_eq_true_2 (field_value (str "Content-Transfer-Encoding") _ = _)) by done. done.
  - apply bool_decide_eq_false_1 in Hhtml as Hne. destruct (Hf Hne) as [Hf1 Hf2].
    unfold content_fields. rewrite Hhtml.
    assert (field_value (str "Content-Type")
      (field_text <$> [(str "Content-Type", str "multipart/alternative; boundary=" ++ quoted_boundary boundary)])
      = Some (alternative_prefix ++ boundary ++ ["034"%char])) as -> by done.
    rewrite has_prefix_app, drop_app_length, length_app, length_app.
    replace (length alternative_prefix + (length boundary + length ["034"%char]) - length alternative_prefix - 1)%nat
      with (length boundary) by (cbn [length]; lia).
    rewrite take_app_length. rewrite multipart_shape.
    rewrite (cut_delimiter boundary [] _ Hb) by done.
    remember (length (block _ ++ _)) as fuel eqn:Hfuel.
    assert (exists n, fuel = S (S (S n))) as [n ->].
    { exists (fuel - 3)%nat. rewrite Hfuel, !length_app. change (length CRLF) with 2%nat. lia. }
    apply read_part; [done|literal_no_CR|done|]. apply read_part; [done|literal_no_CR|done|]. done.
Qed.

End Reader.

(** ** Examples *)

Definition khmer : gostring := byte_of <$> [225; 158; 159; 225; 158; 189].

Definition letter : Envelope :=
  {| e_MessageID := str "m1@x.io"; e_From := str "shop@x.io"; e_To := [str "ann@y.io"];
     e_Subject := khmer ++ str " = hi?"; e_HTML := str "<p>" ++ khmer ++ str "</p>"; e_Text := khmer ++ [LF] ++ str "bye ";
     e_ReplyTo := []; e_Extra := {[ str "X-Tag" := str "a" ]}; e_Date := None; e_UnsubscribeURL := [] |}.

Definition letter_raw : gostring :=
  match Build (H := ascii_tables) (H0 := plain_runtime) 0 (str "b0") letter with Ok raw => raw | Err _ => [] end.

Lemma Build_content_witness :
  read_message letter_raw
  = Some [(str "text/plain; charset=utf-8", khmer ++ CRLF ++ str "bye ");
          (str "text/html; charset=utf-8", str "<p>" ++ khmer ++ str "</p>")]
  /\ read_subject (H := ascii_tables) letter_raw = Some (khmer ++ str " = hi?").
Proof.
  destruct (Build_content (H := ascii_tables) (H0 := plain_runtime) 0 (str "b0") letter letter_raw) as [Hm Hs].
  - literal_no_CR.
  - intros _. split; vm_compute; reflexivity.
  - vm_compute. reflexivity.
  - split; [exact Hm|]. apply Hs. left. vm_compute. reflexivity.
Defined.

Definition letter_about (subject : gostring) : Envelope :=
  {| e_MessageID := str "m1@x.io"; e_From := str "shop@x.io"; e_To := [str "ann@y.io"]; e_Subject := subject;
     e_HTML := []; e_Text := str "x"; e_ReplyTo := []; e_Extra := ∅; e_Date := None; e_UnsubscribeURL := [] |}.

(** A plain subject that looks like an encoded word is not protected: it goes out as
    it is, and is shown as what it encodes. *)
Theorem subject_is_decoded :
  (match Build (H := ascii_tables) (H0 := plain_runtime) 0 (str "b0") (letter_about (str "=?utf-8?q?=41?=")) with
   | Ok raw => read_subject (H := ascii_tables) raw
   | Err _ => None
   end) = Some (str "A")
  /\ (match Build (H := ascii_tables) (H0 := plain_runtime) 0 (str "b0") (letter_about (str "=?UTF-8?B?QQ==?=")) with
      | Ok raw => read_subject (H := ascii_tables) raw
      | Err _ => None
      end) = Some (str "A").
Proof. by vm_compute. Qed.

(** A subject may have 998 characters, the length RFC 5322 gives a whole line, and
    headers are not folded: the line is longer. *)
Example subject_line_too_long :
  match Build (H := ascii_tables) (H0 := plain_runtime) 0 (str "b0") (letter_about (replicate MaxSubjectLength "a"%char)) with
  | Ok raw => match read_headers (length raw) raw with
              | Some (lines, _) => existsb (fun l => 998 <? len l) lines
              | None => false
              end
  | Err _ => false
  end = true.
Proof. vm_compute. reflexivity. Qed.
