(* ===== verification/GoFlag.v ===== *)
(** * The Go standard library: flag and the general form of strconv.ParseInt

    A [FlagSet] with [ContinueOnError]: the first argument that is not a flag
    ends the flags, a flag takes what follows its equals sign or the next
    argument, and the first problem ends the parse.  What is printed to standard
    error on the way is left out. *)

From S2P Require Import Prelude Utf8 GoStrings Quote Mail.
Local Open Scope Z_scope.
Local Open Scope go_scope.

(** ** strconv.ParseInt(s, 0, 64) *)

Definition lower_letter (c : ascii) : ascii :=
  if in_range 65 90 (byte_val c) then byte_of (byte_val c + 32) else c.

Definition digit_value (c : ascii) : option Z :=
  let v := byte_val (lower_letter c) in
  if in_range 48 57 v then Some (v - 48) else if in_range 97 122 v then Some (v - 87) else None.

Inductive num_error := ErrSyntax | ErrRange.

Definition max_uint64 : Z := 18446744073709551615.

(** [0b], [0o], [0x] or a leading zero choose the base. *)
Definition number_base (s : gostring) : Z * gostring :=
  match s with
  | "0"%char :: c :: _ :: _ =>
      if decide (lower_letter c = "b"%char) then (2, drop 2 s)
      else if decide (lower_letter c = "o"%char) then (8, drop 2 s)
      else if decide (lower_letter c = "x"%char) then (16, drop 2 s)
      else (8, drop 1 s)
  | "0"%char :: rest => (8, rest)
  | _ => (10, s)
  end.

Fixpoint digits_in (base n : Z) (s : gostring) : num_error + Z :=
  match s with
  | [] => inr n
  | "_"%char :: s' => digits_in base n s'
  | c :: s' =>
      match digit_value c with
      | None => inl ErrSyntax
      | Some d =>
          if base <=? d then inl ErrSyntax
          else if max_uint64 <? n * base + d then inl ErrRange
          else digits_in base (n * base + d) s'
      end
  end.

(** What [underscoreOK] saw last. *)
Inductive seen := saw_nothing | saw_digit | saw_underscore | saw_other.

Fixpoint underscores (hex : bool) (last : seen) (s : gostring) : bool :=
  match s with
  | [] => match last with saw_underscore => false | _ => true end
  | c :: s' =>
      if is_digit c || (hex && in_range 97 102 (byte_val (lower_letter c))) then underscores hex saw_digit s'
      else if decide (c = "_"%char) then
        match last with saw_digit => underscores hex saw_underscore s' | _ => false end
      else match last with saw_underscore => false | _ => underscores hex saw_other s' end
  end.

Definition underscoreOK (s : gostring) : bool :=
  match s with
  | "0"%char :: c :: rest =>
      let c := lower_letter c in
      if decide (c ∈ ["b"%char; "o"%char; "x"%char])
      then underscores (bool_decide (c = "x"%char)) saw_digit rest
      else underscores false saw_nothing s
  | _ => underscores false saw_nothing s
  end.

Definition ParseUint0 (s : gostring) : num_error + Z :=
  if decide (s = []) then inl ErrSyntax
  else
    let '(base, body) := number_base s in
    match digits_in base 0 body with
    | inl e => inl e
    | inr n => if existsb (fun c => bool_decide (c = "_"%char)) s && negb (underscoreOK s)
               then inl ErrSyntax else inr n
    end.

Definition ParseInt0 (s : gostring) : num_error + Z :=
  let '(neg, body) :=
    match s with
    | "-"%char :: s' => (true, s')
    | "+"%char :: s' => (false, s')
    | _ => (false, s)
    end in
  match ParseUint0 body with
  | inl e => inl e
  | inr n =>
      if neg then if - min_int64 <? n then inl ErrRange else inr (- n)
      else if max_int64 <? n then inl ErrRange else inr n
  end.

(** ** flag.FlagSet *)

Definition ErrHelp : error := errors_New (str "flag: help requested").

(** [Set] of a flag's value: what it stores, or what was wrong with it. *)
Definition set_string (value : gostring) : result gostring := Ok value.

Definition set_int (value : gostring) : result Z :=
  match ParseInt0 value with
  | inr n => Ok n
  | inl ErrSyntax => Err (errors_New (str "parse error"))
  | inl ErrRange => Err (errors_New (str "value out of range"))
  end.

(** One flag of a set that collects its values in an [A]. *)
Record flag A := Flag { fl_name : gostring; fl_set : gostring -> A -> result A }.
Arguments Flag {A} fl_name fl_set.
Arguments fl_name {A} f.
Arguments fl_set {A} f.

Section FlagSet.
Context `{UnicodeTables} {A : Type} (formal : list (flag A)).

Definition lookup_flag (name : gostring) : option (flag A) :=
  List.find (fun f => bool_decide (fl_name f = name)) formal.

(** The name and the value after an equals sign that is not its first byte. *)
Definition split_equals (name : gostring) : gostring * option gostring :=
  match name with
  | [] => ([], None)
  | c :: rest =>
      match cut rest [ "="%char ] with
      | Some (before, value) => (c :: before, Some value)
      | None => (name, None)
      end
  end.

(** Whether the argument is a flag: its name and inline value, the end of the
    flags, or bad syntax. *)
Inductive argument := NoFlag | Terminator | BadSyntax | Named (name : gostring) (value : option gostring).

Definition classify (s : gostring) : argument :=
  match s with
  | "-"%char :: rest =>
      if decide (rest = []) then NoFlag
      else if decide (rest = ["-"%char]) then Terminator
      else
        let name := trim_prefix ["-"%char] rest in
        match name with
        | [] => BadSyntax
        | c :: _ => if decide (c = "-"%char \/ c = "="%char) then BadSyntax
                    else let '(n, v) := split_equals name in Named n v
        end
  | _ => NoFlag
  end.

Definition store_value (f : flag A) (name value : gostring) (a : A) : result A :=
  match fl_set f value a with
  | Ok a => Ok a
  | Err e => Err (errors_New (str "invalid value " ++ quote value ++ str " for flag -" ++ name ++ str ": " ++ err_text e))
  end.

Fixpoint Parse (args : list gostring) (a : A) : result A :=
  match args with
  | [] => Ok a
  | s :: rest =>
      match classify s with
      | NoFlag | Terminator => Ok a
      | BadSyntax => Err (errors_New (str "bad flag syntax: " ++ s))
      | Named name inline =>
          match lookup_flag name with
          | None =>
              if decide (name = str "help" \/ name = str "h") then Err ErrHelp
              else Err (errors_New (str "flag provided but not defined: -" ++ name))
          | Some f =>
              match inline, rest with
              | Some value, _ =>
                  match store_value f name value a with Ok a => Parse rest a | Err e => Err e end
              | None, value :: rest =>
                  match store_value f name value a with Ok a => Parse rest a | Err e => Err e end
              | None, [] => Err (errors_New (str "flag needs an argument: -" ++ name))
              end
          end
      end
  end.

(** Defaults stay when there are no flags. *)
Lemma Parse_nil a : Parse [] a = Ok a.
Proof. done. Qed.

End FlagSet.

Example base_prefixes :
  ParseInt0 <$> (str <$> ["90"; "0x1F"; "-0b101"; "017"; "1_000"; "0"]%string)
  = [inr 90; inr 31; inr (-5); inr 15; inr 1000; inr 0].
Proof. vm_compute. reflexivity. Qed.

Example bad_numbers :
  ParseInt0 <$> (str <$> [""; "9x"; "08"; "1__0"; "9223372036854775808"; "_1"]%string)
  = [inl ErrSyntax; inl ErrSyntax; inl ErrSyntax; inl ErrSyntax; inl ErrRange; inl ErrSyntax].
Proof. vm_compute. reflexivity. Qed.
