(* ===== verification/Dkim.v ===== *)
(** * internal/dkim: custody.go (key pairs, unwrapping), sign.go

    Key generation, PKCS#8 and the signature algorithm itself
    (github.com/emersion/go-msgauth) are the class [DkimLib]; custody (what is
    wrapped, what is unwrapped, what is refused) and the guard on the emitted
    signature are translated. *)

From S2P Require Import Prelude Utf8 GoStrings Quote Crypto Encoding Schema Program Mime Mail.
Local Open Scope Z_scope.

(** A [crypto.Signer] *)
Inductive crypto_signer := Ed25519Key (material : gostring) | PKCS8Key (material : gostring).

Inductive canonicalization := Simple | Relaxed.

Record SignOptions := {
  so_Domain : gostring;
  so_Selector : gostring;
  so_Signer : crypto_signer;
  so_HeaderKeys : list gostring;
  so_Expiration : Z;
  so_HeaderCanonicalization : canonicalization;
  so_BodyCanonicalization : canonicalization;
}.

Class DkimLib := {
  (** [ed25519.GenerateKey]: public and private key *)
  ed25519_generate : entropy -> result (gostring * gostring);
  (** [rsa.GenerateKey] with the PKCS#8 and PKIX encodings of the pair *)
  rsa_generate : entropy -> result (gostring * gostring);
  (** whether [x509.ParsePKCS8PrivateKey] yields a [crypto.Signer] *)
  pkcs8_signer : gostring -> bool;
  (** [dkim.Sign] *)
  msgauth_sign : SignOptions -> gostring -> result gostring;
  (** a generated Ed25519 private key has [PrivateKeySize] bytes, and a
      generated RSA key parses *)
  ed25519_size : forall e pub priv, ed25519_generate e = Ok (pub, priv) -> length priv = 64%nat;
  rsa_parses : forall e der pub, rsa_generate e = Ok (der, pub) -> pkcs8_signer der = true;
}.

(** [dkim.Verification] and [dkim.VerifyWithOptions]; without a resolver the
    system's is asked. *)
Class DkimVerifier := {
  Verification : Type;
  msgauth_verify : option (gostring -> result (list gostring)) -> gostring -> result (list Verification);
}.

Definition SignatureLifetime : Z := 30 * Minute.

Definition OversignedHeaders : list gostring := str <$>
  ["From"; "To"; "Cc"; "Bcc"; "Subject"; "Date"; "Message-ID";
   "Reply-To"; "Content-Type"; "Content-Transfer-Encoding";
   "MIME-Version"; "Sender"; "List-Unsubscribe"; "List-Unsubscribe-Post"]%string.

Record KeyPair := {
  kp_Selector : gostring;
  kp_Algorithm : gostring;
  kp_WrappedSecret : gostring;
  kp_PublicRecord : gostring;
}.

(** [dkim.Key] *)
Record Key := {
  key_Domain : gostring;
  key_Selector : gostring;
  key_Algorithm : gostring;
  key_Wrapped : gostring;
}.

Definition DNSRecordName (selector domain : gostring) : gostring :=
  selector ++ str "._domainkey." ++ domain.

Section Dkim.
Context `{UnicodeTables} `{GoRuntime} `{DkimLib}.

(** [gen] is what key generation draws, [nonce] what wrapping draws. *)
Definition Generate (k : Keeper) (selector : gostring) (gen nonce : entropy) : result KeyPair :=
  match ed25519_generate gen with
  | Err e => Err (wrap_w (str "generating key") e)
  | Ok (pub, priv) =>
      match Wrap k nonce priv with
      | Err e => Err e
      | Ok wrapped =>
          Ok {| kp_Selector := selector; kp_Algorithm := str "ed25519"; kp_WrappedSecret := wrapped;
                kp_PublicRecord := str "v=DKIM1; k=ed25519; p=" ++ base64_std_encode pub |}
      end
  end.

Definition GenerateRSA (k : Keeper) (selector : gostring) (gen nonce : entropy) : result KeyPair :=
  match rsa_generate gen with
  | Err e => Err (wrap_w (str "generating rsa key") e)
  | Ok (der, pubDER) =>
      match Wrap k nonce der with
      | Err e => Err e
      | Ok wrapped =>
          Ok {| kp_Selector := selector; kp_Algorithm := str "rsa"; kp_WrappedSecret := wrapped;
                kp_PublicRecord := str "v=DKIM1; k=rsa; p=" ++ base64_std_encode pubDER |}
      end
  end.

Definition unwrapSigner (k : Keeper) (algorithm wrapped : gostring) : result crypto_signer :=
  match Unwrap k wrapped with
  | Err e => Err e
  | Ok material =>
      if bool_decide (algorithm = str "ed25519") then
        if negb (length material =? 64)%nat then Err dkim_ErrBadCiphertext else Ok (Ed25519Key material)
      else if bool_decide (algorithm = str "rsa") then
        if pkcs8_signer material then Ok (PKCS8Key material) else Err dkim_ErrBadCiphertext
      else Err (errors_New (str "unknown signing algorithm " ++ quote algorithm))
  end.

(** One physical line of the header, as the guard reads it. *)
Definition line_has_length_tag (field : gostring) : bool :=
  has_prefix (str "dkim-signature:") (to_lower field)
  && existsb (fun tag => has_prefix (str "l=") (trim_space tag)) (split field (str ";")).

Definition assertNoBodyLengthTag (signed : gostring) : result () :=
  let header := match cut signed (CRLF ++ CRLF) with Some (h, _) => h | None => signed end in
  if existsb line_has_length_tag (split header CRLF)
  then Err (errors_New (str "refusing to emit a DKIM signature with a body-length tag"))
  else Ok tt.

(** Both algorithms choose relaxed canonicalisation; any other keeps the
    library's zero value. *)
Definition canonicalization_for (algorithm : gostring) : canonicalization :=
  if bool_decide (algorithm = str "ed25519" \/ algorithm = str "rsa") then Relaxed else Simple.

Definition sign_options (key : Key) (signer : crypto_signer) (now : Z) : SignOptions :=
  {| so_Domain := key_Domain key; so_Selector := key_Selector key; so_Signer := signer;
     so_HeaderKeys := OversignedHeaders; so_Expiration := now + SignatureLifetime;
     so_HeaderCanonicalization := canonicalization_for (key_Algorithm key);
     so_BodyCanonicalization := canonicalization_for (key_Algorithm key) |}.

Definition Signer_Sign (k : Keeper) (key : Key) (message : gostring) : prog (result gostring) :=
  if bool_decide (message = []) then Ret (Err (errors_New (str "nothing to sign")))
  else match unwrapSigner k (key_Algorithm key) (key_Wrapped key) with
       | Err e => Ret (Err e)
       | Ok signer =>
           Do Now (fun now => Ret
             match msgauth_sign (sign_options key signer now) message with
             | Err e => Err (wrap_w (str "signing message") e)
             | Ok signed =>
                 match assertNoBodyLengthTag signed with
                 | Err e => Err e
                 | Ok _ => Ok signed
                 end
             end)
       end.

Definition NewSigner (k : Keeper) : Key -> gostring -> prog (result gostring) := Signer_Sign k.

Definition Verify `{DkimVerifier} (message : gostring) : result (list Verification) := msgauth_verify None message.

Definition VerifyWith `{DkimVerifier} (message : gostring) (lookup : gostring -> result (list gostring))
    : result (list Verification) := msgauth_verify (Some lookup) message.

(** ** Lemmas *)

Lemma Generate_unwraps k `{!KeeperLaw k} selector gen nonce pair :
  Generate k selector gen nonce = Ok pair ->
  exists pub priv, ed25519_generate gen = Ok (pub, priv)
    /\ unwrapSigner k (kp_Algorithm pair) (kp_WrappedSecret pair) = Ok (Ed25519Key priv)
    /\ kp_Selector pair = selector /\ kp_Algorithm pair = str "ed25519".
Proof.
  unfold Generate, unwrapSigner. intros Hg.
  destruct (ed25519_generate gen) as [[pub priv]|] eqn:Eg; [|done].
  destruct (Wrap k nonce priv) as [wrapped|] eqn:Ew; [|done]. injection Hg as <-. cbn.
  rewrite (unwrap_wrap _ _ _ Ew), (ed25519_size _ _ _ Eg). eauto 10.
Qed.

(** ** Properties *)

(** A generated key pair can be used: the wrapped secret of either
    algorithm unwraps, under the keeper that wrapped it, to the very key that was
    generated. *)
Theorem generated_key_unwraps k `{!KeeperLaw k} selector gen nonce pair :
  Generate k selector gen nonce = Ok pair \/ GenerateRSA k selector gen nonce = Ok pair ->
  exists secret, unwrapSigner k (kp_Algorithm pair) (kp_WrappedSecret pair) = Ok secret
    /\ ((exists pub priv, ed25519_generate gen = Ok (pub, priv) /\ secret = Ed25519Key priv)
        \/ (exists der pub, rsa_generate gen = Ok (der, pub) /\ secret = PKCS8Key der)).
Proof.
  intros [Hg|Hg].
  - destruct (Generate_unwraps k _ _ _ _ Hg) as (pub & priv & ? & ? & _). eauto 10.
  - revert Hg. unfold GenerateRSA, unwrapSigner. intros Hg. destruct (rsa_generate gen) as [[der pub]|] eqn:Eg; [|done].
    destruct (Wrap k nonce der) as [wrapped|] eqn:Ew; [|done]. injection Hg as <-. cbn.
    rewrite (unwrap_wrap _ _ _ Ew), (rsa_parses _ _ _ Eg). eauto 10.
Qed.

(** RFC 6376 as a verifier reads it: continuation lines belong to the field,
    tags are separated by semicolons, and white space around a tag's name does not
    count. *)
Fixpoint unfold_lines (lines : list gostring) : list gostring :=
  match lines with
  | [] => []
  | l :: rest =>
      match unfold_lines rest with
      | (c :: cont) :: more =>
          if is_space (byte_val c) then (l ++ c :: cont) :: more else l :: (c :: cont) :: more
      | more => l :: more
      end
  end.

Definition tag_name (tag : gostring) : gostring :=
  match cut tag (str "=") with Some (name, _) => trim_space name | None => trim_space tag end.

Definition has_length_tag (signed : gostring) : bool :=
  let header := match cut signed (CRLF ++ CRLF) with Some (h, _) => h | None => signed end in
  existsb (fun field =>
      match cut field (str ":") with
      | Some (name, value) =>
          equal_fold name (str "dkim-signature")
          && existsb (fun tag => bool_decide (tag_name tag = str "l")) (split value (str ";"))
      | None => false
      end) (unfold_lines (split header CRLF)).

(** Three signatures with a body-length tag: on a folded line, as the first tag,
    and with a space before the equals sign. *)
Definition length_tagged : list gostring :=
  [ str "DKIM-Signature: v=1; a=rsa-sha256;" ++ CRLF ++ str " l=10; d=x.io" ++ CRLF ++ CRLF ++ str "hi";
    str "DKIM-Signature: l=10; v=1; d=x.io" ++ CRLF ++ CRLF ++ str "hi";
    str "DKIM-Signature: v=1; l =10; d=x.io" ++ CRLF ++ CRLF ++ str "hi" ].

(** The body-length guard inspects physical lines only: each of the three
    signatures carries the tag for a verifier, and each passes the guard. *)
Theorem length_tag_guard_incomplete :
  Forall (fun signed => has_length_tag signed = true /\ assertNoBodyLengthTag signed = Ok tt) length_tagged.
Proof. repeat constructor; vm_compute; reflexivity. Qed.

(** ** What the comment on [OversignedHeaders] asks for *)

(** No name is signed one more time than it appears: every header the signer asks for
    is listed once, so (RFC 6376, 5.4.2) one instance of it is covered, and for a
    header the message has, such as From, nothing stands for the further instance
    that an attacker adds. *)
Theorem headers_listed_once key signer now :
  NoDup (to_lower <$> so_HeaderKeys (sign_options key signer now)).
Proof. apply (bool_decide_eq_true_1 _). vm_compute. reflexivity. Qed.

End Dkim.

Definition plain_dkim_lib : DkimLib.
Proof.
  refine {| ed25519_generate e := match e with Ok b => Ok (b, replicate 64 "s"%char) | Err x => Err x end;
            rsa_generate e := match e with Ok b => Ok (str "der", b) | Err x => Err x end;
            pkcs8_signer _ := true;
            msgauth_sign o m := Ok (str "DKIM-Signature: v=1; d=" ++ so_Domain o ++ CRLF ++ m) |}.
  - intros [b|] pub priv; [|done]. intros [= <- <-]. done.
  - done.
Defined.

Lemma generated_key_unwraps_witness :
  exists secret, unwrapSigner (H := ascii_tables) (H1 := plain_dkim_lib)
    {| Wrap := EnvelopeKeeper_Wrap (H := clear_aead) []; Unwrap := EnvelopeKeeper_Unwrap (H := clear_aead) [] |}
    (str "ed25519") (replicate 12 "000"%char ++ replicate 64 "s"%char) = Ok secret.
Proof.
  destruct (generated_key_unwraps (H := ascii_tables) (H1 := plain_dkim_lib)
    {| Wrap := EnvelopeKeeper_Wrap (H := clear_aead) []; Unwrap := EnvelopeKeeper_Unwrap (H := clear_aead) [] |}
    (str "s1") (Ok []) (Ok [])
    {| kp_Selector := str "s1"; kp_Algorithm := str "ed25519";
       kp_WrappedSecret := replicate 12 "000"%char ++ replicate 64 "s"%char;
       kp_PublicRecord := str "v=DKIM1; k=ed25519; p=" |}) as (secret & Hs & _).
  - left. vm_compute. reflexivity.
  - exists secret. exact Hs.
Defined.
