(* ===== verification/Netguard.v ===== *)
(** * internal/netguard: which destinations may be dialled

    Addresses are the [netip.Addr] values of Netip.v and its predicates are written
    out.  The URL parser is the class [UrlLib]. *)

From S2P Require Import Prelude Utf8 GoStrings Netip.
Local Open Scope Z_scope.

Definition Unmap (a : Addr) : Addr :=
  match a with
  | Addr6 b _ =>
      if bool_decide (take 12 b = zeros 10 ++ [255; 255])
      then Addr4 (byte_at b 12) (byte_at b 13) (byte_at b 14) (byte_at b 15)
      else a
  | _ => a
  end.

Definition IsLoopback (a : Addr) : bool :=
  match a with
  | Addr4 b0 _ _ _ => b0 =? 127
  | Addr6 b _ => bool_decide (b = zeros 15 ++ [1])
  | AddrInvalid => false
  end.

Definition IsPrivate (a : Addr) : bool :=
  match a with
  | Addr4 b0 b1 _ _ =>
      (b0 =? 10) || ((b0 =? 172) && (Z.land b1 240 =? 16)) || ((b0 =? 192) && (b1 =? 168))
  | Addr6 b _ => Z.land (byte_at b 0) 254 =? 252
  | AddrInvalid => false
  end.

Definition IsLinkLocalUnicast (a : Addr) : bool :=
  match a with
  | Addr4 b0 b1 _ _ => (b0 =? 169) && (b1 =? 254)
  | Addr6 b _ => (byte_at b 0 =? 254) && (Z.land (byte_at b 1) 192 =? 128)
  | AddrInvalid => false
  end.

Definition IsLinkLocalMulticast (a : Addr) : bool :=
  match a with
  | Addr4 b0 b1 b2 _ => (b0 =? 224) && (b1 =? 0) && (b2 =? 0)
  | Addr6 b _ => (byte_at b 0 =? 255) && (Z.land (byte_at b 1) 15 =? 2)
  | AddrInvalid => false
  end.

Definition IsInterfaceLocalMulticast (a : Addr) : bool :=
  match a with
  | Addr6 b _ => (byte_at b 0 =? 255) && (Z.land (byte_at b 1) 15 =? 1)
  | _ => false
  end.

Definition IsMulticast (a : Addr) : bool :=
  match a with
  | Addr4 b0 _ _ _ => Z.land b0 240 =? 224
  | Addr6 b _ => byte_at b 0 =? 255
  | AddrInvalid => false
  end.

Definition IsUnspecified (a : Addr) : bool :=
  match a with
  | Addr4 b0 b1 b2 b3 => (b0 =? 0) && (b1 =? 0) && (b2 =? 0) && (b3 =? 0)
  | Addr6 b zone => bool_decide (b = zeros 16) && bool_decide (zone = [])
  | AddrInvalid => false
  end.

Definition IsBlocked (addr : Addr) : bool :=
  match addr with
  | AddrInvalid => true
  | _ =>
      let addr := Unmap addr in
      if IsLoopback addr || IsPrivate addr || IsLinkLocalUnicast addr || IsLinkLocalMulticast addr
         || IsInterfaceLocalMulticast addr || IsMulticast addr || IsUnspecified addr
      then true
      else match addr with
           | Addr4 b0 b1 b2 _ =>
               if (b0 =? 127) || (b0 =? 0) || (b0 =? 10) then true
               else if (b0 =? 169) && (b1 =? 254) then true
               else if (b0 =? 172) && (16 <=? b1) && (b1 <=? 31) then true
               else if (b0 =? 192) && (b1 =? 168) then true
               else if (b0 =? 100) && (64 <=? b1) && (b1 <=? 127) then true
               else if (b0 =? 192) && (b1 =? 0) && (b2 =? 0) then true
               else if 240 <=? b0 then true
               else false
           | Addr6 b zone =>
               if (byte_at b 0 =? 252) || (byte_at b 0 =? 253) then true
               else if (byte_at b 0 =? 254) && (Z.land (byte_at b 1) 192 =? 128) then true
               else bool_decide (b = zeros 15 ++ [1] /\ zone = [])
           | AddrInvalid => false
           end
  end.

Definition ErrBlockedAddress : error :=
  Error (Some netguard_ErrBlockedAddress) (str "destination address is not permitted").
Definition ErrBlockedScheme : error :=
  Error (Some netguard_ErrBlockedScheme) (str "only http and https destinations are permitted").
Definition ErrBlockedPort : error :=
  Error (Some netguard_ErrBlockedPort) (str "only ports 80 and 443 are permitted").
Definition ErrTooManyHops : error :=
  Error (Some netguard_ErrTooManyHops) (str "too many redirects").

(** The parts of a parsed URL the code looks at. *)
Record URL := {
  u_Scheme : gostring;
  u_Host : gostring;
  u_Hostname : gostring;
  u_Port : gostring;
  u_Path : gostring;
  u_RawQuery : gostring;
}.

Class UrlLib := {
  url_parse : gostring -> result URL;
  (** [u.String()] with the path replaced *)
  url_with_path : gostring -> gostring -> gostring;
  (** [u.Parse(ref)] for the URL [u] and a reference relative to it, as text *)
  url_resolve : gostring -> gostring -> result gostring;
  (** [u.String()] without the user information, and with its password masked *)
  url_public : gostring -> gostring;
  url_masked : gostring -> gostring;
}.

Section Netguard.
Context `{UnicodeTables} `{UrlLib}.

Definition ValidateURL (raw : gostring) : result URL :=
  match url_parse raw with
  | Err e => Err (wrap_w (str "destination is not a valid url") e)
  | Ok u =>
      if negb (bool_decide (u_Scheme u = str "http")) && negb (bool_decide (u_Scheme u = str "https"))
      then Err ErrBlockedScheme
      else if bool_decide (u_Host u = []) then Err (errors_New (str "destination is missing a host"))
      else if negb (bool_decide (u_Port u ∈ [[]; str "80"; str "443"])) then Err ErrBlockedPort
      else
        let host := u_Hostname u in
        if match ParseAddr host with Some addr => IsBlocked addr | None => false end
        then Err ErrBlockedAddress
        else if equal_fold host (str "localhost") then Err ErrBlockedAddress
        else Ok u
  end.

(** The [DialContext] closure after [SplitHostPort] and the lookup: the address
    it dials. [None] is the panic on an empty answer. *)
Definition dial_address (host : gostring) (ips : result (list Addr)) : option (result Addr) :=
  match ips with
  | Err e => Some (Err (wrap_w (str "resolving " ++ host) e))
  | Ok ips =>
      match List.find IsBlocked ips with
      | Some ip =>
          Some (Err (Error (Some netguard_ErrBlockedAddress)
            (err_text ErrBlockedAddress ++ str ": " ++ host ++ str " resolves to " ++ addr_string ip)))
      | None => match ips with [] => None | ip :: _ => Some (Ok ip) end
      end
  end.

(** The [CheckRedirect] closure; [via] counts the requests made so far. *)
Definition check_redirect (maxRedirects via : nat) (target : gostring) : result () :=
  if (maxRedirects <=? via)%nat then Err ErrTooManyHops
  else match ValidateURL target with Err e => Err e | Ok _ => Ok tt end.

End Netguard.

(** ** Properties *)

(** The numeric value of an IPv4 address. *)
Definition ipv4 (b0 b1 b2 b3 : Z) : Z := ((b0 * 256 + b1) * 256 + b2) * 256 + b3.

(** [addr/len], as the range of addresses it stands for. *)
Definition in_block (x : Z) (base : Z) (len : Z) : Prop := base <= x < base + 2 ^ (32 - len).

(** The IPv4 blocks that are never dialled. *)
Definition blocked_v4 (x : Z) : Prop :=
  in_block x (ipv4 0 0 0 0) 8 \/ in_block x (ipv4 10 0 0 0) 8 \/ in_block x (ipv4 100 64 0 0) 10
  \/ in_block x (ipv4 127 0 0 0) 8 \/ in_block x (ipv4 169 254 0 0) 16 \/ in_block x (ipv4 172 16 0 0) 12
  \/ in_block x (ipv4 192 0 0 0) 24 \/ in_block x (ipv4 192 168 0 0) 16
  \/ in_block x (ipv4 224 0 0 0) 4 \/ in_block x (ipv4 240 0 0 0) 4.

Lemma octet_masks b :
  octet b ->
  (Z.land b 240 =? 224) = ((224 <=? b) && (b <=? 239)) /\ (Z.land b 240 =? 16) = ((16 <=? b) && (b <=? 31)).
Proof.
  intros Hb. assert (Hall : forallb (fun n => let b := Z.of_nat n in
    Bool.eqb (Z.land b 240 =? 224) ((224 <=? b) && (b <=? 239))
    && Bool.eqb (Z.land b 240 =? 16) ((16 <=? b) && (b <=? 31))) (seq 0 256) = true)
    by (vm_compute; reflexivity).
  rewrite List.forallb_forall in Hall. specialize (Hall (Z.to_nat b)).
  rewrite List.in_seq in Hall. unfold octet in Hb. specialize (Hall ltac:(lia)). cbn zeta in Hall.
  rewrite Z2Nat.id in Hall by lia. apply andb_true_iff in Hall as [H1%eqb_prop H2%eqb_prop]. done.
Qed.

(** The octets that decide. *)
Definition blocked_octets (b0 b1 b2 : Z) : Prop :=
  b0 = 0 \/ b0 = 10 \/ (b0 = 100 /\ 64 <= b1 <= 127) \/ b0 = 127 \/ (b0 = 169 /\ b1 = 254)
  \/ (b0 = 172 /\ 16 <= b1 <= 31) \/ (b0 = 192 /\ b1 = 0 /\ b2 = 0) \/ (b0 = 192 /\ b1 = 168)
  \/ 224 <= b0 <= 239 \/ 240 <= b0.

Lemma if_orb (c x : bool) : (if c then true else x) = c || x.
Proof. by destruct c. Qed.

Lemma IsBlocked_octets b0 b1 b2 b3 :
  octet b0 -> octet b1 -> IsBlocked (Addr4 b0 b1 b2 b3) = true <-> blocked_octets b0 b1 b2.
Proof.
  intros H0 H1. unfold IsBlocked, Unmap, IsLoopback, IsPrivate, IsLinkLocalUnicast,
    IsLinkLocalMulticast, IsInterfaceLocalMulticast, IsMulticast, IsUnspecified, blocked_octets.
  destruct (octet_masks b0 H0) as [-> _]. destruct (octet_masks b1 H1) as [_ ->].
  rewrite !if_orb, !orb_true_iff, !andb_true_iff, !Z.eqb_eq, !Z.leb_le. intuition lia.
Qed.

Lemma blocked_octets_v4 b0 b1 b2 b3 :
  octet b0 -> octet b1 -> octet b2 -> octet b3 ->
  blocked_octets b0 b1 b2 <-> blocked_v4 (ipv4 b0 b1 b2 b3).
Proof.
  unfold octet, blocked_octets, blocked_v4, in_block, ipv4. intros.
  change (2 ^ (32 - 8)) with 16777216. change (2 ^ (32 - 10)) with 4194304.
  change (2 ^ (32 - 16)) with 65536. change (2 ^ (32 - 12)) with 1048576.
  change (2 ^ (32 - 24)) with 256. change (2 ^ (32 - 4)) with 268435456.
  split.
  - intros Hb. repeat destruct Hb as [Hb|Hb]; lia.
  - intros Hb. destruct Hb as [Hb|[Hb|[Hb|[Hb|[Hb|[Hb|[Hb|[Hb|[Hb|Hb]]]]]]]]]; lia.
Qed.

(** An IPv4 destination is refused exactly when it lies in one of the ten
    special-purpose blocks, and a v4-mapped IPv6 address exactly when the address
    inside it is. *)
Theorem IsBlocked_v4 b0 b1 b2 b3 zone :
  octet b0 -> octet b1 -> octet b2 -> octet b3 ->
  (IsBlocked (Addr4 b0 b1 b2 b3) = true <-> blocked_v4 (ipv4 b0 b1 b2 b3))
  /\ IsBlocked (Addr6 (zeros 10 ++ [255; 255; b0; b1; b2; b3]) zone) = IsBlocked (Addr4 b0 b1 b2 b3).
Proof.
  intros H0 H1 H2 H3. split; [|done]. rewrite IsBlocked_octets by done. by apply blocked_octets_v4.
Qed.

Lemma IsBlocked_v4_witness :
  IsBlocked (Addr4 169 254 169 254) = true /\ IsBlocked (Addr4 8 8 8 8) = false.
Proof.
  split; [apply (IsBlocked_v4 169 254 169 254 []); unfold octet; try lia; unfold blocked_v4, in_block, ipv4; lia|].
  vm_compute. reflexivity.
Defined.

Section Dialling.
Context `{UnicodeTables} `{UrlLib}.

(** C37: The address a webhook connection is made to is always one that was
    checked: whatever the resolver answers, no blocked address is dialled, one
    blocked address among several refuses them all, and a redirect is followed only
    below the limit and to a destination that passes [ValidateURL] again. *)
Theorem dialled_address_checked host ips ip maxRedirects via target :
  dial_address host ips = Some (Ok ip) ->
  check_redirect maxRedirects via target = Ok tt ->
  IsBlocked ip = false
  /\ (exists rest, ips = Ok (ip :: rest) /\ Forall (fun a => IsBlocked a = false) rest)
  /\ (via < maxRedirects)%nat
  /\ exists u, ValidateURL target = Ok u /\ (u_Scheme u = str "http" \/ u_Scheme u = str "https")
     /\ u_Port u ∈ [[]; str "80"; str "443"]
     /\ (forall a, ParseAddr (u_Hostname u) = Some a -> IsBlocked a = false).
Proof.
  unfold dial_address, check_redirect. intros Hd Hr. destruct ips as [ips|]; [|done].
  destruct (List.find IsBlocked ips) eqn:Hf; [done|]. destruct ips as [|ip' rest]; [done|].
  injection Hd as ->. pose proof (List.find_none _ _ Hf) as Hall.
  destruct (Nat.leb_spec maxRedirects via); [done|].
  destruct (ValidateURL target) as [u|] eqn:Hu; [|done]. split_and!; [| |done|].
  - apply Hall. by left.
  - exists rest. split; [done|]. apply list.Forall_forall. intros a Ha. apply Hall. right.
    by apply list_elem_of_In.
  - exists u. split; [done|]. unfold ValidateURL in Hu. destruct (url_parse target) as [u'|]; [|done].
    revert Hu. destruct (negb (bool_decide (u_Scheme u' = str "http")) && _) eqn:Hs; [done|].
    destruct (bool_decide (u_Host u' = [])); [done|].
    destruct (negb (bool_decide (u_Port u' ∈ _))) eqn:Hp; [done|].
    destruct (ParseAddr (u_Hostname u')) as [a|] eqn:Ha.
    + destruct (IsBlocked a) eqn:Hb; [done|]. case_match; [done|]. intros [= <-].
      boolify. split_and!; [tauto|done|]. intros a' [= <-]%(eq_trans (eq_sym Ha)). done.
    + case_match; [done|]. intros [= <-]. boolify. split_and!; [tauto|done|].
      intros a'. by rewrite Ha.
Qed.

(** The text of an address is not the name of the loopback. *)
Lemma literal_not_localhost c s :
  48 <= byte_val c <= 58 -> equal_fold (c :: s) (str "localhost") = false.
Proof.
  intros Hc. unfold equal_fold. rewrite runes_cons_ascii by lia.
  change (runes (str "localhost")) with (108 :: runes (str "ocalhost")). cbn [equal_fold_runes].
  assert (lower_rune (byte_val c) = byte_val c) as E.
  { unfold lower_rune, in_range. by rewrite (proj2 (Z.leb_le (byte_val c) 127)), (proj2 (Z.leb_gt 65 _)) by lia. }
  unfold fold_eq_rune. rewrite (proj2 (Z.leb_le (byte_val c) 127)), E by lia. cbn [andb].
  change (lower_rune 108) with 108. change (108 <=? 127) with true. cbn iota.
  by rewrite (proj2 (Z.eqb_neq (byte_val c) 108)) by lia.
Qed.

Definition mapped_addr (b0 b1 b2 b3 : Z) (zone : gostring) : Addr := Addr6 (zeros 10 ++ [255; 255; b0; b1; b2; b3]) zone.

Lemma literal_head b0 b1 b2 b3 zone a :
  octet b0 -> a = Addr4 b0 b1 b2 b3 \/ a = mapped_addr b0 b1 b2 b3 zone ->
  exists c s, addr_string a = c :: s /\ 48 <= byte_val c <= 58.
Proof.
  intros Hb0 [-> | ->]; [|by eexists _, _]. cbn [addr_string]. unfold string4.
  destruct (octet_text b0 Hb0) as [Hd _]. pose proof (octet_nonempty b0 Hb0) as Hne.
  destruct (format_int b0) as [|c s]; [done|]. cbn [forallb] in Hd. apply andb_true_iff in Hd as [Hc _].
  eexists c, _. split; [done|]. unfold is_digit, in_range in Hc. boolify. lia.
Qed.

(** C38: A destination that is a literal IPv4 address, written as such or mapped into
    IPv6 with or without a zone, is refused at once exactly when the address lies in
    one of the ten special-purpose blocks, and permitted otherwise. *)
Theorem literal_host_checked raw u b0 b1 b2 b3 zone a :
  octet b0 -> octet b1 -> octet b2 -> octet b3 ->
  a = Addr4 b0 b1 b2 b3 \/ a = mapped_addr b0 b1 b2 b3 zone ->
  url_parse raw = Ok u -> u_Hostname u = addr_string a ->
  u_Scheme u ∈ [str "http"; str "https"] -> u_Host u <> [] -> u_Port u ∈ [[]; str "80"; str "443"] ->
  (ValidateURL raw = Err ErrBlockedAddress <-> blocked_v4 (ipv4 b0 b1 b2 b3))
  /\ (ValidateURL raw = Ok u <-> ~ blocked_v4 (ipv4 b0 b1 b2 b3)).
Proof.
  intros Hb0 Hb1 Hb2 Hb3 Ha Hu Hh Hs Hho Hp. unfold ValidateURL. rewrite Hu.
  assert (negb (bool_decide (u_Scheme u = str "http")) && negb (bool_decide (u_Scheme u = str "https")) = false) as ->.
  { rewrite !elem_of_cons, elem_of_nil in Hs. destruct Hs as [->|[->|[]]]; reflexivity. }
  rewrite bool_decide_eq_false_2, bool_decide_eq_true_2 by done. cbn [negb]. rewrite Hh.
  destruct (literal_head _ _ _ _ _ _ Hb0 Ha) as (c & s & Ec & Hc).
  assert (addr_ok a) as Hok.
  { destruct Ha as [-> | ->]; [done|]. split; [done|].
    apply list.Forall_app. split; [by apply Forall_replicate|]. repeat (apply list.Forall_cons; split; [done || (unfold octet; lia)|]). constructor. }
  rewrite ParseAddr_string, Ec, literal_not_localhost by done.
  destruct (IsBlocked_v4 b0 b1 b2 b3 zone Hb0 Hb1 Hb2 Hb3) as [Hb Hm]. rewrite <- Hb.
  assert (IsBlocked a = IsBlocked (Addr4 b0 b1 b2 b3)) as -> by (by destruct Ha as [-> | ->]).
  destruct (IsBlocked (Addr4 b0 b1 b2 b3)); split; split; done.
Qed.

End Dialling.

Definition plain_url_lib : UrlLib :=
  {| url_parse s := Ok {| u_Scheme := str "https"; u_Host := s; u_Hostname := s; u_Port := []; u_Path := []; u_RawQuery := [] |};
     url_with_path s _ := s; url_resolve _ ref := Ok ref; url_public := id; url_masked := id |}.

Lemma dialled_address_checked_witness : IsBlocked (Addr4 8 8 8 8) = false.
Proof.
  apply (dialled_address_checked (H := ascii_tables) (H0 := plain_url_lib) (str "y.io")
           (Ok [Addr4 8 8 8 8; Addr4 1 1 1 1]) (Addr4 8 8 8 8) 3 1 (str "https://y.io/hook")).
  - vm_compute. reflexivity.
  - vm_compute. reflexivity.
Defined.

(** A URL whose host is its text after the scheme. *)
Lemma literal_host_checked_witness :
  ParseAddr (str "::ffff:169.254.169.254") = Some (mapped_addr 169 254 169 254 [])
  /\ ValidateURL (H := ascii_tables) (H0 := plain_url_lib) (str "::ffff:169.254.169.254") = Err ErrBlockedAddress.
Proof.
  split; [vm_compute; reflexivity|].
  apply (literal_host_checked (H := ascii_tables) (H0 := plain_url_lib) (str "::ffff:169.254.169.254")
           {| u_Scheme := str "https"; u_Host := str "::ffff:169.254.169.254"; u_Hostname := str "::ffff:169.254.169.254";
              u_Port := []; u_Path := []; u_RawQuery := [] |} 169 254 169 254 [] (mapped_addr 169 254 169 254 [])).
  1-4: by unfold octet.
  - by right.
  - vm_compute. reflexivity.
  - vm_compute. reflexivity.
  - right. left.
  - done.
  - left.
  - unfold blocked_v4, in_block, ipv4. lia.
Defined.
