(* ===== verification/HttpClient.v ===== *)
(** * net/http: the clients the program calls out with

    [Client.Do] of the standard library over its transport, for the two clients of
    the source: the sending engine's (engine.go: default redirects, kept-alive
    connections) and [netguard.Client] (every hop checked, every address checked,
    a new connection each time).  One call is a chain of requests: a redirect that
    the client follows is answered by the next one. *)

From S2P Require Import Prelude Utf8 GoStrings Quote Program Netip Netguard.
Local Open Scope Z_scope.
Local Open Scope go_scope.

Section HttpClient.
Context `{UnicodeTables} `{UrlLib}.

(** [http.NewRequestWithContext], whose methods here are valid ones. *)
Definition new_request (method url body : gostring) : result http_request :=
  match url_parse url with
  | Err e => Err e
  | Ok _ => Ok {| hr_method := method; hr_url := url; hr_headers := []; hr_body := body |}
  end.

(** A client: its [CheckRedirect], given how many requests were made and where the
    next one would go; the redirects after which it refuses; its transport. *)
Record Client := {
  cl_check : nat -> gostring -> result ();
  cl_hops : nat;
  cl_trip : http_request -> prog (result http_answer);
}.

(** ** Redirects *)

(** [redirectBehavior]: the method of the next request and whether it has the body
    again. *)
Definition redirectBehavior (method : gostring) (status : Z) : option (gostring * bool) :=
  if bool_decide (status ∈ [301; 302; 303])
  then Some (if bool_decide (method ∈ [str "GET"; str "HEAD"]) then method else str "GET", false)
  else if bool_decide (status ∈ [307; 308]) then Some (method, true)
  else None.

(** A redirect that says where to. *)
Definition redirects (a : http_answer) : bool :=
  bool_decide (an_status a ∈ [301; 302; 303; 307; 308]) && negb (bool_decide (an_location a = [])).

(** An answer the client goes on from. *)
Definition moved (answer : result http_answer) : bool :=
  match answer with Ok a => redirects a | Err _ => false end.

(** [refererForURL] *)
Definition scheme_of (url : gostring) : gostring :=
  match url_parse url with Ok u => u_Scheme u | Err _ => [] end.

Definition referer (last next : gostring) : gostring :=
  if bool_decide (scheme_of last = str "https" /\ scheme_of next = str "http") then [] else url_public last.

(** [makeHeadersCopier]: a request without the body goes without its description. *)
Definition body_headers : list gostring :=
  [str "Content-Encoding"; str "Content-Language"; str "Content-Location"; str "Content-Type"].

Definition hop_request (first : http_request) (last url method : gostring) (body : bool) : http_request :=
  let r := {| hr_method := method; hr_url := url;
              hr_headers := base.filter (fun kv => body = true \/ kv.1 ∉ body_headers) (hr_headers first);
              hr_body := if body then hr_body first else [] |} in
  match referer last url with [] => r | ref => set_header (str "Referer") ref r end.

(** [url.Error] around an error of the call. *)
Definition error_op (method : gostring) : gostring :=
  match method with [] => str "Get" | c :: rest => c :: to_lower rest end.

Definition url_error (first : http_request) (url : gostring) (e : error) : error :=
  Error (err_is e) (error_op (hr_method first) ++ str " " ++ quote url ++ str ": " ++ err_text e).

(** What an answer makes the client do next: return it, fail, or make the request. *)
Inductive next := Done | Broken (e : error) | Hop (r : http_request) (body : bool).

Definition next_request (first : http_request) (body : bool) (req : http_request) (a : http_answer) : next :=
  match redirectBehavior (hr_method req) (an_status a) with
  | None => Done
  | Some (method, keep) =>
      if bool_decide (an_location a = []) then Done
      else match url_resolve (hr_url req) (an_location a) with
           | Err e => Broken (url_error first (url_masked (hr_url req)) (errors_New
               (str "failed to parse Location header " ++ quote (an_location a) ++ str ": " ++ err_text e)))
           | Ok url => Hop (hop_request first (hr_url req) url method (body && keep)) (body && keep)
           end
  end.

Definition out_of_hops : error := errors_New (str "stopped").

(** The loop of [Client.do]; [made] counts [req] too. *)
Fixpoint follow (fuel : nat) (c : Client) (first : http_request) (body : bool) (made : nat) (req : http_request)
    : prog (result http_answer) :=
  let! answer := cl_trip c req in
  match answer with
  | Err e => Ret (Err (url_error first (url_masked (hr_url req)) e))
  | Ok a =>
      match next_request first body req a with
      | Done => Ret (Ok a)
      | Broken e => Ret (Err e)
      | Hop r body' =>
          match cl_check c made (hr_url r) with
          | Err e => Ret (Err (url_error first (an_location a) e))
          | Ok tt =>
              match fuel with
              | O => Ret (Err out_of_hops)
              | S fuel => follow fuel c first body' (S made) r
              end
          end
      end
  end.

Definition client_do (c : Client) (req : http_request) : prog (result http_answer) :=
  follow (cl_hops c) c req true 1 req.

(** ** The engine's client *)

(** [defaultCheckRedirect] *)
Definition defaultCheckRedirect (made : nat) (target : gostring) : result () :=
  if (10 <=? made)%nat then Err (errors_New (str "stopped after 10 redirects")) else Ok tt.

Definition MaxIdleConnsPerHost : nat := 4.

Definition engine_client : Client := {|
  cl_check := defaultCheckRedirect;
  cl_hops := 10;
  cl_trip req := perform (RoundTrip (Pooled MaxIdleConnsPerHost) req);
|}.

(** ** netguard.Client *)

Definition host_of (url : gostring) : gostring :=
  match url_parse url with Ok u => u_Hostname u | Err _ => [] end.

Definition looked_up (ips : result (Addr * list Addr)) : result (list Addr) :=
  match ips with Ok (ip, rest) => Ok (ip :: rest) | Err e => Err e end.

(** The transport dials anew for every request, through [DialContext]. *)
Definition guarded_trip (req : http_request) : prog (result http_answer) :=
  Do (LookupNetIP (host_of (hr_url req))) (fun ips =>
    match dial_address (host_of (hr_url req)) (looked_up ips) with
    | Some (Ok ip) => perform (RoundTrip (Fresh ip) req)
    | Some (Err e) => Ret (Err e)
    | None => Ret (Err out_of_hops)
    end).

Definition guarded_client (maxRedirects : nat) : Client := {|
  cl_check := check_redirect maxRedirects;
  cl_hops := maxRedirects;
  cl_trip := guarded_trip;
|}.

(** ** What one call does *)

Definition is_Ok {A} (r : result A) : Prop := exists a, r = Ok a.

(** The client's checks refuse a redirect after [cl_hops] requests. *)
Class BoundedClient (c : Client) :=
  hops_bound : forall made url, cl_check c made url = Ok tt -> (made < cl_hops c)%nat.

(** A transport makes the request it is given, once and as [P] says, or fails. *)
Class RoundTripper (c : Client) (P : exchange -> Prop) :=
  trip_once : forall req script w, exists log,
    w_requests (world_of (run (cl_trip c req) script w)) = w_requests w ++ log
    /\ (log = [] /\ (exists e, result_of (run (cl_trip c req) script w) = Err e)
        \/ exists x, log = [x] /\ ex_request x = req
             /\ ex_answer x = result_of (run (cl_trip c req) script w) /\ P x).

#[global] Instance engine_client_bounded : BoundedClient engine_client.
Proof. intros made url. cbn. unfold defaultCheckRedirect. destruct (Nat.leb_spec 10 made); [done|lia]. Qed.

#[global] Instance guarded_client_bounded n : BoundedClient (guarded_client n).
Proof. intros made url. cbn. unfold check_redirect. destruct (Nat.leb_spec n made); [done|lia]. Qed.

(** At most one copy per idle connection besides the answered one. *)
Definition sent_pooled (x : exchange) : Prop :=
  ex_route x = Pooled MaxIdleConnsPerHost /\ (ex_resent x <= MaxIdleConnsPerHost)%nat.

Lemma resends_bound via r stale :
  (resends via r stale <= match via with Fresh _ => 0 | Pooled idle => idle end)%nat.
Proof. destruct via as [ip|idle]; cbn; [done|]. case_match; lia. Qed.

#[global] Instance engine_client_trips : RoundTripper engine_client sent_pooled.
Proof.
  intros req script w. unfold world_of, result_of. cbn [cl_trip engine_client perform run].
  destruct (pop script) as [e rest]. eexists. split; [done|]. right. eexists. split; [done|]. split; [done|].
  split; [done|]. split; [done|]. apply (resends_bound (Pooled MaxIdleConnsPerHost)).
Qed.

(** On a new connection to an address that was checked, and only once. *)
Definition dialled_safely (x : exchange) : Prop :=
  (exists ip, ex_route x = Fresh ip /\ IsBlocked ip = false) /\ ex_resent x = 0%nat.

Lemma dial_address_checked host ips ip : dial_address host ips = Some (Ok ip) -> IsBlocked ip = false.
Proof.
  unfold dial_address. destruct ips as [ips|]; [|done]. destruct (List.find IsBlocked ips) eqn:Hf; [done|].
  destruct ips as [|ip' rest]; [done|]. intros [= ->]. apply (List.find_none _ _ Hf). by left.
Qed.

#[global] Instance guarded_client_trips n : RoundTripper (guarded_client n) dialled_safely.
Proof.
  intros req script w. unfold world_of, result_of. cbn. destruct (pop script) as [e rest]. cbn.
  destruct (dial_address _ _) as [[ip|err]|] eqn:Hd; cbn.
  - destruct (pop rest) as [e' rest']. cbn. eexists. split; [done|]. right. eexists. split; [done|]. cbn.
    split_and!; [done..|]. split; [|done]. exists ip. split; [done|]. by eapply dial_address_checked.
  - exists []. rewrite app_nil_r. split; [done|]. left. eauto.
  - exists []. rewrite app_nil_r. split; [done|]. left. eauto.
Qed.

(** A call is nothing but talk. *)
Lemma follow_talks c first fuel body made req : (forall r, talks (cl_trip c r)) -> talks (follow fuel c first body made req).
Proof.
  intros Hc. revert body made req. induction fuel as [|fuel IH]; intros body made req; cbn [follow];
    (apply talks_bind; [done|]; intros [a|e]; [|done]; destruct (next_request first body req a); try done;
     destruct (cl_check c made _) as [[]|]; try done).
Qed.

Lemma engine_do_talks req : talks (client_do engine_client req).
Proof. by apply follow_talks. Qed.

Lemma guarded_do_talks n req : talks (client_do (guarded_client n) req).
Proof.
  apply follow_talks. intros r. cbn. split; [done|]. intros ips. by destruct (dial_address _ _) as [[]|].
Qed.

(** The requests of one call: each but the first is what the answer before it asks
    for, to a target the client's check lets through. *)
Inductive chain (c : Client) (first : http_request) : bool -> nat -> http_request -> list exchange -> Prop :=
  | chain_unmade body made req : chain c first body made req []
  | chain_end body made req x : ex_request x = req -> chain c first body made req [x]
  | chain_hop body made req x a r body' rest :
      ex_request x = req -> ex_answer x = Ok a -> next_request first body req a = Hop r body' ->
      cl_check c made (hr_url r) = Ok tt -> chain c first body' (S made) r rest ->
      chain c first body made req (x :: rest).

(** The answer the call returns: the last one, when it is no redirect. *)
Definition final_answer (log : list exchange) : option http_answer :=
  match list.last log with
  | Some x => match ex_answer x with Ok a => if redirects a then None else Some a | Err _ => None end
  | None => None
  end.

Definition returned (r : result http_answer) : option http_answer :=
  match r with Ok a => Some a | Err _ => None end.

Lemma redirect_statuses status :
  bool_decide (status ∈ [301; 302; 303; 307; 308]) = bool_decide (status ∈ [301; 302; 303]) || bool_decide (status ∈ [307; 308]).
Proof. apply eq_true_iff_eq. rewrite orb_true_iff, !bool_decide_eq_true, !elem_of_cons, elem_of_nil. tauto. Qed.

Lemma next_request_Done first body req a : next_request first body req a = Done <-> redirects a = false.
Proof.
  unfold next_request, redirectBehavior, redirects. rewrite redirect_statuses.
  destruct (bool_decide (an_status a ∈ [301; 302; 303])), (bool_decide (an_status a ∈ [307; 308])),
    (bool_decide (an_location a = [])); cbn; try done; destruct (url_resolve _ _); done.
Qed.

Lemma redirects_next first body req a : redirects a = true -> next_request first body req a <> Done.
Proof. intros Hr [=]%next_request_Done. congruence. Qed.

Lemma final_answer_cons x y rest : final_answer (x :: y :: rest) = final_answer (y :: rest).
Proof. done. Qed.

(** One call, whatever the peers answer. *)
Lemma follow_run c P `{!RoundTripper c P} first fuel body made req script w :
  let out := run (follow fuel c first body made req) script w in
  exists log, w_requests (world_of out) = w_requests w ++ log
    /\ chain c first body made req log /\ Forall P log
    /\ returned (result_of out) = final_answer log.
Proof.
  revert body made req script w. induction fuel as [|fuel IH]; intros body made req script w; cbn zeta; cbn [follow];
    rewrite run_bind; destruct (trip_once (c := c) req script w) as (log & Hlog & Hout);
    unfold world_of, result_of in *; destruct (run (cl_trip c req) script w) as [r [script' w']]; cbn in Hlog, Hout;
    (destruct Hout as [[-> [e ->]]|(x & -> & Hx & Ha & Hp)];
      [exists []; cbn; rewrite Hlog; split_and!; [done|constructor|constructor|done]|]).
  all: assert (Hend : forall r', returned r' = final_answer [x] -> exists log,
      w_requests w' = w_requests w ++ log /\ chain c first body made req log /\ Forall P log
      /\ returned r' = final_answer log)
    by (intros r' Hr; exists [x]; split_and!; [done|by constructor|by constructor|done]).
  all: unfold final_answer in Hend; cbn [list.last] in Hend; rewrite Ha in Hend.
  all: destruct r as [a|e]; cbn [run]; [|by apply Hend].
  all: destruct (next_request first body req a) as [|e|r' body'] eqn:En; cbn [run].
  all: try (apply Hend; apply next_request_Done in En; by rewrite En).
  all: assert (Er : redirects a = true)
    by (destruct (redirects a) eqn:E; [done|apply (next_request_Done first body req) in E; congruence]).
  all: rewrite Er in Hend.
  all: try by apply Hend.
  all: destruct (cl_check c made (hr_url r')) as [[]|e] eqn:Hc; [|by apply Hend].
  - by apply Hend.
  - destruct (IH body' (S made) r' script' w') as (rest & Hreq & Hch & Hps & Hr). cbn zeta in *.
    destruct (run (follow fuel c first body' (S made) r') script' w') as [r2 [s2 w2]]. cbn in Hreq, Hr |- *.
    exists (x :: rest). split_and!.
    + by rewrite Hreq, Hlog, <- app_assoc.
    + by eapply chain_hop.
    + by constructor.
    + rewrite Hr. destruct rest; [|done]. unfold final_answer. cbn. by rewrite Ha, Er.
Qed.

Lemma chain_length c `{!BoundedClient c} first body made req log :
  chain c first body made req log -> (made <= Nat.max 1 (cl_hops c))%nat ->
  (length log + made <= S (Nat.max 1 (cl_hops c)))%nat.
Proof.
  induction 1 as [| |body made req x a r body' rest _ _ _ Hc _ IH]; cbn; intros Hm; [lia..|].
  apply hops_bound in Hc. specialize (IH ltac:(lia)). lia.
Qed.

(** The fuel is enough: a client whose checks refuse after [cl_hops] requests never
    runs out of it. *)
Lemma follow_enough c `{!BoundedClient c} first fuel fuel' body made req :
  (cl_hops c <= made + fuel)%nat -> (cl_hops c <= made + fuel')%nat ->
  forall script w, run (follow fuel c first body made req) script w = run (follow fuel' c first body made req) script w.
Proof.
  revert fuel' body made req. induction fuel as [|fuel IH]; intros fuel' body made req Hf Hf' script w;
    destruct fuel' as [|fuel']; [done|..]; cbn [follow]; rewrite !run_bind;
    destruct (run (cl_trip c req) script w) as [[a|e] [script' w']]; try done;
    destruct (next_request first body req a) as [|e|r' body']; try done;
    destruct (cl_check c made (hr_url r')) as [[]|e] eqn:Hc; try done; try (apply hops_bound in Hc; lia).
  apply IH; lia.
Qed.

Lemma client_do_run c P `{!RoundTripper c P} `{!BoundedClient c} req script w :
  let out := run (client_do c req) script w in
  exists log, w_requests (world_of out) = w_requests w ++ log
    /\ chain c req true 1 req log /\ (length log <= Nat.max 1 (cl_hops c))%nat /\ Forall P log
    /\ returned (result_of out) = final_answer log.
Proof.
  cbn zeta. destruct (follow_run c P req (cl_hops c) true 1 req script w) as (log & Hreq & Hch & Hp & Hr).
  exists log. split_and!; try done. apply chain_length in Hch; [lia|done|lia].
Qed.

(** Every request of a guarded call goes where [ValidateURL] lets it. *)
Lemma chain_validated n first body made req log :
  chain (guarded_client n) first body made req log -> is_Ok (ValidateURL (hr_url req)) ->
  Forall (fun x => is_Ok (ValidateURL (hr_url (ex_request x)))) log.
Proof.
  induction 1 as [|body made req x <-|body made req x a r body' rest <- Ha Hn Hc _ IH]; intros Hv;
    repeat constructor; [done..|]. apply IH. cbn in Hc. unfold check_redirect in Hc.
  destruct (n <=? made)%nat; [done|]. destruct (ValidateURL (hr_url r)) as [u|]; [|done]. by exists u.
Qed.

(** A call makes its first request first. *)
Lemma follow_asks c first fuel body made req script w x :
  w_requests (world_of (run (cl_trip c req) script w)) = w_requests w ++ [x] ->
  exists rest, w_requests (world_of (run (follow fuel c first body made req) script w)) = w_requests w ++ x :: rest.
Proof.
  intros Hx. assert (exists k, follow fuel c first body made req = bind (cl_trip c req) k) as [k ->]
    by (destruct fuel; cbn [follow]; eauto).
  rewrite run_bind. unfold world_of in Hx. destruct (run (cl_trip c req) script w) as [r [script' w']].
  cbn in Hx. destruct (run_requests (k r) script' w') as [l ->]. exists l. by rewrite Hx, <- app_assoc.
Qed.

Lemma engine_do_asks req script w :
  exists x rest, w_requests (world_of (run (client_do engine_client req) script w)) = w_requests w ++ x :: rest.
Proof.
  destruct (trip_once (c := engine_client) req script w) as (log & Hlog & [[-> [e He]]|(x & -> & _)]).
  - exfalso. unfold world_of in Hlog. cbn in Hlog. destruct (pop script) as [e' rest]. cbn in Hlog.
    symmetry in Hlog. by apply app_inv_head in Hlog.
  - exists x. by apply follow_asks.
Qed.

End HttpClient.
