(* ===== verification/Config.v ===== *)
(** * internal/config/config.go: configuration from the environment

    [Load] reads every value, collects every problem, and answers a
    configuration only when there is none.  The environment is a function (an
    unset variable reads as the empty string); URL parsing is [UrlLib]. *)

From S2P Require Import Prelude Utf8 GoStrings Quote Encoding Schema Mail Netguard.
Local Open Scope Z_scope.
Local Open Scope go_scope.

Definition EnvDevelopment : gostring := str "development".
Definition EnvProduction : gostring := str "production".

Record Config := {
  cfg_Env : gostring;
  cfg_ListenAddr : gostring;
  cfg_DatabaseURL : gostring;
  cfg_LogLevel : gostring;
  cfg_SendEnabled : bool;
  cfg_EngineURL : gostring;
  cfg_MaxSendPerHour : Z;
  cfg_DKIMMasterKey : gostring;
  cfg_MTASTSHosts : list gostring;
  cfg_MTASTSMode : gostring;
  cfg_MTASTSMaxAge : Z;
  cfg_SecurityContact : gostring;
  cfg_SecurityPolicyURL : gostring;
  cfg_PublicBaseURL : gostring;
  cfg_ConsolePasswordHash : gostring;
  cfg_ConsoleSecureCookies : bool;
  cfg_ShutdownGrace : Z;
}.

(** [ValidationError.Error()] *)
Definition ValidationError_Error (problems : list gostring) : gostring :=
  let bullet := ["010"%char] ++ str "  - " in
  str "invalid configuration:" ++ bullet ++ join problems bullet.

(** [strconv.ParseBool] *)
Definition parse_bool (s : gostring) : option bool :=
  if bool_decide (s ∈ str <$> ["1"; "t"; "T"; "TRUE"; "true"; "True"]%string) then Some true
  else if bool_decide (s ∈ str <$> ["0"; "f"; "F"; "FALSE"; "false"; "False"]%string) then Some false
  else None.

Definition splitList (raw : gostring) : list gostring :=
  List.filter (fun part => negb (bool_decide (part = []))) (trim_space <$> split raw [","%char]).

Definition IsProduction (c : Config) : bool := bool_decide (cfg_Env c = EnvProduction).

Section Config.
Context `{UnicodeTables} `{UrlLib}.

Definition validateDatabaseURL (raw env : gostring) : result () :=
  match url_parse raw with
  | Err e => Err (wrap_w (str "AIEMAIL_DATABASE_URL is not a valid URL") e)
  | Ok u =>
      if negb (bool_decide (u_Scheme u = str "postgres")) && negb (bool_decide (u_Scheme u = str "postgresql"))
      then Err (errors_New (str "AIEMAIL_DATABASE_URL must use the postgres scheme, got " ++ quote (u_Scheme u)))
      else if bool_decide (env = EnvProduction) && bool_decide (query_get (u_RawQuery u) (str "sslmode") = str "disable")
      then Err (errors_New (str "AIEMAIL_DATABASE_URL disables TLS; production requires an encrypted database connection"))
      else Ok tt
  end.

Definition validateEngineURL (raw : gostring) : result () :=
  match url_parse raw with
  | Err e => Err (wrap_w (str "AIEMAIL_ENGINE_URL is not a valid URL") e)
  | Ok u =>
      if negb (bool_decide (u_Scheme u = str "http")) && negb (bool_decide (u_Scheme u = str "https"))
      then Err (errors_New (str "AIEMAIL_ENGINE_URL must be http or https, got " ++ quote (u_Scheme u)))
      else if bool_decide (u_Host u = []) then Err (errors_New (str "AIEMAIL_ENGINE_URL is missing a host"))
      else Ok tt
  end.

(** [problems = append(problems, text)] under a condition *)
Definition problem_if (b : bool) (text : gostring) : list gostring := if b then [text] else [].

Definition problem_of (r : result ()) : list gostring :=
  match r with Ok _ => [] | Err e => [err_text e] end.

Definition validate (c : Config) : list gostring :=
  problem_if (negb (bool_decide (cfg_Env c ∈ [EnvDevelopment; EnvProduction])))
    (str "AIEMAIL_ENV must be " ++ quote EnvDevelopment ++ str " or " ++ quote EnvProduction
     ++ str ", got " ++ quote (cfg_Env c))
  ++ problem_if (negb (bool_decide (cfg_LogLevel c ∈ str <$> ["debug"; "info"; "warn"; "error"]%string)))
       (str "AIEMAIL_LOG_LEVEL must be debug, info, warn or error, got " ++ quote (cfg_LogLevel c))
  ++ (if bool_decide (cfg_DatabaseURL c = []) then [str "AIEMAIL_DATABASE_URL is required"]
      else problem_of (validateDatabaseURL (cfg_DatabaseURL c) (cfg_Env c)))
  ++ problem_if (bool_decide (cfg_ListenAddr c = [])) (str "AIEMAIL_LISTEN_ADDR is required")
  ++ problem_if (cfg_MaxSendPerHour c <? 0) (str "AIEMAIL_MAX_SEND_PER_HOUR cannot be negative")
  ++ (if negb (bool_decide (cfg_MTASTSHosts c = [])) then
        problem_if (negb (bool_decide (cfg_MTASTSMode c ∈ str <$> ["testing"; "enforce"; "none"]%string)))
          (str "AIEMAIL_MTA_STS_MODE must be testing, enforce or none, got " ++ quote (cfg_MTASTSMode c))
        ++ problem_if ((cfg_MTASTSMaxAge c <? 86400) || (31557600 <? cfg_MTASTSMaxAge c))
             (str "AIEMAIL_MTA_STS_MAX_AGE must be between 86400 and 31557600 seconds")
      else [])
  ++ (if cfg_SendEnabled c then
        (if bool_decide (cfg_EngineURL c = [])
         then [str "AIEMAIL_ENGINE_URL is required when AIEMAIL_SEND_ENABLED is true"]
         else problem_of (validateEngineURL (cfg_EngineURL c)))
        ++ problem_if (cfg_MaxSendPerHour c <=? 0)
             (str "AIEMAIL_MAX_SEND_PER_HOUR must be greater than zero when sending is enabled")
        ++ problem_if (bool_decide (cfg_DKIMMasterKey c = []))
             (str "AIEMAIL_DKIM_MASTER_KEY is required when sending is enabled; unsigned mail is refused by mailbox providers")
      else [])
  ++ (if IsProduction c then
        problem_if (has_prefix (str "0.0.0.0:") (cfg_ListenAddr c))
          (str "AIEMAIL_LISTEN_ADDR binds every interface in production; bind a specific address and terminate TLS in front")
      else []).

(** ** Reading the environment *)

Section Environment.
Context (getenv : gostring -> gostring).

Definition envOr (key fallback : gostring) : gostring :=
  let v := trim_space (getenv key) in
  if bool_decide (v <> []) then v else fallback.

(** The value, and the problem if there is one. *)
Definition envBool (key : gostring) (fallback : bool) : bool * result () :=
  let raw := trim_space (getenv key) in
  if bool_decide (raw = []) then (fallback, Ok tt)
  else match parse_bool raw with
       | None => (fallback, Err (errors_New (key ++ str " must be a boolean, got " ++ quote raw)))
       | Some v => (v, Ok tt)
       end.

Definition envInt (key : gostring) (fallback : Z) : Z * result () :=
  let raw := trim_space (getenv key) in
  if bool_decide (raw = []) then (fallback, Ok tt)
  else match parse_int raw with
       | None => (fallback, Err (errors_New (key ++ str " must be an integer, got " ++ quote raw)))
       | Some v => (v, Ok tt)
       end.

(** The master key and the problem with it: an unset one is no problem here. *)
Definition read_master_key : gostring * list gostring :=
  let raw := trim_space (getenv (str "AIEMAIL_DKIM_MASTER_KEY")) in
  if bool_decide (raw = []) then ([], [])
  else match base64_std_decode raw with
       | None => ([], [str "AIEMAIL_DKIM_MASTER_KEY must be base64"])
       | Some key =>
           if negb (length key =? 32)%nat
           then ([], [str "AIEMAIL_DKIM_MASTER_KEY must decode to 32 bytes, got " ++ format_int (len key)])
           else (key, [])
       end.

(** The configuration as read, and the problems met on the way. *)
Definition read_config : Config * list gostring :=
  let '(sendEnabled, p1) := envBool (str "AIEMAIL_SEND_ENABLED") false in
  let '(maxPerHour, p2) := envInt (str "AIEMAIL_MAX_SEND_PER_HOUR") 0 in
  let '(masterKey, p3) := read_master_key in
  let '(maxAge, p4) := envInt (str "AIEMAIL_MTA_STS_MAX_AGE") 604800 in
  let env := envOr (str "AIEMAIL_ENV") EnvDevelopment in
  ({|
    cfg_Env := env;
    cfg_ListenAddr := envOr (str "AIEMAIL_LISTEN_ADDR") (str "127.0.0.1:8080");
    cfg_DatabaseURL := getenv (str "AIEMAIL_DATABASE_URL");
    cfg_LogLevel := envOr (str "AIEMAIL_LOG_LEVEL") (str "info");
    cfg_SendEnabled := sendEnabled;
    cfg_EngineURL := getenv (str "AIEMAIL_ENGINE_URL");
    cfg_MaxSendPerHour := maxPerHour;
    cfg_DKIMMasterKey := masterKey;
    cfg_MTASTSHosts := splitList (getenv (str "AIEMAIL_MTA_STS_HOSTS"));
    cfg_MTASTSMode := envOr (str "AIEMAIL_MTA_STS_MODE") (str "testing");
    cfg_MTASTSMaxAge := match p4 with Ok _ => maxAge | Err _ => 604800 end;
    cfg_SecurityContact := trim_space (getenv (str "AIEMAIL_SECURITY_CONTACT"));
    cfg_SecurityPolicyURL := trim_space (getenv (str "AIEMAIL_SECURITY_POLICY_URL"));
    cfg_PublicBaseURL := trim_suffix (str "/") (trim_space (getenv (str "AIEMAIL_PUBLIC_BASE_URL")));
    cfg_ConsolePasswordHash := trim_space (getenv (str "AIEMAIL_CONSOLE_PASSWORD_HASH"));
    cfg_ConsoleSecureCookies := bool_decide (env = EnvProduction);
    cfg_ShutdownGrace := 30 * Second |},
   problem_of p1 ++ problem_of p2 ++ p3 ++ problem_of p4).

(** The configuration, or the problems of the [ValidationError]. *)
Definition Load : Config + list gostring :=
  let '(cfg, problems) := read_config in
  let problems := problems ++ validate cfg in
  if bool_decide (problems = []) then inl cfg else inr problems.

End Environment.

(** ** What an accepted configuration guarantees *)

Definition database_ok (c : Config) : Prop :=
  exists u, url_parse (cfg_DatabaseURL c) = Ok u
             /\ (u_Scheme u = str "postgres" \/ u_Scheme u = str "postgresql")
             /\ (cfg_Env c = EnvProduction -> query_get (u_RawQuery u) (str "sslmode") <> str "disable").

Record sending_ok (c : Config) : Prop := {
  snd_engine : exists u, url_parse (cfg_EngineURL c) = Ok u
                 /\ (u_Scheme u = str "http" \/ u_Scheme u = str "https") /\ u_Host u <> [];
  snd_ceiling : 0 < cfg_MaxSendPerHour c;
  snd_master : cfg_DKIMMasterKey c <> [];
}.

Record safe_config (c : Config) : Prop := {
  safe_env : cfg_Env c = EnvDevelopment \/ cfg_Env c = EnvProduction;
  safe_log : cfg_LogLevel c ∈ str <$> ["debug"; "info"; "warn"; "error"]%string;
  safe_db_set : cfg_DatabaseURL c <> [];
  safe_db : database_ok c;
  safe_listen : cfg_ListenAddr c <> [];
  safe_ceiling : 0 <= cfg_MaxSendPerHour c;
  safe_mta : cfg_MTASTSHosts c <> [] ->
    cfg_MTASTSMode c ∈ str <$> ["testing"; "enforce"; "none"]%string /\ 86400 <= cfg_MTASTSMaxAge c <= 31557600;
  safe_engine_set : cfg_SendEnabled c = true -> cfg_EngineURL c <> [];
  safe_sending : cfg_SendEnabled c = true -> sending_ok c;
  safe_bind : cfg_Env c = EnvProduction -> ~ str "0.0.0.0:" `prefix_of` cfg_ListenAddr c;
}.

Lemma problem_if_nil b text : problem_if b text = [] <-> b = false.
Proof. by destruct b. Qed.

Lemma validateDatabaseURL_nil c :
  problem_of (validateDatabaseURL (cfg_DatabaseURL c) (cfg_Env c)) = [] <-> database_ok c.
Proof.
  unfold validateDatabaseURL. split.
  - destruct (url_parse _) as [u|] eqn:Hu; [|done]. repeat case_bool_decide; cbn; intros; try done;
      exists u; tauto.
  - intros (u & -> & Hs & Ht). repeat case_bool_decide; cbn; naive_solver.
Qed.

Lemma sending_nil c :
  problem_of (validateEngineURL (cfg_EngineURL c)) = [] /\ 0 < cfg_MaxSendPerHour c
    /\ cfg_DKIMMasterKey c <> []
  <-> sending_ok c.
Proof.
  unfold validateEngineURL. split.
  - intros (Hu & Hc & Hk). split; [|done..].
    destruct (url_parse _) as [u|] eqn:Hu'; [|done]. exists u. repeat case_bool_decide; cbn in *; naive_solver.
  - intros [(u & -> & Hs & Hh) Hc Hk]. split_and!; [|done..]. repeat case_bool_decide; cbn; naive_solver.
Qed.

Lemma validate_nil c : validate c = [] <-> safe_config c.
Proof.
  unfold validate, IsProduction. rewrite !app_nil, !problem_if_nil.
  rewrite !negb_false_iff, !bool_decide_eq_true, bool_decide_eq_false, !Z.ltb_ge.
  pose proof (validateDatabaseURL_nil c) as Hdb. pose proof (sending_nil c) as Hs.
  pose proof (has_prefix_spec (str "0.0.0.0:") (cfg_ListenAddr c)) as Hp.
  split.
  - intros (He & Hl & Hd & Ha & Hm & Hmta & Hsend & Hprod).
    destruct (decide (cfg_DatabaseURL c = [])) as [E|Hds];
      [by rewrite bool_decide_eq_true_2 in Hd|rewrite bool_decide_eq_false_2 in Hd by done]. split; try done.
    + rewrite elem_of_cons, list_elem_of_singleton in He. done.
    + tauto.
    + intros Hne. rewrite bool_decide_eq_false_2 in Hmta by done; cbn [negb] in Hmta.
      rewrite app_nil, !problem_if_nil, negb_false_iff, bool_decide_eq_true, orb_false_iff, !Z.ltb_ge in Hmta.
      naive_solver.
    + intros E Hn. rewrite E, bool_decide_eq_true_2 in Hsend by done. done.
    + intros E. rewrite E in Hsend. destruct (decide (cfg_EngineURL c = [])) as [Hn|Hn];
        [by rewrite bool_decide_eq_true_2 in Hsend|rewrite bool_decide_eq_false_2 in Hsend by done].
      rewrite !app_nil, !problem_if_nil, Z.leb_gt, bool_decide_eq_false in Hsend. tauto.
    + intros E. rewrite bool_decide_eq_true_2, problem_if_nil in Hprod by done. intros Hx%Hp. congruence.
  - intros [He Hl Hds Hd Ha Hm Hmta Hes Hsend Hbind]. split_and!; try done.
    + rewrite elem_of_cons, list_elem_of_singleton. done.
    + case_bool_decide; tauto.
    + case_bool_decide as E; cbn; [done|]. rewrite app_nil, !problem_if_nil, negb_false_iff, bool_decide_eq_true, orb_false_iff, !Z.ltb_ge.
      naive_solver.
    + destruct (cfg_SendEnabled c); [|done]. case_bool_decide; [naive_solver|].
      rewrite !app_nil, !problem_if_nil, Z.leb_gt, bool_decide_eq_false. tauto.
    + case_bool_decide; [|done]. rewrite problem_if_nil. apply not_true_is_false. rewrite Hp. naive_solver.
Qed.

Lemma read_master_key_length getenv :
  (read_master_key getenv).1 = [] \/ length (read_master_key getenv).1 = 32%nat.
Proof.
  unfold read_master_key. repeat case_match; cbn; auto. right. by apply Nat.eqb_eq, negb_false_iff.
Qed.

Lemma read_config_key getenv : cfg_DKIMMasterKey (read_config getenv).1 = (read_master_key getenv).1.
Proof. unfold read_config. by destruct (envBool _ _ _), (envInt _ _ 0), (read_master_key getenv), (envInt _ _ 604800). Qed.

(** C34: [Load] answers a configuration exactly when everything the environment
    says was readable and the result is safe, and otherwise names every problem.
    An accepted configuration that can send has an http(s) engine with a host, a
    positive hourly ceiling and a 32-byte master key; one for production uses
    neither an unencrypted database connection nor the IPv4 wildcard address. *)
Theorem Load_safe getenv :
  let c := (read_config getenv).1 in
  let unreadable := (read_config getenv).2 in
  (Load getenv = inl c <-> unreadable = [] /\ safe_config c)
  /\ (Load getenv <> inl c -> Load getenv = inr (unreadable ++ validate c))
  /\ (Load getenv = inl c -> cfg_SendEnabled c = true ->
        sending_ok c /\ length (cfg_DKIMMasterKey c) = 32%nat).
Proof.
  cbn zeta. rewrite read_config_key. pose proof (read_master_key_length getenv) as Hk.
  pose proof (read_config_key getenv) as Ek. unfold Load. destruct (read_config getenv) as [c ps]; cbn in *.
  case_bool_decide as Hp; rewrite app_nil, validate_nil in Hp; (split_and!; [naive_solver..|]); [|naive_solver].
  intros _ Hse. pose proof (safe_sending _ (proj2 Hp) Hse) as Hs. split; [done|].
  destruct Hk as [Hk|]; [|done]. rewrite Hk in Ek. by destruct (snd_master _ Hs).
Qed.

End Config.

(** ** A concrete environment *)

(** URLs cut at "://"; the rest is the host, up to a question mark. *)
Definition cut_url_lib : UrlLib :=
  {| url_parse s := match cut s (str "://") with
                    | Some (scheme, rest) =>
                        let '(host, query) := cut_or rest (str "?") in
                        Ok {| u_Scheme := scheme; u_Host := host; u_Hostname := host; u_Port := []; u_Path := [];
                              u_RawQuery := query |}
                    | None => Err (errors_New (str "missing scheme"))
                    end;
     url_with_path s _ := s; url_resolve _ ref := Ok ref; url_public := id; url_masked := id |}.

Definition load_with (vars : list (gostring * gostring)) : Config + list gostring :=
  Load (H := ascii_tables) (H0 := cut_url_lib)
    (fun key => default [] (snd <$> head (base.filter (fun kv => kv.1 = key) vars))).

Definition production_vars (listen : gostring) : list (gostring * gostring) :=
  [(str "AIEMAIL_ENV", EnvProduction); (str "AIEMAIL_DATABASE_URL", str "postgres://db/aiemail");
   (str "AIEMAIL_LISTEN_ADDR", listen)].

Example ipv4_wildcard_refused :
  load_with (production_vars (str "0.0.0.0:8080"))
  = inr [str "AIEMAIL_LISTEN_ADDR binds every interface in production; bind a specific address and terminate TLS in front"].
Proof. vm_compute. reflexivity. Qed.

Example sending_accepted :
  exists c, load_with (production_vars (str "10.0.0.5:8080") ++
      [(str "AIEMAIL_SEND_ENABLED", str "true"); (str "AIEMAIL_ENGINE_URL", str "http://engine");
       (str "AIEMAIL_MAX_SEND_PER_HOUR", str "500");
       (str "AIEMAIL_DKIM_MASTER_KEY", base64_std_encode (replicate 32 "k"%char))]) = inl c
    /\ cfg_SendEnabled c = true /\ cfg_MaxSendPerHour c = 500.
Proof. eexists. vm_compute. done. Qed.

(** Two production settings the comments say are refused are accepted: a
    wildcard address in any spelling but "0.0.0.0:", such as ":8080" or the IPv6
    one, and an hourly ceiling of zero while sending is off. *)
Theorem production_guards_incomplete :
  (exists c, load_with (production_vars (str ":8080")) = inl c
     /\ IsProduction c = true /\ cfg_ListenAddr c = str ":8080" /\ cfg_MaxSendPerHour c = 0)
  /\ (exists c, load_with (production_vars (str "[::]:8080")) = inl c
     /\ IsProduction c = true /\ cfg_ListenAddr c = str "[::]:8080").
Proof. split; eexists; vm_compute; done. Qed.
