(* ===== verification/Delivery.v ===== *)
(** * internal/delivery: handing a message to the sending engine

    The request [Send] makes, its body included, and what it makes of the engine's
    answer: every outcome becomes sent, temporary or permanent. *)

From S2P Require Import Prelude Utf8 GoStrings Encoding GoJson Bounce Schema Program Netguard HttpClient.

Inductive DeliveryResult := Sent | Temporary | Permanent.

#[global] Instance DeliveryResult_eq_dec : EqDecision DeliveryResult.
Proof. solve_decision. Defined.

Record Response := { resp_Result : DeliveryResult; resp_Reason : gostring }.

Record Message := {
  msg_ID : gostring;
  msg_From : gostring;
  msg_To : list gostring;
  msg_Subject : gostring;
  msg_HTML : gostring;
  msg_Text : gostring;
  msg_Headers : gmap gostring gostring;
  msg_Raw : gostring;
}.

(** [json.Marshal] of the message; a member tagged [omitempty] is left out when it
    is empty, and a byte slice is written in base64. *)
Definition omit_empty (key value : gostring) (empty : bool) : list (gostring * gostring) :=
  if empty then [] else [(key, value)].

Definition message_members (m : Message) : list (gostring * gostring) :=
  [(str "id", json_of_string (msg_ID m)); (str "from", json_of_string (msg_From m));
   (str "to", json_of_strings (msg_To m)); (str "subject", json_of_string (msg_Subject m))]
  ++ omit_empty (str "html") (json_of_string (msg_HTML m)) (bool_decide (msg_HTML m = []))
  ++ omit_empty (str "text") (json_of_string (msg_Text m)) (bool_decide (msg_Text m = []))
  ++ omit_empty (str "headers") (json_of_map (msg_Headers m)) (bool_decide (msg_Headers m = ∅))
  ++ omit_empty (str "raw") (json_of_string (base64_std_encode (msg_Raw m))) (bool_decide (msg_Raw m = [])).

Definition json_message (m : Message) : result gostring := Ok (json_of_members (message_members m)).

Record Engine := NewEngine { baseURL : gostring }.

(** The switch on the engine's status code. *)
Definition response_of_status (code : Z) : Response :=
  if ((200 <=? code) && (code <? 300))%Z then Build_Response Sent []
  else if ((code =? 429) || (500 <=? code))%Z
  then Build_Response Temporary (str "engine returned " ++ format_int code)
  else Build_Response Permanent (str "engine rejected the message with " ++ format_int code).

Definition Engine_Send `{UnicodeTables} `{UrlLib} (e : Engine) (msg : Message) : prog Response :=
  match json_message msg with
  | Err err => Ret (Build_Response Permanent (str "encoding message: " ++ err_text err))
  | Ok body =>
      match new_request (str "POST") (baseURL e ++ str "/api/inject/v1") body with
      | Err err => Ret (Build_Response Permanent (str "building request: " ++ err_text err))
      | Ok req =>
          let req := set_header (str "Content-Type") (str "application/json") req in
          let req := set_header (str "Idempotency-Key") (msg_ID msg) req in
          bind (client_do engine_client req) (fun resp => Ret
            match resp with
            | Err err => Build_Response Temporary (str "engine unreachable: " ++ err_text err)
            | Ok a => response_of_status (an_status a)
            end)
      end
  end.

(** ** Properties *)

Definition rejection_suppresses `{UnicodeTables} (code : Z) : bool :=
  let r := response_of_status code in
  bool_decide (resp_Result r = Permanent) && Result_Suppresses (Classify (resp_Reason r)).

Lemma no_status_code_suppresses `{UnicodeTables} :
  forallb (fun n => negb (rejection_suppresses (Z.of_nat n))) (seq 0 1000) = true.
Proof. vm_compute. reflexivity. Qed.

(** An engine rejection never suppresses a recipient. For every status code
    an HTTP response can carry, if [Send] reports it as a permanent failure, the
    reason text it builds is one [Classify] does not suppress on: automatic
    suppression cannot be triggered by the engine's answer. *)
Theorem engine_rejection_never_suppresses `{UnicodeTables} (code : Z) :
  (0 <= code <= 999)%Z ->
  resp_Result (response_of_status code) = Permanent ->
  Result_Suppresses (Classify (resp_Reason (response_of_status code))) = false.
Proof.
  intros Hc Hp. pose proof no_status_code_suppresses as Hall.
  rewrite List.forallb_forall in Hall. specialize (Hall (Z.to_nat code)).
  rewrite Z2Nat.id in Hall by lia. unfold rejection_suppresses in Hall.
  rewrite bool_decide_eq_true_2 in Hall by done.
  apply negb_true_iff, Hall, List.in_seq. lia.
Qed.

Lemma engine_rejection_never_suppresses_witness :
  Result_Suppresses (Bounce.Classify (H := ascii_tables)
    (resp_Reason (response_of_status 400))) = false.
Proof. apply (engine_rejection_never_suppresses (H := ascii_tables) 400); [lia|reflexivity]. Defined.

(** The body reads back as the message's members. *)
Lemma message_body_members m : decode_members (json_of_members (message_members m)) = Some (message_members m).
Proof.
  rewrite decode_members_encoded.
  - f_equal. apply read_keys_id. unfold message_members, omit_empty. by repeat case_bool_decide; repeat constructor.
  - intros depth. unfold message_members, omit_empty. rewrite !list.Forall_app. split_and!.
    all: try case_bool_decide; rewrite ?list.Forall_cons, ?list.Forall_nil; cbn [snd];
      eauto using is_value_string, is_value_list, is_value_map.
Qed.

(** What a request hands over: the message under its own id, every field as it is
    read back, and the signed message, when there is one, byte for byte. *)
Record carries (e : Engine) (m : Message) (req : http_request) : Prop := {
  ca_target : hr_method req = str "POST" /\ hr_url req = baseURL e ++ str "/api/inject/v1";
  ca_key : hr_headers req = [(str "Content-Type", str "application/json"); (str "Idempotency-Key", msg_ID m)];
  ca_id : string_member (str "id") (hr_body req) = Some (to_valid (msg_ID m));
  ca_from : string_member (str "from") (hr_body req) = Some (to_valid (msg_From m));
  ca_to : member (str "to") (hr_body req) ≫= decode_strings = Some (to_valid <$> msg_To m);
  ca_subject : string_member (str "subject") (hr_body req) = Some (to_valid (msg_Subject m));
  ca_html : default [] (string_member (str "html") (hr_body req)) = to_valid (msg_HTML m);
  ca_text : default [] (string_member (str "text") (hr_body req)) = to_valid (msg_Text m);
  ca_headers : map_Forall (fun k v => valid_member (k, v)) (msg_Headers m) ->
    default ∅ (default None (member (str "headers") (hr_body req) ≫= decode_map None)) = msg_Headers m;
  ca_raw : default [] (string_member (str "raw") (hr_body req) ≫= base64_std_decode) = msg_Raw m;
}.

(** Whichever of the optional members are written. *)
Ltac find_optional := unfold message_members, omit_empty; repeat case_bool_decide; find_member.

Lemma message_strings m :
  let body := json_of_members (message_members m) in
  string_member (str "id") body = Some (to_valid (msg_ID m))
  /\ string_member (str "from") body = Some (to_valid (msg_From m))
  /\ string_member (str "subject") body = Some (to_valid (msg_Subject m))
  /\ default [] (string_member (str "html") body) = to_valid (msg_HTML m)
  /\ default [] (string_member (str "text") body) = to_valid (msg_Text m).
Proof.
  cbn zeta. unfold string_member, member. rewrite message_body_members.
  split_and!; try (find_member; by rewrite decode_string_encoded).
  - destruct (decide (msg_HTML m = [])) as [E|E]; find_optional; rewrite ?decode_string_encoded; rewrite ?E in *; done.
  - destruct (decide (msg_Text m = [])) as [E|E]; find_optional; rewrite ?decode_string_encoded; rewrite ?E in *; done.
Qed.

Lemma message_headers m :
  map_Forall (fun k v => valid_member (k, v)) (msg_Headers m) ->
  default ∅ (default None (member (str "headers") (json_of_members (message_members m)) ≫= decode_map None)) = msg_Headers m.
Proof.
  intros Hv. unfold member. rewrite message_body_members.
  find_optional; try done; by rewrite decode_map_encoded.
Qed.

Lemma message_raw m :
  default [] (string_member (str "raw") (json_of_members (message_members m)) ≫= base64_std_decode)
  = msg_Raw m.
Proof.
  unfold string_member, member. rewrite message_body_members. unfold message_members, omit_empty.
  destruct (decide (msg_Raw m = [])) as [Hraw|Hraw].
  - rewrite (bool_decide_eq_true_2 (msg_Raw m = [])), Hraw by done. by repeat case_bool_decide; find_member.
  - rewrite (bool_decide_eq_false_2 (msg_Raw m = [])) by done.
    repeat case_bool_decide; find_member;
      rewrite decode_string_encoded, to_valid_id by apply valid_utf8_ascii, base64_std_ascii;
      cbn -[base64_std_decode base64_std_encode]; by rewrite base64_std_roundtrip.
Qed.

Lemma message_carried e m :
  carries e m (set_header (str "Idempotency-Key") (msg_ID m) (set_header (str "Content-Type") (str "application/json")
    {| hr_method := str "POST"; hr_url := baseURL e ++ str "/api/inject/v1"; hr_headers := [];
       hr_body := json_of_members (message_members m) |})).
Proof.
  destruct (message_strings m) as (Hid & Hfrom & Hsubject & Hhtml & Htext).
  split; cbn [hr_method hr_url hr_headers hr_body set_header]; try done.
  - unfold member. rewrite message_body_members. find_member. by rewrite decode_strings_encoded.
  - apply message_headers.
  - apply message_raw.
Qed.

(** The result made of the answer a call returned. *)
Lemma response_cases code :
  (resp_Result (response_of_status code) = Sent <-> 200 <= code < 300)%Z
  /\ (resp_Result (response_of_status code) = Temporary <-> code = 429 \/ 500 <= code)%Z.
Proof.
  unfold response_of_status.
  destruct (Z.leb_spec 200 code), (Z.ltb_spec code 300), (Z.eqb_spec code 429), (Z.leb_spec 500 code); cbn;
    split; split; try done; lia.
Qed.

(** C17: A message is handed to the engine faithfully, and the last answer decides.
    [Send] makes one POST whose body reads back as every field of the message and
    which carries the message's id as its key; only when the engine answers with a
    redirect does it make further requests, each the one the answer before asks for,
    at most ten in all, each sent at most five times over.  The answer the chain ends
    with makes the result: sent on a 2xx, temporary on a 429, a 5xx or no answer (a
    redirect that is not followed included), permanent on anything else.  Only an
    engine URL that does not parse makes no request, and is permanent. *)
Theorem Engine_Send_faithful `{UnicodeTables} `{UrlLib} e m script wd :
  let out := run (Engine_Send e m) script wd in
  match url_parse (baseURL e ++ str "/api/inject/v1") with
  | Err _ => resp_Result (result_of out) = Permanent /\ w_requests (world_of out) = w_requests wd
  | Ok _ => exists x rest, let log := x :: rest in
      w_requests (world_of out) = w_requests wd ++ log
      /\ carries e m (ex_request x)
      /\ chain engine_client (ex_request x) true 1 (ex_request x) log /\ (length log <= 10)%nat
      /\ Forall (fun y => ex_resent y <= 4)%nat log
      /\ (resp_Result (result_of out) = Sent <-> exists a, final_answer log = Some a /\ 200 <= an_status a < 300)
      /\ (resp_Result (result_of out) = Temporary <->
            match final_answer log with None => True | Some a => an_status a = 429 \/ 500 <= an_status a end)
  end%Z.
Proof.
  cbn zeta. unfold Engine_Send, json_message, new_request. pose proof (message_carried e m) as Hc.
  destruct (url_parse _) as [u|err]; [|done]. set (req := set_header (str "Idempotency-Key") _ _) in *.
  rewrite run_bind. destruct (engine_do_asks req script wd) as (x & rest & Hlog).
  destruct (client_do_run engine_client _ req script wd) as (log & Hreq & Hch & Hlen & Hp & Hr).
  rewrite Hlog in Hreq. apply app_inv_head in Hreq as <-.
  unfold world_of, result_of in *. destruct (run (client_do engine_client req) script wd) as [r [script' w']].
  cbn [run fst snd] in *. exists x, rest.
  assert (ex_request x = req) as -> by (by inversion Hch).
  split_and!; try done.
  - eapply list.Forall_impl; [exact Hp|]. by intros y [_ ?].
  - rewrite <- Hr. destruct r as [a|err]; cbn; [|split; [done|by intros (? & [=] & _)]].
    rewrite (proj1 (response_cases _)). split; [eauto|]. by intros (? & [= <-] & ?).
  - rewrite <- Hr. destruct r as [a|err]; cbn; [|done]. apply response_cases.
Qed.

(** ** What a redirect costs *)

Definition found_at (url : gostring) : env :=
  {| e_others := id; e_delay := 0; e_fault := NoFault; e_begin := None; e_tx_faults := [];
     e_locked_message := fun _ => false; e_locked_delivery := fun _ => false;
     e_entropy := Ok []; e_http := Ok (Answer 302 url); e_stale := 0; e_dns := NotFound;
     e_ips := e_ips calm |}.

Definition note_message : Message :=
  {| msg_ID := str "m1"; msg_From := str "a@b.io"; msg_To := [str "c@d.io"]; msg_Subject := str "hi";
     msg_HTML := []; msg_Text := str "hello"; msg_Headers := ∅; msg_Raw := [] |}.

(** An engine that answers 302 to the POST is asked again with a GET without the
    message, and what it says to that is taken for the message's fate: sent. *)
Theorem redirect_drops_message :
  let out := run (Engine_Send (H := ascii_tables) (H0 := plain_url_lib) (NewEngine (str "http://engine"))
                    note_message) [found_at (str "https://engine/")] (World empty_db 0 []) in
  resp_Result (result_of out) = Sent
  /\ (fun x => (hr_method (ex_request x), bool_decide (hr_body (ex_request x) = []))) <$> w_requests (world_of out)
     = [(str "POST", false); (str "GET", true)].
Proof. vm_compute. split; reflexivity. Qed.
