(* ===== verification/WebhookSend.v ===== *)
(** * internal/webhook: sign.go, sender.go

    The signature base, the headers a delivery carries, the check a receiver
    runs, and what [Send] makes of an endpoint's answer. *)

From S2P Require Import Prelude Utf8 GoStrings Sha256 Encoding Schema Program Netguard HttpClient.
Local Open Scope Z_scope.

Definition dq : gostring := ["034"%char].
Definition LF : gostring := ["010"%char].

Definition ReplayWindow : Z := 5 * Minute.

(** Seconds since the epoch, [t.Unix()]. *)
Definition unix (t : Z) : Z := t / Second.

Definition ContentDigest (body : gostring) : gostring :=
  str "sha-256=:" ++ base64_std_encode (sha256 body) ++ str ":".

Definition signature_params_head : gostring :=
  str "(" ++ dq ++ str "@method" ++ dq ++ str " " ++ dq ++ str "@target-uri" ++ dq ++ str " "
  ++ dq ++ str "content-digest" ++ dq ++ str ");".

Definition created_marker : gostring := str "created=".

Definition signature_params_tail : gostring :=
  str ";keyid=" ++ dq ++ str "aiemail" ++ dq ++ str ";alg=" ++ dq ++ str "hmac-sha256" ++ dq.

Definition signatureParams (created : Z) : gostring :=
  signature_params_head ++ created_marker ++ format_int created ++ signature_params_tail.

Section Sign.
Context `{UnicodeTables} `{UrlLib}.

Definition NormalizeTarget (targetURI : gostring) : gostring :=
  match url_parse targetURI with
  | Err _ => targetURI
  | Ok u => url_with_path targetURI (if bool_decide (u_Path u = []) then str "/" else u_Path u)
  end.

Definition SignatureBase (method targetURI digest : gostring) (created : Z) : gostring :=
  dq ++ str "@method" ++ dq ++ str ": " ++ to_upper method ++ LF
  ++ dq ++ str "@target-uri" ++ dq ++ str ": " ++ NormalizeTarget targetURI ++ LF
  ++ dq ++ str "content-digest" ++ dq ++ str ": " ++ digest ++ LF
  ++ dq ++ str "@signature-params" ++ dq ++ str ": " ++ signatureParams created.

Definition signature_of (method targetURI body secret : gostring) (created : Z) : gostring :=
  hmac_sha256 secret (SignatureBase method targetURI (ContentDigest body) created).

Definition Sign (req : http_request) (body secret : gostring) (created : Z) : http_request :=
  let digest := ContentDigest body in
  let req := set_header (str "Content-Digest") digest req in
  let at_ := unix created in
  let base := SignatureBase (hr_method req) (hr_url req) digest at_ in
  let sig := base64_std_encode (hmac_sha256 secret base) in
  let req := set_header (str "Signature-Input") (str "sig1=" ++ signatureParams at_) req in
  set_header (str "Signature") (str "sig1=:" ++ sig ++ str ":") req.

(** [fmt.Sscanf(rest, "%d", &created)]: leading spaces, a sign, digits; what
    follows is not read. *)
Fixpoint take_digits (s : gostring) : gostring :=
  match s with
  | c :: s' => if is_digit c then c :: take_digits s' else []
  | [] => []
  end.

Definition sscan_int (s : gostring) : option Z :=
  let s := drop_while (fun c => bool_decide (c = " "%char \/ c = "009"%char)) s in
  let '(sign, s) :=
    match s with
    | c :: s' => if bool_decide (c = "-"%char \/ c = "+"%char) then ([c], s') else ([], s)
    | [] => ([], [])
    end in
  match take_digits s with
  | [] => None
  | digits => parse_int (sign ++ digits)
  end.

Definition createdFrom (signatureInput : gostring) : result Z :=
  match index created_marker signatureInput with
  | None => Err (errors_New (str "signature input has no created parameter"))
  | Some i =>
      let rest := drop (i + length created_marker) signatureInput in
      let rest := take (length rest - length (drop_while (fun c =>
                    negb (bool_decide (c = ";"%char \/ c = ","%char))) rest)) rest in
      match sscan_int rest with
      | None => Err (errors_New (str "signature input has an unreadable created parameter"))
      | Some created => Ok created
      end
  end.

(** [strings.Trim(s, ":")] *)
Definition trim_colons (s : gostring) : gostring :=
  let colon := fun c => bool_decide (c = ":"%char) in
  rev (drop_while colon (rev (drop_while colon s))).

Definition Verify (method targetURI body secret signatureInput signature : gostring) (now : Z) : result () :=
  match createdFrom signatureInput with
  | Err e => Err e
  | Ok created =>
      let age := now - created * Second in
      if (ReplayWindow <? age) || (age <? - ReplayWindow)
      then Err (errors_New (str "signature timestamp is outside the 5m0s replay window"))
      else
        let want := signature_of method targetURI body secret created in
        match base64_std_decode (trim_colons (trim_prefix (str "sig1=") signature)) with
        | None => Err (errors_New (str "signature is not valid base64"))
        | Some got => if bool_decide (want = got) then Ok tt
                      else Err (errors_New (str "signature does not match"))
        end
  end.

(** ** sender.go *)

Inductive Outcome := Delivered | Retry | Drop.

Record Result := { res_Outcome : Outcome; res_Reason : gostring }.


(** The switch on the endpoint's status code. *)
Definition result_of_status (code : Z) : Result :=
  if (200 <=? code) && (code <? 300) then Build_Result Delivered []
  else if (code =? 429) || (500 <=? code) then Build_Result Retry (str "endpoint returned " ++ format_int code)
  else if code =? 410 then Build_Result Drop (str "endpoint reported it is gone")
  else Build_Result Retry (str "endpoint returned " ++ format_int code).

(** [NewSender] *)
Definition sender_client : Client := guarded_client 3.

Definition signed_request (req : http_request) (secret payload : gostring) (now : Z) : http_request :=
  Sign (set_header (str "User-Agent") (str "aiemail-webhooks/1")
         (set_header (str "Content-Type") (str "application/json") req)) payload secret now.

Definition Sender_Send (url secret payload : gostring) : prog Result :=
  match ValidateURL url with
  | Err e => Ret (Build_Result Drop (err_text e))
  | Ok _ =>
      match new_request (str "POST") url payload with
      | Err e => Ret (Build_Result Drop (str "building request: " ++ err_text e))
      | Ok req =>
          Do Now (fun now =>
          bind (client_do sender_client (signed_request req secret payload now)) (fun resp => Ret
            match resp with
            | Err e => Build_Result Retry (str "request failed: " ++ err_text e)
            | Ok a => result_of_status (an_status a)
            end))
      end
  end.

(** ** Lemmas *)

Lemma take_digits_app digits c rest :
  forallb is_digit digits = true -> is_digit c = false -> take_digits (digits ++ c :: rest) = digits.
Proof.
  induction digits as [|d digits IH]; cbn; [by intros _ ->|]. intros [Hd Hds]%andb_true_iff Hc.
  rewrite Hd. f_equal. by apply IH.
Qed.

Lemma take_digits_all digits : forallb is_digit digits = true -> take_digits digits = digits.
Proof. induction digits as [|d ds IH]; cbn; [done|]. intros [-> Hds]%andb_true_iff. f_equal. by apply IH. Qed.

Lemma digit_not_blank c :
  is_digit c = true -> bool_decide (c = " "%char \/ c = "009"%char) = false
    /\ bool_decide (c = "-"%char \/ c = "+"%char) = false
    /\ negb (bool_decide (c = ";"%char \/ c = ","%char)) = true.
Proof.
  intros Hd. rewrite !bool_decide_eq_false_2; [by split_and!|..]; intros [-> | ->]; discriminate Hd.
Qed.

Lemma sscan_format n : 0 <= n <= max_int64 -> sscan_int (format_int n) = Some n.
Proof.
  intros Hn. destruct (format_int_digits n) as (Hne & Hd & _); [lia|].
  pose proof (parse_format_int n ltac:(unfold min_int64; lia)) as Hp.
  unfold sscan_int. destruct (format_int n) as [|c s] eqn:E; [done|].
  pose proof Hd as Hd'. cbn [forallb] in Hd'. apply andb_true_iff in Hd' as [Hc _].
  destruct (digit_not_blank c Hc) as (Hb1 & Hb2 & _). cbn [drop_while]. rewrite Hb1, Hb2.
  by rewrite take_digits_all.
Qed.

(** What [Sign] writes into Signature-Input is read back. *)
Lemma createdFrom_params created :
  0 <= created <= max_int64 -> createdFrom (str "sig1=" ++ signatureParams created) = Ok created.
Proof.
  intros Hc. unfold createdFrom, signatureParams.
  set (tl := format_int created ++ signature_params_tail).
  assert (index created_marker (str "sig1=" ++ signature_params_head ++ created_marker ++ tl)
          = Some (length (str "sig1=" ++ signature_params_head))) as -> by (cbv -[app tl]; reflexivity).
  rewrite (app_assoc (str "sig1=")), (app_assoc _ created_marker), <- length_app, drop_app_length.
  assert (drop_while (fun c => negb (bool_decide (c = ";"%char \/ c = ","%char))) tl = signature_params_tail) as ->.
  { unfold tl. destruct (format_int_digits created) as (_ & Hd & _); [lia|].
    rewrite drop_while_all; [done|]. apply forallb_Forall in Hd.
    eapply list.Forall_impl; [exact Hd|]. intros c Hdig. by destruct (digit_not_blank c Hdig) as (_ & _ & ?). }
  unfold tl. rewrite length_app, Nat.add_sub, take_app_length. by rewrite sscan_format.
Qed.

Lemma trim_colons_wrapped s :
  ":"%char ∉ s -> s <> [] -> trim_colons (str ":" ++ s ++ str ":") = s.
Proof.
  intros Hs Hne. unfold trim_colons. cbn zeta.
  assert (Hd : forall l rest, ":"%char ∉ l -> l <> [] ->
    drop_while (fun c => bool_decide (c = ":"%char)) (l ++ rest) = l ++ rest).
  { intros [|c l] rest Hl Hn; [done|]. apply not_elem_of_cons in Hl as [Hc _]. cbn.
    by rewrite bool_decide_eq_false_2 by congruence. }
  change (drop_while _ (str ":" ++ s ++ str ":"))
    with (drop_while (fun c => bool_decide (c = ":"%char)) (s ++ str ":")).
  rewrite (Hd s) by done. rewrite rev_app_distr.
  change (drop_while _ (rev (str ":") ++ rev s))
    with (drop_while (fun c => bool_decide (c = ":"%char)) (rev s)).
  assert (rev s <> []) as Hr by (intros E; apply Hne; by rewrite <- (rev_involutive s), E).
  rewrite <- (app_nil_r (rev s)), Hd; [by rewrite app_nil_r, rev_involutive| |done].
  by rewrite list_elem_of_In, <- in_rev, <- list_elem_of_In.
Qed.

(** A receiver accepts exactly what was signed: a delivery signed for a
    method, target and body verifies under the same secret within five minutes of
    the second it was created in, and is refused as stale outside. *)
Theorem webhook_Verify_Sign method targetURI targetURI' body secret created now :
  0 <= unix created <= max_int64 ->
  NormalizeTarget targetURI' = NormalizeTarget targetURI ->
  Verify method targetURI' body secret (str "sig1=" ++ signatureParams (unix created))
    (str "sig1=:" ++ base64_std_encode (signature_of method targetURI body secret (unix created)) ++ str ":") now
  = if Z.abs (now - unix created * Second) <=? ReplayWindow then Ok tt
    else Err (errors_New (str "signature timestamp is outside the 5m0s replay window")).
Proof.
  intros Hc Ht. unfold Verify. rewrite createdFrom_params by done.
  set (age := now - unix created * Second).
  assert (((ReplayWindow <? age) || (age <? - ReplayWindow)) = negb (Z.abs age <=? ReplayWindow)) as ->.
  { apply eq_true_iff_eq. boolify. lia. }
  destruct (Z.abs age <=? ReplayWindow); cbn [negb]; [|done].
  set (sig := base64_std_encode _).
  change (str "sig1=:" ++ sig ++ str ":") with (str "sig1=" ++ (str ":" ++ sig ++ str ":")).
  rewrite trim_prefix_app, trim_colons_wrapped.
  - unfold sig. rewrite base64_std_roundtrip. rewrite bool_decide_eq_true_2; [done|].
    unfold signature_of, SignatureBase. by rewrite Ht.
  - apply base64_std_no_colon.
  - intros E. pose proof (base64_std_roundtrip (signature_of method targetURI body secret (unix created))) as Hr.
    fold sig in Hr. rewrite E in Hr. change (base64_std_decode []) with (Some (@nil ascii)) in Hr.
    apply Some_inj in Hr.
    pose proof (length_hmac secret (SignatureBase method targetURI (ContentDigest body) (unix created))) as Hl.
    fold (signature_of method targetURI body secret (unix created)) in Hl. rewrite <- Hr in Hl. discriminate Hl.
Qed.



End Sign.

Lemma webhook_Verify_Sign_witness :
  Verify (H := ascii_tables) (H0 := plain_url_lib) (str "POST") (str "https://y.io/") (str "{}") (str "s")
    (str "sig1=" ++ signatureParams (unix (7 * Second)))
    (str "sig1=:" ++ base64_std_encode (signature_of (H := ascii_tables) (H0 := plain_url_lib)
       (str "POST") (str "https://y.io/") (str "{}") (str "s") (unix (7 * Second))) ++ str ":")
    (8 * Second) = Ok tt.
Proof.
  rewrite (webhook_Verify_Sign (H := ascii_tables) (H0 := plain_url_lib) (str "POST") (str "https://y.io/")
             (str "https://y.io/") (str "{}") (str "s") (7 * Second) (8 * Second)).
  - reflexivity.
  - vm_compute. split; discriminate.
  - reflexivity.
Defined.

(** An endpoint that has moved is asked again with a GET without the event, and its
    answer to that counts as delivery. *)
Theorem redirect_drops_event :
  let moved_on := {| e_others := id; e_delay := 0; e_fault := NoFault; e_begin := None; e_tx_faults := [];
     e_locked_message := fun _ => false; e_locked_delivery := fun _ => false; e_entropy := Ok [];
     e_http := Ok (Answer 301 (str "z.io")); e_stale := 0; e_dns := NotFound; e_ips := e_ips calm |} in
  let out := run (Sender_Send (H := ascii_tables) (H0 := plain_url_lib) (str "y.io") (str "s") (str "{}"))
               [calm; calm; moved_on] (World empty_db 0 []) in
  res_Outcome (result_of out) = Delivered
  /\ (fun x => (hr_method (ex_request x), hr_body (ex_request x))) <$> w_requests (world_of out)
     = [(str "POST", str "{}"); (str "GET", [])].
Proof. vm_compute. split; reflexivity. Qed.
