(* ===== verification/StoreRecipients.v ===== *)
(** * internal/store: recipients.go, suppressions.go

    Recipient lists at rest (encrypted under the keeper when there is one,
    always hashed) and the suppression list, which is looked up by the hash of
    the normalised address. *)

From S2P Require Import Prelude Utf8 GoStrings Sha256 Crypto Schema Program GoJson.
Local Open Scope Z_scope.
Local Open Scope go_scope.

(** The text of the error [json.Unmarshal] answers on a payload it refuses. *)
Class JsonErrors := { json_error_text : gostring -> gostring }.

(** [json.Marshal] and [json.Unmarshal] of a [[]string] *)
Definition marshal_strings (l : list gostring) : result gostring := Ok (json_of_strings l).

Definition unmarshal_strings `{JsonErrors} (payload : gostring) : result (list gostring) :=
  match unmarshal_list payload with
  | Some l => Ok l
  | None => Err (errors_New (json_error_text payload))
  end.

(** Strings that are not valid UTF-8 are altered by the encoder. *)
Lemma unmarshal_marshal `{JsonErrors} l payload :
  Forall (fun s => valid_utf8 s = true) l -> marshal_strings l = Ok payload -> unmarshal_strings payload = Ok l.
Proof. intros Hl [= <-]. unfold unmarshal_strings. by rewrite unmarshal_list_encoded, to_valid_all. Qed.

(** The [Store] struct, less the connection pool. *)
Record Store := { keeper : option Keeper }.

Definition UseKeeper (s : Store) (k : Keeper) : Store := {| keeper := Some k |}.

(** [ErrNotFound] of keys.go *)
Definition ErrNotFound : error := Error (Some store_ErrNotFound) (str "not found").

Section Recipients.
Context `{UnicodeTables} `{JsonErrors}.

Definition normalizeAddress (address : gostring) : gostring := to_lower (trim_space address).

Definition SuppressionHash (address : gostring) : gostring := sha256 (normalizeAddress address).

Lemma normalizeAddress_twice `{!LowerLaws} address :
  valid_utf8 address = true -> normalizeAddress (normalizeAddress address) = normalizeAddress address.
Proof. apply lower_trim_twice. Qed.

(** The ciphertext, the hashes and the clear list of a new row. *)
Record packed := Packed {
  pk_encrypted : option gostring;
  pk_hashes : list gostring;
  pk_clear : option (list gostring);
}.

Definition packRecipients (s : Store) (rand : entropy) (recipients : list gostring) : result packed :=
  let hashes := SuppressionHash <$> recipients in
  match keeper s with
  | None => Ok (Packed None hashes (Some recipients))
  | Some k =>
      match marshal_strings recipients with
      | Err e => Err (wrap_w (str "encoding recipients") e)
      | Ok payload =>
          match Wrap k rand payload with
          | Err e => Err (wrap_w (str "encrypting recipients") e)
          | Ok encrypted => Ok (Packed (Some encrypted) hashes None)
          end
      end
  end.

(** A [NULL] column is scanned as a nil slice. *)
Definition unpackRecipients (s : Store) (encrypted : option gostring) (clear : option (list gostring))
    : result (list gostring) :=
  let encrypted := default [] encrypted in
  if bool_decide (encrypted = []) then Ok (default [] clear)
  else match keeper s with
       | None => Err (errors_New (str "recipients are encrypted but no master key is configured"))
       | Some k =>
           match Unwrap k encrypted with
           | Err e => Err (wrap_w (str "decrypting recipients") e)
           | Ok payload =>
               match unmarshal_strings payload with
               | Err e => Err (wrap_w (str "decoding recipients") e)
               | Ok recipients => Ok recipients
               end
           end
       end.

(** ** The suppression list *)

Context `{Postgres}.

(** The [CHECK] on suppressions.reason *)
Definition reason_ok (reason : gostring) : bool :=
  bool_decide (reason ∈ [str "hard_bounce"; str "complaint"; str "manual"; str "unsubscribe";
                         str "spam_trap"]).

Definition suppress_stmt (address hash reason detail messageID : gostring) : statement () :=
  fun env db =>
    ensure (text_ok address && text_ok reason && text_ok detail && text_ok messageID) invalid_text
    (ensure (reason_ok reason) check_violation
    match suppressions db !! hash with
    | Some _ => Ok (tt, db)
    | None =>
        ensure (bool_decide (messageID = [] \/ is_Some (messages db !! messageID))) foreign_key_violation
          (Ok (tt, set_suppressions
                 <[hash := SuppressionRec address reason detail
                             (if bool_decide (messageID = []) then None else Some messageID)
                             (se_now env)]> db))
    end).

Definition Suppress (s : Store) (address reason detail messageID : gostring) : prog (result ()) :=
  exec_wrapped (str "suppressing address")
    (suppress_stmt (normalizeAddress address) (SuppressionHash address) reason detail messageID).

Definition IsSuppressed (s : Store) (address : gostring) : prog (result bool) :=
  exec_wrapped (str "checking suppression")
    (query (fun _ db => bool_decide (is_Some (suppressions db !! SuppressionHash address)))).

(** [SELECT address_hash FROM suppressions WHERE address_hash = ANY($1)] *)
Definition suppressed_among (hashes : list gostring) (db : DB) : list gostring :=
  base.filter (fun h => h ∈ hashes) (rows (suppressions db)).*1.

Definition FilterSuppressed (s : Store) (addresses : list gostring)
    : prog (result (list gostring * list gostring)) :=
  if bool_decide (addresses = []) then Ret (Ok ([], []))
  else
    let hashes := SuppressionHash <$> addresses in
    Do (Stmt (query (fun _ db => suppressed_among hashes db))) (fun r =>
      match r with
      | Err e => Ret (Err (wrap_w (str "loading suppressions") e))
      | Ok found =>
          Ret (Ok (base.filter (fun a => SuppressionHash a ∉ found) addresses,
                   base.filter (fun a => SuppressionHash a ∈ found) addresses))
      end).

Definition Unsuppress (s : Store) (address : gostring) : prog (result ()) :=
  exec_wrapped (str "removing suppression")
    (fun _ db => Ok (tt, set_suppressions (delete (SuppressionHash address)) db)).

Record Suppression := {
  sp_Address : gostring; sp_Reason : gostring; sp_Detail : gostring; sp_CreatedAt : Z }.

Definition ListSuppressions (s : Store) (limit : nat) : prog (result (list Suppression)) :=
  exec_wrapped (str "listing suppressions")
    (query (fun _ db =>
       take limit (order_by (fun x => [- sp_CreatedAt x])
         ((fun '(_, r) => Build_Suppression (sup_address r) (sup_reason r) (sup_detail r) (sup_created_at r))
            <$> rows (suppressions db))))).

(** ** Lemmas *)

Definition suppressed (db : DB) (address : gostring) : Prop :=
  is_Some (suppressions db !! SuppressionHash address).

Lemma elem_of_suppressed_among hashes db h :
  h ∈ suppressed_among hashes db <-> h ∈ hashes /\ is_Some (suppressions db !! h).
Proof.
  unfold suppressed_among. rewrite list_elem_of_filter, list_elem_of_fmap.
  split.
  - intros [Hh ((h' & r) & -> & Hr)]. split; [done|]. exists r. by apply elem_of_rows.
  - intros [Hh [r Hr]]. split; [done|]. exists (h, r). split; [done|]. by apply elem_of_rows.
Qed.

Lemma pack_unpack `{!KeeperLaw k} rand recipients p :
  Forall (fun s => valid_utf8 s = true) recipients ->
  packRecipients {| keeper := Some k |} rand recipients = Ok p ->
  unpackRecipients {| keeper := Some k |} (pk_encrypted p) (pk_clear p) = Ok recipients
  /\ pk_clear p = None.
Proof.
  intros Hv. unfold packRecipients; cbn [keeper].
  destruct (marshal_strings recipients) as [payload|] eqn:Em; [|done].
  destruct (Wrap k rand payload) as [c|] eqn:Ew; [|done]. intros [= <-]; cbn.
  unfold unpackRecipients; cbn.
  rewrite bool_decide_eq_false_2 by (by eapply wrap_nonempty).
  rewrite (unwrap_wrap _ _ _ Ew). by rewrite (unmarshal_marshal _ _ Hv Em).
Qed.

Lemma suppress_stmt_rows address hash reason detail mid env db db' :
  suppress_stmt address hash reason detail mid env db = Ok (tt, db') ->
  (forall h r, suppressions db !! h = Some r -> suppressions db' !! h = Some r)
  /\ is_Some (suppressions db' !! hash)
  /\ messages db' = messages db.
Proof.
  unfold suppress_stmt. rewrite !ensure_Ok. intros (_ & _ & Hd).
  destruct (suppressions db !! hash) as [r|] eqn:E.
  - injection Hd as <-. rewrite E. by eauto.
  - rewrite ensure_Ok in Hd. destruct Hd as [_ [= <-]]. destruct db; cbn in *.
    split_and!; [|by rewrite lookup_insert_eq|done].
    intros h r Hr. rewrite lookup_insert_ne by congruence. done.
Qed.

(** ** Properties *)

(** What a statement that ran left behind, whichever way its answer went. *)
Lemma Suppress_run s a reason detail mid script w :
  let '(e, script') := pop script in
  let here := arrive e w in
  let '(r, (rest, w')) := run (Suppress s a reason detail mid) script w in
  rest = script' /\
  (forall h row, suppressions (w_db here) !! h = Some row -> suppressions (w_db w') !! h = Some row) /\
  messages (w_db w') = messages (w_db here) /\
  (r = Ok tt -> suppressed (w_db w') a).
Proof.
  cbn. destruct (pop script) as [e script']. unfold sem, sem_at, sem_stmt.
  destruct (e_fault e); cbn;
    try (destruct (suppress_stmt _ _ _ _ _ _ _) as [[[] db']|] eqn:E; cbn;
         [apply suppress_stmt_rows in E as (Hk & Hs & Hm)|]);
    split_and!; try done; eauto.
Qed.

(** Suppressing an address never changes a suppression already recorded
    (the first reason is kept), and when it reports success the address is on the
    list, whatever failed or interfered before. *)
Theorem Suppress_keeps_first s a reason detail mid script w :
  let here := arrive (pop script).1 w in
  let after := run (Suppress s a reason detail mid) script w in
  (forall h row, suppressions (w_db here) !! h = Some row ->
     suppressions (db_of after) !! h = Some row)
  /\ (result_of after = Ok tt -> suppressed (db_of after) a).
Proof.
  cbn zeta. pose proof (Suppress_run s a reason detail mid script w) as Hr.
  destruct (pop script) as [e script']. cbn [fst] in *.
  unfold db_of, world_of, result_of.
  destruct (run (Suppress s a reason detail mid) script w) as [r [rest w']]; cbn. naive_solver.
Qed.

#[local] Instance suppressed_dec db a : Decision (suppressed db a).
Proof. unfold suppressed. apply _. Defined.

(** The two lists, against the suppression list of that moment. *)
Lemma FilterSuppressed_run s addresses script w allowed blocked :
  let db := w_db (arrive (pop script).1 w) in
  result_of (run (FilterSuppressed s addresses) script w) = Ok (allowed, blocked) ->
  allowed = base.filter (fun a => ~ suppressed db a) addresses
  /\ blocked = base.filter (suppressed db) addresses.
Proof.
  cbn zeta. unfold FilterSuppressed. case_bool_decide as Hnil; [by subst; intros [= <- <-]|].
  cbn. destruct (pop script) as [e script']. unfold sem, sem_at, sem_stmt, query; cbn.
  assert (Hfound : forall a, a ∈ addresses ->
    (SuppressionHash a ∈ suppressed_among (SuppressionHash <$> addresses) (e_others e (w_db w))
     <-> suppressed (e_others e (w_db w)) a)).
  { intros a Ha. rewrite elem_of_suppressed_among. split; [by intros []|].
    intros Hs. split; [|done]. by apply list_elem_of_fmap_2. }
  destruct (e_fault e); cbn; try done. intros [= <- <-].
  split; apply list_filter_iff'; intros a Ha; by rewrite Hfound.
Qed.

(** [FilterSuppressed] splits the recipients, in order and with nothing lost
    or added, into those whose normalised address is on the list at that moment
    and those whose is not. *)
Theorem FilterSuppressed_partition s addresses script w allowed blocked :
  let db := w_db (arrive (pop script).1 w) in
  result_of (run (FilterSuppressed s addresses) script w) = Ok (allowed, blocked) ->
  Permutation (blocked ++ allowed) addresses
  /\ allowed `sublist_of` addresses /\ blocked `sublist_of` addresses
  /\ (forall a, a ∈ addresses -> (a ∈ blocked <-> suppressed db a) /\ (a ∈ allowed <-> ~ suppressed db a)).
Proof.
  cbn zeta. intros [-> ->]%FilterSuppressed_run. split_and!.
  - apply (filter_app_complement (suppressed _)).
  - apply sublist_filter.
  - apply sublist_filter.
  - intros a Ha. rewrite !list_elem_of_filter. naive_solver.
Qed.

(** Nothing else touches the database meanwhile. *)
Definition quiet (e : env) : Prop := forall db, e_others e db = db.

Lemma quiet_pop script : Forall quiet script -> quiet (pop script).1 /\ Forall quiet (pop script).2.
Proof. destruct 1; done. Qed.

(** An address that was suppressed is held back from then on, however it is
    capitalised or padded: [FilterSuppressed] blocks every spelling with the same
    normal form. *)
Theorem suppressed_address_is_filtered s a b reason detail mid addresses script w allowed blocked :
  Forall quiet script ->
  normalizeAddress b = normalizeAddress a ->
  b ∈ addresses ->
  result_of (run (let! r := Suppress s a reason detail mid in
                  let! split := FilterSuppressed s addresses in Ret (r, split)) script w)
    = (Ok tt, Ok (allowed, blocked)) ->
  b ∈ blocked /\ b ∉ allowed.
Proof.
  intros Hq Hn Hb. rewrite run_bind.
  pose proof (Suppress_run s a reason detail mid script w) as Hr.
  apply quiet_pop in Hq as [_ Hq]. destruct (pop script) as [e script']; cbn [fst snd] in *.
  destruct (run (Suppress s a reason detail mid) script w) as [r [rest w']].
  destruct Hr as (-> & _ & _ & Hs). rewrite run_bind.
  pose proof (FilterSuppressed_run s addresses script' w' allowed blocked) as Hp.
  apply quiet_pop in Hq as [Hq _]. unfold result_of in *.
  destruct (run (FilterSuppressed s addresses) script' w') as [f [rest' w'']]; cbn in *.
  intros [= -> ->]. destruct (Hp eq_refl) as [-> ->]. rewrite Hq.
  assert (suppressed (w_db w') b) as Hsb.
  { unfold suppressed, SuppressionHash. rewrite Hn. by apply Hs. }
  rewrite !list_elem_of_filter. tauto.
Qed.

End Recipients.

(** ** Concrete instances and witnesses *)

Definition plain_json_errors : JsonErrors := {| json_error_text _ := str "invalid JSON" |}.

Definition empty_world : world := World empty_db 0 [].

Definition clear_store : Store := {| keeper := None |}.

Lemma FilterSuppressed_partition_witness :
  result_of (run (FilterSuppressed (H := ascii_tables) clear_store
                    [str "a@x.io"; str "b@x.io"]) [] empty_world)
    = Ok ([str "a@x.io"; str "b@x.io"], [])
  /\ [str "a@x.io"; str "b@x.io"] `sublist_of` [str "a@x.io"; str "b@x.io"].
Proof.
  split; [vm_compute; reflexivity|].
  apply (FilterSuppressed_partition (H := ascii_tables) clear_store
           [str "a@x.io"; str "b@x.io"] [] empty_world [str "a@x.io"; str "b@x.io"] []).
  vm_compute; reflexivity.
Defined.

Lemma suppressed_address_is_filtered_witness :
  str " bob@X.io" ∈ [str " bob@X.io"] /\ str " bob@X.io" ∉ [str "al@x.io"].
Proof.
  apply (suppressed_address_is_filtered (H := ascii_tables) (H1 := plain_postgres)
           clear_store (str "Bob@x.io") (str " bob@X.io")
           (str "manual") [] [] [str " bob@X.io"; str "al@x.io"] [] empty_world
           [str "al@x.io"] [str " bob@X.io"]).
  - constructor.
  - vm_compute; reflexivity.
  - left.
  - vm_compute; reflexivity.
Defined.
