(* ===== verification/Reading.v ===== *)
(** * Programs that only read

    A program is [read_only] when none of its statements changes the tables,
    whatever their answers; a run of one among quiet surroundings leaves the
    database as it is.  Used by the files that separate a handler's checks from
    its effect. *)

From S2P Require Import Prelude Schema Program StoreRecipients.
Local Open Scope Z_scope.
Local Open Scope go_scope.

Definition reads {A} (q : statement A) : Prop := forall env db a db', q env db = Ok (a, db') -> db' = db.

Definition reads_only {X : Set} (op : effect X) : Prop :=
  match op with
  | Stmt q => reads q
  | Transact _ _ => False
  | _ => True
  end.

Fixpoint read_only {A} (p : prog A) : Prop :=
  match p with
  | Ret _ => True
  | Do op k => reads_only op /\ forall x, read_only (k x)
  end.

Create HintDb reading.

Lemma read_only_bind {A B} (p : prog A) (f : A -> prog B) :
  read_only p -> (forall a, read_only (f a)) -> read_only (bind p f).
Proof.
  intros Hp Hf. induction p as [a|X op k IH]; cbn in *; [done|].
  destruct Hp as [Ho Hk]. split; [done|]. intros x. apply IH, Hk.
Qed.

Lemma reads_query {A} (f : stmt_env -> DB -> A) : reads (query f).
Proof. by intros env db a db' [= _ <-]. Qed.

Lemma reads_ensure `{Postgres} {A} b v (q : statement A) :
  reads q -> reads (fun env db => ensure b v (q env db)).
Proof. intros Hq env db a db' [_ E]%ensure_Ok. by eapply Hq. Qed.

Lemma read_only_exec {A : Set} prefix (q : statement A) : reads q -> read_only (exec_wrapped prefix q).
Proof. by split. Qed.

Lemma read_only_now : read_only (perform Now).
Proof. done. Qed.

Lemma read_only_entropy : read_only (perform Entropy).
Proof. done. Qed.

#[export] Hint Resolve reads_query reads_ensure read_only_exec read_only_now read_only_entropy : reading.

Lemma talks_read_only {A} (p : prog A) : talks p -> read_only p.
Proof.
  induction p as [a|X op k IH]; cbn; [done|]. intros [Ho Hk]. split; [by destruct op|eauto].
Qed.

#[export] Hint Resolve talks_read_only : reading.

(** One reading effect among quiet surroundings: the tables stay, time passes. *)
Lemma sem_reads {X : Set} (op : effect X) e w :
  reads_only op -> quiet e -> w_db (sem op e w).2 = w_db w /\ w_clock w <= w_clock (sem op e w).2.
Proof.
  intros Hop Hq. specialize (Hq (w_db w)). unfold sem. destruct op; cbn in *; try done;
    try (rewrite Hq; split; [done|lia]);
    [|match goal with |- context [slept ?e ?d] => pose proof (slept_nonneg e d) end; rewrite Hq; split; [done|lia]].
  unfold sem_stmt. destruct (e_fault e); cbn; try (rewrite Hq; split; [done|lia]);
    (destruct (q _ _) as [[a db']|] eqn:E; cbn; [|rewrite Hq; split; [done|lia]]);
    apply Hop in E; cbn in E; rewrite E, Hq; (split; [done|lia]).
Qed.

(** A quiet run of a reading program. *)
Lemma read_only_run {A} (p : prog A) script w :
  read_only p -> Forall quiet script ->
  exists a script' w', run p script w = (a, (script', w'))
    /\ w_db w' = w_db w /\ Forall quiet script' /\ w_clock w <= w_clock w'.
Proof.
  revert script w. induction p as [a|X op k IH]; intros script w Hp Hq.
  { exists a, script, w. split_and!; (done || lia). }
  destruct Hp as [Hop Hk]. cbn [run]. apply quiet_pop in Hq as [Hq1 Hq2].
  destruct (pop script) as [e script']; cbn [fst snd] in *.
  destruct (sem_reads op e w Hop Hq1) as [Hdb Hc].
  destruct (sem op e w) as [x w'] eqn:E; cbn in *.
  destruct (IH x script' w' (Hk x) Hq2) as (a & s2 & w2 & -> & H1 & H2 & H3).
  exists a, s2, w2. split_and!; [done|congruence|done|lia].
Qed.

Lemma read_only_then {A B} (p : prog A) (f : A -> prog B) script w :
  read_only p -> Forall quiet script ->
  exists a script' w', run p script w = (a, (script', w'))
    /\ w_db w' = w_db w /\ Forall quiet script' /\ w_clock w <= w_clock w'
    /\ run (bind p f) script w = run (f a) script' w'.
Proof.
  intros Hp Hq. destruct (read_only_run p script w Hp Hq) as (a & s' & w' & E & ? & ? & ?).
  exists a, s', w'. rewrite run_bind, E. done.
Qed.

(** Runs the reading program at the head of a sequence. *)
Ltac read_step a Hrun :=
  match goal with
  | Hq : Forall quiet ?script |- context [run (bind ?p ?f) ?script ?w] =>
      let script' := fresh "script" in let w' := fresh "w" in
      let Hdb := fresh "Hdb" in let Hq' := fresh "Hq" in let Hc := fresh "Hc" in let E := fresh "E" in
      destruct (read_only_then p f script w ltac:(eauto with reading) Hq)
        as (a & script' & w' & Hrun & Hdb & Hq' & Hc & E);
      rewrite E; clear E
  end.

(** Every answer a program can give. *)
Fixpoint returns {A} (P : A -> Prop) (p : prog A) : Prop :=
  match p with
  | Ret a => P a
  | Do op k => forall x, returns P (k x)
  end.

Lemma returns_bind {A B} (P : B -> Prop) (p : prog A) (f : A -> prog B) :
  (forall a, returns P (f a)) -> returns P (bind p f).
Proof. intros Hf. induction p as [a|X op k IH]; cbn; eauto. Qed.

Lemma returns_run {A} (P : A -> Prop) (p : prog A) script w :
  returns P p -> P (result_of (run p script w)).
Proof.
  revert script w. induction p as [a|X op k IH]; intros script w Hp; [done|].
  unfold result_of in *. cbn [run]. destruct (pop script) as [e script'], (sem op e w) as [x w']. by apply IH.
Qed.

Lemma returns_and_then {A B} (P : result B -> Prop) (Q : A -> Prop) (p : prog (result A)) (k : A -> prog (result B)) :
  returns (fun r => forall a, r = Ok a -> Q a) p -> (forall a, Q a -> returns P (k a)) ->
  (forall e, P (Err e)) -> returns P (and_then p k).
Proof.
  intros Hp Hk He. unfold and_then. induction p as [r|X op f IH]; cbn in *; [|by intros x; apply IH].
  destruct r as [a|e]; [by apply Hk, Hp|by apply He].
Qed.

Lemma returns_any {A} (p : prog A) : returns (fun _ => True) p.
Proof. induction p; cbn; eauto. Qed.

Lemma returns_weaken {A} (P Q : A -> Prop) (p : prog A) : (forall a, P a -> Q a) -> returns P p -> returns Q p.
Proof. intros Hw. induction p; cbn; eauto. Qed.
