(* ===== verification/StoreConn.v ===== *)
(** * internal/store/store.go: opening the store and its schema

    The drivers (database/sql with pgx, pgxpool) and the migration tool (goose)
    are the class [DbLib]: what each answers for a connection string.  The
    tables of Schema.v are the migrated ones, so the tool's law is that it leaves
    an up-to-date schema alone. *)

From S2P Require Import Prelude GoStrings Schema Program StoreRecipients Reading.
Local Open Scope Z_scope.
Local Open Scope go_scope.

Class DbLib := {
  (** [sql.Open("pgx", dsn)] *)
  sql_Open : gostring -> result ();
  (** [goose.SetDialect] *)
  goose_SetDialect : gostring -> result ();
  (** [goose.UpContext] and [goose.GetDBVersionContext] *)
  goose_Up : gostring -> statement ();
  goose_GetDBVersion : gostring -> statement Z;
  (** [pgxpool.ParseConfig] and [pgxpool.NewWithConfig] *)
  pgxpool_ParseConfig : gostring -> result ();
  pgxpool_NewWithConfig : gostring -> result ();
  goose_Up_current : forall dsn, reads (goose_Up dsn);
  goose_version_reads : forall dsn, reads (goose_GetDBVersion dsn);
}.

Section Connection.
Context `{DbLib}.

Definition openSQL (dsn : gostring) : result () := wrap_err (str "opening database") (sql_Open dsn).

Definition prepareGoose : result () :=
  wrap_err (str "setting migration dialect") (goose_SetDialect (str "postgres")).

Definition Migrate (dsn : gostring) : prog (result ()) :=
  try! _ := Ret (openSQL dsn) in
  try! _ := Ret prepareGoose in
  exec_wrapped (str "applying migrations") (goose_Up dsn).

Definition SchemaVersion (dsn : gostring) : prog (result Z) :=
  try! _ := Ret (openSQL dsn) in
  try! _ := Ret prepareGoose in
  exec (goose_GetDBVersion dsn).

(** [pool.Ping] *)
Definition Ping (s : Store) : prog (result ()) := exec (query (fun _ _ => tt)).

Definition Open (dsn : gostring) : prog (result Store) :=
  try! _ := Ret (wrap_err (str "parsing database url") (pgxpool_ParseConfig dsn)) in
  try! _ := Ret (wrap_err (str "connecting to database") (pgxpool_NewWithConfig dsn)) in
  let s := {| keeper := None |} in
  try! _ := (let! r := Ping s in Ret (wrap_err (str "database unreachable") r)) in
  Ret (Ok s).

(** ** Lemmas *)

Lemma read_only_and_then {A B} (p : prog (result A)) (k : A -> prog (result B)) :
  read_only p -> (forall a, read_only (k a)) -> read_only (and_then p k).
Proof. intros Hp Hk. apply read_only_bind; [done|]. by intros [a|e]. Qed.

Lemma read_only_plain {A : Set} (q : statement A) : reads q -> read_only (exec q).
Proof. by split. Qed.

Lemma read_only_Ping s : read_only (Ping s).
Proof. apply read_only_plain, reads_query. Qed.

Lemma read_only_Migrate dsn : read_only (Migrate dsn).
Proof. repeat (apply read_only_and_then; [done|intros _]). apply read_only_exec, goose_Up_current. Qed.

Lemma read_only_Open dsn : read_only (Open dsn).
Proof.
  do 2 (apply read_only_and_then; [done|intros _]). cbv zeta.
  apply read_only_and_then; [|done]. apply read_only_bind; [apply read_only_Ping|done].
Qed.

Lemma read_only_SchemaVersion dsn : read_only (SchemaVersion dsn).
Proof. repeat (apply read_only_and_then; [done|intros _]). apply read_only_plain, goose_version_reads. Qed.

(** A store that was opened holds no keeper. *)
Lemma Open_store dsn : returns (fun r => forall s, r = Ok s -> keeper s = None) (Open dsn).
Proof.
  unfold Open, and_then, Ping, exec, perform; cbn.
  destruct (pgxpool_ParseConfig dsn), (pgxpool_NewWithConfig dsn); cbn; try naive_solver.
  intros [[]|e]; naive_solver.
Qed.

End Connection.

#[export] Hint Resolve read_only_and_then read_only_plain read_only_Ping read_only_Migrate read_only_Open
  read_only_SchemaVersion : reading.

(** Every call succeeds on a schema that is up to date. *)
Definition plain_db_lib : DbLib.
Proof.
  refine {| sql_Open _ := Ok tt; goose_SetDialect _ := Ok tt; goose_Up _ := query (fun _ _ => tt);
            goose_GetDBVersion _ := query (fun _ _ => 5); pgxpool_ParseConfig _ := Ok tt;
            pgxpool_NewWithConfig _ := Ok tt |}; intros _; apply reads_query.
Defined.
