(* ===== verification/StoreQueue.v ===== *)
(** * internal/store/queue.go: the message queue

    Claiming, the three ways a claim ends, the audit trail and the count behind
    the hourly ceiling. Each SQL statement is written out as a function on the
    tables; the Go around it decides what its failure means. *)

From S2P Require Import Prelude Utf8 GoStrings Json Crypto Schema Program StoreRecipients.
Local Open Scope Z_scope.
Local Open Scope go_scope.

Record Claimed := {
  c_ID : gostring;
  c_FromAddress : gostring;
  c_Recipients : list gostring;
  c_Subject : gostring;
  c_BodyHTML : gostring;
  c_BodyText : gostring;
  c_Headers : gostring;
  c_Attempts : Z;
}.

(** ** Text helpers *)

Definition truncate (s : gostring) (n : nat) : gostring :=
  if (length s <=? n)%nat then s else take n s.

(** One rune of [appendJSONString]'s loop. *)
Definition json_escape_rune (r : Z) : gostring :=
  if r =? 34 then [backslash; dquote]
  else if r =? 92 then [backslash; backslash]
  else if r =? 10 then [backslash; "n"%char]
  else if r =? 13 then [backslash; "r"%char]
  else if r =? 9 then [backslash; "t"%char]
  else if r <? 32 then [" "%char]
  else encode_rune r.

Definition appendJSONString (dst s : gostring) : gostring :=
  dst ++ [dquote] ++ (runes s ≫= json_escape_rune) ++ [dquote].

Definition reason_open : gostring := "{"%char :: dquote :: str "reason" ++ [dquote; ":"%char].

Definition mustJSONString (reason : gostring) : gostring :=
  appendJSONString reason_open reason ++ ["}"%char].

(** What a reader of the stored JSON gets back: tabs and line breaks survive,
    other control characters become spaces, malformed bytes U+FFFD. *)
Definition sanitize_rune (r : Z) : Z :=
  if (r =? 10) || (r =? 13) || (r =? 9) then r else if r <? 32 then 32 else r.

Definition sanitize (s : gostring) : gostring := encode_runes (sanitize_rune <$> runes s).

Lemma json_tail_plain u rest v tl :
  Forall (fun c => c <> dquote /\ c <> backslash /\ 32 <= byte_val c) u ->
  json_string_tail rest = Some (v, tl) -> json_string_tail (u ++ rest) = Some (u ++ v, tl).
Proof.
  induction 1 as [|c u (Hq & Hb & H32) Hu IH]; intros Hr; [done|]. cbn.
  rewrite !decide_False by done. rewrite (proj2 (Z.ltb_ge _ _)) by lia. by rewrite IH.
Qed.

Lemma byte_val_eq c z : byte_val c = z -> c = byte_of z.
Proof. intros <-. by rewrite byte_of_val. Qed.

Lemma json_tail_escape r rest v tl :
  json_string_tail rest = Some (v, tl) ->
  json_string_tail (json_escape_rune r ++ rest) = Some (encode_rune (sanitize_rune r) ++ v, tl).
Proof.
  intros Hr. unfold json_escape_rune, sanitize_rune.
  destruct (Z.eqb_spec r 34) as [->|H34]; [cbn; by rewrite Hr|].
  destruct (Z.eqb_spec r 92) as [->|H92]; [cbn; by rewrite Hr|].
  destruct (Z.eqb_spec r 10) as [->|H10]; [cbn; by rewrite Hr|].
  destruct (Z.eqb_spec r 13) as [->|H13]; [cbn; by rewrite Hr|].
  destruct (Z.eqb_spec r 9) as [->|H9]; [cbn; by rewrite Hr|].
  destruct (Z.ltb_spec r 32) as [H32|H32]; cbn [orb]; [cbn; by rewrite Hr|].
  apply json_tail_plain; [|done].
  eapply list.Forall_impl; [apply encode_rune_bytes|]. cbn. intros c Hc.
  split_and!; [intros ->; change (byte_val dquote) with 34 in Hc; lia
              |intros ->; change (byte_val backslash) with 92 in Hc; lia|lia].
Qed.

Lemma json_tail_escapes rs rest :
  json_string_tail ((rs ≫= json_escape_rune) ++ dquote :: rest)
  = Some (encode_runes (sanitize_rune <$> rs), rest).
Proof.
  induction rs as [|r rs IH]; [done|]. cbn [mbind list_bind]. rewrite <- app_assoc.
  by apply json_tail_escape.
Qed.

(** The payload written for a reason is one JSON object whose member [reason]
    is the sanitised text. *)
Lemma mustJSONString_reads reason :
  json_single (mustJSONString reason) = Some (str "reason", sanitize reason).
Proof.
  change (json_single (mustJSONString reason)) with
    (match json_string_tail (((runes reason ≫= json_escape_rune) ++ [dquote]) ++ ["}"%char]) with
     | Some (v, [e]) => if decide (e = "}"%char) then Some (str "reason", v) else None
     | _ => None
     end).
  rewrite <- app_assoc. cbn [app]. by rewrite json_tail_escapes.
Qed.

Lemma text_ok_app s t : text_ok s = true -> text_ok t = true -> text_ok (s ++ t) = true.
Proof.
  unfold text_ok. rewrite forallb_app. boolify. intros [? ?] [? ?]. eauto with golib.
Qed.

Lemma text_ok_encode_rune r : r <> 0 -> text_ok (encode_rune r) = true.
Proof.
  intros Hr. unfold text_ok. boolify. split.
  - rewrite <- (app_nil_r (encode_rune r)). apply (valid_utf8_encode_runes [r]).
  - apply forallb_Forall. eapply list.Forall_impl; [apply encode_rune_bytes|]. cbn. intros c Hc.
    boolify. lia.
Qed.

Lemma text_ok_escape r : text_ok (json_escape_rune r) = true.
Proof.
  unfold json_escape_rune. split_ifs. apply text_ok_encode_rune. boolify. lia.
Qed.

(** ... and PostgreSQL accepts it whatever bytes the reason had. *)
Lemma mustJSONString_text_ok reason : text_ok (mustJSONString reason) = true.
Proof.
  unfold mustJSONString, appendJSONString. repeat apply text_ok_app; try done.
  induction (runes reason) as [|r rs IH]; [done|]. cbn. apply text_ok_app; [apply text_ok_escape|done].
Qed.

(** ** Statements *)

Section Queue.
Context `{UnicodeTables} `{JsonErrors} `{Postgres}.

Definition due (env : stmt_env) (r : message_row) : bool :=
  bool_decide (m_status r = queued \/ m_status r = deferred)
  && match m_scheduled_at r with None => true | Some t => t <=? se_now env end
  && match m_locked_until r with None => true | Some t => t <? se_now env end.

(** The inner [SELECT]: due rows nobody holds, oldest first, at most [limit]. *)
Definition claimable (env : stmt_env) (db : DB) : list (gostring * message_row) :=
  base.filter (fun x => due env x.2 && negb (se_locked_message env x.1) = true) (rows (messages db)).

Definition claim_pick (limit : nat) (env : stmt_env) (db : DB) : list (gostring * message_row) :=
  take limit (order_by (fun x : gostring * message_row => [m_created_at x.2]) (claimable env db)).

(** The columns a message row is updated in. *)
Definition with_status (st : message_status) (attempts : Z) (scheduled locked : option Z)
    (last_error : option gostring) (now : Z) (r : message_row) : message_row :=
  let 'MessageRec k d _ f rc re rh su bh bt hd tg _ _ _ _ sg cr _ := r in
  MessageRec k d st f rc re rh su bh bt hd tg attempts scheduled locked last_error sg cr now.

Definition claim_row (now lockFor : Z) (r : message_row) : message_row :=
  with_status sending (m_attempts r + 1) (m_scheduled_at r) (Some (now + lockFor)) (m_last_error r) now r.

(** [UPDATE messages SET ... WHERE id IN (ids)] *)
Definition update_messages (ids : list gostring) (f : message_row -> message_row) (db : DB) : DB :=
  set_messages (map_imap (fun id r => Some (if bool_decide (id ∈ ids) then f r else r))) db.

Definition claim_stmt (limit : nat) (lockFor : Z) : statement (list (gostring * message_row)) :=
  fun env db =>
    let picked := claim_pick limit env db in
    Ok (returning (prod_map id (claim_row (se_now env) lockFor) <$> picked),
        update_messages picked.*1 (claim_row (se_now env) lockFor) db).

(** Scanning one returned row. *)
Definition scan_claimed (s : Store) (x : gostring * message_row) : result Claimed :=
  let '(id, r) := x in
  match unpackRecipients s (m_recipients_encrypted r) (m_recipients r) with
  | Err e => Err e
  | Ok recipients =>
      Ok {| c_ID := id; c_FromAddress := m_from_address r; c_Recipients := recipients;
            c_Subject := m_subject r; c_BodyHTML := m_body_html r; c_BodyText := m_body_text r;
            c_Headers := m_headers r; c_Attempts := m_attempts r |}
  end.

(** [for rows.Next()]: the first row that fails ends the loop. *)
Fixpoint scan_rows {A B} (scan : A -> result B) (l : list A) : result (list B) :=
  match l with
  | [] => Ok []
  | x :: l' =>
      match scan x with
      | Err e => Err e
      | Ok b => match scan_rows scan l' with Err e => Err e | Ok bs => Ok (b :: bs) end
      end
  end.

Definition ClaimMessages (s : Store) (limit : nat) (lockFor : Z) : prog (result (list Claimed)) :=
  Do (Stmt (claim_stmt limit lockFor)) (fun r =>
    match r with
    | Err e => Ret (Err (wrap_w (str "claiming messages") e))
    | Ok rs => Ret (scan_rows (scan_claimed s) rs)
    end).

(** [INSERT INTO message_events] *)
Definition insert_event (messageID eventType payload : gostring) : statement () :=
  fun env db =>
    ensure (text_ok messageID && text_ok eventType) invalid_text
    match jsonb_in payload with
    | None => Err (violation_error invalid_json)
    | Some detail =>
        ensure (bool_decide (is_Some (messages db !! messageID))) foreign_key_violation
          (Ok (tt, set_events (fun m => <[next_id m := EventRec messageID eventType detail (se_now env)]> m) db))
    end.

Definition event_payload (detail : gostring) : gostring :=
  if bool_decide (detail = []) then str "{}" else mustJSONString (truncate detail 500).

Definition RecordEvent (s : Store) (messageID eventType detail : gostring) : prog (result ()) :=
  exec_wrapped (str "recording event") (insert_event messageID eventType (event_payload detail)).

(** [UPDATE messages SET status, locked_until = NULL, last_error WHERE id]; the
    row keeps its schedule unless a new one is given. *)
Definition finish_stmt (id : gostring) (st : message_status) (schedule : option Z)
    (last_error : option gostring) : statement () :=
  fun env db =>
    ensure (text_ok id && match last_error with Some t => text_ok t | None => true end) invalid_text
      (Ok (tt, update_messages [id] (fun r =>
             with_status st (m_attempts r)
               (match schedule with Some t => Some t | None => m_scheduled_at r end)
               None last_error (se_now env) r) db)).

Definition transition (s : Store) (id : gostring) (status : message_status) (event : gostring)
    (reason : option gostring) : prog (result ()) :=
  let errText := (fun t => truncate t 500) <$> reason in
  Do (Stmt (finish_stmt id status None errText)) (fun r =>
    match r with
    | Err e => Ret (Err (wrap_w (str "updating message status") e))
    | Ok _ => RecordEvent s id event (default [] reason)
    end).

Definition MarkSent (s : Store) (id : gostring) : prog (result ()) :=
  transition s id sent (str "email.sent") None.

Definition MarkDeferred (s : Store) (id : gostring) (retryAt : Z) (reason : gostring) : prog (result ()) :=
  Do (Stmt (finish_stmt id deferred (Some (timestamptz retryAt)) (Some (truncate reason 500)))) (fun r =>
    match r with
    | Err e => Ret (Err (wrap_w (str "deferring message") e))
    | Ok _ => RecordEvent s id (str "email.deferred") reason
    end).

Definition MarkFailed (s : Store) (id reason : gostring) : prog (result ()) :=
  transition s id failed (str "email.failed") (Some reason).

(** Events counted against the ceiling. *)
Definition sent_since (t : Z) (db : DB) : list (Z * event_row) :=
  base.filter (fun x => ev_type x.2 = str "email.sent" /\ t < ev_occurred_at x.2) (rows (message_events db)).

Definition SentInLastHour (s : Store) : prog (result Z) :=
  exec_wrapped (str "counting recent dispatches")
    (query (fun env db => Z.of_nat (length (sent_since (se_now env - Hour) db)))).

Record Event := { evt_Type : gostring; evt_Detail : gostring; evt_OccurredAt : Z }.

Definition EventsForMessage (s : Store) (messageID : gostring) : prog (result (list Event)) :=
  exec_wrapped (A := list Event) (str "loading events")
    (fun env db =>
       ensure (text_ok messageID) invalid_text
         (Ok ((fun '(_, r) => Build_Event (ev_type r) (default [] (jsonb_field (ev_detail r) (str "reason")))
                                (ev_occurred_at r))
                <$> order_by (fun '(id, r) => [ev_occurred_at r; id])
                      (base.filter (fun x : Z * event_row => ev_message_id x.2 = messageID)
                         (rows (message_events db))), db))).

(** ** Lemmas *)

Lemma update_messages_lookup ids f db id :
  messages (update_messages ids f db) !! id
  = (fun r => if bool_decide (id ∈ ids) then f r else r) <$> messages db !! id.
Proof.
  destruct db; cbn. rewrite map_lookup_imap. by destruct (_ !! id).
Qed.

Lemma update_messages_ne ids f db id :
  id ∉ ids -> messages (update_messages ids f db) !! id = messages db !! id.
Proof.
  intros Hn. rewrite update_messages_lookup, bool_decide_eq_false_2 by done.
  by destruct (messages db !! id).
Qed.

Lemma update_messages_eq ids f db id r :
  id ∈ ids -> messages db !! id = Some r ->
  messages (update_messages ids f db) !! id = Some (f r).
Proof. intros Hi Hr. by rewrite update_messages_lookup, Hr, bool_decide_eq_true_2. Qed.

Lemma elem_of_claimable env db id r :
  (id, r) ∈ claimable env db
  <-> messages db !! id = Some r /\ due env r = true /\ se_locked_message env id = false.
Proof.
  unfold claimable. rewrite list_elem_of_filter, elem_of_rows. cbn. boolify. tauto.
Qed.

Lemma NoDup_claimable env db : NoDup (claimable env db).*1.
Proof.
  eapply sublist_NoDup; [apply (NoDup_rows (messages db))|].
  apply fmap_sublist, sublist_filter.
Qed.

Lemma claim_pick_claimable limit env db x : x ∈ claim_pick limit env db -> x ∈ claimable env db.
Proof.
  intros Hx%elem_of_take. destruct Hx as (i & Hx & _).
  apply list_elem_of_lookup_2 in Hx. by rewrite order_by_perm in Hx.
Qed.

Lemma NoDup_claim_pick limit env db : NoDup (claim_pick limit env db).*1.
Proof.
  unfold claim_pick. rewrite fmap_take. eapply sublist_NoDup; [|apply sublist_take].
  rewrite order_by_perm. apply NoDup_claimable.
Qed.

(** Oldest first: what is left behind was created no earlier. *)
Lemma claim_pick_oldest limit env db x y :
  x ∈ claimable env db -> x ∉ claim_pick limit env db ->
  length (claim_pick limit env db) = limit
  /\ (y ∈ claim_pick limit env db -> m_created_at y.2 <= m_created_at x.2).
Proof.
  unfold claim_pick. set (key := fun x : gostring * message_row => [m_created_at x.2]).
  pose proof (order_by_sorted _ key (claimable env db)) as Hs.
  rewrite <- (order_by_perm _ key (claimable env db)) at 1.
  revert Hs. generalize (order_by key (claimable env db)) as l. clear.
  intros l Hs Hx Hnx. rewrite <- (take_drop limit l) in Hx, Hs.
  apply elem_of_app in Hx as [Hx|Hx]; [done|]. split.
  - apply length_take_le. destruct (drop limit l) eqn:E; [by apply elem_of_nil in Hx|].
    assert (length (drop limit l) <> 0)%nat as Hl by (by rewrite E).
    rewrite length_drop in Hl. lia.
  - intros Hy. apply (sorted_app_elem _ _ _ y x) in Hs; [|done..].
    cbn in Hs. destruct (Z.ltb_spec (m_created_at y.2) (m_created_at x.2)); [lia|].
    destruct (Z.eqb_spec (m_created_at y.2) (m_created_at x.2)); [lia|done].
Qed.

Lemma scan_rows_Ok {A B} (scan : A -> result B) l out :
  scan_rows scan l = Ok out -> Forall2 (fun x b => scan x = Ok b) l out.
Proof.
  revert out; induction l as [|x l IH]; intros out; cbn; [by intros [= <-]|].
  destruct (scan x) eqn:E; [|done]. destruct (scan_rows scan l); [|done].
  intros [= <-]. constructor; [done|by apply IH].
Qed.

Lemma scan_rows_Err {A B} (scan : A -> result B) l x e :
  x ∈ l -> scan x = Err e -> exists e', scan_rows scan l = Err e'.
Proof.
  induction l as [|y l IH]; intros Hx He; [by apply elem_of_nil in Hx|]. cbn.
  destruct (scan y) eqn:Ey; [|by eauto].
  apply elem_of_cons in Hx as [->|Hx]; [congruence|]. destruct (IH Hx He) as [e' ->]. eauto.
Qed.

Lemma scan_claimed_id s x c : scan_claimed s x = Ok c -> c_ID c = x.1 /\ c_Attempts c = m_attempts x.2.
Proof. destruct x as [id r]; cbn. destruct (unpackRecipients _ _ _); [|done]. by intros [= <-]. Qed.

Lemma scan_claimed_ids s l cs :
  scan_rows (scan_claimed s) l = Ok cs -> c_ID <$> cs = l.*1.
Proof.
  intros Hf%scan_rows_Ok. induction Hf as [|x c l cs Hx _ IH]; [done|].
  rewrite !fmap_cons, IH. by apply scan_claimed_id in Hx as [-> _].
Qed.

(** Appending an event leaves the messages alone and removes no event. *)
Lemma insert_event_Ok messageID eventType payload env db db' :
  insert_event messageID eventType payload env db = Ok (tt, db') ->
  messages db' = messages db
  /\ exists j, jsonb_in payload = Some j
     /\ message_events db' = <[next_id (message_events db) :=
          EventRec messageID eventType j (se_now env)]> (message_events db).
Proof.
  unfold insert_event. rewrite ensure_Ok. intros [_ Hi]. destruct (jsonb_in payload) as [j|]; [|done].
  rewrite ensure_Ok in Hi. destruct Hi as [_ [= <-]]. destruct db; cbn. eauto.
Qed.

Lemma RecordEvent_run s id type detail script w :
  let here := arrive (pop script).1 w in
  let '(r, (rest, w')) := run (RecordEvent s id type detail) script w in
  rest = (pop script).2 /\ messages (w_db w') = messages (w_db here)
  /\ message_events (w_db here) ⊆ message_events (w_db w')
  /\ (r = Ok tt -> exists n j t, message_events (w_db w') !! n = Some (EventRec id type j t)
                    /\ jsonb_in (event_payload detail) = Some j).
Proof.
  cbn. destruct (pop script) as [e script']; cbn. unfold sem, sem_at, sem_stmt.
  destruct (e_fault e); cbn; try done;
    (destruct (insert_event _ _ _ _ _) as [[[] db']|] eqn:E; cbn; [|by auto]);
    apply insert_event_Ok in E as (Hm & j & Hj & He); cbn in *; rewrite He; split_and!; try done;
    try (apply insert_subseteq, next_id_fresh); intros _; eexists _, j, _; (split; [|done]);
    apply lookup_insert_eq.
Qed.

(** ** Properties *)

(** The tables when the claim reaches them, and after it. *)
Lemma ClaimMessages_run s limit lockFor script w :
  let e := (pop script).1 in
  let here := arrive e w in
  let picked := claim_pick limit (env_of e here) (w_db here) in
  let '(r, (rest, w')) := run (ClaimMessages s limit lockFor) script w in
  rest = (pop script).2 /\ w_requests w' = w_requests w /\
  (forall cs, r = Ok cs ->
     Permutation (c_ID <$> cs) picked.*1
     /\ w_db w' = update_messages picked.*1 (claim_row (w_clock here) lockFor) (w_db here)
     /\ forall c, c ∈ cs -> exists row, (c_ID c, row) ∈ picked /\ c_Attempts c = m_attempts row + 1)
  /\ (w_db w' = w_db here
      \/ w_db w' = update_messages picked.*1 (claim_row (w_clock here) lockFor) (w_db here)).
Proof.
  cbn. destruct (pop script) as [e script']. unfold sem, sem_at, sem_stmt, claim_stmt.
  set (here := arrive e w). set (picked := claim_pick _ _ _).
  destruct (e_fault e); cbn; split_and!; try done; eauto.
  intros cs Hcs. pose proof (scan_claimed_ids _ _ _ Hcs) as Hids. split_and!; [|done|].
  - rewrite Hids, returning_perm, <- list_fmap_compose. done.
  - intros c Hc. apply scan_rows_Ok in Hcs.
    apply list_elem_of_lookup_1 in Hc as [i Hc].
    destruct (Forall2_lookup_r _ _ _ _ _ Hcs Hc) as (x & Hx & [Hid Hatt]%scan_claimed_id).
    apply list_elem_of_lookup_2 in Hx. rewrite returning_perm in Hx.
    apply list_elem_of_fmap in Hx as ((id & row) & -> & Hx).
    exists row. rewrite Hid, Hatt. by destruct row.
Qed.

(** C13: A successful claim takes distinct messages that were due, at most
    [limit] of them and the oldest first (a due message left behind means the
    batch is full of messages created no later), moves exactly those to
    'sending' with one more attempt and a fresh lock, and changes no other. *)
Theorem ClaimMessages_correct s limit lockFor script w cs :
  let e := (pop script).1 in
  let here := arrive e w in
  let env := env_of e here in
  let after := run (ClaimMessages s limit lockFor) script w in
  result_of after = Ok cs ->
  NoDup (c_ID <$> cs) /\ (length cs <= limit)%nat
  /\ (forall c, c ∈ cs -> exists r, messages (w_db here) !! c_ID c = Some r /\ due env r = true
        /\ c_Attempts c = m_attempts r + 1
        /\ messages (db_of after) !! c_ID c = Some (claim_row (w_clock here) lockFor r))
  /\ (forall id, id ∉ c_ID <$> cs -> messages (db_of after) !! id = messages (w_db here) !! id)
  /\ (forall id r, messages (w_db here) !! id = Some r -> due env r = true ->
        se_locked_message env id = false -> id ∉ c_ID <$> cs ->
        length cs = limit /\ forall c rc, c ∈ cs -> messages (w_db here) !! c_ID c = Some rc ->
          m_created_at rc <= m_created_at r).
Proof.
  cbn zeta. pose proof (ClaimMessages_run s limit lockFor script w) as Hrun.
  unfold db_of, world_of, result_of.
  destruct (run (ClaimMessages s limit lockFor) script w) as [r0 [rest w']]; cbn.
  destruct Hrun as (_ & _ & Hok & _). intros ->. destruct (Hok cs eq_refl) as (Hp & -> & Hc). clear Hok.
  set (here := arrive _ _) in *. set (env := env_of _ here) in *.
  set (picked := claim_pick limit env (w_db here)) in *.
  assert (Hlen : length cs = length picked).
  { rewrite <- (length_fmap c_ID cs), Hp. by rewrite length_fmap. }
  assert (Hpk : forall id row, (id, row) ∈ picked -> messages (w_db here) !! id = Some row /\ due env row = true).
  { intros id row Hin%claim_pick_claimable%elem_of_claimable. tauto. }
  split_and!.
  - rewrite Hp. apply NoDup_claim_pick.
  - rewrite Hlen. unfold picked, claim_pick. rewrite length_take. lia.
  - intros c Hin. destruct (Hc c Hin) as (row & Hrow & Hatt). destruct (Hpk _ _ Hrow) as [Hm Hd].
    exists row. split_and!; try done. apply update_messages_eq; [|done].
    apply list_elem_of_fmap. by exists (c_ID c, row).
  - intros id Hid. apply update_messages_ne. by rewrite <- Hp.
  - intros id r Hr Hd Hl Hid. rewrite Hp in Hid.
    assert ((id, r) ∈ claimable env (w_db here)) as Hcl by (by apply elem_of_claimable).
    assert ((id, r) ∉ picked) as Hnp.
    { intros Hin. apply Hid, list_elem_of_fmap. by exists (id, r). }
    rewrite Hlen. split; [by apply (claim_pick_oldest limit _ _ _ (id, r) Hcl Hnp)|].
    intros c rc Hin Hrc. destruct (Hc c Hin) as (row & Hrow & _).
    destruct (Hpk _ _ Hrow) as [Hm _]. pose proof (eq_trans (eq_sym Hrc) Hm) as [= ->].
    by apply (claim_pick_oldest limit _ _ _ (c_ID c, row) Hcl Hnp).
Qed.

(** One row whose recipients cannot be decrypted costs the whole batch: the
    claim reports an error, yet every message it picked is left in 'sending'. *)
Theorem claim_error_strands_batch s limit lockFor script w x err :
  let e := (pop script).1 in
  let here := arrive e w in
  let picked := claim_pick limit (env_of e here) (w_db here) in
  let after := run (ClaimMessages s limit lockFor) script w in
  e_fault e = NoFault ->
  x ∈ picked ->
  unpackRecipients s (m_recipients_encrypted x.2) (m_recipients x.2) = Err err ->
  (exists err', result_of after = Err err')
  /\ forall y, y ∈ picked -> m_status <$> messages (db_of after) !! y.1 = Some sending.
Proof.
  cbn zeta. unfold result_of, db_of, world_of. cbn.
  destruct (pop script) as [e script']; cbn. unfold sem, sem_at, sem_stmt, claim_stmt.
  intros Hf Hx Hu. rewrite Hf; cbn. set (here := arrive e w) in *.
  set (picked := claim_pick _ _ _) in *. split.
  - eapply scan_rows_Err; [rewrite returning_perm; by apply list_elem_of_fmap_2|].
    destruct x as [id [ ]]. cbn in *. by rewrite Hu.
  - intros [id r] Hy; cbn. pose proof Hy as Hr.
    apply claim_pick_claimable, elem_of_claimable in Hr as [Hr _].
    rewrite (update_messages_eq _ _ _ _ r); [by destruct r| |done].
    apply list_elem_of_fmap. by exists (id, r).
Qed.

(** A reason cut in the middle of a character is refused by the database:
    [MarkFailed] and [MarkDeferred] then change nothing and report an error, under
    every outcome, so the message stays as it was claimed. *)
Theorem split_rune_blocks_update s id reason retryAt script w :
  text_ok (truncate reason 500) = false ->
  let here := arrive (pop script).1 w in
  let failed_run := run (MarkFailed s id reason) script w in
  let deferred_run := run (MarkDeferred s id retryAt reason) script w in
  (exists err, result_of failed_run = Err err) /\ db_of failed_run = w_db here
  /\ (exists err, result_of deferred_run = Err err) /\ db_of deferred_run = w_db here.
Proof.
  intros Ht. cbn zeta. unfold result_of, db_of, world_of; cbn.
  destruct (pop script) as [e script']; cbn. unfold sem, sem_at, sem_stmt, finish_stmt, ensure; cbn.
  rewrite Ht, andb_false_r. destruct (e_fault e); cbn; eauto 10.
Qed.

(** The audit trail is readable: a recorded reason comes back from
    [EventsForMessage] as its first 500 bytes with control characters replaced,
    whatever bytes it was made of. *)
Theorem recorded_reason_reads_back s id type detail script w evs :
  Forall quiet script ->
  detail <> [] ->
  result_of (run (let! r := RecordEvent s id type detail in
                  let! evs := EventsForMessage s id in Ret (r, evs)) script w)
    = (Ok tt, Ok evs) ->
  exists t, Build_Event type (sanitize (truncate detail 500)) t ∈ evs.
Proof.
  intros Hq Hd. rewrite run_bind.
  pose proof (RecordEvent_run s id type detail script w) as Hr.
  apply quiet_pop in Hq as [_ Hq]. destruct (run (RecordEvent s id type detail) script w) as [r [rest w']].
  destruct Hr as (-> & _ & _ & Hev). apply quiet_pop in Hq as [Hq _].
  unfold result_of; cbn. destruct (pop (pop script).2) as [e2 script'']; cbn in *.
  unfold sem, sem_at, sem_stmt, ensure; cbn. rewrite Hq.
  destruct (e_fault e2), (text_ok id); cbn; intros; simplify_eq.
  destruct (Hev eq_refl) as (n & j & t & He & Hj). unfold event_payload in Hj.
  rewrite bool_decide_eq_false_2 in Hj by done. exists t. apply list_elem_of_fmap.
  exists (n, EventRec id type j t). cbn.
  destruct (jsonb_single _ _ _ (mustJSONString_text_ok (truncate detail 500))
              (mustJSONString_reads (truncate detail 500))) as (j' & Hj' & Hf).
  rewrite Hj in Hj'. injection Hj' as <-. rewrite Hf. split; [done|].
  rewrite order_by_perm, list_elem_of_filter. split; [done|]. by apply elem_of_rows.
Qed.

End Queue.

(** ** Concrete queues and witnesses *)

Definition sample_row (st : message_status) (created : Z) (encrypted : option gostring) : message_row :=
  {| m_api_key_id := 1; m_domain_id := 1; m_status := st; m_from_address := str "shop@x.io";
     m_recipients := Some [str "ann@y.io"]; m_recipients_encrypted := encrypted;
     m_recipients_hash := []; m_subject := str "Hi"; m_body_html := []; m_body_text := str "Hello";
     m_headers := str "{}"; m_tags := str "{}"; m_attempts := 0; m_scheduled_at := None;
     m_locked_until := None; m_last_error := None; m_signed_at := None;
     m_created_at := created; m_updated_at := created |}.

Definition world_with (l : list (gostring * message_row)) : world :=
  World (set_messages (fun _ => list_to_map l) empty_db) 1000000 [].

(** Two queued messages; the younger one's recipients are encrypted. *)
Definition two_queued : world :=
  world_with [(str "m1", sample_row queued 5 None); (str "m2", sample_row queued 7 (Some (str "??")))].

Definition claim_of (id : gostring) : Claimed :=
  {| c_ID := id; c_FromAddress := str "shop@x.io"; c_Recipients := [str "ann@y.io"];
     c_Subject := str "Hi"; c_BodyHTML := []; c_BodyText := str "Hello"; c_Headers := str "{}";
     c_Attempts := 1 |}.

Lemma ClaimMessages_correct_witness :
  result_of (run (ClaimMessages (H0 := plain_json_errors) (H1 := plain_postgres)
                    clear_store 1 Minute) [] two_queued) = Ok [claim_of (str "m1")]
  /\ NoDup [str "m1"].
Proof.
  split; [vm_compute; reflexivity|].
  apply (ClaimMessages_correct (H0 := plain_json_errors) (H1 := plain_postgres)
           clear_store 1 Minute [] two_queued [claim_of (str "m1")]).
  vm_compute; reflexivity.
Defined.

Lemma claim_error_strands_batch_witness :
  exists err, result_of (run (ClaimMessages (H0 := plain_json_errors) (H1 := plain_postgres)
                                clear_store 10 Minute) [] two_queued) = Err err.
Proof.
  apply (claim_error_strands_batch (H0 := plain_json_errors) (H1 := plain_postgres)
           clear_store 10 Minute [] two_queued
           (str "m2", sample_row queued 7 (Some (str "??")))
           (errors_New (str "recipients are encrypted but no master key is configured"))).
  - reflexivity.
  - apply list_elem_of_lookup_2 with (i := 1%nat). vm_compute. reflexivity.
  - vm_compute. reflexivity.
Defined.

(** 499 letters and a two-byte character. *)
Definition split_reason : gostring := replicate 499 "a"%char ++ ["195"%char; "169"%char].

Lemma split_rune_blocks_update_witness :
  text_ok (truncate split_reason 500) = false
  /\ db_of (run (MarkFailed (H1 := plain_postgres) clear_store (str "m1") split_reason) []
              (world_with [(str "m1", sample_row sending 5 None)]))
     = w_db (world_with [(str "m1", sample_row sending 5 None)]).
Proof.
  split; [vm_compute; reflexivity|].
  apply (split_rune_blocks_update (H1 := plain_postgres) clear_store (str "m1") split_reason 0 []
           (world_with [(str "m1", sample_row sending 5 None)])).
  vm_compute; reflexivity.
Defined.

Lemma recorded_reason_reads_back_witness :
  exists t, Build_Event (str "email.failed") (sanitize (truncate (str "no such user") 500)) t
    ∈ [Build_Event (str "email.failed") (str "no such user") 1001000].
Proof.
  apply (recorded_reason_reads_back (H1 := plain_postgres) clear_store (str "m1")
           (str "email.failed") (str "no such user") [] two_queued).
  - constructor.
  - discriminate.
  - vm_compute; reflexivity.
Defined.
