(* ===== verification/StoreMessages.v ===== *)
(** * internal/store/messages.go: acceptance and idempotency

    A message and its idempotency record are written in one transaction. The
    transaction's statements run on a private copy of the tables that only a
    commit makes visible, so every early return is a rollback. *)

From S2P Require Import Prelude Utf8 GoStrings Crypto Schema Program StoreRecipients.
Local Open Scope Z_scope.
Local Open Scope go_scope.

Definition ErrIdempotencyMismatch : error :=
  Error (Some store_ErrIdempotencyMismatch) (str "idempotency key reused with a different request").
Definition ErrIdempotencyInFlight : error :=
  Error (Some store_ErrIdempotencyInFlight) (str "an identical request is in flight").

Record Domain := { d_ID : Z; d_Name : gostring; d_Status : domain_status }.

Record NewMessage := {
  n_ID : gostring;
  n_APIKeyID : Z;
  n_DomainID : Z;
  n_FromAddress : gostring;
  n_Recipients : list gostring;
  n_Subject : gostring;
  n_BodyHTML : gostring;
  n_BodyText : gostring;
  n_Headers : gostring;
  n_Tags : gostring;
  n_ScheduledAt : option Z;
  n_IdempotencyKey : gostring;
  n_RequestHash : gostring;
}.

(** [store.Message] *)
Record StoredMessage := { s_ID : gostring; s_Status : message_status; s_CreatedAt : Z }.

Fixpoint equalBytes_from (a b : gostring) : bool :=
  match a, b with
  | x :: a', y :: b' => if bool_decide (x = y) then equalBytes_from a' b' else false
  | _, _ => true
  end.

Definition equalBytes (a b : gostring) : bool :=
  if negb (length a =? length b)%nat then false else equalBytes_from a b.

Lemma equalBytes_spec a b : equalBytes a b = true <-> a = b.
Proof.
  unfold equalBytes. destruct (Nat.eqb_spec (length a) (length b)) as [Hl|Hl]; cbn; [|by split; [|intros ->]].
  revert b Hl; induction a as [|x a IH]; intros [|y b]; cbn; try done. intros [= Hl].
  case_bool_decide; [|by split; [|intros [= -> ->]]]. rewrite IH by done. naive_solver.
Qed.

Section Messages.
Context `{UnicodeTables} `{JsonErrors} `{Postgres}.

Definition DomainByName (s : Store) (name : gostring) : prog (result Domain) :=
  Do (Stmt (fun _ db =>
       ensure (text_ok name) invalid_text
         (Ok (head (base.filter (fun x : Z * domain_row => dom_name x.2 = name) (rows (domains db))), db))))
    (fun r => Ret
       match r with
       | Err e => Err (wrap_w (str "loading domain") e)
       | Ok None => Err ErrNotFound
       | Ok (Some (id, d)) => Ok {| d_ID := id; d_Name := dom_name d; d_Status := dom_status d |}
       end).

(** [INSERT INTO idempotency_records ... ON CONFLICT DO NOTHING]: whether a row
    was inserted. *)
Definition insert_idempotency (apiKey : Z) (key hash : gostring) : statement bool :=
  fun env db =>
    ensure (text_ok key) invalid_text
    match idempotency_records db !! (apiKey, key) with
    | Some _ => Ok (false, db)
    | None =>
        ensure (bool_decide (is_Some (api_keys db !! apiKey))) foreign_key_violation
          (Ok (true, set_idempotency
                 <[(apiKey, key) := IdempotencyRec hash None (se_now env) (se_now env + 24 * Hour)]> db))
    end.

(** The record and, through the left join, the message it is linked to. *)
Definition load_idempotency (apiKey : Z) (key : gostring)
    : statement (option (gostring * option StoredMessage)) :=
  query (fun _ db =>
    match idempotency_records db !! (apiKey, key) with
    | None => None
    | Some rec =>
        Some (idem_request_hash rec,
              match idem_message_id rec with
              | None => None
              | Some mid =>
                  (fun m => {| s_ID := mid; s_Status := m_status m; s_CreatedAt := m_created_at m |})
                    <$> messages db !! mid
              end)
    end).

(** [pgx.ErrNoRows] *)
Definition ErrNoRows : error := errors_New (str "no rows in result set").

(** [None] when the key is new, [Some m] when [m] is the earlier result. *)
Definition claimIdempotency (inm : NewMessage) : tx (option StoredMessage) :=
  let% inserted := tx_exec (insert_idempotency (n_APIKeyID inm) (n_IdempotencyKey inm) (n_RequestHash inm)) in
  match inserted with
  | Err e => tx_return (Err (wrap_w (str "claiming idempotency key") e))
  | Ok true => tx_return (Ok None)
  | Ok false =>
      let% loaded := tx_exec (load_idempotency (n_APIKeyID inm) (n_IdempotencyKey inm)) in
      match loaded with
      | Err e => tx_return (Err (wrap_w (str "loading idempotency record") e))
      | Ok None => tx_return (Err (wrap_w (str "loading idempotency record") ErrNoRows))
      | Ok (Some (storedHash, m)) =>
          if negb (equalBytes storedHash (n_RequestHash inm)) then tx_return (Err ErrIdempotencyMismatch)
          else match m with
               | None => tx_return (Err ErrIdempotencyInFlight)
               | Some m => tx_return (Ok (Some m))
               end
      end
  end.

(** The row [insertMessage] writes; columns it leaves out take their default. *)
Definition new_row (inm : NewMessage) (p : packed) (headers tags : gostring) (now : Z) : message_row :=
  {| m_api_key_id := n_APIKeyID inm; m_domain_id := n_DomainID inm; m_status := queued;
     m_from_address := n_FromAddress inm; m_recipients := pk_clear p;
     m_recipients_encrypted := pk_encrypted p; m_recipients_hash := pk_hashes p;
     m_subject := n_Subject inm; m_body_html := n_BodyHTML inm; m_body_text := n_BodyText inm;
     m_headers := headers; m_tags := tags; m_attempts := 0; m_scheduled_at := timestamptz <$> n_ScheduledAt inm;
     m_locked_until := None; m_last_error := None; m_signed_at := None;
     m_created_at := now; m_updated_at := now |}.

Definition insert_message_stmt (inm : NewMessage) (p : packed) : statement StoredMessage :=
  fun env db =>
    ensure (text_ok (n_ID inm) && text_ok (n_FromAddress inm) && text_ok (n_Subject inm)
            && text_ok (n_BodyHTML inm) && text_ok (n_BodyText inm)
            && forallb text_ok (default [] (pk_clear p))) invalid_text
    match jsonb_in (n_Headers inm), jsonb_in (n_Tags inm) with
    | Some headers, Some tags =>
        ensure (bool_decide (messages db !! n_ID inm = None)) unique_violation
        (ensure (bool_decide (is_Some (api_keys db !! n_APIKeyID inm))
                 && bool_decide (is_Some (domains db !! n_DomainID inm))) foreign_key_violation
           (Ok ({| s_ID := n_ID inm; s_Status := queued; s_CreatedAt := se_now env |},
                set_messages <[n_ID inm := new_row inm p headers tags (se_now env)]> db)))
    | _, _ => Err (violation_error invalid_json)
    end.

Definition insertMessage (s : Store) (inm : NewMessage) : tx StoredMessage :=
  let% rand := tx_entropy in
  match packRecipients s rand (n_Recipients inm) with
  | Err e => tx_return (Err e)
  | Ok p =>
      let% r := tx_exec (insert_message_stmt inm p) in
      match r with
      | Err e => tx_return (Err (wrap_w (str "inserting message") e))
      | Ok m => tx_return (Ok m)
      end
  end.

(** [UPDATE idempotency_records SET message_id] *)
Definition link_idempotency (apiKey : Z) (key id : gostring) : statement () :=
  fun _ db => Ok (tt, set_idempotency
    (alter (fun r => IdempotencyRec (idem_request_hash r) (Some id) (idem_created_at r) (idem_expires_at r))
       (apiKey, key)) db).

(** Insert and, when there is a key, link: the part after the replay check. *)
Definition accept (s : Store) (inm : NewMessage) : tx (StoredMessage * bool) :=
  let% msg := insertMessage s inm in
  match msg with
  | Err e => tx_return (Err e)
  | Ok msg =>
      if bool_decide (n_IdempotencyKey inm <> []) then
        let% linked := tx_exec (link_idempotency (n_APIKeyID inm) (n_IdempotencyKey inm) (s_ID msg)) in
        match linked with
        | Err e => tx_return (Err (wrap_w (str "linking idempotency record") e))
        | Ok _ => tx_return (Ok (msg, false))
        end
      else tx_return (Ok (msg, false))
  end.

Definition enqueue_body (s : Store) (inm : NewMessage) : tx (StoredMessage * bool) :=
  if bool_decide (n_IdempotencyKey inm <> []) then
    let% existing := claimIdempotency inm in
    match existing with
    | Err e => tx_return (Err e)
    | Ok (Some m) => tx_return (Ok (m, true))
    | Ok None => accept s inm
    end
  else accept s inm.

Definition commit_prefix (r : StoredMessage * bool) : gostring :=
  if r.2 then str "committing replay" else str "committing message".

(** The message and whether it is a replay. *)
Definition EnqueueMessage (s : Store) (inm : NewMessage) : prog (result (StoredMessage * bool)) :=
  perform (Transact (enqueue_body s inm) commit_prefix).

Definition MessageByID (s : Store) (id : gostring) : prog (result StoredMessage) :=
  Do (Stmt (fun _ db => ensure (text_ok id) invalid_text (Ok (messages db !! id, db))))
    (fun r => Ret
       match r with
       | Err e => Err (wrap_w (str "loading message") e)
       | Ok None => Err ErrNotFound
       | Ok (Some m) => Ok {| s_ID := id; s_Status := m_status m; s_CreatedAt := m_created_at m |}
       end).

(** ** Lemmas *)

Lemma tx_exec_Ok {A} (q : statement A) st a st' :
  tx_exec q st = (Ok a, st') ->
  q (tx_env st) (tx_db st) = Ok (a, tx_db st') /\ tx_env st' = tx_env st /\ tx_rand st' = tx_rand st.
Proof.
  destruct st as [env db faults rand]. unfold tx_exec; cbn.
  destruct (head faults) as [[e|]|]; try done;
    (destruct (q env db) as [[a' db']|e']; [|done]); intros [= -> <-]; done.
Qed.

Lemma messages_set_idempotency f db : messages (set_idempotency f db) = messages db.
Proof. by destruct db. Qed.

(** The id is fresh and the rows a new message refers to exist. *)
Definition insertable (inm : NewMessage) (db : DB) : Prop :=
  messages db !! n_ID inm = None
  /\ is_Some (api_keys db !! n_APIKeyID inm) /\ is_Some (domains db !! n_DomainID inm).

Lemma insertable_set_idempotency inm f db : insertable inm (set_idempotency f db) <-> insertable inm db.
Proof. by destruct db. Qed.

(** What acceptance does to the tables: one new queued row under a fresh id
    and, when the request carries a key, one new record linked to it. *)
Definition accepted (s : Store) (inm : NewMessage) (now : Z) (rand : result gostring) (db db' : DB) : Prop :=
  exists p headers tags,
    packRecipients s rand (n_Recipients inm) = Ok p
    /\ insertable inm db
    /\ (n_IdempotencyKey inm <> [] -> idempotency_records db !! (n_APIKeyID inm, n_IdempotencyKey inm) = None)
    /\ db' = set_messages <[n_ID inm := new_row inm p headers tags now]>
              (if bool_decide (n_IdempotencyKey inm <> [])
               then set_idempotency <[(n_APIKeyID inm, n_IdempotencyKey inm) :=
                      IdempotencyRec (n_RequestHash inm) (Some (n_ID inm)) now (now + 24 * Hour)]> db
               else db).

(** What an earlier acceptance of the same request answers. *)
Definition replays (inm : NewMessage) (db : DB) (m : StoredMessage) : Prop :=
  exists rec row,
    idempotency_records db !! (n_APIKeyID inm, n_IdempotencyKey inm) = Some rec
    /\ idem_request_hash rec = n_RequestHash inm
    /\ idem_message_id rec = Some (s_ID m)
    /\ messages db !! s_ID m = Some row
    /\ s_Status m = m_status row /\ s_CreatedAt m = m_created_at row.

Lemma insertMessage_Ok s inm st m st' :
  insertMessage s inm st = (Ok m, st') ->
  exists p headers tags,
    packRecipients s (tx_rand st) (n_Recipients inm) = Ok p
    /\ insertable inm (tx_db st)
    /\ m = {| s_ID := n_ID inm; s_Status := queued; s_CreatedAt := se_now (tx_env st) |}
    /\ tx_db st' = set_messages <[n_ID inm := new_row inm p headers tags (se_now (tx_env st))]> (tx_db st)
    /\ tx_env st' = tx_env st.
Proof.
  unfold insertMessage, tx_bind, tx_entropy, tx_return.
  destruct (packRecipients s (tx_rand st) (n_Recipients inm)) as [p|]; [|done].
  destruct (tx_exec (insert_message_stmt inm p) st) as [[m'|] st1] eqn:E; [|done]. intros [= -> ->].
  apply tx_exec_Ok in E as (E & Henv & _). unfold insert_message_stmt in E.
  rewrite ensure_Ok in E. destruct E as [_ E].
  destruct (jsonb_in (n_Headers inm)) as [headers|]; [|done].
  destruct (jsonb_in (n_Tags inm)) as [tags|]; [|done].
  rewrite !ensure_Ok in E. destruct E as (Hu%bool_decide_eq_true & Hfk & [= <- <-]). boolify.
  by exists p, headers, tags.
Qed.

Lemma accept_Ok s inm st r st' :
  accept s inm st = (Ok r, st') ->
  exists p headers tags now,
    r = ({| s_ID := n_ID inm; s_Status := queued; s_CreatedAt := now |}, false)
    /\ now = se_now (tx_env st)
    /\ packRecipients s (tx_rand st) (n_Recipients inm) = Ok p
    /\ insertable inm (tx_db st)
    /\ tx_db st' =
        (let db' := set_messages <[n_ID inm := new_row inm p headers tags now]> (tx_db st) in
         if bool_decide (n_IdempotencyKey inm <> [])
         then set_idempotency (alter (fun r => IdempotencyRec (idem_request_hash r) (Some (n_ID inm))
                 (idem_created_at r) (idem_expires_at r)) (n_APIKeyID inm, n_IdempotencyKey inm)) db'
         else db').
Proof.
  unfold accept, tx_bind at 1.
  destruct (insertMessage s inm st) as [[m|] st1] eqn:E; [|done].
  apply insertMessage_Ok in E as (p & headers & tags & Hp & Hu & -> & Hdb & Henv).
  case_bool_decide.
  - unfold tx_bind, tx_return. destruct (tx_exec _ st1) as [[[]|] st2] eqn:E2; [|done].
    intros [= <- <-]. apply tx_exec_Ok in E2 as ([= E2] & _). rewrite Hdb in E2.
    eexists p, headers, tags, _. by rewrite E2.
  - intros [= <- <-]. eexists p, headers, tags, _. by rewrite Hdb.
Qed.

Lemma claimIdempotency_Ok inm st r st' :
  claimIdempotency inm st = (Ok r, st') ->
  tx_env st' = tx_env st /\ tx_rand st' = tx_rand st /\
  match r with
  | Some m => tx_db st' = tx_db st /\ replays inm (tx_db st) m
  | None =>
      idempotency_records (tx_db st) !! (n_APIKeyID inm, n_IdempotencyKey inm) = None
      /\ tx_db st' = set_idempotency <[(n_APIKeyID inm, n_IdempotencyKey inm) :=
           IdempotencyRec (n_RequestHash inm) None (se_now (tx_env st))
             (se_now (tx_env st) + 24 * Hour)]> (tx_db st)
  end.
Proof.
  unfold claimIdempotency, tx_bind, tx_return.
  destruct (tx_exec (insert_idempotency _ _ _) st) as [[ins|] st1] eqn:E; [|done].
  apply tx_exec_Ok in E as (E & Henv & Hrand). unfold insert_idempotency in E.
  rewrite ensure_Ok in E. destruct E as [_ E].
  destruct (idempotency_records (tx_db st) !! _) as [rec|] eqn:Er.
  2:{ rewrite ensure_Ok in E. destruct E as [_ [= <- Hdb]]. intros [= <- <-]. done. }
  injection E as <- Hdb. destruct (tx_exec (load_idempotency _ _) st1) as [[l|] st2] eqn:E2; [|done].
  apply tx_exec_Ok in E2 as ([= E2 Hdb2] & Henv2 & Hrand2). rewrite <- Hdb, Er in E2.
  destruct l as [[storedHash m]|]; [|done]. injection E2 as <- <-.
  destruct (equalBytes _ _) eqn:Heq; cbn; [|done]. apply equalBytes_spec in Heq.
  destruct (idem_message_id rec) as [mid|] eqn:Hmid; [|done].
  destruct (messages (tx_db st) !! mid) as [row|] eqn:Hrow; [|done]. intros [= <- <-].
  split_and!; try congruence. by exists rec, row.
Qed.

Lemma enqueue_body_Ok s inm st r st' :
  enqueue_body s inm st = (Ok r, st') ->
  if r.2 then tx_db st' = tx_db st /\ n_IdempotencyKey inm <> [] /\ replays inm (tx_db st) r.1
  else accepted s inm (se_now (tx_env st)) (tx_rand st) (tx_db st) (tx_db st')
       /\ r.1 = {| s_ID := n_ID inm; s_Status := queued; s_CreatedAt := se_now (tx_env st) |}.
Proof.
  unfold enqueue_body. case_bool_decide as Hkey.
  - unfold tx_bind, tx_return. destruct (claimIdempotency inm st) as [[ex|] st1] eqn:E; [|done].
    apply claimIdempotency_Ok in E as (Henv & Hrand & E). destruct ex as [m|].
    { intros [= <- <-]. naive_solver. }
    destruct E as [Hnone Hdb]. intros Ha%accept_Ok.
    destruct Ha as (p & headers & tags & now & -> & -> & Hp & Hu & Hdb'). cbn.
    rewrite Henv in *. rewrite Hrand in Hp. split; [|done]. exists p, headers, tags. rewrite Hdb in *.
    split_and!; try done; [by rewrite insertable_set_idempotency in Hu|]. rewrite Hdb'. cbn zeta.
    rewrite !bool_decide_eq_true_2 by done. destruct (tx_db st); cbn. f_equal.
    apply map_eq. intros k. destruct (decide (k = (n_APIKeyID inm, n_IdempotencyKey inm))) as [->|Hne].
    + rewrite lookup_alter_eq, !lookup_insert_eq. done.
    + by rewrite lookup_alter_ne, !lookup_insert_ne by done.
  - intros Ha%accept_Ok. destruct Ha as (p & headers & tags & now & -> & -> & Hp & Hu & Hdb'). cbn.
    split; [|done]. exists p, headers, tags. rewrite Hdb'. cbn zeta.
    rewrite !bool_decide_eq_false_2 by tauto. done.
Qed.

(** The four ways a run of [EnqueueMessage] can end. *)
Lemma EnqueueMessage_run s inm script w :
  let e := (pop script).1 in
  let here := arrive e w in
  let after := run (EnqueueMessage s inm) script w in
  (exists err, result_of after = Err err /\ db_of after = w_db here)
  \/ (exists m, result_of after = Ok (m, true) /\ db_of after = w_db here
       /\ n_IdempotencyKey inm <> [] /\ replays inm (w_db here) m)
  \/ (accepted s inm (w_clock here) (e_entropy e) (w_db here) (db_of after)
      /\ (result_of after = Ok ({| s_ID := n_ID inm; s_Status := queued; s_CreatedAt := w_clock here |}, false)
          \/ exists err, result_of after = Err err)).
Proof.
  cbn zeta. unfold result_of, db_of, world_of; cbn. destruct (pop script) as [e script']; cbn.
  unfold sem, sem_at, sem_transact. destruct (e_begin e); cbn; [eauto|].
  destruct (enqueue_body s inm _) as [[[m b]|] st'] eqn:E; [|eauto].
  apply enqueue_body_Ok in E; cbn in E. destruct b.
  - destruct E as (Hdb & Hk & Hrep). destruct (e_fault e); cbn; rewrite ?Hdb; eauto 10.
  - destruct E as [Ha Hm]; cbn in Hm; subst m. destruct (e_fault e); cbn; eauto 10.
Qed.

(** ** Properties *)

(** C7: Acceptance is atomic. Whatever fails, the tables are afterwards either
    untouched or hold exactly one new queued message together with its linked
    idempotency record; success is reported only for the latter, and a replay is
    reported only for the former. *)
Theorem EnqueueMessage_atomic s inm script w :
  let e := (pop script).1 in
  let here := arrive e w in
  let after := run (EnqueueMessage s inm) script w in
  (db_of after = w_db here
   \/ accepted s inm (w_clock here) (e_entropy e) (w_db here) (db_of after))
  /\ (forall m, result_of after = Ok (m, false) ->
        s_ID m = n_ID inm
        /\ accepted s inm (w_clock here) (e_entropy e) (w_db here) (db_of after))
  /\ (forall m, result_of after = Ok (m, true) -> db_of after = w_db here).
Proof.
  cbn zeta. destruct (EnqueueMessage_run s inm script w)
    as [(err & Hr & Hdb)|[(m & Hr & Hdb & _)|[Ha Hr]]].
  - rewrite Hr. naive_solver.
  - rewrite Hr. naive_solver.
  - split_and!; [by right| |]; intros m Hm; destruct Hr as [Hr|[err Hr]]; rewrite Hr in Hm; naive_solver.
Qed.

(** No connection failure during the transaction. *)
Definition reliable (e : env) : Prop :=
  e_fault e = NoFault /\ e_begin e = None /\ Forall (eq None) (e_tx_faults e).

Lemma tx_exec_reliable {A} (q : statement A) st :
  Forall (eq None) (tx_faults st) ->
  exists st', tx_exec q st = (match q (tx_env st) (tx_db st) with Ok (a, _) => Ok a | Err err => Err err end, st')
    /\ Forall (eq None) (tx_faults st') /\ tx_env st' = tx_env st
    /\ tx_db st' = match q (tx_env st) (tx_db st) with Ok (_, db') => db' | Err _ => tx_db st end.
Proof.
  destruct st as [env db faults rand]. cbn. intros Hf. unfold tx_exec; cbn.
  assert (Forall (eq None) (tail faults)) as Ht by (destruct Hf; done).
  destruct Hf as [|f faults' <- Hf]; cbn; destruct (q env db) as [[a db']|err]; eauto.
Qed.

(** The answer to a key that is on record, when nothing fails. *)
Definition replay_answer (inm : NewMessage) (rec : idempotency_row) (db : DB)
    : result (StoredMessage * bool) :=
  if negb (equalBytes (idem_request_hash rec) (n_RequestHash inm)) then Err ErrIdempotencyMismatch
  else match idem_message_id rec ≫= (fun mid => (fun m => (mid, m)) <$> messages db !! mid) with
       | None => Err ErrIdempotencyInFlight
       | Some (mid, m) => Ok ({| s_ID := mid; s_Status := m_status m; s_CreatedAt := m_created_at m |}, true)
       end.

Lemma enqueue_body_recorded s inm st rec :
  Forall (eq None) (tx_faults st) -> n_IdempotencyKey inm <> [] ->
  text_ok (n_IdempotencyKey inm) = true ->
  idempotency_records (tx_db st) !! (n_APIKeyID inm, n_IdempotencyKey inm) = Some rec ->
  (enqueue_body s inm st).1 = replay_answer inm rec (tx_db st).
Proof.
  intros Hf Hk Ht Hrec. unfold enqueue_body. rewrite bool_decide_eq_true_2 by done.
  unfold claimIdempotency, tx_bind, tx_return, replay_answer.
  destruct (tx_exec_reliable (insert_idempotency (n_APIKeyID inm) (n_IdempotencyKey inm) (n_RequestHash inm)) st Hf)
    as (st1 & -> & Hf1 & Henv1 & Hdb1).
  unfold insert_idempotency in *. rewrite Ht, Hrec in *; cbn in *.
  destruct (tx_exec_reliable (load_idempotency (n_APIKeyID inm) (n_IdempotencyKey inm)) st1 Hf1)
    as (st2 & -> & _ & _ & _). unfold load_idempotency, query. rewrite Hdb1, Hrec.
  destruct (equalBytes _ _); cbn; [|done].
  destruct (idem_message_id rec) as [mid|]; cbn; [|done].
  by destruct (messages (tx_db st) !! mid).
Qed.

(** C9: A key that is on record never produces a second message, under any
    outcome: the tables stay as they are, a success is a replay of the recorded
    message for the same request, and (when the connection holds) the same
    request is answered with that message and a different one with
    [ErrIdempotencyMismatch]. *)
Theorem EnqueueMessage_replay s inm script w rec :
  let e := (pop script).1 in
  let here := arrive e w in
  let after := run (EnqueueMessage s inm) script w in
  n_IdempotencyKey inm <> [] ->
  idempotency_records (w_db here) !! (n_APIKeyID inm, n_IdempotencyKey inm) = Some rec ->
  db_of after = w_db here
  /\ (forall m b, result_of after = Ok (m, b) ->
        b = true /\ idem_request_hash rec = n_RequestHash inm /\ idem_message_id rec = Some (s_ID m))
  /\ (reliable e -> text_ok (n_IdempotencyKey inm) = true ->
        result_of after = replay_answer inm rec (w_db here)).
Proof.
  cbn zeta. intros Hk Hrec. split_and!.
  - destruct (EnqueueMessage_run s inm script w) as [(err & Hr & Hdb)|[(m & Hr & Hdb & _)|[Ha _]]]; try done.
    destruct Ha as (p & hd & tg & _ & _ & Hn & _). naive_solver.
  - intros m b Hm. destruct (EnqueueMessage_run s inm script w)
      as [(err & Hr & _)|[(m' & Hr & _ & _ & Hrep)|[Ha _]]].
    + congruence.
    + rewrite Hr in Hm. injection Hm as -> <-. destruct Hrep as (rec' & row & Hrec' & ? & ? & _).
      rewrite Hrec in Hrec'. injection Hrec' as ->. done.
    + destruct Ha as (p & hd & tg & _ & _ & Hn & _). naive_solver.
  - intros (Hf & Hb & Htx) Ht. unfold result_of; cbn. destruct (pop script) as [e script']; cbn in *.
    unfold sem, sem_at, sem_transact. rewrite Hb, Hf.
    pose proof (enqueue_body_recorded s inm (TxState (env_of e (arrive e w)) (w_db (arrive e w))
      (e_tx_faults e) (e_entropy e)) rec Htx Hk Ht Hrec) as Hbody. cbn in Hbody.
    rewrite <- Hbody. by destruct (enqueue_body _ _ _) as [[|] ?].
Qed.

(** Every idempotency record is linked to a message of its own key. *)
Definition idempotency_linked (db : DB) : Prop :=
  forall k rec, idempotency_records db !! k = Some rec ->
    exists mid row, idem_message_id rec = Some mid /\ messages db !! mid = Some row
      /\ m_api_key_id row = k.1.

Lemma accepted_linked s inm now rand db db' :
  accepted s inm now rand db db' -> idempotency_linked db -> idempotency_linked db'.
Proof.
  intros (p & hd & tg & _ & [Hfresh _] & Hn & ->) Hl k rec.
  assert (Hold : idempotency_records db !! k = Some rec ->
    exists mid row, idem_message_id rec = Some mid
      /\ <[n_ID inm := new_row inm p hd tg now]> (messages db) !! mid = Some row /\ m_api_key_id row = k.1).
  { intros (mid & row & Hm & Hr & Hk)%Hl. exists mid, row.
    rewrite lookup_insert_ne by congruence. done. }
  destruct db; cbn in *. case_bool_decide as Hkey; cbn; [|done].
  destruct (decide (k = (n_APIKeyID inm, n_IdempotencyKey inm))) as [->|Hne].
  - rewrite lookup_insert_eq. intros [= <-]. eexists _, _. cbn. rewrite lookup_insert_eq. done.
  - rewrite lookup_insert_ne by done. done.
Qed.

(** The errors of the transaction other than the two sentinels carry a prefix. *)
Ltac other_text :=
  let E := fresh in
  intros E; apply (f_equal (fun r => match r with Err e => head (err_text e) | Ok _ => None end)) in E;
  discriminate E.

Lemma packRecipients_not_in_flight s rand l : packRecipients s rand l <> Err ErrIdempotencyInFlight.
Proof. unfold packRecipients. repeat case_match; try done; other_text. Qed.

Lemma accept_not_in_flight s inm st : (accept s inm st).1 <> Err ErrIdempotencyInFlight.
Proof.
  unfold accept, insertMessage, tx_bind, tx_entropy, tx_return.
  pose proof (packRecipients_not_in_flight s (tx_rand st) (n_Recipients inm)).
  destruct (packRecipients _ _ _) as [p|e]; cbn; [|congruence].
  destruct (tx_exec (insert_message_stmt inm p) st) as [[m|e] st1]; cbn; [|other_text].
  case_bool_decide; cbn; [|done]. destruct (tx_exec _ st1) as [[u|err] st2]; cbn; [done|other_text].
Qed.

Lemma enqueue_body_in_flight s inm st :
  idempotency_linked (tx_db st) -> (enqueue_body s inm st).1 <> Err ErrIdempotencyInFlight.
Proof.
  intros Hl. unfold enqueue_body. case_bool_decide; [|apply accept_not_in_flight].
  unfold claimIdempotency, tx_bind, tx_return.
  destruct (tx_exec (insert_idempotency _ _ _) st) as [[ins|] st1] eqn:E; cbn; [|other_text].
  destruct ins; [apply accept_not_in_flight|].
  apply tx_exec_Ok in E as (E & _ & _). unfold insert_idempotency in E. rewrite ensure_Ok in E.
  destruct E as [_ E]. destruct (idempotency_records (tx_db st) !! _) as [rec|] eqn:Hrec.
  2:{ rewrite ensure_Ok in E. destruct E as [_ E]. discriminate E. }
  injection E as Hdb. destruct (tx_exec (load_idempotency _ _) st1) as [[l|] st2] eqn:E2; cbn; [|other_text].
  apply tx_exec_Ok in E2 as (E2 & _). injection E2 as E2 _. rewrite <- Hdb, Hrec in E2. subst l.
  destruct (equalBytes _ _); cbn; [|other_text].
  destruct (Hl _ _ Hrec) as (mid & row & -> & -> & _). done.
Qed.

(** Acceptance keeps every idempotency record linked to a message of the
    same key, and on such tables the "in flight" error cannot occur. *)
Theorem EnqueueMessage_linked s inm script w :
  let here := arrive (pop script).1 w in
  let after := run (EnqueueMessage s inm) script w in
  idempotency_linked (w_db here) ->
  idempotency_linked (db_of after) /\ result_of after <> Err ErrIdempotencyInFlight.
Proof.
  cbn zeta. intros Hl. split.
  - destruct (EnqueueMessage_run s inm script w) as [(err & Hr & ->)|[(m & Hr & -> & _)|[Ha _]]]; try done.
    by eapply accepted_linked.
  - unfold result_of; cbn. destruct (pop script) as [e script']; cbn in *.
    unfold sem, sem_at, sem_transact. destruct (e_begin e); cbn; [other_text|].
    pose proof (enqueue_body_in_flight s inm (TxState (env_of e (arrive e w)) (w_db (arrive e w))
      (e_tx_faults e) (e_entropy e)) Hl) as Hb.
    destruct (enqueue_body _ _ _) as [[[m b]|err] st']; cbn in *; [|done].
    destruct (e_fault e), b; cbn; try done; other_text.
Qed.

(** C25: Recipients are encrypted at rest and readable to the worker: with a
    keeper attached, an accepted message's clear column is null, and unpacking the
    stored columns gives back exactly the recipients accepted. *)
Theorem accepted_recipients_round_trip k `{!KeeperLaw k} inm script w m :
  let s := {| keeper := Some k |} in
  let after := run (EnqueueMessage s inm) script w in
  Forall (fun r => valid_utf8 r = true) (n_Recipients inm) ->
  result_of after = Ok (m, false) ->
  exists row, messages (db_of after) !! n_ID inm = Some row
    /\ m_recipients row = None
    /\ m_recipients_hash row = SuppressionHash <$> n_Recipients inm
    /\ unpackRecipients s (m_recipients_encrypted row) (m_recipients row) = Ok (n_Recipients inm).
Proof.
  cbn zeta. intros Hv Hr.
  destruct (EnqueueMessage_run {| keeper := Some k |} inm script w)
    as [(err & Hr' & _)|[(m' & Hr' & _)|[Ha _]]]; [congruence..|].
  destruct Ha as (p & hd & tg & Hp & _ & _ & ->).
  exists (new_row inm p hd tg (w_clock (arrive (pop script).1 w))).
  destruct (pack_unpack _ _ _ Hv Hp) as [Hu Hc]. split_and!; try done.
  - case_bool_decide; destruct (w_db (arrive _ w)); cbn; apply lookup_insert_eq.
  - unfold packRecipients in Hp; cbn in Hp. repeat case_match; simplify_eq; done.
Qed.

End Messages.

(** ** A concrete tenant and witnesses *)

(** One verified domain and one API key. *)
Definition tenant_db : DB :=
  set_domains (fun _ => {[ 1 := DomainRec (str "x.io") (str "tok") dom_verified (Some 0) (Some 0) 0 ]})
  (set_api_keys (fun _ => {[ 1 := APIKeyRec (str "k") (str "ae_live") (str "hash") [str "send"] 0
                                   (100 * Hour) None None None 0 ]}) empty_db).

Definition tenant_world : world := World tenant_db 1000 [].

Definition order_mail : NewMessage :=
  {| n_ID := str "msg_1"; n_APIKeyID := 1; n_DomainID := 1; n_FromAddress := str "shop@x.io";
     n_Recipients := [str "ann@y.io"]; n_Subject := str "Hi"; n_BodyHTML := []; n_BodyText := str "Hello";
     n_Headers := str "{}"; n_Tags := str "{}"; n_ScheduledAt := None;
     n_IdempotencyKey := str "order-1"; n_RequestHash := str "h1" |}.

Definition clear_keeper : Keeper :=
  {| Wrap := Envelope_Wrap (H := clear_aead) (str "master");
     Unwrap := Envelope_Unwrap (H := clear_aead) (str "master") |}.

Definition sealed_store : Store := {| keeper := Some clear_keeper |}.

Definition enqueue_order (s : Store) (w : world) :=
  run (EnqueueMessage (H := ascii_tables) (H1 := plain_postgres) s order_mail) [] w.

(** The tables after the first acceptance. *)
Definition accepted_world : world := world_of (enqueue_order clear_store tenant_world).

Lemma EnqueueMessage_replay_witness :
  db_of (enqueue_order clear_store accepted_world) = w_db accepted_world.
Proof.
  apply (EnqueueMessage_replay (H := ascii_tables) (H1 := plain_postgres)
           clear_store order_mail [] accepted_world
           (IdempotencyRec (str "h1") (Some (str "msg_1")) 2000 (2000 + 24 * Hour))).
  - discriminate.
  - vm_compute. reflexivity.
Defined.

Lemma EnqueueMessage_linked_witness :
  result_of (enqueue_order clear_store tenant_world) <> Err ErrIdempotencyInFlight.
Proof.
  apply (EnqueueMessage_linked (H := ascii_tables) (H1 := plain_postgres)
           clear_store order_mail [] tenant_world).
  intros k rec Hk. vm_compute in Hk. discriminate Hk.
Defined.

Lemma accepted_recipients_round_trip_witness :
  exists row, messages (db_of (enqueue_order sealed_store tenant_world)) !! str "msg_1" = Some row
    /\ m_recipients row = None.
Proof.
  destruct (accepted_recipients_round_trip (H := ascii_tables) (H0 := plain_json_errors)
              (H1 := plain_postgres) clear_keeper order_mail [] tenant_world
              {| s_ID := str "msg_1"; s_Status := queued; s_CreatedAt := 2000 |})
    as (row & Hrow & Hnull & _).
  - repeat constructor.
  - vm_compute. reflexivity.
  - exists row. by split.
Defined.
