(* ===== verification/StoreWebhooks.v ===== *)
(** * internal/store/webhooks.go: webhook deliveries and domain proofs *)

From S2P Require Import Prelude Utf8 GoStrings Schema Program StoreRecipients StoreQueue.
Local Open Scope Z_scope.
Local Open Scope go_scope.

Record Endpoint := { ep_ID : Z; ep_URL : gostring; ep_Secret : gostring }.

Record PendingDelivery := {
  pd_ID : Z;
  pd_URL : gostring;
  pd_Secret : gostring;
  pd_Payload : gostring;
  pd_Attempts : Z;
}.

Record DomainProof := {
  dp_ID : Z;
  dp_Name : gostring;
  dp_Token : gostring;
  dp_Status : domain_status;
}.

Section Webhooks.
Context `{Postgres}.

Definition CreateEndpoint (s : Store) (url secret : gostring) : prog (result Endpoint) :=
  exec_wrapped (str "creating endpoint") (fun env db =>
    ensure (text_ok url) invalid_text
      (let id := next_id (webhook_endpoints db) in
       Ok ({| ep_ID := id; ep_URL := url; ep_Secret := secret |},
           set_endpoints <[id := EndpointRec url secret true (se_now env)]> db))).

(** [WHERE active ORDER BY id] *)
Definition active_endpoints (db : DB) : list (Z * endpoint_row) :=
  order_by (fun x : Z * endpoint_row => [x.1])
    (base.filter (fun x : Z * endpoint_row => ep_active x.2 = true) (rows (webhook_endpoints db))).

Definition ActiveEndpoints (s : Store) : prog (result (list Endpoint)) :=
  exec_wrapped (A := list Endpoint) (str "loading endpoints") (query (fun _ db =>
    (fun x => {| ep_ID := x.1; ep_URL := ep_url x.2; ep_Secret := ep_secret x.2 |})
      <$> active_endpoints db)).

(** The unique constraint on (endpoint, event). *)
Definition delivery_exists (endpoint : Z) (event : gostring) (m : gmap Z delivery_row) : bool :=
  existsb (fun x => bool_decide (dl_endpoint_id x.2 = endpoint /\ dl_event_id x.2 = event)) (rows m).

(** One row of the [INSERT ... SELECT ... ON CONFLICT DO NOTHING] *)
Definition insert_delivery (event messageID payload : gostring) (now endpoint : Z)
    (m : gmap Z delivery_row) : gmap Z delivery_row :=
  if delivery_exists endpoint event m then m
  else <[next_id m := DeliveryRec endpoint event messageID payload dl_pending 0 now None None now]> m.

Definition enqueue_delivery_stmt (event messageID payload : gostring) : statement () :=
  fun env db =>
    ensure (text_ok event && text_ok messageID) invalid_text
    match jsonb_in payload with
    | None => Err (violation_error invalid_json)
    | Some body =>
        let active := (active_endpoints db).*1 in
        ensure (bool_decide (active = [] \/ is_Some (messages db !! messageID))) foreign_key_violation
          (Ok (tt, set_deliveries
                 (fun m => foldr (insert_delivery event messageID body (se_now env)) m active) db))
    end.

Definition EnqueueDelivery (s : Store) (eventID messageID payload : gostring) : prog (result ()) :=
  exec_wrapped (str "queueing webhook delivery") (enqueue_delivery_stmt eventID messageID payload).

(** The columns a delivery row is updated in. *)
Definition with_delivery (st : delivery_status) (attempts next : Z) (locked : option Z)
    (last_error : option gostring) (r : delivery_row) : delivery_row :=
  let 'DeliveryRec ep ev mid pl _ _ _ _ _ cr := r in
  DeliveryRec ep ev mid pl st attempts next locked last_error cr.

Definition update_deliveries (ids : list Z) (f : delivery_row -> delivery_row) (db : DB) : DB :=
  set_deliveries (map_imap (fun id r => Some (if bool_decide (id ∈ ids) then f r else r))) db.

Definition delivery_due (env : stmt_env) (r : delivery_row) : bool :=
  bool_decide (dl_status r = dl_pending) && (dl_next_attempt r <=? se_now env)
  && match dl_locked_until r with None => true | Some t => t <? se_now env end.

Definition delivery_pick (limit : nat) (env : stmt_env) (db : DB) : list (Z * delivery_row) :=
  take limit (order_by (fun x : Z * delivery_row => [dl_next_attempt x.2])
    (base.filter (fun x : Z * delivery_row =>
       delivery_due env x.2 && negb (se_locked_delivery env x.1) = true) (rows (webhook_deliveries db)))).

Definition claim_delivery (now lockFor : Z) (r : delivery_row) : delivery_row :=
  with_delivery dl_delivering (dl_attempts r + 1) (dl_next_attempt r) (Some (now + lockFor))
    (dl_last_error r) r.

(** The join with the endpoint drops a delivery whose endpoint is gone. *)
Definition joined (db : DB) (x : Z * delivery_row) : option (Z * delivery_row * endpoint_row) :=
  (fun e => (x, e)) <$> webhook_endpoints db !! dl_endpoint_id x.2.

Definition ClaimDeliveries (s : Store) (limit : nat) (lockFor : Z) : prog (result (list PendingDelivery)) :=
  exec_wrapped (A := list PendingDelivery) (str "claiming deliveries") (fun env db =>
    let picked := omap (joined db) (delivery_pick limit env db) in
    Ok (returning ((fun '(id, r, e) =>
            {| pd_ID := id; pd_URL := ep_url e; pd_Secret := ep_secret e; pd_Payload := dl_payload r;
               pd_Attempts := dl_attempts r + 1 |}) <$> picked),
        update_deliveries picked.*1.*1 (claim_delivery (se_now env) lockFor) db)).

Definition MarkDeliverySucceeded (s : Store) (id : Z) : prog (result ()) :=
  exec_wrapped (str "recording delivery") (fun _ db =>
    Ok (tt, update_deliveries [id] (fun r =>
              with_delivery dl_delivered (dl_attempts r) (dl_next_attempt r) None (dl_last_error r) r) db)).

Definition RescheduleDelivery (s : Store) (id at_ : Z) (reason : gostring) : prog (result ()) :=
  exec_wrapped (str "rescheduling delivery") (fun _ db =>
    ensure (text_ok (truncate reason 500)) invalid_text
      (Ok (tt, update_deliveries [id] (fun r =>
              with_delivery dl_pending (dl_attempts r) (timestamptz at_) None (Some (truncate reason 500)) r) db))).

Definition MarkDeliveryFailed (s : Store) (id : Z) (reason : gostring) : prog (result ()) :=
  exec_wrapped (str "failing delivery") (fun _ db =>
    ensure (text_ok (truncate reason 500)) invalid_text
      (Ok (tt, update_deliveries [id] (fun r =>
              with_delivery dl_failed (dl_attempts r) (dl_next_attempt r) None
                (Some (truncate reason 500)) r) db))).

(** ** Domain proofs *)

Definition domain_due (now olderThan : Z) (d : domain_row) : bool :=
  bool_decide (dom_status d = dom_verified \/ dom_status d = dom_pending)
  && match dom_last_checked_at d with None => true | Some t => t <? now - olderThan end.

Definition DomainsDueForRecheck (s : Store) (olderThan : Z) (limit : nat) : prog (result (list DomainProof)) :=
  exec_wrapped (A := list DomainProof) (str "loading domains for recheck") (query (fun env db =>
    (fun x : Z * domain_row =>
       {| dp_ID := x.1; dp_Name := dom_name x.2; dp_Token := dom_token x.2; dp_Status := dom_status x.2 |})
      <$> take limit (order_by (fun x : Z * domain_row => nulls_first (dom_last_checked_at x.2))
            (base.filter (fun x : Z * domain_row => domain_due (se_now env) olderThan x.2 = true)
               (rows (domains db)))))).

Definition with_check (st : domain_status) (verified checked : option Z) (d : domain_row) : domain_row :=
  DomainRec (dom_name d) (dom_token d) st verified checked (dom_created_at d).

Definition MarkDomainVerified (s : Store) (id : Z) : prog (result ()) :=
  exec_wrapped (str "marking domain verified") (fun env db =>
    Ok (tt, set_domains (alter (fun d =>
          with_check dom_verified
            (match dom_verified_at d with Some t => Some t | None => Some (se_now env) end)
            (Some (se_now env)) d) id) db)).

Definition SuspendDomain (s : Store) (id : Z) : prog (result ()) :=
  exec_wrapped (str "suspending domain") (fun env db =>
    Ok (tt, set_domains (alter (fun d =>
          with_check dom_suspended (dom_verified_at d) (Some (se_now env)) d) id) db)).

Definition TouchDomainCheck (s : Store) (id : Z) : prog (result ()) :=
  exec_wrapped (str "recording domain check") (fun env db =>
    Ok (tt, set_domains (alter (fun d =>
          with_check (dom_status d) (dom_verified_at d) (Some (se_now env)) d) id) db)).

(** ** Lemmas *)

Definition has_delivery (m : gmap Z delivery_row) (endpoint : Z) (event : gostring) : Prop :=
  exists id r, m !! id = Some r /\ dl_endpoint_id r = endpoint /\ dl_event_id r = event.

(** The unique constraint holds. *)
Definition deliveries_unique (m : gmap Z delivery_row) : Prop :=
  forall i j r q, m !! i = Some r -> m !! j = Some q ->
    dl_endpoint_id r = dl_endpoint_id q -> dl_event_id r = dl_event_id q -> i = j.

Lemma delivery_exists_spec endpoint event m :
  delivery_exists endpoint event m = true <-> has_delivery m endpoint event.
Proof.
  unfold delivery_exists. rewrite List.existsb_exists. split.
  - intros ([id r] & Hin & Hb%bool_decide_eq_true). exists id, r.
    split; [|done]. apply elem_of_rows. by apply list_elem_of_In.
  - intros (id & r & Hr & Hk). exists (id, r). split; [|by apply bool_decide_eq_true].
    apply list_elem_of_In. by apply elem_of_rows.
Qed.

Lemma insert_delivery_mono ev mid pl now ep m : m ⊆ insert_delivery ev mid pl now ep m.
Proof. unfold insert_delivery. case_match; [done|]. apply insert_subseteq, next_id_fresh. Qed.

Lemma insert_delivery_has ev mid pl now ep m :
  has_delivery (insert_delivery ev mid pl now ep m) ep ev.
Proof.
  unfold insert_delivery. destruct (delivery_exists ep ev m) eqn:E; [by apply delivery_exists_spec|].
  eexists _, _. rewrite lookup_insert_eq. done.
Qed.

Lemma insert_delivery_unique ev mid pl now ep m :
  deliveries_unique m -> deliveries_unique (insert_delivery ev mid pl now ep m).
Proof.
  unfold insert_delivery. destruct (delivery_exists ep ev m) eqn:E; [done|].
  assert (Hnone : forall i r, m !! i = Some r -> dl_endpoint_id r = ep -> dl_event_id r = ev -> False).
  { intros i r Hr Hep Hev. apply not_true_iff_false in E. apply E, delivery_exists_spec.
    by exists i, r. }
  intros Hu i j r q [[<- <-]|[_ Hi]]%lookup_insert_Some [[<- <-]|[_ Hj]]%lookup_insert_Some; cbn;
    try done; intros; try (by eapply Hu); exfalso; by eapply Hnone.
Qed.

Lemma has_delivery_mono m m' ep ev : m ⊆ m' -> has_delivery m ep ev -> has_delivery m' ep ev.
Proof. intros Hm (i & r & Hr & ?). exists i, r. split; [by eapply lookup_weaken|done]. Qed.

Lemma insert_deliveries ev mid pl now eps m :
  let m' := foldr (insert_delivery ev mid pl now) m eps in
  m ⊆ m' /\ (deliveries_unique m -> deliveries_unique m')
  /\ (forall ep, ep ∈ eps -> has_delivery m' ep ev)
  /\ ((forall ep, ep ∈ eps -> has_delivery m ep ev) -> m' = m).
Proof.
  induction eps as [|ep eps (Hsub & Hu & Hhas & Hid)]; cbn; [by split_and!; [| |intros ? ?%elem_of_nil|]|].
  split_and!.
  - etrans; [exact Hsub|apply insert_delivery_mono].
  - intros Hm. by apply insert_delivery_unique, Hu.
  - intros ep' [->|Hep]%elem_of_cons; [apply insert_delivery_has|].
    eapply has_delivery_mono; [apply insert_delivery_mono|by apply Hhas].
  - intros Hall. rewrite Hid by (intros; apply Hall; by right). unfold insert_delivery.
    by rewrite (proj2 (delivery_exists_spec _ _ _)) by (apply Hall; by left).
Qed.

Lemma set_deliveries_frame f db :
  webhook_endpoints (set_deliveries f db) = webhook_endpoints db
  /\ webhook_deliveries (set_deliveries f db) = f (webhook_deliveries db)
  /\ messages (set_deliveries f db) = messages db.
Proof. by destruct db. Qed.

Lemma active_endpoints_ext db db' :
  webhook_endpoints db = webhook_endpoints db' -> active_endpoints db = active_endpoints db'.
Proof. unfold active_endpoints. by intros ->. Qed.

Definition all_queued (db : DB) (event : gostring) : Prop :=
  forall ep, ep ∈ (active_endpoints db).*1 -> has_delivery (webhook_deliveries db) ep event.

Lemma enqueue_delivery_Ok event mid payload env db db' :
  enqueue_delivery_stmt event mid payload env db = Ok (tt, db') ->
  webhook_deliveries db ⊆ webhook_deliveries db'
  /\ (deliveries_unique (webhook_deliveries db) -> deliveries_unique (webhook_deliveries db'))
  /\ all_queued db' event
  /\ (all_queued db event -> db' = db)
  /\ messages db' = messages db.
Proof.
  unfold enqueue_delivery_stmt. rewrite ensure_Ok. intros [_ Hd].
  destruct (jsonb_in payload) as [body|]; [|done]. rewrite ensure_Ok in Hd. destruct Hd as [_ [= <-]].
  set (f := fun m => foldr _ m _). destruct (set_deliveries_frame f db) as (He & Hd & Hm).
  destruct (insert_deliveries event mid body (se_now env) (active_endpoints db).*1
              (webhook_deliveries db)) as (Hsub & Hu & Hhas & Hid).
  unfold all_queued. rewrite (active_endpoints_ext _ _ He), Hd.
  split_and!; try done. intros Hall. destruct db; cbn in *. f_equal. by apply Hid.
Qed.

Lemma EnqueueDelivery_run s event mid payload script w :
  let here := arrive (pop script).1 w in
  let '(r, (rest, w')) := run (EnqueueDelivery s event mid payload) script w in
  rest = (pop script).2
  /\ (deliveries_unique (webhook_deliveries (w_db here)) -> deliveries_unique (webhook_deliveries (w_db w')))
  /\ (r = Ok tt -> all_queued (w_db w') event)
  /\ (all_queued (w_db here) event -> w_db w' = w_db here)
  /\ messages (w_db w') = messages (w_db here).
Proof.
  cbn. destruct (pop script) as [e script']; cbn. unfold sem, sem_at, sem_stmt.
  destruct (e_fault e); cbn; try done;
    (destruct (enqueue_delivery_stmt _ _ _ _ _) as [[[] db']|] eqn:E; cbn; [|done]);
    apply enqueue_delivery_Ok in E as (_ & Hu & Ha & Hid & Hm); cbn in *; done.
Qed.

(** ** Properties *)

(** Queueing an event twice queues it once. After a successful
    [EnqueueDelivery] every active endpoint has exactly one delivery of the event,
    and repeating the call, even with a different payload and whatever its outcome,
    changes nothing. *)
Theorem EnqueueDelivery_idempotent s event mid mid' payload payload' script w :
  Forall quiet script ->
  deliveries_unique (webhook_deliveries (w_db w)) ->
  let first := run (EnqueueDelivery s event mid payload) script w in
  result_of first = Ok tt ->
  let second := run (EnqueueDelivery s event mid' payload') first.2.1 (world_of first) in
  db_of second = db_of first
  /\ deliveries_unique (webhook_deliveries (db_of first))
  /\ forall ep, ep ∈ (active_endpoints (db_of first)).*1 ->
       has_delivery (webhook_deliveries (db_of first)) ep event.
Proof.
  intros Hq Hu. cbn zeta. pose proof (EnqueueDelivery_run s event mid payload script w) as H1.
  apply quiet_pop in Hq as [Hq1 Hq]. unfold result_of, db_of, world_of.
  destruct (run (EnqueueDelivery s event mid payload) script w) as [r [rest w']]; cbn [fst snd].
  destruct H1 as (-> & Hu' & Hall & _). intros ->.
  pose proof (EnqueueDelivery_run s event mid' payload' (pop script).2 w') as H2.
  apply quiet_pop in Hq as [Hq2 _].
  destruct (run (EnqueueDelivery s event mid' payload') (pop script).2 w') as [r2 [rest2 w'']].
  destruct H2 as (_ & _ & _ & Hid & _). cbn in *. rewrite Hq1, Hq2 in *.
  split_and!; [by apply Hid, Hall|by apply Hu'|by apply Hall].
Qed.

End Webhooks.

(** A tenant with one message and one endpoint. *)
Definition hooked_world : world :=
  World (set_endpoints (fun _ => {[ 1 := EndpointRec (str "https://y.io/hook") (str "s") true 0 ]})
           (w_db (world_with [(str "m1", sample_row sent 5 None)]))) 1000 [].

Lemma EnqueueDelivery_idempotent_witness :
  deliveries_unique (webhook_deliveries (db_of
    (run (EnqueueDelivery (H := plain_postgres) clear_store (str "m1:email.sent:1") (str "m1") (str "{}"))
       [] hooked_world))).
Proof.
  apply (EnqueueDelivery_idempotent (H := plain_postgres) clear_store (str "m1:email.sent:1")
           (str "m1") (str "m1") (str "{}") (str "{}") [] hooked_world).
  - constructor.
  - intros i j r q Hi. vm_compute in Hi. discriminate Hi.
  - vm_compute. reflexivity.
Defined.
