(* ===== verification/StoreKeys.v ===== *)
(** * internal/store: keys.go, dkim.go

    API keys, looked up by hash only, and signing keys, stored wrapped. *)

From S2P Require Import Prelude Utf8 GoStrings Schema Program StoreRecipients StoreQueue.
Local Open Scope Z_scope.
Local Open Scope go_scope.

Record APIKey := {
  k_ID : Z;
  k_Name : gostring;
  k_Prefix : gostring;
  k_Scopes : list gostring;
  k_QuotaPerHour : Z;
  k_ExpiresAt : Z;
  k_RevokedAt : option Z;
  k_LastUsedAt : option Z;
}.

Definition HasScope (k : APIKey) (want : gostring) : bool :=
  existsb (fun s => bool_decide (s = want)) (k_Scopes k).

Definition Revoked (k : APIKey) : bool := match k_RevokedAt k with Some _ => true | None => false end.

(** [!now.Before(k.ExpiresAt)] *)
Definition Expired (k : APIKey) (now : Z) : bool := negb (now <? k_ExpiresAt k).

Record NewAPIKey := {
  nk_Name : gostring;
  nk_Prefix : gostring;
  nk_SecretHash : gostring;
  nk_Scopes : list gostring;
  nk_QuotaPerHour : Z;
  nk_ExpiresAt : Z;
}.

Record SigningKey := {
  sk_ID : Z;
  sk_DomainID : Z;
  sk_Domain : gostring;
  sk_Selector : gostring;
  sk_Algorithm : gostring;
  sk_Wrapped : gostring;
  sk_Record : gostring;
}.

Section Keys.
Context `{Postgres}.

Definition api_key_of (x : Z * api_key_row) : APIKey :=
  let '(id, r) := x in
  {| k_ID := id; k_Name := key_name r; k_Prefix := key_prefix r; k_Scopes := key_scopes r;
     k_QuotaPerHour := key_quota_per_hour r; k_ExpiresAt := key_expires_at r;
     k_RevokedAt := key_revoked_at r; k_LastUsedAt := key_last_used_at r |}.

(** [secret_hash] is unique. *)
Definition key_by_hash (hash : gostring) (db : DB) : option (Z * api_key_row) :=
  head (base.filter (fun x : Z * api_key_row => key_secret_hash x.2 = hash) (rows (api_keys db))).

Definition CreateAPIKey (s : Store) (inm : NewAPIKey) : prog (result APIKey) :=
  exec_wrapped (str "creating api key") (fun env db =>
    ensure (int4_ok (nk_QuotaPerHour inm)) out_of_range
    (ensure (text_ok (nk_Name inm) && text_ok (nk_Prefix inm) && forallb text_ok (nk_Scopes inm)) invalid_text
    (ensure (0 <=? nk_QuotaPerHour inm) check_violation
    (ensure (bool_decide (key_by_hash (nk_SecretHash inm) db = None)) unique_violation
      (let id := next_id (api_keys db) in
       let row := APIKeyRec (nk_Name inm) (nk_Prefix inm) (nk_SecretHash inm) (nk_Scopes inm)
                    (nk_QuotaPerHour inm) (timestamptz (nk_ExpiresAt inm)) None None None (se_now env) in
       Ok (api_key_of (id, row), set_api_keys <[id := row]> db)))))).

Definition APIKeyByHash (s : Store) (hash : gostring) : prog (result APIKey) :=
  Do (Stmt (query (fun _ db => key_by_hash hash db))) (fun r => Ret
    match r with
    | Err e => Err (wrap_w (str "loading api key") e)
    | Ok None => Err ErrNotFound
    | Ok (Some x) => Ok (api_key_of x)
    end).

(** [addr] is [None] for an invalid address. *)
Definition TouchAPIKey (s : Store) (id : Z) (addr : option gostring) : prog (result ()) :=
  exec_wrapped (str "recording key use") (fun env db =>
    Ok (tt, set_api_keys (alter (fun r =>
      APIKeyRec (key_name r) (key_prefix r) (key_secret_hash r) (key_scopes r) (key_quota_per_hour r)
        (key_expires_at r) (key_revoked_at r) (Some (se_now env)) addr (key_created_at r)) id) db)).

Definition revoke_row (now : Z) (r : api_key_row) : api_key_row :=
  APIKeyRec (key_name r) (key_prefix r) (key_secret_hash r) (key_scopes r) (key_quota_per_hour r)
    (key_expires_at r) (Some now) (key_last_used_at r) (key_last_used_ip r) (key_created_at r).

Definition RevokeAPIKey (s : Store) (id : Z) : prog (result ()) :=
  Do (Stmt (fun env db =>
       match api_keys db !! id with
       | Some r => if bool_decide (key_revoked_at r = None)
                   then Ok (1, set_api_keys <[id := revoke_row (se_now env) r]> db)
                   else Ok (0, db)
       | None => Ok (0, db)
       end))
    (fun r => Ret
       match r with
       | Err e => Err (wrap_w (str "revoking key") e)
       | Ok affected => if affected =? 0 then Err ErrNotFound else Ok tt
       end).

(** Messages accepted for a key since [t]. *)
Definition sends_since (keyID t : Z) (db : DB) : list (gostring * message_row) :=
  base.filter (fun x : gostring * message_row => m_api_key_id x.2 = keyID /\ t < m_created_at x.2)
    (rows (messages db)).

Definition SendsInLastHour (s : Store) (keyID : Z) : prog (result Z) :=
  exec_wrapped (str "counting recent sends")
    (query (fun env db => Z.of_nat (length (sends_since keyID (se_now env - Hour) db)))).

(** ** dkim.go *)

Definition CreateSigningKey (s : Store) (domainID : Z) (selector algorithm wrapped record : gostring)
    : prog (result SigningKey) :=
  exec_wrapped (str "storing signing key") (fun env db =>
    ensure (text_ok selector && text_ok algorithm && text_ok record) invalid_text
    (ensure (bool_decide (algorithm = str "ed25519" \/ algorithm = str "rsa")) check_violation
    (ensure (negb (existsb (fun x => bool_decide (dk_domain_id x.2 = domainID /\ dk_selector x.2 = selector))
                     (rows (dkim_keys db)))) unique_violation
    (ensure (bool_decide (is_Some (domains db !! domainID))) foreign_key_violation
      (let id := next_id (dkim_keys db) in
       Ok ({| sk_ID := id; sk_DomainID := domainID; sk_Domain := []; sk_Selector := selector;
              sk_Algorithm := algorithm; sk_Wrapped := wrapped; sk_Record := record |},
           set_dkim <[id := DkimRec domainID selector algorithm wrapped record true (se_now env)]> db)))))).

Definition signing_key_of (domain : gostring) (x : Z * dkim_row) : SigningKey :=
  let '(id, k) := x in
  {| sk_ID := id; sk_DomainID := dk_domain_id k; sk_Domain := domain; sk_Selector := dk_selector k;
     sk_Algorithm := dk_algorithm k; sk_Wrapped := dk_wrapped_secret k; sk_Record := dk_public_record k |}.

(** The newest active key of a domain, joined with the domain's name. *)
Definition newest_key (domainID : Z) (db : DB) : option SigningKey :=
  match domains db !! domainID with
  | None => None
  | Some d =>
      signing_key_of (dom_name d) <$>
        head (order_by (fun x : Z * dkim_row => [- dk_created_at x.2])
          (base.filter (fun x : Z * dkim_row => dk_domain_id x.2 = domainID /\ dk_active x.2 = true)
             (rows (dkim_keys db))))
  end.

Definition one_key (prefix : gostring) (r : result (option SigningKey)) : result SigningKey :=
  match r with
  | Err e => Err (wrap_w prefix e)
  | Ok None => Err ErrNotFound
  | Ok (Some k) => Ok k
  end.

Definition ActiveSigningKey (s : Store) (domainID : Z) : prog (result SigningKey) :=
  Do (Stmt (query (fun _ db => newest_key domainID db)))
    (fun r => Ret (one_key (str "loading signing key") r)).

Definition SigningKeyForMessage (s : Store) (messageID : gostring) : prog (result SigningKey) :=
  Do (Stmt (A := option SigningKey) (fun _ db =>
       ensure (text_ok messageID) invalid_text
         (Ok (messages db !! messageID ≫= fun m => newest_key (m_domain_id m) db, db))))
    (fun r => Ret (one_key (str "loading signing key for message") r)).

Definition with_signed_at (t : Z) (r : message_row) : message_row :=
  let 'MessageRec k d st f rc re rh su bh bt hd tg at_ sc lo le _ cr up := r in
  MessageRec k d st f rc re rh su bh bt hd tg at_ sc lo le (Some t) cr up.

Definition MarkSigned (s : Store) (messageID : gostring) : prog (result ()) :=
  exec_wrapped (str "recording signature") (fun env db =>
    ensure (text_ok messageID) invalid_text
      (Ok (tt, update_messages [messageID] (with_signed_at (se_now env)) db))).

(** ** Lemmas *)

(** The key chosen is an active key of the domain, and no active key of the
    domain is newer. *)
Lemma newest_key_spec domainID db k :
  newest_key domainID db = Some k ->
  exists d row, domains db !! domainID = Some d /\ dkim_keys db !! sk_ID k = Some row
    /\ k = signing_key_of (dom_name d) (sk_ID k, row)
    /\ dk_domain_id row = domainID /\ dk_active row = true
    /\ forall id' row', dkim_keys db !! id' = Some row' -> dk_domain_id row' = domainID ->
         dk_active row' = true -> dk_created_at row' <= dk_created_at row.
Proof.
  unfold newest_key. destruct (domains db !! domainID) as [d|] eqn:Hd; [|done].
  set (key := fun x : Z * dkim_row => [- dk_created_at x.2]).
  set (l := base.filter _ _). pose proof (order_by_sorted _ key l) as Hs.
  pose proof (order_by_perm _ key l) as Hp. destruct (order_by key l) as [|[id row] rest]; [done|].
  intros [= <-]. inversion Hs as [|? ? _ Hall]; subst.
  assert ((id, row) ∈ l) as Hin by (rewrite <- Hp; left).
  apply list_elem_of_filter in Hin as [[Hdom Hact] Hrow%elem_of_rows]. cbn in *.
  exists d, row. split_and!; try done. intros id' row' Hr' Hdom' Hact'.
  assert ((id', row') ∈ l) as Hin'.
  { apply list_elem_of_filter. split; [done|]. by apply elem_of_rows. }
  rewrite <- Hp in Hin'. apply elem_of_cons in Hin' as [[= -> ->]|Hin']; [lia|].
  rewrite list.Forall_forall in Hall. apply Hall in Hin'. unfold key in Hin'. cbn in Hin'.
  destruct (Z.ltb_spec (- dk_created_at row) (- dk_created_at row')); [lia|].
  destruct (Z.eqb_spec (- dk_created_at row) (- dk_created_at row')); [lia|done].
Qed.

(** ** Properties *)

(** A message is signed with the newest active key of its own sending
    domain: what [SigningKeyForMessage] returns is an active key of that domain,
    under that domain's name, and no active key of it is newer. *)
Theorem SigningKeyForMessage_newest s id script w k :
  let db := w_db (arrive (pop script).1 w) in
  result_of (run (SigningKeyForMessage s id) script w) = Ok k ->
  exists m d row, messages db !! id = Some m /\ domains db !! m_domain_id m = Some d
    /\ dkim_keys db !! sk_ID k = Some row /\ k = signing_key_of (dom_name d) (sk_ID k, row)
    /\ dk_domain_id row = m_domain_id m /\ dk_active row = true
    /\ forall id' row', dkim_keys db !! id' = Some row' -> dk_domain_id row' = m_domain_id m ->
         dk_active row' = true -> dk_created_at row' <= dk_created_at row.
Proof.
  cbn zeta. unfold result_of; cbn. destruct (pop script) as [e script']; cbn.
  unfold sem, sem_at, sem_stmt, ensure; cbn.
  destruct (e_fault e), (text_ok id); cbn; try done.
  destruct (messages (e_others e (w_db w)) !! id) as [m|] eqn:Hm; cbn; [|done].
  destruct (newest_key (m_domain_id m) (e_others e (w_db w))) as [k'|] eqn:Hk; [|done].
  intros [= <-]. destruct (newest_key_spec _ _ _ Hk) as (d & row & ?). exists m, d, row. tauto.
Qed.

(** Revocation is final and is reported once: a successful [RevokeAPIKey]
    leaves the key revoked, and revoking it again finds nothing to revoke. *)
Theorem RevokeAPIKey_once s id script w :
  Forall quiet script ->
  let first := run (RevokeAPIKey s id) script w in
  result_of first = Ok tt ->
  (exists r, api_keys (db_of first) !! id = Some r /\ is_Some (key_revoked_at r))
  /\ forall script', quiet (pop script').1 -> e_fault (pop script').1 = NoFault ->
     let second := run (RevokeAPIKey s id) script' (world_of first) in
     result_of second = Err ErrNotFound /\ db_of second = db_of first.
Proof.
  intros Hq. cbn zeta. apply quiet_pop in Hq as [Hq _]. unfold result_of, db_of, world_of; cbn.
  destruct (pop script) as [e sc]; cbn in *. unfold sem, sem_at, sem_stmt; cbn. rewrite Hq.
  destruct (e_fault e); cbn; try done;
    (destruct (api_keys (w_db w) !! id) as [r|] eqn:Hr; cbn; [|done]);
    case_bool_decide; cbn; try done. intros _. split.
  - exists (revoke_row (w_clock w + Z.of_N (e_delay e)) r). split; [|done].
    destruct (w_db w); cbn. apply lookup_insert_eq.
  - intros script' Hq' Hf'. destruct (pop script') as [e' sc']; cbn in *. rewrite Hf', Hq'.
    set (db' := set_api_keys _ _).
    assert (api_keys db' !! id = Some (revoke_row (w_clock w + Z.of_N (e_delay e)) r)) as ->.
    { subst db'. destruct (w_db w); cbn. apply lookup_insert_eq. }
    done.
Qed.

End Keys.

(** ** Witnesses *)

Definition signing_world : world :=
  World (set_dkim (fun _ => {[ 1 := DkimRec 1 (str "s1") (str "ed25519") (str "w1") [] true 5;
                               2 := DkimRec 1 (str "s2") (str "ed25519") (str "w2") [] true 9 ]})
        (set_domains (fun _ => {[ 1 := DomainRec (str "x.io") (str "t") dom_verified None None 0 ]})
        (set_api_keys (fun _ => {[ 1 := APIKeyRec (str "k") (str "p") (str "h") [] 0 10 None None None 0 ]})
           (w_db (world_with [(str "m1", sample_row sending 5 None)]))))) 1000 [].

Lemma SigningKeyForMessage_newest_witness :
  exists m d row, messages (w_db signing_world) !! str "m1" = Some m
    /\ domains (w_db signing_world) !! m_domain_id m = Some d
    /\ dkim_keys (w_db signing_world) !! 2 = Some row.
Proof.
  destruct (SigningKeyForMessage_newest (H := plain_postgres) clear_store (str "m1") [] signing_world
              {| sk_ID := 2; sk_DomainID := 1; sk_Domain := str "x.io"; sk_Selector := str "s2";
                 sk_Algorithm := str "ed25519"; sk_Wrapped := str "w2"; sk_Record := [] |})
    as (m & d & row & Hm & Hd & Hrow & _).
  - vm_compute. reflexivity.
  - by exists m, d, row.
Defined.

Lemma RevokeAPIKey_once_witness :
  result_of (run (RevokeAPIKey clear_store 1) [] signing_world) = Ok tt
  /\ exists r, api_keys (db_of (run (RevokeAPIKey clear_store 1) [] signing_world)) !! 1 = Some r
     /\ is_Some (key_revoked_at r).
Proof.
  split; [vm_compute; reflexivity|].
  apply (RevokeAPIKey_once clear_store 1 [] signing_world); [constructor|vm_compute; reflexivity].
Defined.
