(* ===== verification/Integrity.v ===== *)
(** * The integrity of the tables

    What the migrations declare (unique columns, foreign keys, value checks) and
    what the code keeps beyond that (one form of a message's recipients, a lease
    on everything in flight, a proof date on every verified domain, suppression
    hashes that are hashes of the address beside them, idempotency records linked
    within one tenant).  Each table has its own predicate, so a statement is shown
    to keep the one it writes; [keeps] carries that through a program. *)

From S2P Require Import Prelude Utf8 GoStrings Sha256 Crypto Schema Program StoreRecipients Reading.
From S2P Require Import StoreQueue StoreMessages StoreWebhooks StoreKeys.
Local Open Scope Z_scope.
Local Open Scope go_scope.

(** ** The tables *)

(** No two rows agree on what [f] reads of them. *)
Definition unique {K V B} `{Countable K} (f : V -> B) (m : gmap K V) : Prop :=
  forall i j r q, m !! i = Some r -> m !! j = Some q -> f r = f q -> i = j.

Record domain_ok (d : domain_row) : Prop := {
  dom_proved : dom_status d = dom_verified -> is_Some (dom_verified_at d);
}.

Record key_ok (k : api_key_row) : Prop := {
  key_quota : 0 <= key_quota_per_hour k <= 2147483647;
}.

(** Recipients are kept in clear or encrypted, never both, never neither. *)
Definition one_form (r : message_row) : Prop :=
  m_recipients r = None <-> is_Some (m_recipients_encrypted r).

Record message_ok (d : gmap Z domain_row) (k : gmap Z api_key_row) (r : message_row) : Prop := {
  msg_domain : is_Some (d !! m_domain_id r);
  msg_key : is_Some (k !! m_api_key_id r);
  msg_attempts : 0 <= m_attempts r;
  msg_recipients : one_form r;
  msg_leased : m_status r = sending -> is_Some (m_locked_until r);
}.

Definition event_ok (m : gmap gostring message_row) (e : event_row) : Prop := is_Some (m !! ev_message_id e).

Record record_ok (k : gmap Z api_key_row) (key : Z * gostring) (r : idempotency_row) : Prop := {
  rec_key : is_Some (k !! key.1);
  rec_expiry : idem_expires_at r = idem_created_at r + 24 * Hour;
}.

Record delivery_ok (m : gmap gostring message_row) (w : gmap Z endpoint_row) (r : delivery_row) : Prop := {
  dl_endpoint : is_Some (w !! dl_endpoint_id r);
  dl_message : is_Some (m !! dl_message_id r);
  dl_tries : 0 <= dl_attempts r;
  dl_leased : dl_status r = dl_delivering -> is_Some (dl_locked_until r);
}.

Record signing_ok (d : gmap Z domain_row) (r : dkim_row) : Prop := {
  dk_domain : is_Some (d !! dk_domain_id r);
  dk_known : dk_algorithm r = str "ed25519" \/ dk_algorithm r = str "rsa";
}.

Record suppression_ok (m : gmap gostring message_row) (hash : gostring) (r : suppression_row) : Prop := {
  sup_hash : hash = sha256 (sup_address r);
  sup_known : reason_ok (sup_reason r) = true;
  sup_message : forall id, sup_message_id r = Some id -> is_Some (m !! id);
}.

Record integrity (db : DB) : Prop := {
  ok_domain_names : unique dom_name (domains db);
  ok_domains : map_Forall (fun _ => domain_ok) (domains db);
  ok_key_hashes : unique key_secret_hash (api_keys db);
  ok_keys : map_Forall (fun _ => key_ok) (api_keys db);
  ok_messages : map_Forall (fun _ => message_ok (domains db) (api_keys db)) (messages db);
  ok_events : map_Forall (fun _ => event_ok (messages db)) (message_events db);
  ok_records : map_Forall (record_ok (api_keys db)) (idempotency_records db);
  ok_linked : idempotency_linked db;
  ok_delivery_pairs : deliveries_unique (webhook_deliveries db);
  ok_deliveries : map_Forall (fun _ => delivery_ok (messages db) (webhook_endpoints db)) (webhook_deliveries db);
  ok_selectors : unique (fun k => (dk_domain_id k, dk_selector k)) (dkim_keys db);
  ok_dkim : map_Forall (fun _ => signing_ok (domains db)) (dkim_keys db);
  ok_suppressions : map_Forall (suppression_ok (messages db)) (suppressions db);
}.

Lemma empty_integrity : integrity empty_db.
Proof. split; repeat intro; cbn in *; by simplify_map_eq. Qed.

(** ** Programs that keep a predicate on the tables *)

Section Keeps.
Context (I : DB -> Prop).

Definition stmt_keeps {A} (q : statement A) : Prop :=
  forall env db a db', I db -> q env db = Ok (a, db') -> I db'.

Definition tx_keeps {A} (body : tx A) : Prop :=
  forall s a s', I (tx_db s) -> body s = (Ok a, s') -> I (tx_db s').

Definition op_keeps {X : Set} (op : effect X) : Prop :=
  match op with
  | Stmt q => stmt_keeps q
  | Transact body _ => tx_keeps body
  | _ => True
  end.

Fixpoint keeps {A} (p : prog A) : Prop :=
  match p with
  | Ret _ => True
  | Do op k => op_keeps op /\ forall x, keeps (k x)
  end.

(** What runs beside the program keeps the predicate too. *)
Definition respects (e : env) : Prop := forall db, I db -> I (e_others e db).

Lemma sem_keeps {X : Set} (op : effect X) e w :
  op_keeps op -> respects e -> I (w_db w) -> I (w_db (sem op e w).2).
Proof.
  intros Hop He Hw. specialize (He _ Hw). unfold sem. destruct op; cbn in *; try done.
  - unfold sem_stmt. destruct (e_fault e); cbn; [|done|];
      (destruct (q _ _) as [[a db']|] eqn:E; cbn; [exact (Hop _ _ _ _ He E)|done]).
  - unfold sem_transact. destruct (e_begin e); [done|].
    destruct (body _) as [[a|err] s] eqn:E; [|done]. apply Hop in E; [|done].
    by destruct (e_fault e).
Qed.

Lemma keeps_run {A} (p : prog A) script w :
  keeps p -> Forall respects script -> I (w_db w) -> I (db_of (run p script w)).
Proof.
  unfold db_of, world_of. revert script w.
  induction p as [a|X op k IH]; intros script w Hp Hs Hw; [done|].
  destruct Hp as [Hop Hk]. cbn [run].
  assert (respects (pop script).1 /\ Forall respects (pop script).2) as [He Hs'].
  { destruct Hs; [split; [by intros ? ?|constructor]|done]. }
  destruct (pop script) as [e script']; cbn in He, Hs'.
  pose proof (sem_keeps op e w Hop He Hw). destruct (sem op e w) as [x w']. by apply IH.
Qed.

Lemma keeps_bind {A B} (p : prog A) (f : A -> prog B) : keeps p -> (forall a, keeps (f a)) -> keeps (bind p f).
Proof.
  intros Hp Hf. induction p as [a|X op k IH]; cbn in *; [done|].
  destruct Hp as [Ho Hk]. split; [done|]. intros x. apply IH, Hk.
Qed.

Lemma keeps_and_then {A B} (p : prog (result A)) (k : A -> prog (result B)) :
  keeps p -> (forall a, keeps (k a)) -> keeps (and_then p k).
Proof. intros Hp Hk. apply keeps_bind; [done|]. by intros [a|e]. Qed.

Lemma keeps_for_each {A} (l : list A) (body : A -> prog ()) :
  (forall a, keeps (body a)) -> keeps (for_each l body).
Proof. intros Hb. induction l; cbn; [done|]. by apply keeps_bind. Qed.

Lemma keeps_exec {A : Set} prefix (q : statement A) : stmt_keeps q -> keeps (exec_wrapped prefix q).
Proof. by split. Qed.

Lemma keeps_perform {X : Set} (op : effect X) : op_keeps op -> keeps (perform op).
Proof. by split. Qed.

Lemma keeps_stmt {A : Set} {B} (q : statement A) (k : result A -> prog B) :
  stmt_keeps q -> (forall r, keeps (k r)) -> keeps (Do (Stmt q) k).
Proof. by split. Qed.

Lemma reads_keeps {A} (q : statement A) : reads q -> stmt_keeps q.
Proof. intros Hq env db a db' Hdb E. by rewrite (Hq _ _ _ _ E). Qed.

Lemma read_only_keeps {A} (p : prog A) : read_only p -> keeps p.
Proof.
  induction p as [a|X op k IH]; [done|]. intros [Ho Hk]. split; [|by intros x; apply IH, Hk].
  destruct op; try done. by apply reads_keeps.
Qed.

Lemma stmt_keeps_ensure `{Postgres} {A} b v (k : stmt_env -> DB -> result (A * DB)) :
  (forall env db a db', b env db = true -> I db -> k env db = Ok (a, db') -> I db') ->
  stmt_keeps (fun env db => ensure (b env db) (v env db) (k env db)).
Proof. intros Hk env db a db' Hdb [Hb E]%ensure_Ok. by eapply Hk. Qed.

End Keeps.

Create HintDb keeping.
#[export] Hint Resolve keeps_bind keeps_and_then keeps_for_each keeps_exec keeps_perform keeps_stmt : keeping.

(** ** One table at a time *)

(** Rows may change but none goes away, and of messages the tenant stays. *)
Definition grows {K V} `{Countable K} (m m' : gmap K V) : Prop :=
  forall k, is_Some (m !! k) -> is_Some (m' !! k).

Definition same_tenant (m m' : gmap gostring message_row) : Prop :=
  forall id r, m !! id = Some r -> exists r', m' !! id = Some r' /\ m_api_key_id r' = m_api_key_id r.

Lemma same_tenant_grows m m' : same_tenant m m' -> grows m m'.
Proof. intros Hm k [r Hr]. destruct (Hm _ _ Hr) as (r' & ? & _). by exists r'. Qed.

Lemma message_ok_grows d d' k k' r : grows d d' -> grows k k' -> message_ok d k r -> message_ok d' k' r.
Proof. intros Hd Hk []. split; auto. Qed.

Lemma delivery_ok_grows m m' w w' r : grows m m' -> grows w w' -> delivery_ok m w r -> delivery_ok m' w' r.
Proof. intros Hm Hw []. split; auto. Qed.

Lemma grows_refl {K V} `{Countable K} (m : gmap K V) : grows m m.
Proof. by intros k. Qed.

Lemma grows_insert {K V} `{Countable K} k v (m : gmap K V) : grows m (<[k := v]> m).
Proof. intros j [x Hx]. destruct (decide (k = j)) as [->|]; simplify_map_eq; eauto. Qed.

Lemma grows_alter {K V} `{Countable K} f k (m : gmap K V) : grows m (alter f k m).
Proof. intros j [x Hx]. destruct (decide (k = j)) as [->|]; simplify_map_eq; eauto. Qed.

#[export] Hint Resolve grows_refl grows_insert grows_alter message_ok_grows delivery_ok_grows
  same_tenant_grows : keeping.

Section Tables.
Context (db : DB) (Hdb : integrity db).

Ltac table := destruct Hdb; destruct db; cbn in *; split; cbn; try done;
  try (eapply map_Forall_impl; [eassumption|]; cbn; intros; by eauto with keeping).

Lemma integrity_domains f :
  unique dom_name (f (domains db)) -> map_Forall (fun _ => domain_ok) (f (domains db)) ->
  grows (domains db) (f (domains db)) -> integrity (set_domains f db).
Proof.
  intros Hu Hr Hg. table. eapply map_Forall_impl; [eassumption|]. cbn. intros id r []. split; auto.
Qed.

Lemma integrity_keys f :
  unique key_secret_hash (f (api_keys db)) -> map_Forall (fun _ => key_ok) (f (api_keys db)) ->
  grows (api_keys db) (f (api_keys db)) -> integrity (set_api_keys f db).
Proof.
  intros Hu Hr Hg. table. eapply map_Forall_impl; [eassumption|]. cbn. intros id r []. split; auto.
Qed.

Lemma linked_same_tenant f :
  idempotency_linked db -> same_tenant (messages db) (f (messages db)) -> idempotency_linked (set_messages f db).
Proof.
  intros Hl Hg k rec Hr. destruct (Hl k rec) as (mid & row & Hm & Hrow & Hk); [by destruct db|].
  apply Hg in Hrow as (row' & Hr' & Hk'). exists mid, row'. destruct db; cbn in *. by rewrite Hk'.
Qed.

Lemma integrity_messages f :
  map_Forall (fun _ => message_ok (domains db) (api_keys db)) (f (messages db)) ->
  same_tenant (messages db) (f (messages db)) -> integrity (set_messages f db).
Proof.
  intros Hr Hg. pose proof (linked_same_tenant f (ok_linked _ Hdb) Hg) as Hl.
  pose proof (same_tenant_grows _ _ Hg) as Hgrow. table.
  - eapply map_Forall_impl; [eassumption|]. cbn. intros id r. apply Hgrow.
  - eapply map_Forall_impl; [eassumption|]. cbn. intros id r []. split; auto.
Qed.

Lemma integrity_events f :
  map_Forall (fun _ => event_ok (messages db)) (f (message_events db)) -> integrity (set_events f db).
Proof. intros Hr. table. Qed.

Lemma integrity_endpoints f : grows (webhook_endpoints db) (f (webhook_endpoints db)) -> integrity (set_endpoints f db).
Proof. intros Hg. table. Qed.

Lemma integrity_deliveries f :
  deliveries_unique (f (webhook_deliveries db)) ->
  map_Forall (fun _ => delivery_ok (messages db) (webhook_endpoints db)) (f (webhook_deliveries db)) ->
  integrity (set_deliveries f db).
Proof. intros Hu Hr. table. Qed.

Lemma integrity_dkim f :
  unique (fun k => (dk_domain_id k, dk_selector k)) (f (dkim_keys db)) ->
  map_Forall (fun _ => signing_ok (domains db)) (f (dkim_keys db)) -> integrity (set_dkim f db).
Proof. intros Hu Hr. table. Qed.

Lemma integrity_suppressions f :
  map_Forall (suppression_ok (messages db)) (f (suppressions db)) -> integrity (set_suppressions f db).
Proof. intros Hr. table. Qed.

End Tables.

(** ** Updates of one table *)

Lemma map_Forall_alter' {K V} `{Countable K} (P : K -> V -> Prop) f k (m : gmap K V) :
  map_Forall P m -> (forall v, P k v -> P k (f v)) -> map_Forall P (alter f k m).
Proof.
  intros Hm Hf j v. destruct (decide (k = j)) as [<-|Hne].
  - rewrite lookup_alter_eq. destruct (m !! k) as [x|] eqn:E; cbn; [|done]. intros [= <-]. apply Hf. by eapply Hm.
  - rewrite lookup_alter_ne by done. apply Hm.
Qed.

Lemma map_Forall_update {K V} `{Countable K} (P : K -> V -> Prop) f (ids : list K) (m : gmap K V) :
  map_Forall P m -> (forall k v, P k v -> P k (f v)) ->
  map_Forall P (map_imap (fun id r => Some (if bool_decide (id ∈ ids) then f r else r)) m).
Proof.
  intros Hm Hf j v. rewrite map_lookup_imap. destruct (m !! j) as [x|] eqn:E; cbn; [|done].
  intros [= <-]. case_bool_decide; [apply Hf|]; by eapply Hm.
Qed.

Lemma unique_insert {K V B} `{Countable K} (f : V -> B) k v (m : gmap K V) :
  unique f m -> (forall j q, m !! j = Some q -> f q = f v -> j = k) -> unique f (<[k := v]> m).
Proof.
  intros Hm Hv i j r q [[<- <-]|[_ Hi]]%lookup_insert_Some [[<- <-]|[_ Hj]]%lookup_insert_Some E; try done.
  - symmetry. by eapply Hv.
  - by eapply Hv.
  - by eapply Hm.
Qed.

Lemma unique_alter {K V B} `{Countable K} (f : V -> B) g k (m : gmap K V) :
  (forall v, f (g v) = f v) -> unique f m -> unique f (alter g k m).
Proof.
  intros Hg Hm i j r q Hi Hj E.
  assert (Hold : forall j q, alter g k m !! j = Some q -> exists q', m !! j = Some q' /\ f q' = f q).
  { intros j' q'. destruct (decide (k = j')) as [<-|Hne].
    - rewrite lookup_alter_eq. destruct (m !! k) as [x|]; cbn; [|done]. intros [= <-]. exists x. by rewrite Hg.
    - rewrite lookup_alter_ne by done. eauto. }
  apply Hold in Hi as (r' & Hr & Er), Hj as (q' & Hq & Eq). eapply Hm; [done..|congruence].
Qed.

Lemma grows_update {K V} `{Countable K} (f : V -> V) (ids : list K) (m : gmap K V) :
  grows m (map_imap (fun id r => Some (if bool_decide (id ∈ ids) then f r else r)) m).
Proof. intros k [v Hv]. rewrite map_lookup_imap, Hv. by eexists. Qed.

Lemma same_tenant_update (f : message_row -> message_row) (ids : list gostring) m :
  (forall r, m_api_key_id (f r) = m_api_key_id r) ->
  same_tenant m (map_imap (fun id r => Some (if bool_decide (id ∈ ids) then f r else r)) m).
Proof.
  intros Hf id r Hr. rewrite map_lookup_imap, Hr. cbn. eexists. split; [done|]. by case_bool_decide.
Qed.

(** Updates that touch only a row's own columns. *)
Lemma integrity_update_messages db ids f :
  integrity db -> (forall r, m_api_key_id (f r) = m_api_key_id r) ->
  (forall d k r, message_ok d k r -> message_ok d k (f r)) -> integrity (update_messages ids f db).
Proof.
  intros Hdb Hk Hf. apply integrity_messages; [done|..].
  - apply map_Forall_update; [apply (ok_messages _ Hdb)|]. intros _ r. apply Hf.
  - by apply same_tenant_update.
Qed.

Lemma integrity_update_deliveries db ids f :
  integrity db -> (forall r, dl_endpoint_id (f r) = dl_endpoint_id r /\ dl_event_id (f r) = dl_event_id r) ->
  (forall m w r, delivery_ok m w r -> delivery_ok m w (f r)) -> integrity (update_deliveries ids f db).
Proof.
  intros Hdb Hk Hf. apply integrity_deliveries; [done|..].
  - intros i j r q. rewrite !map_lookup_imap.
    destruct (webhook_deliveries db !! i) as [r'|] eqn:Ei, (webhook_deliveries db !! j) as [q'|] eqn:Ej; cbn;
      try done. intros [= <-] [= <-] He Hv. destruct (Hk r'), (Hk q').
    eapply (ok_delivery_pairs _ Hdb i j r' q'); try done;
      repeat case_bool_decide; congruence.
  - apply map_Forall_update; [apply (ok_deliveries _ Hdb)|]. intros _ r. apply Hf.
Qed.

Lemma integrity_alter_domain db id f :
  integrity db -> (forall d, dom_name (f d) = dom_name d) -> (forall d, domain_ok d -> domain_ok (f d)) ->
  integrity (set_domains (alter f id) db).
Proof.
  intros Hdb Hn Hf. apply integrity_domains; [done|..].
  - apply unique_alter; [done|apply (ok_domain_names _ Hdb)].
  - apply map_Forall_alter'; [apply (ok_domains _ Hdb)|auto].
  - apply grows_alter.
Qed.

Lemma integrity_alter_key db id f :
  integrity db -> (forall k, key_secret_hash (f k) = key_secret_hash k) -> (forall k, key_ok k -> key_ok (f k)) ->
  integrity (set_api_keys (alter f id) db).
Proof.
  intros Hdb Hn Hf. apply integrity_keys; [done|..].
  - apply unique_alter; [done|apply (ok_key_hashes _ Hdb)].
  - apply map_Forall_alter'; [apply (ok_keys _ Hdb)|auto].
  - apply grows_alter.
Qed.

(** ** Every statement of the store *)

Section Statements.
Context `{UnicodeTables} `{JsonErrors} `{Postgres}.

Notation kept := (stmt_keeps integrity).

(** *** queue.go *)

Lemma kept_claim limit lockFor : kept (claim_stmt limit lockFor).
Proof.
  intros env db a db' Hdb [= _ <-]. apply integrity_update_messages; [done|by intros []|].
  intros d k [] []. split; cbn in *; (lia || done).
Qed.

Lemma kept_finish id st schedule last_error : st <> sending -> kept (finish_stmt id st schedule last_error).
Proof.
  intros Hst. apply stmt_keeps_ensure. intros env db a db' _ Hdb [= _ <-].
  apply integrity_update_messages; [done|by intros []|]. intros d k [] []. by split.
Qed.

Lemma kept_insert_event mid ev payload : kept (insert_event mid ev payload).
Proof.
  apply stmt_keeps_ensure. intros env db a db' _ Hdb. destruct (jsonb_in payload); [|done].
  rewrite ensure_Ok. intros [Hm%bool_decide_eq_true [= _ <-]]. apply integrity_events; [done|].
  apply map_Forall_insert_2; [done|apply (ok_events _ Hdb)].
Qed.

(** *** messages.go *)

Lemma pack_one_form s rand l p :
  packRecipients s rand l = Ok p -> (pk_clear p = None <-> is_Some (pk_encrypted p)).
Proof.
  unfold packRecipients. destruct (keeper s); [|intros [= <-]; cbn; split; [done|by intros []]].
  destruct (marshal_strings l); [|done]. destruct (Wrap _ _ _); [|done]. intros [= <-]. cbn. by split.
Qed.

Lemma integrity_accepted s inm now rand db db' :
  accepted s inm now rand db db' -> integrity db -> integrity db'.
Proof.
  intros Ha Hdb. pose proof (accepted_linked _ _ _ _ _ _ Ha (ok_linked _ Hdb)) as Hl.
  destruct Ha as (p & hd & tg & Hp%pack_one_form & (Hfresh & Hk & Hd) & Hnew & ->).
  destruct Hdb. destruct db as [d k m e i w l sk sp]; cbn in *.
  set (m' := <[n_ID inm := new_row inm p hd tg now]> m) in *.
  assert (grows m m') as Hg by apply grows_insert.
  assert (map_Forall (fun _ => message_ok d k) m').
  { apply map_Forall_insert_2; [|done]. by split. }
  case_bool_decide; split; cbn; try done;
    try (eapply map_Forall_impl; [eassumption|]; cbn; intros; by eauto with keeping).
  - eapply map_Forall_impl; [eassumption|]. cbn. intros id r. apply Hg.
  - by apply map_Forall_insert_2.
  - eapply map_Forall_impl; [eassumption|]. cbn. intros h r []. split; eauto.
  - eapply map_Forall_impl; [eassumption|]. cbn. intros id r. apply Hg.
  - eapply map_Forall_impl; [eassumption|]. cbn. intros h r []. split; eauto.
Qed.

Lemma kept_enqueue s inm : tx_keeps integrity (enqueue_body s inm).
Proof.
  intros st r st' Hdb E%enqueue_body_Ok. destruct r.2; [by destruct E as [-> _]|].
  destruct E as [Ha _]. by eapply integrity_accepted.
Qed.

(** *** recipients.go and suppressions.go *)

Lemma kept_suppress a reason detail mid :
  kept (suppress_stmt (normalizeAddress a) (SuppressionHash a) reason detail mid).
Proof.
  apply stmt_keeps_ensure. intros env db u db' _ Hdb. rewrite ensure_Ok. intros [Hr E].
  destruct (suppressions db !! SuppressionHash a); [by injection E as _ <-|].
  rewrite ensure_Ok in E. destruct E as [Hm%bool_decide_eq_true [= _ <-]].
  apply integrity_suppressions; [done|]. apply map_Forall_insert_2; [|apply (ok_suppressions _ Hdb)].
  split; [done..|]. cbn. intros id. case_bool_decide; [done|]. intros [= <-]. tauto.
Qed.

Lemma kept_unsuppress h : kept (fun _ db => Ok (tt, set_suppressions (delete h) db)).
Proof.
  intros env db u db' Hdb [= _ <-]. apply integrity_suppressions; [done|].
  apply map_Forall_delete, (ok_suppressions _ Hdb).
Qed.

(** *** webhooks.go *)

Lemma insert_deliveries_ok m w ev mid pl now eps dls :
  is_Some (m !! mid) \/ eps = [] -> (forall ep, ep ∈ eps -> is_Some (w !! ep)) ->
  map_Forall (fun _ => delivery_ok m w) dls ->
  map_Forall (fun _ => delivery_ok m w) (foldr (insert_delivery ev mid pl now) dls eps).
Proof.
  intros Hm Hw Hd. induction eps as [|ep eps IH]; cbn; [done|].
  assert (is_Some (m !! mid)) as Hmid by by destruct Hm.
  assert (map_Forall (fun _ => delivery_ok m w) (foldr (insert_delivery ev mid pl now) dls eps)) as IH'.
  { apply IH; [by left|]. intros ep' Hin. apply Hw. by right. }
  unfold insert_delivery at 1. destruct (delivery_exists _ _ _); [done|].
  apply map_Forall_insert_2; [|done]. split; cbn; try done. apply Hw. by left.
Qed.

Lemma active_endpoints_exist db ep : ep ∈ (active_endpoints db).*1 -> is_Some (webhook_endpoints db !! ep).
Proof.
  intros ([id r] & -> & Hin)%list_elem_of_fmap. unfold active_endpoints in Hin.
  rewrite order_by_perm, list_elem_of_filter in Hin. destruct Hin as [_ Hr%elem_of_rows]. by eexists.
Qed.

Lemma kept_enqueue_delivery ev mid payload : kept (enqueue_delivery_stmt ev mid payload).
Proof.
  apply stmt_keeps_ensure. intros env db a db' _ Hdb. destruct (jsonb_in payload); [|done].
  cbn zeta. rewrite ensure_Ok. intros [Hm%bool_decide_eq_true [= _ <-]]. apply integrity_deliveries; [done|..].
  - apply insert_deliveries, (ok_delivery_pairs _ Hdb).
  - apply insert_deliveries_ok; [tauto|apply active_endpoints_exist|apply (ok_deliveries _ Hdb)].
Qed.

Lemma keeps_CreateEndpoint s url secret : keeps integrity (CreateEndpoint s url secret).
Proof.
  apply keeps_exec, stmt_keeps_ensure. intros env db a db' _ Hdb [= _ <-].
  apply integrity_endpoints; [done|apply grows_insert].
Qed.

Lemma keeps_ClaimDeliveries s limit lockFor : keeps integrity (ClaimDeliveries s limit lockFor).
Proof.
  apply keeps_exec. intros env db a db' Hdb [= _ <-]. apply integrity_update_deliveries; [done|by intros []|].
  intros m w [] []. split; cbn in *; (lia || done).
Qed.

Lemma kept_delivery_end ids st attempts next locked err :
  st <> dl_delivering -> (forall r, 0 <= dl_attempts r -> 0 <= attempts r) ->
  forall db, integrity db ->
  integrity (update_deliveries ids (fun r => with_delivery st (attempts r) (next r) locked (err r) r) db).
Proof.
  intros Hst Ha db Hdb. apply integrity_update_deliveries; [done|by intros []|].
  intros m w r Hr. destruct Hr as [He Hm Ht _], r. split; cbn in *; try done. by apply (Ha (DeliveryRec _ _ _ _ _ _ _ _ _ _)).
Qed.

Lemma keeps_MarkDeliverySucceeded s id : keeps integrity (MarkDeliverySucceeded s id).
Proof. apply keeps_exec. intros env db a db' Hdb [= _ <-]. by apply kept_delivery_end. Qed.

Lemma keeps_RescheduleDelivery s id t reason : keeps integrity (RescheduleDelivery s id t reason).
Proof.
  apply keeps_exec, stmt_keeps_ensure. intros env db a db' _ Hdb [= _ <-].
  by apply (kept_delivery_end _ _ dl_attempts (fun _ => timestamptz t) _ (fun _ => Some _)).
Qed.

Lemma keeps_MarkDeliveryFailed s id reason : keeps integrity (MarkDeliveryFailed s id reason).
Proof.
  apply keeps_exec, stmt_keeps_ensure. intros env db a db' _ Hdb [= _ <-].
  by apply (kept_delivery_end _ _ dl_attempts dl_next_attempt _ (fun _ => Some _)).
Qed.

Lemma keeps_domain_check prefix id (f : stmt_env -> domain_row -> domain_row) :
  (forall env d, dom_name (f env d) = dom_name d) -> (forall env d, domain_ok d -> domain_ok (f env d)) ->
  keeps integrity (exec_wrapped prefix (fun env db => Ok (tt, set_domains (alter (f env) id) db))).
Proof.
  intros Hn Hf. apply keeps_exec. intros env db a db' Hdb [= _ <-]. by apply integrity_alter_domain; auto.
Qed.

Lemma keeps_MarkDomainVerified s id : keeps integrity (MarkDomainVerified s id).
Proof.
  apply keeps_domain_check; [done|]. intros env d _. split. cbn. intros _. by destruct (dom_verified_at d).
Qed.

Lemma keeps_SuspendDomain s id : keeps integrity (SuspendDomain s id).
Proof. by apply keeps_domain_check. Qed.

Lemma keeps_TouchDomainCheck s id : keeps integrity (TouchDomainCheck s id).
Proof. apply keeps_domain_check; [done|]. by intros env d []. Qed.

(** *** keys.go and dkim.go *)

Lemma key_by_hash_None hash db :
  key_by_hash hash db = None -> forall id r, api_keys db !! id = Some r -> key_secret_hash r <> hash.
Proof.
  unfold key_by_hash. destruct (base.filter _ _) as [|x l] eqn:E; [|done]. intros _ id r Hr Hh.
  assert ((id, r) ∈ base.filter (fun x : Z * api_key_row => key_secret_hash x.2 = hash) (rows (api_keys db))) as Hin.
  { apply list_elem_of_filter. split; [done|]. by apply elem_of_rows. }
  rewrite E in Hin. by apply elem_of_nil in Hin.
Qed.

Lemma keeps_CreateAPIKey s inm : keeps integrity (CreateAPIKey s inm).
Proof.
  apply keeps_exec, stmt_keeps_ensure. intros env db a db' Hq Hdb. rewrite !ensure_Ok.
  intros (_ & Hp & Hh%bool_decide_eq_true & [= _ <-]). apply integrity_keys; [done|..].
  - apply unique_insert; [apply (ok_key_hashes _ Hdb)|]. cbn. intros j q Hq' E.
    by destruct (key_by_hash_None _ _ Hh j q Hq').
  - apply map_Forall_insert_2; [|apply (ok_keys _ Hdb)]. unfold int4_ok in Hq. boolify. split; cbn. lia.
  - apply grows_insert.
Qed.

Lemma keeps_TouchAPIKey s id addr : keeps integrity (TouchAPIKey s id addr).
Proof.
  apply keeps_exec. intros env db a db' Hdb [= _ <-]. apply integrity_alter_key; [done..|]. by intros k [].
Qed.

Lemma keeps_RevokeAPIKey s id : keeps integrity (RevokeAPIKey s id).
Proof.
  apply keeps_stmt; [|done]. intros env db a db' Hdb.
  destruct (api_keys db !! id) as [r|] eqn:Hr; [|by intros [= _ <-]].
  case_bool_decide; intros [= _ <-]; [|done].
  apply integrity_keys; [done|..].
  - apply unique_insert; [apply (ok_key_hashes _ Hdb)|]. cbn. intros j q Hq E. by eapply (ok_key_hashes _ Hdb).
  - apply map_Forall_insert_2; [|apply (ok_keys _ Hdb)]. by destruct (ok_keys _ Hdb id r Hr).
  - apply grows_insert.
Qed.

Lemma keeps_CreateSigningKey s id selector algorithm wrapped record :
  keeps integrity (CreateSigningKey s id selector algorithm wrapped record).
Proof.
  apply keeps_exec, stmt_keeps_ensure. intros env db a db' _ Hdb. rewrite !ensure_Ok.
  intros (Ha%bool_decide_eq_true & Hu%negb_true_iff & Hd%bool_decide_eq_true & [= _ <-]).
  apply integrity_dkim; [done|..].
  - apply unique_insert; [apply (ok_selectors _ Hdb)|]. cbn. intros j q Hq [= E1 E2].
    apply not_true_iff_false in Hu. destruct Hu. apply List.existsb_exists. exists (j, q).
    split; [by apply list_elem_of_In, elem_of_rows|by apply bool_decide_eq_true].
  - apply map_Forall_insert_2; [by split|apply (ok_dkim _ Hdb)].
Qed.

Lemma keeps_MarkSigned s id : keeps integrity (MarkSigned s id).
Proof.
  apply keeps_exec, stmt_keeps_ensure. intros env db a db' _ Hdb [= _ <-].
  apply integrity_update_messages; [done|by intros []|]. intros d k [] []. by split.
Qed.

(** *** The remaining operations *)

Lemma keeps_ClaimMessages s limit lockFor : keeps integrity (ClaimMessages s limit lockFor).
Proof. apply keeps_stmt; [apply kept_claim|]. by intros []. Qed.

Lemma keeps_RecordEvent s mid ev detail : keeps integrity (RecordEvent s mid ev detail).
Proof. apply keeps_exec, kept_insert_event. Qed.

Lemma keeps_transition s id st ev reason : st <> sending -> keeps integrity (transition s id st ev reason).
Proof. intros Hst. apply keeps_stmt; [by apply kept_finish|]. intros []; [apply keeps_RecordEvent|done]. Qed.

Lemma keeps_MarkDeferred s id t reason : keeps integrity (MarkDeferred s id t reason).
Proof. apply keeps_stmt; [by apply kept_finish|]. intros []; [apply keeps_RecordEvent|done]. Qed.

Lemma keeps_EnqueueMessage s inm : keeps integrity (EnqueueMessage s inm).
Proof. apply keeps_perform, kept_enqueue. Qed.

Lemma keeps_Suppress s a reason detail mid : keeps integrity (Suppress s a reason detail mid).
Proof. apply keeps_exec, kept_suppress. Qed.

Lemma keeps_Unsuppress s a : keeps integrity (Unsuppress s a).
Proof. apply keeps_exec, kept_unsuppress. Qed.

Lemma keeps_EnqueueDelivery s ev mid payload : keeps integrity (EnqueueDelivery s ev mid payload).
Proof. apply keeps_exec, kept_enqueue_delivery. Qed.

End Statements.

#[export] Hint Resolve keeps_CreateEndpoint keeps_ClaimDeliveries keeps_MarkDeliverySucceeded
  keeps_RescheduleDelivery keeps_MarkDeliveryFailed keeps_MarkDomainVerified keeps_SuspendDomain
  keeps_TouchDomainCheck keeps_CreateAPIKey keeps_TouchAPIKey keeps_RevokeAPIKey keeps_CreateSigningKey
  keeps_MarkSigned keeps_ClaimMessages keeps_RecordEvent keeps_transition keeps_MarkDeferred
  keeps_EnqueueMessage keeps_Suppress keeps_Unsuppress keeps_EnqueueDelivery : keeping.
