(* ===== verification/StoreConsole.v ===== *)
(** * internal/store/console.go: what the operator console reads

    Four listings.  None of them changes the tables, and none of them depends on
    the secrets the tables hold: what the queries do not select cannot reach a
    page. *)

From S2P Require Import Prelude Utf8 GoStrings Schema Program StoreRecipients Reading StoreQueue.
Local Open Scope Z_scope.
Local Open Scope go_scope.

Record DomainRow := {
  dr_ID : Z;
  dr_Name : gostring;
  dr_Status : gostring;
  dr_Token : gostring;
  dr_DKIMSelector : gostring;
  dr_DKIMRecord : gostring;
  dr_VerifiedAt : option Z;
  dr_LastCheckedAt : option Z;
}.

Record KeyRow := {
  kr_ID : Z;
  kr_Name : gostring;
  kr_Prefix : gostring;
  kr_Scopes : list gostring;
  kr_Quota : Z;
  kr_ExpiresAt : Z;
  kr_RevokedAt : option Z;
  kr_LastUsedAt : option Z;
  kr_LastUsedIP : option gostring;
}.

Record MessageRow := {
  mr_ID : gostring;
  mr_Status : gostring;
  mr_From : gostring;
  mr_Recipients : list gostring;
  mr_Subject : gostring;
  mr_Attempts : Z;
  mr_LastError : option gostring;
  mr_SignedAt : option Z;
  mr_CreatedAt : Z;
}.

Record Counts := {
  n_Queued : Z;
  n_Sent : Z;
  n_Failed : Z;
  n_Deferred : Z;
  n_LastHour : Z;
  n_Endpoints : Z;
}.

(** ** SELECT lists

    A query sees of a table what its select list names. *)

Definition select {K V B} `{Countable K} (f : K -> V -> B) (m : gmap K V) : list B :=
  (rows (map_imap (fun k v => Some (f k v)) m)).*2.

(** Tables that agree on the selected columns answer alike. *)
Lemma select_agree {K V B} `{Countable K} (f : K -> V -> B) (m1 m2 : gmap K V) :
  (forall k, f k <$> m1 !! k = f k <$> m2 !! k) -> select f m1 = select f m2.
Proof.
  intros Hag. unfold select. do 2 f_equal. apply map_eq. intros k. rewrite !map_lookup_imap.
  specialize (Hag k). destruct (m1 !! k), (m2 !! k); cbn in *; congruence.
Qed.

Lemma elem_of_select {K V B} `{Countable K} (f : K -> V -> B) (m : gmap K V) b :
  b ∈ select f m <-> exists k v, m !! k = Some v /\ b = f k v.
Proof.
  unfold select. rewrite list_elem_of_fmap. split.
  - intros [[k b'] [-> Hin%elem_of_rows]]. rewrite map_lookup_imap in Hin.
    destruct (m !! k) as [v|] eqn:E; [|done]. injection Hin as <-. eauto.
  - intros (k & v & E & ->). exists (k, f k v). split; [done|]. apply elem_of_rows.
    by rewrite map_lookup_imap, E.
Qed.

Section Console.
Context `{JsonErrors} `{Postgres}.

(** The columns of [dkim_keys] the query names. *)
Record joined_key := { jk_domain : Z; jk_selector : gostring; jk_record : gostring; jk_active : bool }.

Definition joined_key_of (_ : Z) (k : dkim_row) : joined_key :=
  {| jk_domain := dk_domain_id k; jk_selector := dk_selector k; jk_record := dk_public_record k;
     jk_active := dk_active k |}.

(** [dkim_keys k ON k.domain_id = d.id AND k.active] *)
Definition active_keys (domainID : Z) (db : DB) : list joined_key :=
  base.filter (fun k => jk_domain k = domainID /\ jk_active k = true) (select joined_key_of (dkim_keys db)).

(** The [LEFT JOIN]: a domain without an active key keeps one row, and one with
    several has a row for each. *)
Definition domain_rows (db : DB) (x : Z * domain_row) : list DomainRow :=
  let '(id, d) := x in
  let row selector record :=
    {| dr_ID := id; dr_Name := dom_name d; dr_Status := domain_status_text (dom_status d);
       dr_Token := dom_token d; dr_DKIMSelector := selector; dr_DKIMRecord := record;
       dr_VerifiedAt := dom_verified_at d; dr_LastCheckedAt := dom_last_checked_at d |} in
  match active_keys id db with
  | [] => [row [] []]
  | ks => (fun k => row (jk_selector k) (jk_record k)) <$> ks
  end.

Definition ListDomains (s : Store) : prog (result (list DomainRow)) :=
  exec_wrapped (str "listing domains")
    (query (fun _ db =>
       order_by (fun d => collation_key (dr_Name d)) (rows (domains db) ≫= domain_rows db))).

Definition key_row_of (id : Z) (k : api_key_row) : KeyRow :=
  {| kr_ID := id; kr_Name := key_name k; kr_Prefix := key_prefix k; kr_Scopes := key_scopes k;
     kr_Quota := key_quota_per_hour k; kr_ExpiresAt := key_expires_at k; kr_RevokedAt := key_revoked_at k;
     kr_LastUsedAt := key_last_used_at k; kr_LastUsedIP := key_last_used_ip k |}.

(** [created_at] orders the rows and is not scanned. *)
Definition ListAPIKeys (s : Store) : prog (result (list KeyRow)) :=
  exec_wrapped (str "listing keys")
    (query (fun _ db =>
       (order_by (fun x : Z * KeyRow => [- x.1])
         (select (fun id k => (key_created_at k, key_row_of id k)) (api_keys db))).*2)).

(** The columns scanned for a message. *)
Record selected_message := {
  sm_id : gostring;
  sm_status : message_status;
  sm_from : gostring;
  sm_recipients : option (list gostring);
  sm_encrypted : option gostring;
  sm_subject : gostring;
  sm_attempts : Z;
  sm_last_error : option gostring;
  sm_signed_at : option Z;
  sm_created_at : Z;
}.

Definition selected_message_of (id : gostring) (r : message_row) : selected_message :=
  {| sm_id := id; sm_status := m_status r; sm_from := m_from_address r; sm_recipients := m_recipients r;
     sm_encrypted := m_recipients_encrypted r; sm_subject := m_subject r; sm_attempts := m_attempts r;
     sm_last_error := m_last_error r; sm_signed_at := m_signed_at r; sm_created_at := m_created_at r |}.

Definition message_matches (status : gostring) (r : selected_message) : Prop :=
  status = [] \/ status_text (sm_status r) = status.

#[global] Instance message_matches_dec status r : Decision (message_matches status r).
Proof. unfold message_matches. apply _. Defined.

Definition scan_message_row (s : Store) (r : selected_message) : result MessageRow :=
  match unpackRecipients s (sm_encrypted r) (sm_recipients r) with
  | Err e => Err e
  | Ok recipients =>
      Ok {| mr_ID := sm_id r; mr_Status := status_text (sm_status r); mr_From := sm_from r;
            mr_Recipients := recipients; mr_Subject := sm_subject r; mr_Attempts := sm_attempts r;
            mr_LastError := sm_last_error r; mr_SignedAt := sm_signed_at r; mr_CreatedAt := sm_created_at r |}
  end.

Definition messages_page (status : gostring) (limit : nat) (db : DB) : list selected_message :=
  take limit (order_by (fun r => [- sm_created_at r])
    (base.filter (message_matches status) (select selected_message_of (messages db)))).

Definition ListMessages (s : Store) (status : gostring) (limit : nat) : prog (result (list MessageRow)) :=
  let! r := exec (query (fun _ db => messages_page status limit db)) in
  Ret match r with
      | Err e => Err (wrap_w (str "listing messages") e)
      | Ok found => scan_rows (scan_message_row s) found
      end.

Definition count {A} (p : A -> bool) (l : list A) : Z := Z.of_nat (length (List.filter p l)).

Definition message_counts (now : Z) (db : DB) : Z * Z * Z * Z * Z :=
  let ms := select (fun _ r => (m_status r, m_created_at r)) (messages db) in
  (count (fun m => bool_decide (m.1 = queued)) ms,
   count (fun m => bool_decide (m.1 = sent \/ m.1 = delivered)) ms,
   count (fun m => bool_decide (m.1 = failed)) ms,
   count (fun m => bool_decide (m.1 = deferred)) ms,
   count (fun m => now - Hour <? m.2) ms).

Definition DashboardCounts (s : Store) : prog (result Counts) :=
  let! r := exec (query (fun env db => message_counts (se_now env) db)) in
  match r with
  | Err e => Ret (Err (wrap_w (str "counting messages") e))
  | Ok (nq, ns, nf, nd, nh) =>
      let! r := exec (query (fun _ db =>
        count id (select (fun _ e => ep_active e) (webhook_endpoints db)))) in
      Ret match r with
          | Err e => Err (wrap_w (str "counting endpoints") e)
          | Ok ne => Ok {| n_Queued := nq; n_Sent := ns; n_Failed := nf; n_Deferred := nd;
                           n_LastHour := nh; n_Endpoints := ne |}
          end
  end.

(** ** Reading only *)

Lemma read_only_ListDomains s : read_only (ListDomains s).
Proof. apply read_only_exec, reads_query. Qed.

Lemma read_only_ListAPIKeys s : read_only (ListAPIKeys s).
Proof. apply read_only_exec, reads_query. Qed.

Lemma read_only_ListMessages s status limit : read_only (ListMessages s status limit).
Proof. apply read_only_bind; [by split; [apply reads_query|]|done]. Qed.

Lemma read_only_DashboardCounts s : read_only (DashboardCounts s).
Proof.
  apply read_only_bind; [by split; [apply reads_query|]|]. intros [[[[[nq ns] nf] nd] nh]|e]; [|done].
  apply read_only_bind; [by split; [apply reads_query|]|done].
Qed.

End Console.

#[export] Hint Resolve read_only_ListDomains read_only_ListAPIKeys read_only_ListMessages
  read_only_DashboardCounts : reading.
