(* ===== verification/Keys.v ===== *)
(** * internal/keys/keys.go: API key material

    A key is the live prefix followed by 32 random bytes in lower-case base32.
    Only its SHA-256 hash is stored; the clear text exists in the answer that
    created it. *)

From S2P Require Import Prelude Utf8 GoStrings Sha256 Encoding Crypto Schema Program.
From S2P Require Import StoreRecipients StoreQueue StoreKeys.
Local Open Scope Z_scope.
Local Open Scope go_scope.

Definition LivePrefix : gostring := str "aiem_live_".
Definition secretBytes : nat := 32.
Definition DefaultLifetime : Z := 90 * 24 * Hour.
Definition MaxLifetime : Z := 365 * 24 * Hour.

Definition ErrMalformed : error := Error (Some keys_ErrMalformed) (str "key is malformed").

Record Generated := { g_Secret : gostring; g_Hash : gostring; g_Prefix : gostring }.

(** The three UTF-8 bytes of the ellipsis. *)
Definition ellipsis : gostring := byte_of <$> [226; 128; 166].

Definition Hash (secret : gostring) : gostring := sha256 secret.

(** [subtle.ConstantTimeCompare(a, b) == 1] *)
Definition Equal (a b : gostring) : bool := bool_decide (a = b).

Definition Display (secret : gostring) : gostring :=
  let body := trim_prefix LivePrefix secret in
  if (length body <? 6)%nat then LivePrefix ++ ellipsis else LivePrefix ++ take 6 body ++ ellipsis.

Definition Lifetime (requested : Z) : Z :=
  if requested <=? 0 then DefaultLifetime
  else if MaxLifetime <? requested then MaxLifetime
  else requested.

(** [rand.Read] into a buffer of [n] bytes. *)
Definition rand_read (n : nat) (e : entropy) : result gostring :=
  match e with Ok bytes => Ok (take n (bytes ++ replicate n (byte_of 0))) | Err err => Err err end.

Section Keys.
Context `{UnicodeTables}.

Definition secret_of (raw : gostring) : gostring := LivePrefix ++ to_lower (base32_encode raw).

Definition Generate : prog (result Generated) :=
  Do Entropy (fun e => Ret
    match rand_read secretBytes e with
    | Err err => Err (wrap_w (str "generating key material") err)
    | Ok raw =>
        let secret := secret_of raw in
        Ok {| g_Secret := secret; g_Hash := Hash secret; g_Prefix := Display secret |}
    end).

Definition Parse (secret : gostring) : result () :=
  if negb (has_prefix LivePrefix secret) then Err ErrMalformed
  else
    let body := trim_prefix LivePrefix secret in
    match base32_decode (to_upper body) with
    | None => Err ErrMalformed
    | Some decoded => if negb (length decoded =? secretBytes)%nat then Err ErrMalformed else Ok tt
    end.

(** ** Lemmas *)

Lemma rand_read_length n e raw : rand_read n e = Ok raw -> length raw = n.
Proof.
  destruct e as [bytes|]; [|done]. intros [= <-].
  rewrite length_take, length_app, length_replicate. lia.
Qed.

(** The base32 letters are ASCII and survive being lowered and raised again. *)
Lemma base32_letter_case d :
  (d < 32)%nat ->
  let c := letter base32_std d in
  byte_val c < 128 /\ byte_val (byte_of (lower_rune (byte_val c))) < 128
  /\ byte_of (upper_rune (byte_val (byte_of (lower_rune (byte_val c))))) = c.
Proof. intros Hd. do 32 (destruct d as [|d]; [by vm_compute|]). lia. Qed.

Lemma upper_lower_base32 raw : to_upper (to_lower (base32_encode raw)) = base32_encode raw.
Proof.
  unfold base32_encode. pose proof (encode_digits_lt 5 raw ltac:(lia)) as Hd.
  assert (is_ascii (letter base32_std <$> encode_digits 5 raw) = true
          /\ is_ascii ((fun c => byte_of (lower_rune (byte_val c))) <$> (letter base32_std <$> encode_digits 5 raw)) = true
          /\ (fun c => byte_of (upper_rune (byte_val c))) <$>
               ((fun c => byte_of (lower_rune (byte_val c))) <$> (letter base32_std <$> encode_digits 5 raw))
             = letter base32_std <$> encode_digits 5 raw) as (H1 & H2 & H3).
  { induction Hd as [|d ds Hlt _ (IH1 & IH2 & IH3)]; [done|].
    destruct (base32_letter_case d Hlt) as (Ha & Hb & Hc).
    rewrite !fmap_cons, !is_ascii_cons, IH3, Hc. done. }
  by rewrite to_lower_ascii, to_upper_ascii by done.
Qed.

Lemma Parse_secret_of raw : length raw = secretBytes -> Parse (secret_of raw) = Ok tt.
Proof.
  intros Hl. unfold Parse, secret_of. rewrite has_prefix_app, trim_prefix_app; cbn.
  rewrite upper_lower_base32, base32_roundtrip, Hl. done.
Qed.

(** ** Properties *)

(** Every key [Generate] hands out passes [Parse], carries the hash the
    store will look it up by, and is displayed by a fragment that shows at most
    six of its characters: keys that agree on those are displayed alike. *)
Theorem Generate_correct script w g :
  result_of (run Generate script w) = Ok g ->
  Parse (g_Secret g) = Ok tt
  /\ g_Hash g = Hash (g_Secret g)
  /\ (exists raw, length raw = secretBytes /\ g_Secret g = secret_of raw)
  /\ (forall other, take 16 (g_Secret g) = take 16 other -> (16 <= length other)%nat ->
        g_Prefix g = Display other).
Proof.
  unfold result_of; cbn. destruct (pop script) as [e script']; cbn.
  destruct (rand_read secretBytes (e_entropy e)) as [raw|] eqn:Hr; [|done]. intros [= <-]; cbn.
  apply rand_read_length in Hr. split_and!; [by apply Parse_secret_of|done|by exists raw|].
  intros other Ht Hlen. unfold Display.
  assert (LivePrefix `prefix_of` other) as [body ->].
  { exists (drop 10 other). rewrite <- (take_drop 10 other) at 1. f_equal.
    transitivity (take 10 (take 16 other)); [by rewrite take_take|]. rewrite <- Ht, take_take.
    unfold secret_of. by rewrite take_app_le. }
  unfold secret_of in *. rewrite !trim_prefix_app in *. rewrite length_app in Hlen. change (length LivePrefix) with 10%nat in Hlen.
  assert (take 6 (to_lower (base32_encode raw)) = take 6 body) as Heq.
  { rewrite !take_app_ge in Ht by (change (length LivePrefix) with 10%nat; lia).
    by apply app_inv_head in Ht. }
  assert (length (take 6 body) = 6%nat) as H6 by (rewrite length_take; lia).
  rewrite <- Heq in H6. rewrite length_take in H6.
  rewrite !(proj2 (Nat.ltb_ge _ _)) by lia. by rewrite Heq.
Qed.

(** A lifetime is always positive, never above a year, and is the requested
    one whenever that is allowed. *)
Theorem Lifetime_bounds requested :
  0 < Lifetime requested <= MaxLifetime
  /\ (0 < requested <= MaxLifetime -> Lifetime requested = requested)
  /\ (requested <= 0 -> Lifetime requested = DefaultLifetime).
Proof.
  unfold Lifetime, DefaultLifetime, MaxLifetime, Hour, Minute, Second, Millisecond.
  destruct (Z.leb_spec requested 0), (Z.ltb_spec (365 * 24 * (60 * (60 * (1000 * 1000000)))) requested); lia.
Qed.

End Keys.

(** ** Concrete keys *)

Definition sample_raw_key : gostring := byte_of <$> (Z.of_nat <$> seq 1 32).

(** What a system that upper-cases the body of a key makes of it. *)
Definition changed_case (secret : gostring) : gostring :=
  LivePrefix ++ to_upper (H := ascii_tables) (trim_prefix LivePrefix secret).

Definition sample_secret : gostring := secret_of (H := ascii_tables) sample_raw_key.

Definition one_key_world : world :=
  World (set_api_keys <[1 := APIKeyRec (str "ci") (Display sample_secret) (Hash sample_secret)
           [str "emails:send"] 0 (90 * 24 * Hour) None None None 0]> empty_db) 0 [].

Lemma Generate_correct_witness :
  let e := Env id 0 NoFault None [] (fun _ => false) (fun _ => false) (Ok sample_raw_key) (e_http calm) 0 NotFound (e_ips calm) in
  result_of (run (Generate (H := ascii_tables)) [e] empty_world)
    = Ok {| g_Secret := sample_secret; g_Hash := Hash sample_secret; g_Prefix := Display sample_secret |}
  /\ Parse (H := ascii_tables) sample_secret = Ok tt.
Proof.
  cbn zeta. assert (result_of (run (Generate (H := ascii_tables))
     [Env id 0 NoFault None [] (fun _ => false) (fun _ => false) (Ok sample_raw_key) (e_http calm) 0 NotFound (e_ips calm)] empty_world)
    = Ok {| g_Secret := sample_secret; g_Hash := Hash sample_secret; g_Prefix := Display sample_secret |}) as H.
  { vm_compute. reflexivity. }
  split; [exact H|]. exact (proj1 (Generate_correct (H := ascii_tables) _ _ _ H)).
Defined.

(** A key whose letters changed case on the way still passes [Parse], which
    folds case, but is not found: the hash the store looks up is that of the
    bytes as presented. *)
Theorem case_changed_key_is_unknown :
  Parse (H := ascii_tables) sample_secret = Ok tt
  /\ Parse (H := ascii_tables) (changed_case sample_secret) = Ok tt
  /\ is_ok (result_of (run (APIKeyByHash clear_store (Hash sample_secret)) [] one_key_world)) = true
  /\ result_of (run (APIKeyByHash clear_store (Hash (changed_case sample_secret))) [] one_key_world)
     = Err ErrNotFound.
Proof. vm_compute. done. Qed.
