(* ===== verification/ConsoleAuth.v ===== *)
(** * internal/console/auth.go: the console's password and its sessions

    The session table lives in the process and is locked for each operation, so
    an operation is a function on the table at one instant.  Its specification is
    the history of what was done to it: a session is live when the last thing that
    happened to its id is its creation, less than [SessionTTL] ago. *)

From S2P Require Import Keys.
From S2P Require Import Prelude Utf8 GoStrings Encoding Crypto Schema Program.
Local Open Scope Z_scope.
Local Open Scope go_scope.

Definition sessionCookie : gostring := str "aiemail_console".
Definition SessionTTL : Z := 2 * Hour.

(** ** The password *)

Record PasswordHash := { ph_Salt : gostring; ph_Hash : gostring }.

(** [argon2.IDKey(password, salt, 3, 64*1024, 4, 32)] of golang.org/x/crypto *)
Class Argon2 := {
  argon2_IDKey : gostring -> gostring -> gostring;
  argon2_length : forall password salt, length (argon2_IDKey password salt) = 32%nat;
}.

Section Password.
Context `{Argon2}.

Definition HashPassword (password : gostring) : prog (result gostring) :=
  if len password <? 12
  then Ret (Err (errors_New (str "console password must be at least 12 characters")))
  else Do Entropy (fun e => Ret
    match rand_read 16 e with
    | Err err => Err (wrap_w (str "generating salt") err)
    | Ok salt =>
        Ok (str "argon2id$" ++ base64_raw_std_encode salt ++ str "$"
            ++ base64_raw_std_encode (argon2_IDKey password salt))
    end).

Definition ParsePasswordHash (encoded : gostring) : result PasswordHash :=
  match split encoded (str "$") with
  | [kind; salt; hash] =>
      if negb (bool_decide (kind = str "argon2id"))
      then Err (errors_New (str "password hash is not in the expected argon2id format"))
      else match base64_raw_std_decode salt with
           | None => Err (errors_New (str "password hash salt is not valid base64"))
           | Some salt =>
               match base64_raw_std_decode hash with
               | None => Err (errors_New (str "password hash is not valid base64"))
               | Some hash => Ok {| ph_Salt := salt; ph_Hash := hash |}
               end
           end
  | _ => Err (errors_New (str "password hash is not in the expected argon2id format"))
  end.

Definition PasswordHash_Verify (p : PasswordHash) (password : gostring) : bool :=
  bool_decide (argon2_IDKey password (ph_Salt p) = ph_Hash p).

(** What [HashPassword] prints is what [ParsePasswordHash] reads. *)
Lemma Parse_encoded password salt :
  ParsePasswordHash (str "argon2id$" ++ base64_raw_std_encode salt ++ str "$"
                     ++ base64_raw_std_encode (argon2_IDKey password salt))
  = Ok {| ph_Salt := salt; ph_Hash := argon2_IDKey password salt |}.
Proof.
  unfold ParsePasswordHash. change (str "$") with ["$"%char].
  change (str "argon2id$") with (str "argon2id" ++ ["$"%char]). rewrite <- app_assoc. cbn [app].
  rewrite split_byte_app by (apply (bool_decide_unpack _); vm_compute; exact I).
  rewrite split_byte_app by apply base64_raw_std_no_dollar.
  rewrite split_byte_single by apply base64_raw_std_no_dollar.
  rewrite bool_decide_eq_true_2 by done. cbn [negb]. by rewrite !base64_raw_std_roundtrip.
Qed.

(** The hash an operator stores accepts the password it was made of, and any
    other password exactly when argon2 does not tell them apart under its salt;
    a password shorter than twelve bytes is refused and no hash is made. *)
Theorem password_round_trip password script wd :
  match result_of (run (HashPassword password) script wd) with
  | Ok encoded =>
      12 <= len password
      /\ exists p, ParsePasswordHash encoded = Ok p /\ length (ph_Salt p) = 16%nat
           /\ PasswordHash_Verify p password = true
           /\ forall other, PasswordHash_Verify p other = true
                <-> argon2_IDKey other (ph_Salt p) = argon2_IDKey password (ph_Salt p)
  | Err _ => len password < 12 \/ exists err, e_entropy (pop script).1 = Err err
  end.
Proof.
  unfold HashPassword. destruct (Z.ltb_spec (len password) 12) as [Hlt|Hge]; [by left|].
  unfold result_of. cbn [run]. destruct (pop script) as [e rest]. cbn.
  destruct (rand_read 16 (e_entropy e)) as [salt|err] eqn:E.
  - split; [done|]. exists {| ph_Salt := salt; ph_Hash := argon2_IDKey password salt |}.
    split_and!; [apply Parse_encoded|by eapply rand_read_length|by apply bool_decide_eq_true_2|].
    intros other. unfold PasswordHash_Verify. cbn. by rewrite bool_decide_eq_true.
  - right. destruct (e_entropy e) as [b|err']; [done|]. by exists err'.
Qed.

End Password.

(** ** The session table *)

Record session := { se_csrf : gostring; se_expires : Z }.

Abbreviation sessions := (gmap gostring session).

(** [now.After(sess.expires)] *)
Definition after_expiry (now : Z) (s : session) : bool := se_expires s <? now.

Definition prune (now : Z) (live : sessions) : sessions :=
  base.filter (fun x : gostring * session => after_expiry now x.2 = false) live.

(** The locked part of [create]. *)
Definition insert_session (id csrf : gostring) (now : Z) (live : sessions) : sessions :=
  <[id := {| se_csrf := csrf; se_expires := now + SessionTTL |}]> (prune now live).

Definition get_session (id : gostring) (now : Z) (live : sessions) : option session * sessions :=
  match live !! id with
  | Some s => if after_expiry now s then (None, delete id live) else (Some s, live)
  | None => (None, delete id live)
  end.

Definition destroy_session (id : gostring) (live : sessions) : sessions := delete id live.

Definition token_of (e : entropy) : result gostring :=
  match rand_read 32 e with
  | Err err => Err (wrap_w (str "generating token") err)
  | Ok b => Ok (base64_raw_url_encode b)
  end.

Definition randomToken : prog (result gostring) := Do Entropy (fun e => Ret (token_of e)).

Definition validCSRF (expected submitted : gostring) : bool := bool_decide (expected = submitted).

(** ** Cookies *)

Record Cookie := {
  ck_Name : gostring;
  ck_Value : gostring;
  ck_Path : gostring;
  ck_HttpOnly : bool;
  ck_Secure : bool;
  ck_SameSiteStrict : bool;
  ck_Expires : option Z;
  ck_MaxAge : Z;
}.

Definition session_cookie (id : gostring) (secure : bool) (now : Z) : Cookie :=
  {| ck_Name := sessionCookie; ck_Value := id; ck_Path := str "/console"; ck_HttpOnly := true;
     ck_Secure := secure; ck_SameSiteStrict := true; ck_Expires := Some (now + SessionTTL); ck_MaxAge := 0 |}.

Definition cleared_cookie (secure : bool) : Cookie :=
  {| ck_Name := sessionCookie; ck_Value := []; ck_Path := str "/console"; ck_HttpOnly := true;
     ck_Secure := secure; ck_SameSiteStrict := true; ck_Expires := None; ck_MaxAge := -1 |}.

(** ** The specification: a history *)

Inductive session_event :=
  | Created (id csrf : gostring)
  | Looked (id : gostring)
  | Destroyed (id : gostring).

(** What the event does to the table at its time. *)
Definition happen (x : Z * session_event) (live : sessions) : sessions :=
  let '(at_, ev) := x in
  match ev with
  | Created id csrf => insert_session id csrf at_ live
  | Looked id => (get_session id at_ live).2
  | Destroyed id => destroy_session id live
  end.

(** The table a history leaves; the last event comes first. *)
Definition table_of (history : list (Z * session_event)) : sessions := foldr happen ∅ history.

(** The last creation of an id that nothing destroyed since. *)
Fixpoint last_created (id : gostring) (history : list (Z * session_event)) : option session :=
  match history with
  | [] => None
  | (at_, ev) :: earlier =>
      match ev with
      | Created id' csrf =>
          if decide (id' = id) then Some {| se_csrf := csrf; se_expires := at_ + SessionTTL |}
          else last_created id earlier
      | Looked _ => last_created id earlier
      | Destroyed id' => if decide (id' = id) then None else last_created id earlier
      end
  end.

Definition unexpired (now : Z) (s : option session) : option session :=
  s ≫= fun s => if after_expiry now s then None else Some s.

(** Time does not run backwards along a history that ends at [now]. *)
Fixpoint in_order (now : Z) (history : list (Z * session_event)) : Prop :=
  match history with
  | [] => True
  | (at_, _) :: earlier => at_ <= now /\ in_order at_ earlier
  end.

Lemma get_session_fst id now live : (get_session id now live).1 = unexpired now (live !! id).
Proof. unfold get_session. destruct (live !! id) as [s|]; [cbn; by destruct (after_expiry now s)|done]. Qed.

Lemma unexpired_later now now' s : now <= now' -> unexpired now' (unexpired now s) = unexpired now' s.
Proof.
  intros Hle. destruct s as [s|]; [|done]. cbn. unfold after_expiry.
  destruct (Z.ltb_spec (se_expires s) now); cbn; unfold after_expiry; [|done].
  by rewrite (proj2 (Z.ltb_lt _ _)) by lia.
Qed.

(** Whatever the table forgets had expired. *)
Lemma lookup_prune id now live : prune now live !! id = unexpired now (live !! id).
Proof.
  unfold prune. rewrite map_lookup_filter. destruct (live !! id) as [s|]; [|done]. cbn.
  by destruct (after_expiry now s).
Qed.

Lemma lookup_get_session id id' now live :
  unexpired now ((get_session id' now live).2 !! id) = unexpired now (live !! id).
Proof.
  unfold get_session. destruct (decide (id' = id)) as [->|Hne].
  - destruct (live !! id) as [s|] eqn:E; cbn; [|by rewrite lookup_delete_eq].
    destruct (after_expiry now s) eqn:Ex; cbn; [by rewrite lookup_delete_eq; cbn|].
    rewrite E. cbn. by rewrite Ex.
  - destruct (live !! id') as [s|]; [destruct (after_expiry now s)|]; cbn; by rewrite ?lookup_delete_ne.
Qed.

Lemma happen_refines id now x live earlier :
  (forall now, x.1 <= now -> unexpired now (live !! id) = unexpired now (last_created id earlier)) ->
  x.1 <= now -> unexpired now (happen x live !! id) = unexpired now (last_created id (x :: earlier)).
Proof.
  destruct x as [at_ ev]. cbn [fst]. intros IH Hle. cbn. destruct ev as [id' csrf|id'|id']; cbn.
  - unfold insert_session. destruct (decide (id' = id)) as [->|Hne]; [by rewrite lookup_insert_eq|].
    rewrite lookup_insert_ne, lookup_prune by done. rewrite unexpired_later by done. by apply IH.
  - rewrite <- (unexpired_later at_ now) by done. rewrite lookup_get_session.
    rewrite unexpired_later by done. by apply IH.
  - unfold destroy_session. destruct (decide (id' = id)) as [->|Hne]; [by rewrite lookup_delete_eq|].
    rewrite lookup_delete_ne by done. by apply IH.
Qed.

Lemma table_refines id history now :
  in_order now history -> unexpired now (table_of history !! id) = unexpired now (last_created id history).
Proof.
  revert now. induction history as [|x earlier IH]; intros now Ho; [done|].
  destruct x as [at_ ev], Ho as [Hle Ho]. change (table_of ((at_, ev) :: earlier)) with (happen (at_, ev) (table_of earlier)).
  apply happen_refines; [|done]. cbn [fst]. intros now' Hle'. apply IH.
  destruct earlier as [|[at' ev'] earlier]; [done|]. destruct Ho. cbn. split; [lia|done].
Qed.

(** C20: The session table is its history. After any sequence of sign-ins, lookups
    and sign-outs, whatever pruning and lazy deletion did to the table meanwhile,
    [get] answers the session an id was last created with, when nothing destroyed
    it since and no more than [SessionTTL] has passed, and nothing otherwise. *)
Theorem get_session_refines id now history :
  in_order now history ->
  (get_session id now (table_of history)).1 = unexpired now (last_created id history).
Proof. intros Ho. rewrite get_session_fst. by apply table_refines. Qed.

(** A session signed out of, then looked up; another still live. *)
Definition sample_history : list (Z * session_event) :=
  [(30, Destroyed (str "a")); (20, Created (str "b") (str "y")); (10, Created (str "a") (str "x"))].

Lemma get_session_refines_witness :
  (get_session (str "a") 40 (table_of sample_history)).1 = None
  /\ (get_session (str "b") 40 (table_of sample_history)).1
     = Some {| se_csrf := str "y"; se_expires := 20 + SessionTTL |}.
Proof.
  split.
  - rewrite (get_session_refines (str "a") 40 sample_history); [reflexivity|repeat split; discriminate].
  - rewrite (get_session_refines (str "b") 40 sample_history); [reflexivity|repeat split; discriminate].
Defined.
