(* ===== verification/Console.v ===== *)
(** * internal/console: console.go, views.go

    The operator console.  A handler mixes operations on the session table, which
    other requests use at the same time, with the effects of Program.v: it is a
    [cprog], run under a script that says what others did to the tables and to the
    sessions before each step.  A page is its name and the view its template is
    given; html/template and the templates themselves are not modelled. *)

From S2P Require Import Keys.
From S2P Require Import Prelude Utf8 GoStrings Encoding Json Crypto Schema GoTime Program.
From S2P Require Import StoreRecipients Reading StoreKeys StoreConsole ConsoleAuth.
Local Open Scope Z_scope.
Local Open Scope go_scope.

(** ** Handlers *)

Inductive ceffect : Set -> Type :=
  | Base {X : Set} (op : effect X) : ceffect X
  | Table {X : Set} (f : Z -> sessions -> X * sessions) : ceffect X.

Inductive cprog (A : Type) : Type :=
  | CRet (a : A)
  | CDo {X : Set} (op : ceffect X) (k : X -> cprog A).
Arguments CRet {A} a.
Arguments CDo {A X} op k.

Fixpoint cbind {A B} (p : cprog A) (f : A -> cprog B) : cprog B :=
  match p with
  | CRet a => f a
  | CDo op k => CDo op (fun x => cbind (k x) f)
  end.

Notation "'let#' x := p 'in' k" := (cbind p (fun x => k))
  (at level 10, x pattern, p at level 100, k at level 200) : go_scope.

Fixpoint lift {A} (p : prog A) : cprog A :=
  match p with
  | Ret a => CRet a
  | Do op k => CDo (Base op) (fun x => lift (k x))
  end.

Record cworld := CWorld { cw_world : world; cw_sessions : sessions }.

Record cenv := CEnv { ce_env : env; ce_others : sessions -> sessions }.

Definition csem {X : Set} (op : ceffect X) (e : cenv) (st : cworld) : X * cworld :=
  let live := ce_others e (cw_sessions st) in
  match op in ceffect X return X * cworld with
  | Base op => let '(x, w) := sem op (ce_env e) (cw_world st) in (x, CWorld w live)
  | Table f =>
      let w := arrive (ce_env e) (cw_world st) in
      let '(x, live') := f (w_clock w) live in (x, CWorld w live')
  end.

Definition cpop (script : list cenv) : cenv * list cenv :=
  match script with [] => (CEnv calm id, []) | e :: rest => (e, rest) end.

Fixpoint crun {A} (p : cprog A) (script : list cenv) (st : cworld) : A * (list cenv * cworld) :=
  match p with
  | CRet a => (a, (script, st))
  | CDo op k =>
      let '(e, rest) := cpop script in
      let '(x, st') := csem op e st in crun (k x) rest st'
  end.

Definition final {A} (out : A * (list cenv * cworld)) : cworld := out.2.2.

(** ** Requests, responses and views *)

Record CRequest := {
  cr_Method : gostring;
  cr_Path : list gostring;
  (** the value of the session cookie *)
  cr_Cookie : option gostring;
  (** [ParseForm], then [PostFormValue] *)
  cr_Form : result (gostring -> gostring);
  cr_Query : gostring -> gostring;
}.

Definition form (r : CRequest) (name : gostring) : gostring :=
  match cr_Form r with Ok f => f name | Err _ => [] end.

Record domainView := {
  dv_Name : gostring; dv_Status : gostring; dv_Token : gostring; dv_DKIMSelector : gostring;
  dv_DKIMRecord : gostring; dv_LastCheckedAt : gostring }.

Record keyView := {
  kv_ID : Z; kv_Name : gostring; kv_Prefix : gostring; kv_Scopes : list gostring; kv_Quota : Z;
  kv_ExpiresAt : gostring; kv_RevokedAt : gostring; kv_Expired : bool; kv_LastUsedAt : gostring;
  kv_LastUsedIP : gostring }.

Record messageView := {
  mv_ID : gostring; mv_Status : gostring; mv_Recipients : list gostring; mv_Subject : gostring;
  mv_Attempts : Z; mv_LastError : gostring; mv_SignedAt : gostring; mv_CreatedAt : gostring }.

Record suppressionView := {
  sv_Address : gostring; sv_Reason : gostring; sv_Detail : gostring; sv_CreatedAt : gostring }.

Definition formatTime (t : option Z) : gostring := from_option format_minute [] t.

Definition newDomainView (d : DomainRow) : domainView :=
  {| dv_Name := dr_Name d; dv_Status := dr_Status d; dv_Token := dr_Token d;
     dv_DKIMSelector := dr_DKIMSelector d; dv_DKIMRecord := dr_DKIMRecord d;
     dv_LastCheckedAt := formatTime (dr_LastCheckedAt d) |}.

Definition newKeyView (now : Z) (k : KeyRow) : keyView :=
  {| kv_ID := kr_ID k; kv_Name := kr_Name k; kv_Prefix := kr_Prefix k; kv_Scopes := kr_Scopes k;
     kv_Quota := kr_Quota k; kv_ExpiresAt := format_date (kr_ExpiresAt k);
     kv_RevokedAt := formatTime (kr_RevokedAt k); kv_Expired := negb (now <? kr_ExpiresAt k);
     kv_LastUsedAt := formatTime (kr_LastUsedAt k); kv_LastUsedIP := default [] (kr_LastUsedIP k) |}.

Definition newMessageView (m : MessageRow) : messageView :=
  {| mv_ID := mr_ID m; mv_Status := mr_Status m; mv_Recipients := mr_Recipients m;
     mv_Subject := mr_Subject m; mv_Attempts := mr_Attempts m; mv_LastError := default [] (mr_LastError m);
     mv_SignedAt := formatTime (mr_SignedAt m); mv_CreatedAt := format_minute (mr_CreatedAt m) |}.

Definition newSuppressionView (s : Suppression) : suppressionView :=
  {| sv_Address := sp_Address s; sv_Reason := sp_Reason s; sv_Detail := sp_Detail s;
     sv_CreatedAt := format_minute (sp_CreatedAt s) |}.

(** The page-specific part of the view. *)
Inductive content :=
  | NoContent
  | CountsOf (c : Counts)
  | DomainsOf (l : list domainView)
  | KeysOf (l : list keyView)
  | MessagesOf (l : list messageView)
  | SuppressionsOf (l : list suppressionView).

Record view := View {
  v_Title : gostring;
  v_Nav : gostring;
  v_Authed : bool;
  v_CSRF : gostring;
  v_Error : gostring;
  v_Env : gostring;
  v_Version : gostring;
  v_SendEnabled : bool;
  v_MaxPerHour : Z;
  v_Content : content;
}.

Inductive cbody := Page (name : gostring) (v : view) | PlainText (t : gostring) | NoBody.

Record CResponse := {
  c_Status : Z;
  c_Headers : list (gostring * gostring);
  c_Cookies : list Cookie;
  c_Body : cbody;
}.

Definition render (page : gostring) (v : view) : CResponse :=
  {| c_Status := 200;
     c_Headers :=
       [(str "Content-Security-Policy",
         str "default-src 'none'; style-src 'unsafe-inline'; img-src 'self' data:; form-action 'self'; base-uri 'none'; frame-ancestors 'none'");
        (str "X-Frame-Options", str "DENY"); (str "X-Content-Type-Options", str "nosniff");
        (str "Referrer-Policy", str "same-origin"); (str "Cache-Control", str "no-store");
        (str "Content-Type", str "text/html; charset=utf-8")];
     c_Cookies := []; c_Body := Page page v |}.

(** [http.Redirect] with [StatusSeeOther] *)
Definition redirect (r : CRequest) (target : gostring) : CResponse :=
  let get := bool_decide (cr_Method r = str "GET") in
  {| c_Status := 303;
     c_Headers := (str "Location", target)
       :: (if get || bool_decide (cr_Method r = str "HEAD")
           then [(str "Content-Type", str "text/html; charset=utf-8")] else []);
     c_Cookies := [];
     c_Body := if get then PlainText (str "<a href=" ++ dquote :: target ++ dquote :: str ">See Other</a>."
                                      ++ ["010"%char; "010"%char])
               else NoBody |}.

Definition http_Error (message : gostring) (status : Z) : CResponse :=
  {| c_Status := status;
     c_Headers := [(str "Content-Type", str "text/plain; charset=utf-8"); (str "X-Content-Type-Options", str "nosniff")];
     c_Cookies := []; c_Body := PlainText (message ++ ["010"%char]) |}.

Definition with_cookie (ck : Cookie) (r : CResponse) : CResponse :=
  {| c_Status := c_Status r; c_Headers := c_Headers r; c_Cookies := ck :: c_Cookies r; c_Body := c_Body r |}.

(** [fail] *)
Definition page_failed : CResponse := http_Error (str "the page could not be loaded") 500.

(** ** The console *)

Record CStore := {
  cs_ListDomains : prog (result (list DomainRow));
  cs_ListAPIKeys : prog (result (list KeyRow));
  cs_ListMessages : gostring -> nat -> prog (result (list MessageRow));
  cs_DashboardCounts : prog (result Counts);
  cs_RevokeAPIKey : Z -> prog (result ());
  cs_ListSuppressions : nat -> prog (result (list Suppression));
  cs_Unsuppress : gostring -> prog (result ());
}.

Record Options := {
  o_PasswordHash : PasswordHash;
  o_Secure : bool;
  o_Env : gostring;
  o_Version : gostring;
  o_SendEnabled : bool;
  o_MaxPerHour : Z;
}.

Record Console := NewConsole { cn_store : CStore; cn_opts : Options }.

Section Handlers.
Context `{Argon2} (c : Console).

Definition currentSession (r : CRequest) : cprog (option session) :=
  match cr_Cookie r with
  | None => CRet None
  | Some id => CDo (Table (get_session id)) CRet
  end.

Definition authed_view (nav : gostring) (sess : session) : view :=
  {| v_Title := []; v_Nav := nav; v_Authed := true; v_CSRF := se_csrf sess; v_Error := [];
     v_Env := o_Env (cn_opts c); v_Version := o_Version (cn_opts c);
     v_SendEnabled := o_SendEnabled (cn_opts c); v_MaxPerHour := o_MaxPerHour (cn_opts c);
     v_Content := NoContent |}.

Definition show (title : gostring) (found : content) (v : view) : view :=
  {| v_Title := title; v_Nav := v_Nav v; v_Authed := v_Authed v; v_CSRF := v_CSRF v; v_Error := v_Error v;
     v_Env := v_Env v; v_Version := v_Version v; v_SendEnabled := v_SendEnabled v;
     v_MaxPerHour := v_MaxPerHour v; v_Content := found |}.

Definition login_view (problem : gostring) : view :=
  {| v_Title := str "Sign in"; v_Nav := []; v_Authed := false; v_CSRF := []; v_Error := problem; v_Env := [];
     v_Version := []; v_SendEnabled := false; v_MaxPerHour := 0; v_Content := NoContent |}.

Definition to_login (r : CRequest) : CResponse := redirect r (str "/console/login").

Definition guard (nav : gostring) (fn : CRequest -> view -> cprog CResponse) (r : CRequest) : cprog CResponse :=
  let# sess := currentSession r in
  match sess with
  | None => CRet (to_login r)
  | Some sess => fn r (authed_view nav sess)
  end.

Definition guardPost (fn : CRequest -> cprog CResponse) (r : CRequest) : cprog CResponse :=
  let# sess := currentSession r in
  match sess with
  | None => CRet (to_login r)
  | Some sess =>
      match cr_Form r with
      | Err _ => CRet (http_Error (str "bad request") 400)
      | Ok f =>
          if negb (validCSRF (se_csrf sess) (f (str "csrf")))
          then CRet (http_Error (str "invalid request token") 403)
          else fn r
      end
  end.

Definition loginForm (r : CRequest) : cprog CResponse :=
  let# sess := currentSession r in
  CRet match sess with
       | Some _ => redirect r (str "/console")
       | None => render (str "page-login") (login_view [])
       end.

(** [sessions.create] *)
Definition create : cprog (result (gostring * gostring)) :=
  let# id := lift randomToken in
  match id with
  | Err e => CRet (Err e)
  | Ok id =>
      let# csrf := lift randomToken in
      match csrf with
      | Err e => CRet (Err e)
      | Ok csrf =>
          CDo (Table (fun now live => (tt, insert_session id csrf now live))) (fun _ => CRet (Ok (id, csrf)))
      end
  end.

Definition setSessionCookie (id : gostring) : cprog Cookie :=
  let# now := lift (perform Now) in CRet (session_cookie id (o_Secure (cn_opts c)) now).

(** The fixed delay before the comparison takes time only. *)
Definition login (r : CRequest) : cprog CResponse :=
  match cr_Form r with
  | Err _ => CRet (http_Error (str "bad request") 400)
  | Ok f =>
      if negb (PasswordHash_Verify (o_PasswordHash (cn_opts c)) (f (str "password")))
      then CRet (render (str "page-login") (login_view (str "That password is not correct.")))
      else
        let# made := create in
        match made with
        | Err _ => CRet (http_Error (str "could not start a session") 500)
        | Ok (id, _) =>
            let# ck := setSessionCookie id in CRet (with_cookie ck (redirect r (str "/console")))
        end
  end.

Definition logout (r : CRequest) : cprog CResponse :=
  let# _ := match cr_Cookie r with
            | Some id => CDo (Table (fun _ live => (tt, destroy_session id live))) CRet
            | None => CRet tt
            end in
  CRet (with_cookie (cleared_cookie (o_Secure (cn_opts c))) (to_login r)).

(** A listing: the query, then the page or the failure. *)
Definition listing {A} (found : prog (result A)) (page : A -> cprog CResponse) : cprog CResponse :=
  let# r := lift found in
  match r with Err _ => CRet page_failed | Ok a => page a end.

Definition overview (_ : CRequest) (v : view) : cprog CResponse :=
  listing (cs_DashboardCounts (cn_store c)) (fun counts =>
    CRet (render (str "page-overview") (show (str "Overview") (CountsOf counts) v))).

Definition domains_page (_ : CRequest) (v : view) : cprog CResponse :=
  listing (cs_ListDomains (cn_store c)) (fun rows =>
    CRet (render (str "page-domains") (show (str "Domains") (DomainsOf (newDomainView <$> rows)) v))).

(** Each row is compared with the clock as it is shown. *)
Fixpoint key_views (rows : list KeyRow) : cprog (list keyView) :=
  match rows with
  | [] => CRet []
  | k :: rows' =>
      let# now := lift (perform Now) in
      let# l := key_views rows' in CRet (newKeyView now k :: l)
  end.

Definition keys (_ : CRequest) (v : view) : cprog CResponse :=
  listing (cs_ListAPIKeys (cn_store c)) (fun rows =>
    let# l := key_views rows in
    CRet (render (str "page-keys") (show (str "API keys") (KeysOf l) v))).

Definition message_filters : list gostring :=
  [[]; str "queued"; str "deferred"; str "failed"; str "sent"; str "delivered"].

Definition messages_page_handler (r : CRequest) (v : view) : cprog CResponse :=
  let status := cr_Query r (str "status") in
  let status := if bool_decide (status ∈ message_filters) then status else [] in
  listing (cs_ListMessages (cn_store c) status 200) (fun rows =>
    CRet (render (str "page-messages") (show (str "Messages") (MessagesOf (newMessageView <$> rows)) v))).

Definition suppressions_page (_ : CRequest) (v : view) : cprog CResponse :=
  listing (cs_ListSuppressions (cn_store c) 500) (fun rows =>
    CRet (render (str "page-suppressions")
            (show (str "Suppressions") (SuppressionsOf (newSuppressionView <$> rows)) v))).

Definition unsuppress (r : CRequest) : cprog CResponse :=
  let address := form r (str "address") in
  if bool_decide (address = []) then CRet (http_Error (str "no address given") 400)
  else
    let# _ := lift (cs_Unsuppress (cn_store c) address) in
    CRet (redirect r (str "/console/suppressions")).

Definition revokeKey (r : CRequest) : cprog CResponse :=
  match parse_int (form r (str "id")) with
  | None => CRet (http_Error (str "bad key id") 400)
  | Some id =>
      let# _ := lift (cs_RevokeAPIKey (cn_store c) id) in
      CRet (redirect r (str "/console/keys"))
  end.

(** [Routes]: a GET pattern also matches HEAD. *)
Definition cget (r : CRequest) : bool := bool_decide (cr_Method r = str "GET" \/ cr_Method r = str "HEAD").
Definition cpost (r : CRequest) : bool := bool_decide (cr_Method r = str "POST").

Definition at_path (r : CRequest) (path : list string) : bool :=
  bool_decide (cr_Path r = str <$> path).

Definition Routes (r : CRequest) : option (cprog CResponse) :=
  if cget r && at_path r ["console"]%string then Some (guard (str "overview") overview r)
  else if cget r && at_path r ["console"; "domains"]%string then Some (guard (str "domains") domains_page r)
  else if cget r && at_path r ["console"; "keys"]%string then Some (guard (str "keys") keys r)
  else if cget r && at_path r ["console"; "messages"]%string
  then Some (guard (str "messages") messages_page_handler r)
  else if cget r && at_path r ["console"; "suppressions"]%string
  then Some (guard (str "suppressions") suppressions_page r)
  else if cpost r && at_path r ["console"; "suppressions"; "remove"]%string then Some (guardPost unsuppress r)
  else if cpost r && at_path r ["console"; "keys"; "revoke"]%string then Some (guardPost revokeKey r)
  else if cpost r && at_path r ["console"; "logout"]%string then Some (guardPost logout r)
  else if cget r && at_path r ["console"; "login"]%string then Some (loginForm r)
  else if cpost r && at_path r ["console"; "login"]%string then Some (login r)
  else None.

End Handlers.

(** The store behind the console. *)
Definition console_store `{UnicodeTables} `{JsonErrors} `{Postgres} (s : Store) : CStore :=
  {| cs_ListDomains := ListDomains s; cs_ListAPIKeys := ListAPIKeys s; cs_ListMessages := ListMessages s;
     cs_DashboardCounts := DashboardCounts s; cs_RevokeAPIKey := RevokeAPIKey s;
     cs_ListSuppressions := ListSuppressions s; cs_Unsuppress := Unsuppress s |}.
