(* ===== verification/ConsoleSafety.v ===== *)
(** * The console's guarantees

    Who may change what through the console, where sessions come from, and what
    no page depends on. *)

From S2P Require Import Keys.
From S2P Require Import Prelude Utf8 GoStrings Sha256 Encoding Crypto Schema GoTime Program.
From S2P Require Import StoreRecipients Reading StoreKeys StoreConsole ConsoleAuth Console.
Local Open Scope Z_scope.
Local Open Scope go_scope.

(** ** Handlers that only read *)

Definition table_or_reads {X : Set} (op : ceffect X) : Prop :=
  match op with Base op => reads_only op | Table _ => True end.

Fixpoint cread_only {A} (p : cprog A) : Prop :=
  match p with
  | CRet _ => True
  | CDo op k => table_or_reads op /\ forall x, cread_only (k x)
  end.

Lemma cread_only_bind {A B} (p : cprog A) (f : A -> cprog B) :
  cread_only p -> (forall a, cread_only (f a)) -> cread_only (cbind p f).
Proof.
  intros Hp Hf. induction p as [a|X op k IH]; cbn in *; [done|].
  destruct Hp as [Ho Hk]. split; [done|]. intros x. apply IH, Hk.
Qed.

Lemma cbind_assoc {A B C} (p : cprog A) (f : A -> cprog B) (g : B -> cprog C) script st :
  crun (cbind (cbind p f) g) script st = crun (cbind p (fun a => cbind (f a) g)) script st.
Proof.
  revert script st. induction p as [a|X op k IH]; intros script st; [done|]. cbn.
  destruct (cpop script) as [e rest], (csem op e st) as [x st']. apply IH.
Qed.

Lemma cread_only_lift {A} (p : prog A) : read_only p -> cread_only (lift p).
Proof. induction p as [a|X op k IH]; cbn; [done|]. intros [Ho Hk]. split; [done|]. intros x. apply IH, Hk. Qed.

Definition cquiet (e : cenv) : Prop := quiet (ce_env e).

Lemma cquiet_pop script :
  Forall cquiet script -> cquiet (cpop script).1 /\ Forall cquiet (cpop script).2.
Proof. destruct 1; cbn; [split; [by intros db|constructor]|done]. Qed.

Definition db_in (st : cworld) : DB := w_db (cw_world st).

Lemma csem_reads {X : Set} (op : ceffect X) e st :
  table_or_reads op -> cquiet e -> db_in (csem op e st).2 = db_in st.
Proof.
  intros Hop Hq. unfold db_in, csem. destruct op as [X op|X f]; cbn in Hop.
  - pose proof (sem_reads op (ce_env e) (cw_world st) Hop Hq) as [H _].
    destruct (sem op (ce_env e) (cw_world st)); exact H.
  - destruct (f _ _). cbn. apply Hq.
Qed.

Lemma cread_only_run {A} (p : cprog A) script st :
  cread_only p -> Forall cquiet script -> db_in (final (crun p script st)) = db_in st.
Proof.
  revert script st. induction p as [a|X op k IH]; intros script st Hp Hq; [done|].
  destruct Hp as [Hop Hk]. apply cquiet_pop in Hq as [Hq1 Hq2]. cbn [crun].
  destruct (cpop script) as [e rest]; cbn [fst snd] in *.
  pose proof (csem_reads op e st Hop Hq1) as Hdb. destruct (csem op e st) as [x st']; cbn in Hdb.
  by rewrite IH.
Qed.

Lemma read_only_ListSuppressions `{UnicodeTables} `{Postgres} s n : read_only (ListSuppressions s n).
Proof. apply read_only_exec, reads_query. Qed.

#[export] Hint Resolve read_only_ListSuppressions : reading.

Section Guarded.
Context `{UnicodeTables} `{JsonErrors} `{Postgres} `{Argon2} (s : Store) (opts : Options).
Let c := NewConsole (console_store s) opts.

Lemma cread_only_session r : cread_only (currentSession r).
Proof. unfold currentSession. by case_match. Qed.

Lemma cread_only_listing {A} (p : prog (result A)) page :
  read_only p -> (forall a, cread_only (page a)) -> cread_only (listing p page).
Proof.
  intros Hp Hpage. apply cread_only_bind; [by apply cread_only_lift|]. by intros [a|e].
Qed.

Lemma cread_only_guard nav fn r :
  (forall r v, cread_only (fn r v)) -> cread_only (guard c nav fn r).
Proof. intros Hf. apply cread_only_bind; [apply cread_only_session|]. by intros [sess|]. Qed.

Lemma cread_only_key_views rows : cread_only (key_views rows).
Proof. induction rows; [done|]. apply cread_only_bind; [done|]. intros. by apply cread_only_bind. Qed.

Lemma cread_only_create : cread_only create.
Proof.
  apply cread_only_bind; [done|]. intros [id|]; [|done].
  apply cread_only_bind; [done|]. by intros [csrf|].
Qed.

Lemma cread_only_login r : cread_only (login c r).
Proof.
  unfold login. destruct (cr_Form r); [|done]. case_match; [done|].
  apply cread_only_bind; [apply cread_only_create|]. intros [[id csrf]|]; [|done]. by apply cread_only_bind.
Qed.

Lemma cread_only_logout r : cread_only (logout c r).
Proof. apply cread_only_bind; [by case_match|done]. Qed.

Lemma cread_only_loginForm r : cread_only (loginForm r).
Proof. apply cread_only_bind; [apply cread_only_session|done]. Qed.

(** The pages. *)
Lemma cread_only_pages r v :
  cread_only (overview c r v) /\ cread_only (domains_page c r v) /\ cread_only (keys c r v)
  /\ cread_only (messages_page_handler c r v) /\ cread_only (suppressions_page c r v).
Proof.
  split_and!; apply cread_only_listing; cbn [cn_store c console_store cs_DashboardCounts cs_ListDomains
    cs_ListAPIKeys cs_ListMessages cs_ListSuppressions]; auto with reading; try done.
  intros rows. apply cread_only_bind; [apply cread_only_key_views|done].
Qed.

(** ** Who may change the tables *)

(** The session the request's cookie names at the instant its guard looks. *)
Definition signed_in (r : CRequest) (script : list cenv) (st : cworld) : option session :=
  let e := (cpop script).1 in
  cr_Cookie r ≫= fun id =>
    unexpired (w_clock (arrive (ce_env e) (cw_world st))) (ce_others e (cw_sessions st) !! id).

(** What the request asks for, as a change of the tables. *)
Inductive console_change (r : CRequest) (db : DB) : DB -> Prop :=
  | change_revoked id row t :
      at_path r ["console"; "keys"; "revoke"]%string = true ->
      parse_int (form r (str "id")) = Some id ->
      api_keys db !! id = Some row -> key_revoked_at row = None ->
      console_change r db (set_api_keys <[id := revoke_row t row]> db)
  | change_released :
      at_path r ["console"; "suppressions"; "remove"]%string = true ->
      form r (str "address") <> [] ->
      console_change r db (set_suppressions (delete (SuppressionHash (form r (str "address")))) db).

Lemma guardPost_cases fn r script st :
  Forall cquiet script ->
  db_in (final (crun (guardPost fn r) script st)) = db_in st
  \/ exists sess rest st1, signed_in r script st = Some sess /\ form r (str "csrf") = se_csrf sess
       /\ Forall cquiet rest /\ db_in st1 = db_in st
       /\ crun (guardPost fn r) script st = crun (fn r) rest st1.
Proof.
  intros Hq. unfold guardPost, currentSession, signed_in. destruct (cr_Cookie r) as [id|]; [|by left].
  cbn [cbind crun]. apply cquiet_pop in Hq as [Hq1 Hq2]. destruct (cpop script) as [e rest]; cbn [fst snd] in *.
  pose proof (csem_reads (Table (get_session id)) e st I Hq1) as Hdb. cbn [csem] in *.
  pose proof (get_session_fst id (w_clock (arrive (ce_env e) (cw_world st))) (ce_others e (cw_sessions st))) as Hg.
  destruct (get_session _ _ _) as [found live]; cbn [fst] in Hg. cbn [mbind option_bind]. rewrite <- Hg.
  destruct found as [sess|]; [|by left]. unfold form. destruct (cr_Form r) as [f|]; [|by left].
  unfold validCSRF. case_bool_decide; [|by left]. right. eauto 10.
Qed.

Lemma unsuppress_change r script st :
  Forall cquiet script -> at_path r ["console"; "suppressions"; "remove"]%string = true ->
  let db' := db_in (final (crun (unsuppress c r) script st)) in
  db' = db_in st \/ console_change r (db_in st) db'.
Proof.
  intros Hq Hp. cbn zeta. unfold unsuppress. case_bool_decide as Ha; [by left|].
  apply cquiet_pop in Hq as [Hq _]. cbn. unfold csem.
  destruct (cpop script) as [e rest]; cbn [fst] in *. unfold cquiet, quiet in Hq.
  unfold sem, sem_at, sem_stmt, db_in. destruct (e_fault (ce_env e)); cbn; rewrite ?Hq; try (by left);
    right; by apply change_released.
Qed.

Lemma revoke_change r script st :
  Forall cquiet script -> at_path r ["console"; "keys"; "revoke"]%string = true ->
  let db' := db_in (final (crun (revokeKey c r) script st)) in
  db' = db_in st \/ console_change r (db_in st) db'.
Proof.
  intros Hq Hp. cbn zeta. unfold revokeKey. destruct (parse_int _) as [id|] eqn:Hid; [|by left].
  apply cquiet_pop in Hq as [Hq _]. cbn. unfold csem.
  destruct (cpop script) as [e rest]; cbn [fst] in *. unfold cquiet, quiet in Hq.
  unfold sem, sem_at, sem_stmt, db_in. destruct (e_fault (ce_env e)); cbn; rewrite ?Hq; try (by left);
    (destruct (api_keys (w_db (cw_world st)) !! id) as [row|] eqn:Hrow; cbn; rewrite ?Hq; [|by left]);
    (case_bool_decide; cbn; rewrite ?Hq; [right; by eapply change_revoked|by left]).
Qed.

(** Only a signed-in operator's own form changes the tables. Whatever request
    the console is sent and whatever other requests do to the sessions meanwhile,
    the tables stay as they are unless it is a POST whose cookie names a session
    live at that moment and whose form carries that session's token; and then the
    change is the one asked for: one live key revoked, or one address released. *)
Theorem console_writes_authorised r p script st :
  Routes c r = Some p -> Forall cquiet script ->
  let db' := db_in (final (crun p script st)) in
  db' = db_in st
  \/ (cpost r = true
      /\ (exists sess, signed_in r script st = Some sess /\ form r (str "csrf") = se_csrf sess)
      /\ console_change r (db_in st) db').
Proof.
  intros Hr Hq. cbn zeta. unfold Routes in Hr.
  repeat match type of Hr with
    | (if ?b then _ else _) = _ => destruct b eqn:?; [injection Hr as <-|]
    end; try done;
    try (left; apply cread_only_run; [|done];
         first [apply cread_only_loginForm | apply cread_only_login
               | apply cread_only_guard; intros; apply cread_only_pages]);
    match goal with Hb : cpost r && _ = true |- _ => apply andb_true_iff in Hb as [Hpost Hpath] end;
    match goal with |- context [guardPost ?fn r] =>
      destruct (guardPost_cases fn r script st Hq) as [->|(sess & rest & st1 & Hs & Hc & Hq' & Hdb & ->)];
        [by left|] end;
    rewrite <- Hdb.
  - destruct (unsuppress_change r rest st1 Hq' Hpath) as [Hsame|Hch];
      [by left|right; split_and!; [done|by exists sess|exact Hch]].
  - destruct (revoke_change r rest st1 Hq' Hpath) as [Hsame|Hch];
      [by left|right; split_and!; [done|by exists sess|exact Hch]].
  - left. apply cread_only_run; [apply cread_only_logout|done].
Qed.

(** ** Where sessions come from *)

(** No other request touches the sessions meanwhile. *)
Definition csolo (e : cenv) : Prop := forall live, ce_others e live = live.

Lemma csolo_pop script : Forall csolo script -> csolo (cpop script).1 /\ Forall csolo (cpop script).2.
Proof. by destruct 1. Qed.

Definition only_removes {X : Set} (op : ceffect X) : Prop :=
  match op with Base _ => True | Table f => forall now live, (f now live).2 ⊆ live end.

Fixpoint removes {A} (p : cprog A) : Prop :=
  match p with
  | CRet _ => True
  | CDo op k => only_removes op /\ forall x, removes (k x)
  end.

Lemma removes_bind {A B} (p : cprog A) (f : A -> cprog B) :
  removes p -> (forall a, removes (f a)) -> removes (cbind p f).
Proof.
  intros Hp Hf. induction p as [a|X op k IH]; cbn in *; [done|].
  destruct Hp as [Ho Hk]. split; [done|]. intros x. apply IH, Hk.
Qed.

Lemma removes_lift {A} (p : prog A) : removes (lift p).
Proof. induction p as [a|X op k IH]; cbn; [done|]. by split. Qed.

Lemma removes_run {A} (p : cprog A) script st :
  removes p -> Forall csolo script -> cw_sessions (final (crun p script st)) ⊆ cw_sessions st.
Proof.
  revert script st. induction p as [a|X op k IH]; intros script st Hp Hs; [done|].
  destruct Hp as [Hop Hk]. apply csolo_pop in Hs as [Hs1 Hs2]. cbn [crun].
  destruct (cpop script) as [e rest]; cbn [fst snd] in *.
  destruct (csem op e st) as [x st'] eqn:E. etrans; [by apply IH|].
  unfold csem in E. destruct op as [X op|X f].
  - destruct (sem op _ _). injection E as _ <-. cbn. by rewrite Hs1.
  - specialize (Hop (w_clock (arrive (ce_env e) (cw_world st))) (ce_others e (cw_sessions st))).
    destruct (f _ _). injection E as _ <-. cbn in *. by rewrite Hs1 in Hop.
Qed.

Lemma get_session_removes id now live : (get_session id now live).2 ⊆ live.
Proof. unfold get_session. repeat case_match; cbn; try apply delete_subseteq; done. Qed.

Lemma removes_session r : removes (currentSession r).
Proof. unfold currentSession. case_match; [|done]. split; [|done]. intros now live. apply get_session_removes. Qed.

Lemma removes_guard nav fn r : (forall r v, removes (fn r v)) -> removes (guard c nav fn r).
Proof. intros Hf. apply removes_bind; [apply removes_session|]. by intros [sess|]. Qed.

Lemma removes_guardPost fn r : removes (fn r) -> removes (guardPost fn r).
Proof.
  intros Hf. apply removes_bind; [apply removes_session|]. intros [sess|]; [|done].
  destruct (cr_Form r); [|done]. by case_match.
Qed.

Lemma removes_listing {A} (p : prog (result A)) page : (forall a, removes (page a)) -> removes (listing p page).
Proof. intros Hp. apply removes_bind; [apply removes_lift|]. by intros [a|e]. Qed.

Lemma removes_key_views rows : removes (key_views rows).
Proof. induction rows; [done|]. apply removes_bind; [done|]. intros. by apply removes_bind. Qed.

Lemma removes_pages r v :
  removes (overview c r v) /\ removes (domains_page c r v) /\ removes (keys c r v)
  /\ removes (messages_page_handler c r v) /\ removes (suppressions_page c r v).
Proof.
  split_and!; apply removes_listing; try done.
  intros rows. apply removes_bind; [apply removes_key_views|done].
Qed.

Lemma removes_posts r :
  removes (unsuppress c r) /\ removes (revokeKey c r) /\ removes (logout c r) /\ removes (loginForm r).
Proof.
  split_and!.
  - unfold unsuppress. case_match; [done|]. apply removes_bind; [apply removes_lift|done].
  - unfold revokeKey. case_match; [|done]. apply removes_bind; [apply removes_lift|done].
  - apply removes_bind; [|done]. case_match; [|done]. split; [|done]. intros now live. apply delete_subseteq.
  - apply removes_bind; [apply removes_session|done].
Qed.

Lemma sem_clock {X : Set} (op : effect X) e w : w_clock w <= w_clock (sem op e w).2.
Proof.
  unfold sem. destruct op as [| | | | | | |d]; cbn; try lia; [| |pose proof (slept_nonneg e d); lia].
  - unfold sem_stmt. destruct (e_fault e); cbn; try lia; destruct (q _ _) as [[]|]; cbn; lia.
  - unfold sem_transact. destruct (e_begin e); cbn; [lia|]. destruct (body _) as [[]]; cbn; [|lia].
    destruct (e_fault e); cbn; lia.
Qed.

Lemma crun_clock {A} (p : cprog A) script st :
  w_clock (cw_world st) <= w_clock (cw_world (final (crun p script st))).
Proof.
  revert script st. induction p as [a|X op k IH]; intros script st; [done|]. cbn [crun].
  destruct (cpop script) as [e rest]. destruct (csem op e st) as [x st'] eqn:E.
  transitivity (w_clock (cw_world st')); [|by apply IH]. unfold csem in E. destruct op as [X op|X f].
  - pose proof (sem_clock op (ce_env e) (cw_world st)) as Hc. destruct (sem op _ _). by injection E as _ <-.
  - destruct (f _ _). injection E as _ <-. cbn. lia.
Qed.

(** The text of the 32 bytes that an effect of the request read from the random source. *)
Definition drawn (e : cenv) (token : gostring) : Prop :=
  exists raw, Keys.rand_read 32 (e_entropy (ce_env e)) = Ok raw /\ length raw = 32%nat
    /\ token = base64_raw_url_encode raw.

Lemma token_drawn e token : token_of (e_entropy (ce_env e)) = Ok token -> drawn e token.
Proof.
  unfold token_of, drawn. destruct (Keys.rand_read 32 _) as [raw|] eqn:E; [|done]. intros [= <-].
  exists raw. split_and!; [done| |done]. by eapply rand_read_length.
Qed.

(** A session opened by a request: under the first token the request drew, with the
    second as its CSRF token, and lasting [SessionTTL] from an instant between the
    request's start and its end. *)
Definition opened_within (script : list cenv) (before after : cworld) (id : gostring) (sess : session) : Prop :=
  drawn (cpop script).1 id /\ drawn (cpop (cpop script).2).1 (se_csrf sess)
  /\ exists now, w_clock (cw_world before) <= now <= w_clock (cw_world after) /\ se_expires sess = now + SessionTTL.

Lemma insert_session_opens id' csrf now live id sess :
  insert_session id' csrf now live !! id = Some sess ->
  live !! id = Some sess \/ (id = id' /\ sess = {| se_csrf := csrf; se_expires := now + SessionTTL |}).
Proof.
  unfold insert_session. intros Hin%lookup_insert_Some. destruct Hin as [[<- <-]|[_ Hin]]; [by right|].
  left. rewrite lookup_prune in Hin. destruct (live !! id) as [s'|]; [|done]. cbn in Hin. by case_match.
Qed.

(** The random source, one draw. *)
Lemma crun_token {B} (f : result gostring -> cprog B) script st :
  Forall csolo script ->
  exists st', cw_sessions st' = cw_sessions st /\ w_clock (cw_world st) <= w_clock (cw_world st')
    /\ crun (cbind (lift randomToken) f) script st
       = crun (f (token_of (e_entropy (ce_env (cpop script).1)))) (cpop script).2 st'.
Proof.
  intros Hs. apply csolo_pop in Hs as [Hs1 Hs2]. cbn. destruct (cpop script) as [e rest]; cbn [fst snd] in *.
  eexists _. split_and!; [| |reflexivity]; cbn; [apply Hs1|lia].
Qed.

Lemma create_opens {B} (f : result (gostring * gostring) -> cprog B) script st :
  Forall csolo script -> (forall x, removes (f x)) ->
  let st' := final (crun (cbind create f) script st) in
  forall id sess, cw_sessions st' !! id = Some sess ->
  cw_sessions st !! id = Some sess \/ opened_within script st st' id sess.
Proof.
  intros Hs Hf. cbn zeta. intros id sess. unfold create, opened_within. pose proof (csolo_pop _ Hs) as [_ Hs1].
  pose proof (csolo_pop _ Hs1) as [_ Hs2]. rewrite cbind_assoc.
  match goal with |- context [crun (cbind (lift randomToken) ?F) script st] =>
    destruct (crun_token F script st Hs) as (st1 & Hl1 & Hc1 & ->) end.
  destruct (token_of (e_entropy (ce_env (cpop script).1))) as [i|e] eqn:Ei;
    [|cbn; intros Hin; left; rewrite <- Hl1; eapply lookup_weaken; [exact Hin|by apply removes_run]].
  rewrite cbind_assoc.
  match goal with |- context [crun (cbind (lift randomToken) ?F) ?s ?w] =>
    destruct (crun_token F s w Hs1) as (st2 & Hl2 & Hc2 & ->) end.
  destruct (token_of (e_entropy (ce_env (cpop (cpop script).2).1))) as [t|e] eqn:Et;
    [|cbn; intros Hin; left; rewrite <- Hl1, <- Hl2; eapply lookup_weaken; [exact Hin|by apply removes_run]].
  apply token_drawn in Ei, Et. destruct (cpop (cpop script).2) as [e2 rest2]; cbn [fst snd] in *.
  cbn [cbind crun]. apply csolo_pop in Hs2 as [Hs2 Hs3]. destruct (cpop rest2) as [e3 rest3]; cbn [fst snd] in *.
  cbn [csem]. match goal with |- cw_sessions (final (crun ?p ?s ?w)) !! _ = _ -> _ =>
    pose proof (crun_clock p s w) as Hc3; set (st3 := w) in * end. cbn [cw_world] in Hc3.
  intros Hin. eapply lookup_weaken in Hin; [|by apply removes_run]. subst st3. cbn in Hin, Hc3.
  apply insert_session_opens in Hin as [Hin|[-> ->]]; [left; by rewrite Hs2, Hl2, Hl1 in Hin|].
  right. split_and!; [done|done|]. eexists. split; [|reflexivity]. cbn. lia.
Qed.

(** C18: A session is opened by the password alone. Any request to the console leaves
    a session in the table that was not there only if it is a POST to the login
    page whose password matches the configured hash.  The session's id is then the
    text of the first 32 random bytes the request read, its CSRF token that of the
    next 32, and it expires [SessionTTL] after an instant between the start and the
    end of that request. *)
Theorem session_needs_password r p script st id sess :
  Routes c r = Some p -> Forall csolo script ->
  let st' := final (crun p script st) in
  cw_sessions st' !! id = Some sess ->
  cw_sessions st !! id = Some sess
  \/ (cpost r = true /\ at_path r ["console"; "login"]%string = true
      /\ PasswordHash_Verify (o_PasswordHash opts) (form r (str "password")) = true
      /\ opened_within script st st' id sess).
Proof.
  intros Hr Hs. cbn zeta. intros Hin. unfold Routes in Hr. pose proof (removes_posts r) as (Hu & Hk & Ho & Hf).
  repeat match type of Hr with
    | (if ?b then _ else _) = _ => destruct b eqn:?; [injection Hr as <-|]
    end; try done;
    try (left; eapply lookup_weaken; [exact Hin|]; apply removes_run; [|done];
         first [exact Hf | apply removes_guard; intros; apply removes_pages | by apply removes_guardPost]).
  match goal with Hb : cpost r && _ = true |- _ => apply andb_true_iff in Hb as [Hpost Hpath] end.
  unfold login, form in *. destruct (cr_Form r) as [fm|]; [|by left].
  destruct (PasswordHash_Verify (o_PasswordHash (cn_opts c)) (fm (str "password"))) eqn:Hv; [|by left].
  cbn [negb] in Hin. apply create_opens in Hin as [Hin|Hnew]; [by left|by right|done|].
  intros [[i t]|e]; [|done]. apply removes_bind; [apply removes_bind; done|done].
Qed.

End Guarded.
(** ** What no page depends on *)

(** The tables without their secrets: the hashes of API keys, the wrapped signing
    keys, the endpoints' addresses and secrets, the bodies and headers of
    messages, and the tables the console has no query for. *)
Definition blank_key (k : api_key_row) : api_key_row :=
  APIKeyRec (key_name k) (key_prefix k) [] (key_scopes k) (key_quota_per_hour k) (key_expires_at k)
    (key_revoked_at k) (key_last_used_at k) (key_last_used_ip k) (key_created_at k).

Definition blank_message (m : message_row) : message_row :=
  MessageRec (m_api_key_id m) (m_domain_id m) (m_status m) (m_from_address m) (m_recipients m)
    (m_recipients_encrypted m) [] (m_subject m) [] [] [] [] (m_attempts m) (m_scheduled_at m)
    (m_locked_until m) (m_last_error m) (m_signed_at m) (m_created_at m) (m_updated_at m).

Definition blank_endpoint (e : endpoint_row) : endpoint_row := EndpointRec [] [] (ep_active e) (ep_created_at e).

Definition blank_dkim (k : dkim_row) : dkim_row :=
  DkimRec (dk_domain_id k) (dk_selector k) (dk_algorithm k) [] (dk_public_record k) (dk_active k) (dk_created_at k).

Definition erase (db : DB) : DB :=
  {| domains := domains db; api_keys := blank_key <$> api_keys db; messages := blank_message <$> messages db;
     message_events := ∅; idempotency_records := ∅;
     webhook_endpoints := blank_endpoint <$> webhook_endpoints db; webhook_deliveries := ∅;
     dkim_keys := blank_dkim <$> dkim_keys db; suppressions := suppressions db |}.

(** Both runs of a statement answer alike and leave tables that differ in secrets only. *)
Definition blind_stmt {A} (q : statement A) : Prop :=
  forall env db1 db2, erase db1 = erase db2 ->
  match q env db1, q env db2 with
  | Ok (a, d1), Ok (b, d2) => a = b /\ erase d1 = erase d2
  | Err e1, Err e2 => e1 = e2
  | _, _ => False
  end.

Definition blind_op {X : Set} (op : ceffect X) : Prop :=
  match op with
  | Base (Stmt q) => blind_stmt q
  | Base (Transact _ _) => False
  | _ => True
  end.

Fixpoint blind {A} (p : cprog A) : Prop :=
  match p with
  | CRet _ => True
  | CDo op k => blind_op op /\ forall x, blind (k x)
  end.

Lemma blind_bind {A B} (p : cprog A) (f : A -> cprog B) :
  blind p -> (forall a, blind (f a)) -> blind (cbind p f).
Proof.
  intros Hp Hf. induction p as [a|X op k IH]; cbn in *; [done|].
  destruct Hp as [Ho Hk]. split; [done|]. intros x. apply IH, Hk.
Qed.

(** Two moments that an observer without the secrets cannot tell apart. *)
Definition alike (st1 st2 : cworld) : Prop :=
  erase (db_in st1) = erase (db_in st2) /\ w_clock (cw_world st1) = w_clock (cw_world st2)
  /\ cw_sessions st1 = cw_sessions st2.

Lemma csem_blind {X : Set} (op : ceffect X) e st1 st2 :
  blind_op op -> cquiet e -> alike st1 st2 ->
  (csem op e st1).1 = (csem op e st2).1 /\ alike (csem op e st1).2 (csem op e st2).2.
Proof.
  intros Hop Hq (Hdb & Hc & Hs). destruct st1 as [[db1 t1 q1] l1], st2 as [[db2 t2 q2] l2].
  unfold db_in, alike in *. cbn in *. subst l2 t2. unfold cquiet, quiet in Hq.
  destruct op as [X op|X f].
  - unfold csem, sem, arrive. cbn. destruct op; cbn in *; rewrite ?Hq; try done.
    unfold sem_stmt. cbn. rewrite ?Hq.
    specialize (Hop (StmtEnv (t1 + Z.of_N (e_delay (ce_env e))) (e_locked_message (ce_env e))
      (e_locked_delivery (ce_env e))) db1 db2 Hdb). unfold env_of. cbn.
    destruct (e_fault (ce_env e)); cbn; rewrite ?Hq; try done;
      (destruct (q _ db1) as [[a1 d1]|x1], (q _ db2) as [[a2 d2]|x2]; cbn; rewrite ?Hq; try done;
       [destruct Hop as [-> ?]|subst]; done).
  - unfold csem, arrive. cbn. destruct (f _ _). cbn. by rewrite !Hq.
Qed.

Lemma crun_blind {A} (p : cprog A) script st1 st2 :
  blind p -> Forall cquiet script -> alike st1 st2 -> (crun p script st1).1 = (crun p script st2).1.
Proof.
  revert script st1 st2. induction p as [a|X op k IH]; intros script st1 st2 Hp Hq Hal; [done|].
  destruct Hp as [Hop Hk]. apply cquiet_pop in Hq as [Hq1 Hq2]. cbn [crun].
  destruct (cpop script) as [e rest]; cbn [fst snd] in *.
  destruct (csem_blind op e st1 st2 Hop Hq1 Hal) as [Hx Hal'].
  destruct (csem op e st1) as [x1 s1], (csem op e st2) as [x2 s2]. cbn in *. subst x2. by apply IH.
Qed.

Lemma blind_query {A} (f : stmt_env -> DB -> A) :
  (forall env db1 db2, erase db1 = erase db2 -> f env db1 = f env db2) -> blind_stmt (query f).
Proof. intros Hf env db1 db2 He. cbn. by rewrite (Hf env db1 db2 He). Qed.

Lemma blind_exec {A : Set} prefix (q : statement A) : blind_stmt q -> blind (lift (exec_wrapped prefix q)).
Proof. by split. Qed.

(** A selection that the blanked columns play no part in. *)
Lemma select_blind {K V B} `{Countable K} (f : K -> V -> B) (blank : V -> V) (m1 m2 : gmap K V) :
  (forall k v, f k (blank v) = f k v) -> blank <$> m1 = blank <$> m2 -> select f m1 = select f m2.
Proof.
  intros Hf Hm. apply select_agree. intros k. apply (f_equal (.!! k)) in Hm. rewrite !lookup_fmap in Hm.
  destruct (m1 !! k) as [v1|], (m2 !! k) as [v2|]; cbn in *; try done. apply (inj Some) in Hm.
  by rewrite <- (Hf k v1), <- (Hf k v2), Hm.
Qed.

Ltac erased He := injection He as Hdom Hkeys Hmsg Hep Hdkim Hsup.

Section Secrets.
Context `{UnicodeTables} `{JsonErrors} `{Postgres} `{Argon2} (s : Store) (opts : Options).
Let c := NewConsole (console_store s) opts.

Lemma blind_ListDomains : blind (lift (ListDomains s)).
Proof.
  apply blind_exec, blind_query. intros env db1 db2 He. erased He. rewrite Hdom. f_equal.
  apply list_bind_ext; [|done]. intros [id d]. unfold domain_rows, active_keys.
  by rewrite (select_blind joined_key_of blank_dkim _ _ ltac:(done) Hdkim).
Qed.

Lemma blind_ListAPIKeys : blind (lift (ListAPIKeys s)).
Proof.
  apply blind_exec, blind_query. intros env db1 db2 He. erased He.
  by rewrite (select_blind (fun id k => (key_created_at k, key_row_of id k)) blank_key _ (api_keys db2) ltac:(done) Hkeys).
Qed.

Lemma blind_ListMessages status limit : blind (lift (ListMessages s status limit)).
Proof.
  split; [|done]. apply blind_query. intros env db1 db2 He. erased He. unfold messages_page.
  by rewrite (select_blind selected_message_of blank_message _ (messages db2) ltac:(done) Hmsg).
Qed.

Lemma blind_DashboardCounts : blind (lift (DashboardCounts s)).
Proof.
  split.
  - apply blind_query. intros env db1 db2 He. erased He. unfold message_counts.
    by rewrite (select_blind (fun _ r => (m_status r, m_created_at r)) blank_message _ (messages db2) ltac:(done) Hmsg).
  - intros [[[[[nq ns] nf] nd] nh]|e]; [|done]. split; [|done].
    apply blind_query. intros env db1 db2 He. erased He.
    by rewrite (select_blind (fun _ e => ep_active e) blank_endpoint _ (webhook_endpoints db2) ltac:(done) Hep).
Qed.

Lemma blind_ListSuppressions n : blind (lift (ListSuppressions s n)).
Proof. apply blind_exec, blind_query. intros env db1 db2 He. erased He. by rewrite Hsup. Qed.

Lemma blind_Unsuppress a : blind (lift (Unsuppress s a)).
Proof.
  apply blind_exec. intros env db1 db2 He. split; [done|]. erased He.
  destruct db1, db2; unfold erase; cbn in *. congruence.
Qed.

Lemma blind_RevokeAPIKey id : blind (lift (RevokeAPIKey s id)).
Proof.
  split; [|done]. intros env db1 db2 He. pose proof He as He'. erased He'.
  pose proof (f_equal (.!! id) Hkeys) as Hid. rewrite !lookup_fmap in Hid.
  destruct (api_keys db1 !! id) as [r1|], (api_keys db2 !! id) as [r2|]; cbn in Hid; try done.
  apply (inj Some) in Hid. pose proof (f_equal key_revoked_at Hid) as Hrev. cbn in Hrev. rewrite Hrev.
  case_bool_decide; [|done]. split; [done|].
  destruct db1, db2; unfold erase in *; cbn in *. rewrite !fmap_insert, Hkeys.
  change (blank_key (revoke_row (se_now env) r1)) with (revoke_row (se_now env) (blank_key r1)).
  change (blank_key (revoke_row (se_now env) r2)) with (revoke_row (se_now env) (blank_key r2)).
  by rewrite Hid, Hdom, Hmsg, Hep, Hdkim, Hsup.
Qed.

Lemma blind_session r : blind (currentSession r).
Proof. unfold currentSession. by case_match. Qed.

Lemma blind_guard nav fn r : (forall r v, blind (fn r v)) -> blind (guard c nav fn r).
Proof. intros Hf. apply blind_bind; [apply blind_session|]. by intros [sess|]. Qed.

Lemma blind_guardPost fn r : blind (fn r) -> blind (guardPost fn r).
Proof.
  intros Hf. apply blind_bind; [apply blind_session|]. intros [sess|]; [|done].
  destruct (cr_Form r); [|done]. by case_match.
Qed.

Lemma blind_listing {A} (p : prog (result A)) page :
  blind (lift p) -> (forall a, blind (page a)) -> blind (listing p page).
Proof. intros Hp Hf. apply blind_bind; [done|]. by intros [a|e]. Qed.

Lemma blind_key_views rows : blind (key_views rows).
Proof. induction rows; [done|]. apply blind_bind; [done|]. intros. by apply blind_bind. Qed.

Lemma blind_pages r v :
  blind (overview c r v) /\ blind (domains_page c r v) /\ blind (keys c r v)
  /\ blind (messages_page_handler c r v) /\ blind (suppressions_page c r v).
Proof.
  split_and!; apply blind_listing; cbn [cn_store c console_store cs_DashboardCounts cs_ListDomains
    cs_ListAPIKeys cs_ListMessages cs_ListSuppressions];
    eauto using blind_ListDomains, blind_ListAPIKeys, blind_ListMessages, blind_DashboardCounts,
      blind_ListSuppressions; try done.
  intros rows. apply blind_bind; [apply blind_key_views|done].
Qed.

Lemma blind_login r : blind (login c r).
Proof.
  unfold login. destruct (cr_Form r); [|done]. case_match; [done|]. apply blind_bind.
  - apply blind_bind; [done|]. intros [id|]; [|done]. apply blind_bind; [done|]. by intros [csrf|].
  - intros [[id csrf]|]; [|done]. by apply blind_bind.
Qed.

Lemma blind_posts r :
  blind (unsuppress c r) /\ blind (revokeKey c r) /\ blind (logout c r) /\ blind (loginForm r).
Proof.
  split_and!.
  - unfold unsuppress. case_match; [done|]. apply blind_bind; [apply blind_Unsuppress|done].
  - unfold revokeKey. case_match; [|done]. apply blind_bind; [apply blind_RevokeAPIKey|done].
  - apply blind_bind; [by case_match|done].
  - apply blind_bind; [apply blind_session|done].
Qed.

(** C19: No response of the console depends on a secret. On two deployments whose
    tables differ only in key hashes, wrapped signing keys, endpoint secrets,
    message bodies and the tables no page lists, every request gets the same
    response, whatever the faults: what is never selected cannot be shown. *)
Theorem console_hides_secrets r p script st1 st2 :
  Routes c r = Some p -> Forall cquiet script -> alike st1 st2 ->
  (crun p script st1).1 = (crun p script st2).1.
Proof.
  intros Hr Hq Hal. apply crun_blind; [|done|done]. unfold Routes in Hr.
  pose proof (blind_posts r) as (Hu & Hk & Ho & Hf).
  repeat match type of Hr with
    | (if ?b then _ else _) = _ => destruct b eqn:?; [injection Hr as <-|]
    end; try done;
    first [exact Hf | apply blind_login | apply blind_guard; intros; apply blind_pages | by apply blind_guardPost].
Qed.
End Secrets.

(** ** A concrete console *)

Definition plain_argon2 : Argon2.
Proof.
  refine {| argon2_IDKey password salt := sha256 (password ++ salt) |}. intros. apply length_sha256.
Defined.

#[local] Existing Instances ascii_tables plain_json_errors plain_postgres plain_argon2.

Definition sample_options : Options :=
  {| o_PasswordHash := {| ph_Salt := str "salt"; ph_Hash := argon2_IDKey (str "correct horse") (str "salt") |};
     o_Secure := true; o_Env := str "production"; o_Version := str "dev"; o_SendEnabled := true;
     o_MaxPerHour := 100 |}.

Definition sample_console : Console := NewConsole (console_store clear_store) sample_options.

Definition operator : cworld :=
  CWorld one_key_world {[ str "sid" := {| se_csrf := str "tok"; se_expires := 10 * Hour |} ]}.

Definition posted (path : list string) (fields : list (string * string)) : CRequest :=
  {| cr_Method := str "POST"; cr_Path := str <$> path; cr_Cookie := Some (str "sid");
     cr_Form := Ok (fun name => from_option (fun x => str x.2) []
                      (List.find (fun x => bool_decide (str x.1 = name)) fields));
     cr_Query := fun _ => [] |}.

Definition revoke_request : CRequest :=
  posted ["console"; "keys"; "revoke"]%string [("csrf", "tok"); ("id", "1")]%string.

Lemma console_writes_authorised_witness :
  exists sess, signed_in revoke_request [] operator = Some sess /\ form revoke_request (str "csrf") = se_csrf sess.
Proof.
  destruct (console_writes_authorised clear_store sample_options revoke_request
              (guardPost (revokeKey sample_console) revoke_request) [] operator) as [Hsame|(_ & Hsess & _)].
  - reflexivity.
  - constructor.
  - apply (f_equal (fun db => key_revoked_at <$> api_keys db !! 1)) in Hsame. vm_compute in Hsame. discriminate Hsame.
  - exact Hsess.
Defined.

Definition login_request : CRequest :=
  posted ["console"; "login"]%string [("password", "correct horse")]%string.

Definition drawn_token : gostring := base64_raw_url_encode (replicate 32 (byte_of 0)).

Lemma session_needs_password_witness :
  opened_within [] operator (final (crun (login sample_console login_request) [] operator)) drawn_token
    {| se_csrf := drawn_token; se_expires := 3000 + SessionTTL |}.
Proof.
  destruct (session_needs_password clear_store sample_options login_request
              (login sample_console login_request) [] operator drawn_token
              {| se_csrf := drawn_token; se_expires := 3000 + SessionTTL |}) as [Hold|(_ & _ & _ & Hnew)].
  - reflexivity.
  - constructor.
  - vm_compute. reflexivity.
  - vm_compute in Hold. discriminate Hold.
  - exact Hnew.
Defined.

(** The same deployment with another key hash. *)
Definition rehashed : cworld :=
  CWorld (set_db (set_api_keys (fmap blank_key) (db_in operator)) one_key_world) (cw_sessions operator).

Definition keys_request : CRequest :=
  {| cr_Method := str "GET"; cr_Path := str <$> ["console"; "keys"]%string; cr_Cookie := Some (str "sid");
     cr_Form := Ok (fun _ => []); cr_Query := fun _ => [] |}.

Lemma console_hides_secrets_witness :
  api_keys (db_in operator) <> api_keys (db_in rehashed)
  /\ (crun (guard sample_console (str "keys") (keys sample_console) keys_request) [] operator).1
     = (crun (guard sample_console (str "keys") (keys sample_console) keys_request) [] rehashed).1.
Proof.
  split.
  - intros Heq. apply (f_equal (fun m => key_secret_hash <$> m !! 1)) in Heq. vm_compute in Heq. discriminate Heq.
  - apply (console_hides_secrets clear_store sample_options keys_request); [reflexivity|constructor|].
    split_and!; vm_compute; reflexivity.
Defined.
