(* ===== verification/HttpApi.v ===== *)
(** * internal/httpapi: the REST surface

    auth.go, send.go, server.go, unsubscribe.go, wellknown.go and the request
    id of middleware.go.  A handler is a program whose answer is the response;
    the goroutine [recordKeyUse] starts is returned beside it, to be run at any
    later time.  The handlers are written against the interfaces [KeyStore] and
    [MessageStore], as in the source. *)

From S2P Require Import Unsubscribe Keys.
From S2P Require Import Prelude Utf8 GoStrings Quote Sha256 Template Crypto Schema Program Mail Netip Netguard Config.
From S2P Require Import GoJson GoTime StoreRecipients StoreMessages StoreKeys.
Local Open Scope Z_scope.
Local Open Scope go_scope.

(** ** Requests and responses *)

Record Request := {
  r_Method : gostring;
  (** the decoded segments of the path *)
  r_Path : list gostring;
  r_Header : gostring -> gostring;
  r_RemoteAddr : gostring;
  (** the whole body, or the error reading it ends in *)
  r_Body : result gostring;
  (** the id [withRequestID] puts in the context *)
  r_RequestID : gostring;
}.

Inductive json := JString (s : gostring) | JBool (b : bool) | JObject (fields : list (gostring * json)).

Inductive body := NoBody | JSONBody (j : json) | TextBody (t : gostring).

Record Response := {
  rs_Status : Z;
  rs_Headers : list (gostring * gostring);
  rs_Body : body;
}.

Definition StatusOK : Z := 200.
Definition StatusAccepted : Z := 202.
Definition StatusBadRequest : Z := 400.
Definition StatusUnauthorized : Z := 401.
Definition StatusForbidden : Z := 403.
Definition StatusNotFound : Z := 404.
Definition StatusConflict : Z := 409.
Definition StatusGone : Z := 410.
Definition StatusRequestEntityTooLarge : Z := 413.
Definition StatusUnprocessableEntity : Z := 422.
Definition StatusTooManyRequests : Z := 429.
Definition StatusInternalServerError : Z := 500.
Definition StatusServiceUnavailable : Z := 503.

(** [w.Header().Set] before the response is written. *)
Definition with_header (k v : gostring) (r : Response) : Response :=
  {| rs_Status := rs_Status r; rs_Headers := (k, v) :: rs_Headers r; rs_Body := rs_Body r |}.

Definition writeJSON (r : Request) (status : Z) (j : json) : Response :=
  {| rs_Status := status;
     rs_Headers := [(str "Content-Type", str "application/json; charset=utf-8");
                    (str "X-Content-Type-Options", str "nosniff")];
     rs_Body := if bool_decide (r_Method r = str "HEAD") then NoBody else JSONBody j |}.

Definition writeError (r : Request) (status : Z) (kind message : gostring) : Response :=
  writeJSON r status (JObject
    [(str "error", JObject [(str "type", JString kind); (str "message", JString message)]);
     (str "request_id", JString (r_RequestID r))]).

Definition internalError (r : Request) : Response :=
  writeError r StatusInternalServerError (str "internal_error") (str "the request could not be completed").

Definition handleNotFound (r : Request) : Response :=
  writeError r StatusNotFound (str "not_found") (str "no such endpoint").

Definition unauthorized (r : Request) : Response :=
  with_header (str "WWW-Authenticate") (str "Bearer realm=" ++ ["034"%char] ++ str "aiemail" ++ ["034"%char])
    (writeError r StatusUnauthorized (str "unauthorized")
       (str "the API key is missing, invalid, or no longer usable")).

(** ** Interfaces and the server *)

Record Pinger := { p_Ping : prog (result ()) }.

Record KeyStore := {
  ks_APIKeyByHash : gostring -> prog (result APIKey);
  ks_TouchAPIKey : Z -> option gostring -> prog (result ());
  ks_SendsInLastHour : Z -> prog (result Z);
}.

Record MessageStore := {
  ms_DomainByName : gostring -> prog (result Domain);
  ms_EnqueueMessage : NewMessage -> prog (result (StoredMessage * bool));
  ms_MessageByID : gostring -> prog (result StoredMessage);
  ms_FilterSuppressed : list gostring -> prog (result (list gostring * list gostring));
  ms_Suppress : gostring -> gostring -> gostring -> gostring -> prog (result ());
}.

Record Server := {
  sv_cfg : Config;
  sv_db : Pinger;
  sv_keys : KeyStore;
  sv_messages : MessageStore;
  sv_unsubscribeSecret : gostring;
  sv_version : gostring;
  sv_started : Z;
}.

Definition New (cfg : Config) (db : Pinger) (keyStore : KeyStore) (messageStore : MessageStore)
    (version : gostring) (now : Z) : Server :=
  {| sv_cfg := cfg; sv_db := db; sv_keys := keyStore; sv_messages := messageStore;
     sv_unsubscribeSecret := Unsubscribe.DeriveSecret (cfg_DKIMMasterKey cfg);
     sv_version := version; sv_started := now |}.

(** A response and the goroutines started on the way. *)
Abbreviation served := (prog (Response * list (prog ()))).

Definition ScopeEmailsSend : gostring := str "emails:send".
Definition ScopeEmailsRead : gostring := str "emails:read".

Definition maxBodyBytes : Z := 2097152.

Record sendRequest := {
  sq_From : gostring;
  sq_To : gostring;
  sq_Subject : gostring;
  sq_HTML : gostring;
  sq_Text : gostring;
  sq_ReplyTo : gostring;
  sq_Headers : option (gmap gostring gostring);
  sq_Tags : option (gmap gostring gostring);
  sq_ScheduledAt : gostring;
  sq_Variables : option (gmap gostring gostring);
}.

(** [ulid.Make().String()] from the clock and the random source *)
Class ApiLib := { ulid_Make : Z -> entropy -> gostring }.

Section Api.
Context `{UnicodeTables} `{GoRuntime} `{UrlLib} `{ApiLib}.

(** ** auth.go *)

Definition bearerToken (r : Request) : option gostring :=
  let raw := r_Header r (str "Authorization") in
  if bool_decide (raw = []) then None
  else match cut raw [" "%char] with
       | None => None
       | Some (scheme, token) =>
           if negb (equal_fold scheme (str "bearer")) then None
           else let token := trim_space token in
                if bool_decide (token = []) then None else Some token
       end.

Definition splitHostPort (hostport : gostring) : option (gostring * gostring) :=
  match last_index_byte ":"%char hostport with
  | None => None
  | Some i => Some (trim_suffix (str "]") (trim_prefix (str "[") (take i hostport)), drop (i + 1) hostport)
  end.

(** [None] is the zero [netip.Addr]. *)
Definition clientAddr (r : Request) : option Addr :=
  ParseAddr (match splitHostPort (r_RemoteAddr r) with Some (h, _) => h | None => r_RemoteAddr r end).

(** The body of the goroutine. *)
Definition recordKeyUse (s : Server) (r : Request) (id : Z) : prog () :=
  let! _ := ks_TouchAPIKey (sv_keys s) id (addr_string <$> clientAddr r) in Ret tt.

Definition requireKey (s : Server) (scope : gostring) (next : APIKey -> Request -> prog Response)
    (r : Request) : served :=
  match bearerToken r with
  | None => Ret (unauthorized r, [])
  | Some secret =>
      match Keys.Parse secret with
      | Err _ => Ret (unauthorized r, [])
      | Ok _ =>
          let! found := ks_APIKeyByHash (sv_keys s) (Keys.Hash secret) in
          match found with
          | Err _ => Ret (unauthorized r, [])
          | Ok key =>
              let! now := perform Now in
              if Revoked key || Expired key now then Ret (unauthorized r, [])
              else if negb (HasScope key scope)
              then Ret (writeError r StatusForbidden (str "insufficient_scope")
                          (str "this key is not permitted to perform that action"), [])
              else let! response := next key r in Ret (response, [recordKeyUse s r (k_ID key)])
          end
      end
  end.

(** ** send.go *)

(** [io.ReadAll(http.MaxBytesReader(w, r.Body, maxBodyBytes))] *)
Definition read_body (r : Request) : result gostring :=
  match r_Body r with
  | Err e => Err e
  | Ok b => if maxBodyBytes <? len b then Err (errors_New (str "http: request body too large")) else Ok b
  end.

(** One member of the body into the request: the field is found whatever the case
    of the key, and [DisallowUnknownFields] refuses a key that names none. *)
Definition decode_field (req : sendRequest) (member : gostring * gostring) : option sendRequest :=
  let '(key, raw) := member in
  let '(Build_sendRequest from to subject html text replyTo headers tags scheduledAt variables) := req in
  let named name := equal_fold key (str name) in
  if named "from"%string then
    (fun v => Build_sendRequest v to subject html text replyTo headers tags scheduledAt variables)
      <$> decode_string from raw
  else if named "to"%string then
    Some (Build_sendRequest from raw subject html text replyTo headers tags scheduledAt variables)
  else if named "subject"%string then
    (fun v => Build_sendRequest from to v html text replyTo headers tags scheduledAt variables)
      <$> decode_string subject raw
  else if named "html"%string then
    (fun v => Build_sendRequest from to subject v text replyTo headers tags scheduledAt variables)
      <$> decode_string html raw
  else if named "text"%string then
    (fun v => Build_sendRequest from to subject html v replyTo headers tags scheduledAt variables)
      <$> decode_string text raw
  else if named "reply_to"%string then
    (fun v => Build_sendRequest from to subject html text v headers tags scheduledAt variables)
      <$> decode_string replyTo raw
  else if named "headers"%string then
    (fun v => Build_sendRequest from to subject html text replyTo v tags scheduledAt variables)
      <$> decode_map headers raw
  else if named "tags"%string then
    (fun v => Build_sendRequest from to subject html text replyTo headers v scheduledAt variables)
      <$> decode_map tags raw
  else if named "scheduled_at"%string then
    (fun v => Build_sendRequest from to subject html text replyTo headers tags v variables)
      <$> decode_string scheduledAt raw
  else if named "variables"%string then
    (fun v => Build_sendRequest from to subject html text replyTo headers tags scheduledAt v)
      <$> decode_map variables raw
  else None.

Fixpoint decode_fields (req : sendRequest) (members : list (gostring * gostring)) : option sendRequest :=
  match members with
  | [] => Some req
  | member :: members' => decode_field req member ≫= fun req' => decode_fields req' members'
  end.

Definition zero_request : sendRequest := Build_sendRequest [] [] [] [] [] [] None None [] None.

(** [decoder.Decode(&req)]: the first value of the body; [null] leaves the zero
    request, and what follows the value is not read. *)
Definition decode_send (raw : gostring) : option sendRequest :=
  first_value raw ≫= fun value =>
    if is_null value then Some zero_request
    else decode_members value ≫= decode_fields zero_request.

Definition decodeRecipients (rawTo : gostring) : result (list gostring) :=
  if bool_decide (rawTo = []) then Err (errors_New (str "at least one recipient is required"))
  else match unmarshal_string rawTo with
       | Some single => Ok [single]
       | None => match unmarshal_list rawTo with
                 | Some many => Ok many
                 | None => Err (errors_New (str "must be an address or an array of addresses"))
                 end
       end.

(** [orEmpty] *)
Definition orEmpty (m : option (gmap gostring gostring)) : gmap gostring gostring := default ∅ m.

(** The [Error()] of template.Render's errors. *)
Definition render_error_text (e : render_error) : gostring :=
  match e with
  | ErrTemplateTooLarge => str "template exceeds 524288 bytes"
  | ErrOutputTooLarge => str "rendered output exceeds 1048576 bytes"
  | ErrTooManyTags => str "template contains more than 500 tags"
  | ErrTooManyVariables => str "more than 100 variables supplied"
  | ErrUnclosedTag => str "template has an unclosed tag"
  | UnknownVariableError name => str "template uses " ++ quote name ++ str " but no such variable was supplied"
  | InvalidNameError name =>
      quote name ++ str " is not a valid variable name; only letters, digits and underscore are allowed"
  end.

(** A field's template rendered; [None] does not happen (the loop has fuel for
    every tag). *)
Definition render_field (name tmpl : gostring) (vars : bindings) (escape : bool) : result gostring :=
  match Render tmpl vars escape with
  | Some (inl s) => Ok s
  | Some (inr e) => Err (wrap_v name (errors_New (render_error_text e)))
  | None => Err (errors_New name)
  end.

(** [fmt.Sprintf("<name>: %v", err)] *)
Definition field_problem {A} (name : gostring) (r : result A) : result A :=
  match r with Ok a => Ok a | Err e => Err (wrap_v name e) end.

Fixpoint check_headers (l : list (gostring * gostring)) : result () :=
  match l with
  | [] => Ok tt
  | (name, value) :: l' => let? _ := ValidateCustomHeader name value in check_headers l'
  end.

Fixpoint check_tags (l : list (gostring * gostring)) : result () :=
  match l with
  | [] => Ok tt
  | (name, value) :: l' =>
      if ContainsControl name || ContainsControl value
      then Err (errors_New (str "tag " ++ quote name ++ str " contains a control character"))
      else check_tags l'
  end.

(** Subject, HTML and text after substitution and validation, and the checks on
    the remaining fields that need neither the store nor the clock. *)
Definition build_content (req : sendRequest) : result (gostring * gostring * gostring) :=
  let vars := range_map (orEmpty (sq_Variables req)) in
  let? subject := render_field (str "subject") (sq_Subject req) vars false in
  let? bodyHTML := render_field (str "html") (sq_HTML req) vars true in
  let? bodyText := render_field (str "text") (sq_Text req) vars false in
  let? _ := field_problem (str "subject") (ValidateSubject subject) in
  if bool_decide (trim_space bodyHTML = []) && bool_decide (trim_space bodyText = [])
  then Err (errors_New (str "either html or text is required"))
  else
    let? _ := if bool_decide (sq_ReplyTo req <> [])
              then field_problem (str "reply_to") (ParseAddress (sq_ReplyTo req))
              else Ok {| a_Name := []; a_Email := []; a_Domain := [] |} in
    let? _ := check_headers (range_map (orEmpty (sq_Headers req))) in
    let? _ := check_tags (range_map (orEmpty (sq_Tags req))) in
    Ok (subject, bodyHTML, bodyText).

Definition schedule (req : sendRequest) : prog (result (option Z)) :=
  if bool_decide (sq_ScheduledAt req = []) then Ret (Ok None)
  else match parse_rfc3339 (sq_ScheduledAt req) with
       | None => Ret (Err (errors_New (str "scheduled_at must be an RFC 3339 timestamp")))
       | Some at_ =>
           let! now := perform Now in
           if at_ <? now then Ret (Err (errors_New (str "scheduled_at must be in the future")))
           else Ret (Ok (Some at_))
       end.

(** The verified sending domain. *)
Definition sending_domain (s : Server) (name : gostring) : prog (result Domain) :=
  let! found := ms_DomainByName (sv_messages s) name in
  Ret match found with
      | Err e =>
          if errors_Is e store_ErrNotFound
          then Err (errors_New (str "from: domain " ++ quote name ++ str " is not registered on this account"))
          else Err (errors_New (str "the sending domain could not be verified"))
      | Ok domain =>
          if negb (bool_decide (d_Status domain = dom_verified))
          then Err (errors_New (str "from: domain " ++ quote name ++ str " is not verified"))
          else Ok domain
      end.

(** The recipients that may be sent to. *)
Definition allowed_recipients (s : Server) (recipients : list gostring) : prog (result (list gostring)) :=
  let! split := ms_FilterSuppressed (sv_messages s) recipients in
  Ret match split with
      | Err _ => Err (errors_New (str "the recipient list could not be checked"))
      | Ok (allowed, blocked) =>
          if bool_decide (allowed = [])
          then Err (errors_New (str "every recipient is suppressed: " ++ join blocked (str ", ")))
          else Ok allowed
      end.

(** The error's text is the problem string of the source. *)
Definition buildMessage (s : Server) (r : Request) (key : APIKey) (req : sendRequest) (raw : gostring)
    : prog (result NewMessage) :=
  match (let? from := field_problem (str "from") (ParseAddress (sq_From req)) in
         let? list := field_problem (str "to") (decodeRecipients (sq_To req)) in
         let? recipients := field_problem (str "to") (ParseRecipients list) in
         Ok (from, recipients)) with
  | Err e => Ret (Err e)
  | Ok (from, recipients) =>
      let! allowed := allowed_recipients s recipients in
      match (let? recipients := allowed in
             let? content := build_content req in
             Ok (recipients, content)) with
      | Err e => Ret (Err e)
      | Ok (recipients, (subject, bodyHTML, bodyText)) =>
          let! scheduled := schedule req in
          match scheduled with
          | Err e => Ret (Err e)
          | Ok scheduledAt =>
              let! domain := sending_domain s (a_Domain from) in
              match domain with
              | Err e => Ret (Err e)
              | Ok domain =>
                  let! now := perform Now in
                  let! rand := perform Entropy in
                  Ret (Ok {| n_ID := ulid_Make now rand; n_APIKeyID := k_ID key; n_DomainID := d_ID domain;
                             n_FromAddress := a_Email from; n_Recipients := recipients;
                             n_Subject := subject; n_BodyHTML := bodyHTML; n_BodyText := bodyText;
                             n_Headers := json_of_map (orEmpty (sq_Headers req));
                             n_Tags := json_of_map (orEmpty (sq_Tags req));
                             n_ScheduledAt := scheduledAt;
                             n_IdempotencyKey := trim_space (r_Header r (str "Idempotency-Key"));
                             n_RequestHash := sha256 raw |})
              end
          end
      end
  end.

(** Whether the key's hourly quota leaves room; an error is the response. *)
Definition check_quota (s : Server) (r : Request) (key : APIKey) : prog (option Response) :=
  if 0 <? k_QuotaPerHour key then
    let! used := ks_SendsInLastHour (sv_keys s) (k_ID key) in
    Ret match used with
        | Err _ => Some (internalError r)
        | Ok used =>
            if k_QuotaPerHour key <=? used
            then Some (with_header (str "Retry-After") (str "3600")
                   (writeError r StatusTooManyRequests (str "quota_exceeded")
                      (str "this key has reached its hourly quota")))
            else None
        end
  else Ret None.

Definition message_json (m : StoredMessage) : json :=
  JObject [(str "id", JString (s_ID m)); (str "status", JString (status_text (s_Status m)));
           (str "created_at", JString (format_rfc3339 (s_CreatedAt m)))].

(** The response to the outcome of [EnqueueMessage]. *)
Definition enqueue_response (r : Request) (outcome : result (StoredMessage * bool)) : Response :=
  match outcome with
  | Err e =>
      if errors_Is e store_ErrIdempotencyMismatch
      then writeError r StatusUnprocessableEntity (str "idempotency_mismatch")
             (str "this idempotency key was already used with a different request")
      else if errors_Is e store_ErrIdempotencyInFlight
      then with_header (str "Retry-After") (str "1")
             (writeError r StatusConflict (str "request_in_flight")
                (str "an identical request is still being processed"))
      else internalError r
  | Ok (m, replayed) =>
      let response := writeJSON r StatusAccepted (message_json m) in
      if (replayed : bool) then with_header (str "Idempotent-Replay") (str "true") response else response
  end.

Definition handleSend (s : Server) (key : APIKey) (r : Request) : prog Response :=
  if negb (cfg_SendEnabled (sv_cfg s))
  then Ret (writeError r StatusServiceUnavailable (str "sending_disabled")
              (str "sending is disabled on this deployment"))
  else match read_body r with
       | Err _ => Ret (writeError r StatusRequestEntityTooLarge (str "payload_too_large")
                         (str "the request body is too large"))
       | Ok raw =>
           match decode_send raw with
           | None => Ret (writeError r StatusBadRequest (str "invalid_json")
                            (str "the request body could not be parsed"))
           | Some req =>
               let! built := buildMessage s r key req raw in
               match built with
               | Err problem => Ret (writeError r StatusUnprocessableEntity (str "invalid_request") (err_text problem))
               | Ok msg =>
                   let! refused := check_quota s r key in
                   match refused with
                   | Some response => Ret response
                   | None =>
                       let! outcome := ms_EnqueueMessage (sv_messages s) msg in
                       Ret (enqueue_response r outcome)
                   end
               end
           end
       end.

(** ** unsubscribe.go *)

Definition page_style : gostring :=
  str "<style>body{background:#0b0f14;color:#e5e7eb;font:16px/1.6 system-ui,sans-serif;display:grid;place-items:center;min-height:90vh;margin:0}"
  ++ ["010"%char] ++ str "main{max-width:26rem;padding:2rem;text-align:center}"
  ++ ["010"%char] ++ str "button{font:inherit;background:#1a2331;color:#e5e7eb;border:1px solid #1f2937;border-radius:.5rem;padding:.6rem 1.2rem;cursor:pointer}"
  ++ ["010"%char] ++ str ".muted{color:#9ca3af;font-size:.9rem}</style>".

Definition in_quotes (s : gostring) : gostring := "034"%char :: s ++ ["034"%char].

Definition page (problem confirmAddress : gostring) : gostring :=
  if bool_decide (problem <> []) then
    str "<!doctype html><title>Unsubscribe</title>" ++ page_style
    ++ str "<main><h1>Unsubscribe</h1><p>" ++ html_escape problem ++ str "</p></main>"
  else if bool_decide (confirmAddress <> []) then
    str "<!doctype html><title>Unsubscribe</title>" ++ page_style
    ++ str "<main><h1>Unsubscribe</h1><p>Stop sending email to <strong>"
    ++ html_escape confirmAddress ++ str "</strong>?</p>"
    ++ str "<form method=" ++ in_quotes (str "post") ++ str "><button type=" ++ in_quotes (str "submit")
    ++ str ">Unsubscribe me</button></form>"
    ++ str "<p class=" ++ in_quotes (str "muted") ++ str ">Nothing changes until you confirm.</p></main>"
  else
    str "<!doctype html><title>Unsubscribed</title>" ++ page_style
    ++ str "<main><h1>Unsubscribed</h1><p>You will not receive further email from this sender.</p></main>".

Definition renderUnsubscribe (status : Z) (problem confirmAddress : gostring) : Response :=
  {| rs_Status := status;
     rs_Headers := [(str "Content-Type", str "text/html; charset=utf-8");
       (str "Content-Security-Policy", str "default-src 'none'; style-src 'unsafe-inline'; form-action 'self'; base-uri 'none'; frame-ancestors 'none'");
       (str "X-Content-Type-Options", str "nosniff"); (str "X-Frame-Options", str "DENY");
       (str "Cache-Control", str "no-store"); (str "Referrer-Policy", str "no-referrer")];
     rs_Body := TextBody (page problem confirmAddress) |}.

Definition invalid_link : gostring := str "This unsubscribe link is not valid or has expired.".

Definition handleUnsubscribeForm (s : Server) (token : gostring) (r : Request) : prog Response :=
  let! now := perform Now in
  Ret match Unsubscribe.Verify (sv_unsubscribeSecret s) token now with
      | Err _ => renderUnsubscribe StatusBadRequest invalid_link []
      | Ok claim => renderUnsubscribe StatusOK [] (Unsubscribe.t_Address claim)
      end.

Definition handleUnsubscribe (s : Server) (token : gostring) (r : Request) : prog Response :=
  let! now := perform Now in
  match Unsubscribe.Verify (sv_unsubscribeSecret s) token now with
  | Err e =>
      let status := if errors_Is e unsubscribe_ErrExpired then StatusGone else StatusBadRequest in
      Ret (renderUnsubscribe status invalid_link [])
  | Ok claim =>
      let! done := ms_Suppress (sv_messages s) (Unsubscribe.t_Address claim) (str "unsubscribe")
                     (str "requested by the recipient") (Unsubscribe.t_MessageID claim) in
      Ret match done with
          | Err _ => renderUnsubscribe StatusInternalServerError (str "Something went wrong. Please try again.") []
          | Ok _ => renderUnsubscribe StatusOK [] []
          end
  end.

(** ** wellknown.go *)

Definition LF : gostring := ["010"%char].

Definition handleMTASTSPolicy (s : Server) (r : Request) : Response :=
  let cfg := sv_cfg s in
  if bool_decide (cfg_MTASTSHosts cfg = [])
  then writeError r StatusNotFound (str "not_found") (str "no policy is published")
  else {| rs_Status := StatusOK;
          rs_Headers := [(str "Content-Type", str "text/plain; charset=utf-8");
            (str "Cache-Control", str "public, max-age=3600"); (str "X-Content-Type-Options", str "nosniff")];
          rs_Body := TextBody (str "version: STSv1" ++ LF ++ str "mode: " ++ cfg_MTASTSMode cfg ++ LF
            ++ (cfg_MTASTSHosts cfg ≫= fun host => str "mx: " ++ host ++ LF)
            ++ str "max_age: " ++ format_int (cfg_MTASTSMaxAge cfg) ++ LF) |}.

Definition handleSecurityTxt (s : Server) (r : Request) : Response :=
  let cfg := sv_cfg s in
  if bool_decide (cfg_SecurityContact cfg = [])
  then writeError r StatusNotFound (str "not_found") (str "no security contact is published")
  else {| rs_Status := StatusOK;
          rs_Headers := [(str "Content-Type", str "text/plain; charset=utf-8");
            (str "Cache-Control", str "public, max-age=86400"); (str "X-Content-Type-Options", str "nosniff")];
          rs_Body := TextBody (str "Contact: " ++ cfg_SecurityContact cfg ++ LF
            ++ (if bool_decide (cfg_SecurityPolicyURL cfg <> [])
                then str "Policy: " ++ cfg_SecurityPolicyURL cfg ++ LF else [])
            ++ str "Preferred-Languages: en" ++ LF) |}.

(** ** server.go *)

(** [time.Since(s.started).Round(time.Second)]; the clock is monotonic. *)
Definition round_second (d : Z) : Z := (d + Second / 2) / Second * Second.

Definition handleHealth (s : Server) (r : Request) : prog Response :=
  let! now := perform Now in
  Ret (writeJSON r StatusOK (JObject
    [(str "status", JString (str "ok")); (str "version", JString (sv_version s));
     (str "uptime", JString (duration_string (round_second (now - sv_started s))))])).

Definition handleReady (s : Server) (r : Request) : prog Response :=
  let! ping := p_Ping (sv_db s) in
  Ret match ping with
      | Err _ => writeJSON r StatusServiceUnavailable (JObject
          [(str "status", JString (str "unavailable")); (str "database", JString (str "unreachable"))])
      | Ok _ => writeJSON r StatusOK (JObject
          [(str "status", JString (str "ok")); (str "database", JString (str "ok"));
           (str "send_enabled", JBool (cfg_SendEnabled (sv_cfg s)))])
      end.

Definition handleGetMessage (s : Server) (id : gostring) (key : APIKey) (r : Request) : prog Response :=
  let! found := ms_MessageByID (sv_messages s) id in
  Ret match found with
      | Err e => if errors_Is e store_ErrNotFound
                 then writeError r StatusNotFound (str "not_found") (str "no such message")
                 else internalError r
      | Ok m => writeJSON r StatusOK (message_json m)
      end.

Definition no_goroutine (p : prog Response) : served := let! response := p in Ret (response, []).

Definition is_get (r : Request) : bool := bool_decide (r_Method r ∈ [str "GET"; str "HEAD"]).
Definition is_post (r : Request) : bool := bool_decide (r_Method r = str "POST").

(** The mux: a [GET] pattern also serves [HEAD], a wildcard matches one
    non-empty segment, and "/" takes what no other pattern matches. *)
Definition route (s : Server) (r : Request) : served :=
  let not_found := Ret (handleNotFound r, []) in
  match r_Path r with
  | [a; b] =>
      if bool_decide (a = str ".well-known") && bool_decide (b = str "mta-sts.txt") && is_get r
      then Ret (handleMTASTSPolicy s r, [])
      else if bool_decide (a = str ".well-known") && bool_decide (b = str "security.txt") && is_get r
      then Ret (handleSecurityTxt s r, [])
      else if bool_decide (a = str "u") && bool_decide (b <> []) && is_get r
      then no_goroutine (handleUnsubscribeForm s b r)
      else if bool_decide (a = str "u") && bool_decide (b <> []) && is_post r
      then no_goroutine (handleUnsubscribe s b r)
      else if bool_decide (a = str "v1") && bool_decide (b = str "emails") && is_post r
      then requireKey s ScopeEmailsSend (handleSend s) r
      else not_found
  | [a] =>
      if bool_decide (a = str "healthz") && is_get r then no_goroutine (handleHealth s r)
      else if bool_decide (a = str "readyz") && is_get r then no_goroutine (handleReady s r)
      else not_found
  | [a; b; id] =>
      if bool_decide (a = str "v1") && bool_decide (b = str "emails") && bool_decide (id <> []) && is_get r
      then requireKey s ScopeEmailsRead (handleGetMessage s id) r
      else not_found
  | _ => not_found
  end.

(** ** middleware.go *)

Definition newRequestID (e : entropy) : gostring :=
  match Keys.rand_read 12 e with Ok b => hex_encode b | Err _ => str "unavailable" end.

Definition set_request_id (id : gostring) (r : Request) : Request :=
  {| r_Method := r_Method r; r_Path := r_Path r; r_Header := r_Header r; r_RemoteAddr := r_RemoteAddr r;
     r_Body := r_Body r; r_RequestID := id |}.

Definition withRequestID (next : Request -> served) (r : Request) : served :=
  let! e := perform Entropy in
  let id := newRequestID e in
  let! answer := next (set_request_id id r) in
  Ret (with_header (str "X-Request-Id") id answer.1, answer.2).

(** [s.withRecovery(s.withRequestID(s.withLogging(mux)))]; logging does not
    change the response. *)
Definition Handler (s : Server) (r : Request) : served := withRequestID (route s) r.

End Api.
