(* ===== verification/Acceptance.v ===== *)
(** * The API over the store: what a request can change

    The handlers of HttpApi.v run against the store's operations.  Reading a
    request is separated from changing the tables: everything a send request
    does before its transaction is [read_only], so its checks and its effect
    refer to one state of the database when nothing else writes meanwhile. *)

From S2P Require Import Unsubscribe Keys.
From S2P Require Import Prelude Utf8 GoStrings Sha256 Template Crypto Schema Program Mail Netguard Config.
From S2P Require Import GoJson GoTime StoreRecipients Reading StoreConn StoreQueue StoreMessages StoreKeys HttpApi.
Local Open Scope Z_scope.
Local Open Scope go_scope.

Section Acceptance.
Context `{UnicodeTables} `{GoRuntime} `{UrlLib} `{ApiLib} `{JsonErrors} `{Postgres}.

(** ** The server over the store *)

Definition store_pinger (st : Store) : Pinger := {| p_Ping := Ping st |}.

Definition store_key_api (st : Store) : KeyStore :=
  {| ks_APIKeyByHash := APIKeyByHash st; ks_TouchAPIKey := TouchAPIKey st;
     ks_SendsInLastHour := SendsInLastHour st |}.

Definition store_message_api (st : Store) : MessageStore :=
  {| ms_DomainByName := DomainByName st; ms_EnqueueMessage := EnqueueMessage st;
     ms_MessageByID := MessageByID st; ms_FilterSuppressed := FilterSuppressed st;
     ms_Suppress := Suppress st |}.

Definition api (cfg : Config) (st : Store) (version : gostring) (started : Z) : Server :=
  New cfg (store_pinger st) (store_key_api st) (store_message_api st) version started.

(** ** What the store's queries find *)

Lemma read_only_APIKeyByHash st h : read_only (APIKeyByHash st h).
Proof. split; [apply reads_query|done]. Qed.

Lemma read_only_DomainByName st name : read_only (DomainByName st name).
Proof. split; [|done]. intros env db a db' [_ [= _ <-]]%ensure_Ok. done. Qed.

Lemma read_only_MessageByID st id : read_only (MessageByID st id).
Proof. split; [|done]. intros env db a db' [_ [= _ <-]]%ensure_Ok. done. Qed.

Lemma read_only_FilterSuppressed st l : read_only (FilterSuppressed st l).
Proof.
  unfold FilterSuppressed. case_bool_decide; [done|]. split; [apply reads_query|]. by intros [|].
Qed.

Lemma read_only_SendsInLastHour st id : read_only (SendsInLastHour st id).
Proof. apply read_only_exec, reads_query. Qed.

Lemma APIKeyByHash_finds st h script w k rest :
  Forall quiet script -> run (APIKeyByHash st h) script w = (Ok k, rest) ->
  exists id row, api_keys (w_db w) !! id = Some row /\ key_secret_hash row = h /\ k = api_key_of (id, row).
Proof.
  intros [Hq _]%quiet_pop. cbn. destruct (pop script) as [e script']; cbn in *.
  unfold sem, sem_at, sem_stmt, query; cbn. destruct (e_fault e); cbn; try done.
  rewrite Hq. unfold key_by_hash. destruct (head _) as [[id row]|] eqn:E; [|done]. intros [= <- _].
  apply head_Some_elem_of, list_elem_of_filter in E as [Hh Hrow%elem_of_rows]. eauto.
Qed.

Lemma DomainByName_finds st name script w d rest :
  Forall quiet script -> run (DomainByName st name) script w = (Ok d, rest) ->
  exists row, domains (w_db w) !! d_ID d = Some row /\ dom_name row = name /\ d_Status d = dom_status row.
Proof.
  intros [Hq _]%quiet_pop. cbn. destruct (pop script) as [e script']; cbn in *.
  unfold sem, sem_at, sem_stmt; cbn. destruct (e_fault e); cbn; try done;
    destruct (text_ok name); cbn; try done.
  rewrite Hq. destruct (head _) as [[id row]|] eqn:E; [|done]. intros [= <- _].
  apply head_Some_elem_of, list_elem_of_filter in E as [Hh Hrow%elem_of_rows]. eauto.
Qed.

Lemma FilterSuppressed_quiet st l script w allowed blocked rest :
  Forall quiet script -> run (FilterSuppressed st l) script w = (Ok (allowed, blocked), rest) ->
  allowed = base.filter (fun a => ~ suppressed (w_db w) a) l.
Proof.
  intros Hq E. pose proof (FilterSuppressed_run st l script w allowed blocked) as Hf.
  unfold result_of in Hf. rewrite E in Hf. destruct (Hf eq_refl) as [-> _].
  apply quiet_pop in Hq as [Hq _]. cbn. by rewrite Hq.
Qed.

Lemma SendsInLastHour_counts st id script w n rest :
  Forall quiet script -> run (SendsInLastHour st id) script w = (Ok n, rest) ->
  exists t, w_clock w <= t /\ n = Z.of_nat (length (sends_since id (t - Hour) (w_db w))).
Proof.
  intros [Hq _]%quiet_pop. cbn. destruct (pop script) as [e script']; cbn in *.
  unfold sem, sem_at, sem_stmt, query; cbn. destruct (e_fault e); cbn; try done.
  intros [= <- _]. rewrite Hq. eexists. split; [|done]. lia.
Qed.

#[local] Hint Resolve read_only_APIKeyByHash read_only_DomainByName read_only_MessageByID
  read_only_FilterSuppressed read_only_SendsInLastHour : reading.

Section Sending.
Context (cfg : Config) (st : Store) (version : gostring) (started : Z).
Let srv := api cfg st version started.

Lemma read_only_allowed l : read_only (allowed_recipients srv l).
Proof. apply read_only_bind; [apply read_only_FilterSuppressed|done]. Qed.

Lemma read_only_domain name : read_only (sending_domain srv name).
Proof. apply read_only_bind; [apply read_only_DomainByName|done]. Qed.

Lemma read_only_schedule req : read_only (schedule req).
Proof.
  unfold schedule. case_bool_decide; [done|]. destruct (parse_rfc3339 _); [|done].
  apply read_only_bind; [done|]. intros now. by case_match.
Qed.

Lemma read_only_quota r key : read_only (check_quota srv r key).
Proof.
  unfold check_quota. case_match; [|done]. apply read_only_bind; [apply read_only_SendsInLastHour|done].
Qed.

#[local] Hint Resolve read_only_now read_only_entropy read_only_allowed read_only_domain
  read_only_schedule read_only_quota : reading.

Lemma read_only_buildMessage r key req raw : read_only (buildMessage srv r key req raw).
Proof.
  unfold buildMessage. destruct (let? _ := _ in _) as [[from recipients]|]; [|done].
  apply read_only_bind; [eauto with reading|]. intros allowed.
  destruct (let? _ := _ in _) as [[l [[subject html] text]]|]; [|done].
  apply read_only_bind; [eauto with reading|]. intros [at_|]; [|done].
  apply read_only_bind; [eauto with reading|]. intros [d|]; [|done].
  apply read_only_bind; [done|]. intros now. by apply read_only_bind.
Qed.

#[local] Hint Resolve read_only_buildMessage : reading.

(** What every message that reaches the queue has been checked for, against the
    tables [db]: the sender's domain is verified, the recipients are those of
    the request that are not suppressed, at least one of them, and the subject
    and custom headers are safe to put in a header. *)
Record checked (db : DB) (req : sendRequest) (raw : gostring) (msg : NewMessage) : Prop := {
  ck_domain : exists from d, ParseAddress (sq_From req) = Ok from /\ n_FromAddress msg = a_Email from
    /\ domains db !! n_DomainID msg = Some d /\ dom_name d = a_Domain from /\ dom_status d = dom_verified;
  ck_recipients : exists l all, decodeRecipients (sq_To req) = Ok l /\ ParseRecipients l = Ok all
    /\ n_Recipients msg = base.filter (fun a => ~ suppressed db a) all;
  ck_some : n_Recipients msg <> [];
  ck_subject : ValidateSubject (n_Subject msg) = Ok tt;
  ck_headers : forall name value, orEmpty (sq_Headers req) !! name = Some value ->
    ValidateCustomHeader name value = Ok tt;
  ck_hash : n_RequestHash msg = sha256 raw;
}.

Lemma check_headers_all l : check_headers l = Ok tt ->
  forall name value, (name, value) ∈ l -> ValidateCustomHeader name value = Ok tt.
Proof.
  induction l as [|[n v] l IH]; cbn; [by intros _ ? ? []%not_elem_of_nil|].
  intros ([] & Hv & Hl)%rbind_ok name value [[= -> ->]|Hin]%elem_of_cons; eauto.
Qed.

Lemma build_content_Ok req subject html text :
  build_content req = Ok (subject, html, text) ->
  ValidateSubject subject = Ok tt
  /\ forall name value, orEmpty (sq_Headers req) !! name = Some value -> ValidateCustomHeader name value = Ok tt.
Proof.
  unfold build_content. intros (s & _ & (h & _ & (t & _ & ([] & Hs & E)%rbind_ok)%rbind_ok)%rbind_ok)%rbind_ok.
  destruct (_ && _); [done|]. apply rbind_ok in E as (_ & _ & ([] & Hh & ([] & _ & [= <- <- <-])%rbind_ok)%rbind_ok).
  split.
  - destruct (ValidateSubject s) as [[]|]; [done|discriminate].
  - intros name value Hn. eapply check_headers_all; [exact Hh|].
    by rewrite range_map_perm, elem_of_map_to_list.
Qed.

Lemma field_problem_Ok {A} name (r : result A) a : field_problem name r = Ok a -> r = Ok a.
Proof. by destruct r. Qed.

Lemma buildMessage_Ok r key req raw script w msg rest :
  Forall quiet script -> run (buildMessage srv r key req raw) script w = (Ok msg, rest) ->
  n_APIKeyID msg = k_ID key
  /\ n_IdempotencyKey msg = trim_space (r_Header r (str "Idempotency-Key"))
  /\ checked (w_db w) req raw msg.
Proof.
  intros Hq. unfold buildMessage.
  destruct (let? _ := _ in _) as [[from recipients]|] eqn:E0; [|done].
  apply rbind_ok in E0 as (from' & Hfrom%field_problem_Ok & (l & Hl%field_problem_Ok & (all & Hall%field_problem_Ok & [= -> ->])%rbind_ok)%rbind_ok).
  read_step allowed Hrun. destruct (let? _ := _ in _) as [[l' [[subject html] text]]|] eqn:E1; [|done].
  apply rbind_ok in E1 as (l'' & -> & (c & Hc1 & [= -> ->])%rbind_ok).
  apply build_content_Ok in Hc1 as [Hsub Hhead].
  read_step sched Hrun2. destruct sched as [at_|]; [|done].
  read_step dm Hrun3. destruct dm as [d|]; [|done].
  read_step now Hrun4. read_step rand Hrun5. intros [= <- _]. cbn. split_and!; [done..|].
  unfold sending_domain in Hrun3. rewrite run_bind in Hrun3.
  destruct (run (ms_DomainByName _ _) _ _) as [[d'|err] [sA wA]] eqn:E3; cbn in Hrun3;
    [|by destruct (errors_Is err store_ErrNotFound)].
  case_bool_decide as Hst; [|done]. injection Hrun3 as -> <- <-.
  edestruct (DomainByName_finds st) as (row & Hrow & Hname & Hds); [|exact E3|]; [eassumption|].
  unfold allowed_recipients in Hrun. rewrite run_bind in Hrun.
  destruct (run (ms_FilterSuppressed _ _) _ _) as [[[al bl]|] [sB wB]] eqn:E4; cbn in Hrun; [|done].
  case_bool_decide as Hne; [done|]. injection Hrun as -> <- <-.
  eapply (FilterSuppressed_quiet st) in E4; [|eassumption].
  split; cbn; try done.
  - exists from, row. split_and!; try done; congruence.
  - exists l, recipients. done.
Qed.

(** A key that may be used at [clock] for [scope]. *)
Record live_key (db : DB) (clock : Z) (r : Request) (scope : gostring) (id : Z) (row : api_key_row) : Prop := {
  lk_row : api_keys db !! id = Some row;
  lk_secret : exists secret, bearerToken r = Some secret /\ Keys.Parse secret = Ok tt
                /\ key_secret_hash row = Keys.Hash secret;
  lk_revoked : key_revoked_at row = None;
  lk_expiry : clock < key_expires_at row;
  lk_scope : scope ∈ key_scopes row;
}.

(** The two answers of [requireKey] itself: the second tells the holder of a
    usable key that the key lacks the scope. *)
Definition refusal (db : DB) (r : Request) (scope : gostring) (response : Response) : Prop :=
  response = unauthorized r
  \/ (response = writeError r StatusForbidden (str "insufficient_scope")
                   (str "this key is not permitted to perform that action")
      /\ exists id row secret, api_keys db !! id = Some row /\ bearerToken r = Some secret
           /\ key_secret_hash row = Keys.Hash secret /\ key_revoked_at row = None /\ scope ∉ key_scopes row).

Lemma HasScope_spec k scope : HasScope k scope = true <-> scope ∈ k_Scopes k.
Proof.
  unfold HasScope. rewrite List.existsb_exists. setoid_rewrite bool_decide_eq_true.
  setoid_rewrite <- list_elem_of_In. naive_solver.
Qed.

(** Either the handler runs, for a live key and on the same tables, or the
    request is refused and nothing changes. *)
Lemma requireKey_run scope next r script w :
  Forall quiet script ->
  (exists response rest, run (requireKey srv scope next r) script w = ((response, []), rest)
     /\ refusal (w_db w) r scope response /\ w_db rest.2 = w_db w)
  \/ (exists id row script' w' response rest,
        live_key (w_db w) (w_clock w') r scope id row
        /\ w_db w' = w_db w /\ Forall quiet script' /\ w_clock w <= w_clock w'
        /\ run (next (api_key_of (id, row)) r) script' w' = (response, rest)
        /\ run (requireKey srv scope next r) script w = ((response, [recordKeyUse srv r id]), rest)).
Proof.
  intros Hq. unfold requireKey, refusal.
  destruct (bearerToken r) as [secret|] eqn:Hb; [|left; cbn; eauto 10].
  destruct (Keys.Parse secret) as [[]|] eqn:Hp; [|left; cbn; eauto 10].
  change (ks_APIKeyByHash (sv_keys srv)) with (APIKeyByHash st).
  read_step found Hrun. destruct found as [key|]; [|left; cbn; eauto 10].
  destruct (APIKeyByHash_finds st _ _ _ _ _ Hq Hrun) as (id & row & Hrow & Hh & ->).
  read_step now Hrun2. destruct (Revoked _ || Expired _ _) eqn:Hlive.
  { left. cbn. do 2 eexists. split; [done|]. split; [by left|cbn; congruence]. }
  apply orb_false_iff in Hlive as [Hr He]. destruct (HasScope _ scope) eqn:Hs; cbn [negb].
  2:{ left. cbn. do 2 eexists. split; [done|]. split; [|cbn; congruence]. right. split; [done|].
      exists id, row, secret. split_and!; try done.
      - unfold Revoked in Hr. cbn in Hr. by destruct (key_revoked_at row).
      - intros Hin. by rewrite (proj2 (HasScope_spec (api_key_of (id, row)) scope) Hin) in Hs. }
  right. rewrite run_bind. destruct (run (next _ r) _ _) as [response rest] eqn:En.
  exists id, row, script1, w1, response, rest. split; [|split_and!; try done; [congruence|lia|by destruct rest]].
  apply HasScope_spec in Hs. split; try done; [eauto| |].
  - unfold Revoked in Hr. cbn in Hr. by destruct (key_revoked_at row).
  - unfold Expired in He. cbn in He, Hrun2. apply negb_false_iff, Z.ltb_lt in He.
    destruct (pop script0) as [e ?]; cbn in Hrun2. injection Hrun2 as <- _ <-. done.
Qed.

Lemma live_key_earlier db c c' r scope id row :
  c <= c' -> live_key db c' r scope id row -> live_key db c r scope id row.
Proof. intros Hc [? ? ? He ?]. split; try done. lia. Qed.

(** What holds of a message before it is handed to the store. *)
Record authorised (db : DB) (clock : Z) (r : Request) (msg : NewMessage) : Prop := {
  au_enabled : cfg_SendEnabled cfg = true;
  au_key : exists row, live_key db clock r ScopeEmailsSend (n_APIKeyID msg) row
    /\ (0 < key_quota_per_hour row -> exists t, clock <= t
          /\ Z.of_nat (length (sends_since (n_APIKeyID msg) (t - Hour) db)) < key_quota_per_hour row);
  au_request : exists raw req, read_body r = Ok raw /\ decode_send raw = Some req /\ checked db req raw msg;
  au_idempotency : n_IdempotencyKey msg = trim_space (r_Header r (str "Idempotency-Key"));
}.

Lemma authorised_earlier db c c' r msg : c <= c' -> authorised db c' r msg -> authorised db c r msg.
Proof.
  intros Hc [He (row & Hk & Hquota) Hr Hi]. split; try done. exists row.
  split; [by eapply live_key_earlier|]. intros (t & Ht & Hn)%Hquota. exists t. split; [lia|done].
Qed.

(** A send request under a live key is refused without effect, or reaches
    [EnqueueMessage] with an authorised message on unchanged tables. *)
Lemma handleSend_run id row r script w :
  Forall quiet script -> live_key (w_db w) (w_clock w) r ScopeEmailsSend id row ->
  (exists response rest, run (handleSend srv (api_key_of (id, row)) r) script w = (response, rest)
     /\ rs_Status response <> StatusAccepted /\ w_db rest.2 = w_db w)
  \/ (exists msg script' w' outcome rest,
        authorised (w_db w) (w_clock w) r msg /\ w_db w' = w_db w /\ Forall quiet script'
        /\ run (EnqueueMessage st msg) script' w' = (outcome, rest)
        /\ run (handleSend srv (api_key_of (id, row)) r) script w = (enqueue_response r outcome, rest)).
Proof.
  intros Hq Hkey. unfold handleSend. destruct (cfg_SendEnabled (sv_cfg srv)) eqn:Hse; cbn [negb].
  2:{ left. cbn. eauto 10. }
  destruct (read_body r) as [raw|] eqn:Hraw; [|left; cbn; eauto 10].
  destruct (decode_send raw) as [req|] eqn:Hreq; [|left; cbn; eauto 10].
  read_step built Hbuild. destruct built as [msg|].
  2:{ left. cbn. do 2 eexists. split_and!; done. }
  destruct (buildMessage_Ok _ _ _ _ _ _ _ _ Hq Hbuild) as (Hid & Hidem & Hck). cbn in Hid.
  read_step refused Hquota. destruct refused as [response|].
  { left. cbn. do 2 eexists. split_and!; [done| |cbn; congruence].
    unfold check_quota in Hquota. destruct (0 <? k_QuotaPerHour _); [|done].
    rewrite run_bind in Hquota. destruct (run (ks_SendsInLastHour _ _) _ _) as [[n|] [? ?]]; cbn in Hquota;
      [case_match|]; by simplify_eq. }
  right. rewrite run_bind. change (ms_EnqueueMessage (sv_messages srv)) with (EnqueueMessage st).
  destruct (run (EnqueueMessage st msg) script1 w1) as [outcome rest] eqn:En.
  exists msg, script1, w1, outcome, rest. split_and!; try done; [|congruence|by destruct rest].
  split; try done; [|by eauto]. exists row. rewrite Hid. split; [done|]. intros Hpos.
  unfold check_quota in Hquota.
  change (k_QuotaPerHour (api_key_of (id, row))) with (key_quota_per_hour row) in Hquota.
  change (k_ID (api_key_of (id, row))) with id in Hquota. apply Z.ltb_lt in Hpos. rewrite Hpos, run_bind in Hquota.
  destruct (run (ks_SendsInLastHour _ id) script0 w0) as [[n|] [? ?]] eqn:Es; cbn in Hquota; [|done].
  destruct (Z.leb_spec (key_quota_per_hour row) n); [done|].
  destruct (SendsInLastHour_counts st _ _ _ _ _ Hq0 Es) as (t & Ht & ->).
  exists t. rewrite Hdb in *. split; [lia|done].
Qed.

(** What a send request does, in one of two ways. *)
Lemma send_outcome r script w :
  Forall quiet script ->
  let out := run (requireKey srv ScopeEmailsSend (handleSend srv) r) script w in
  (db_of out = w_db w
   /\ (rs_Status (result_of out).1 = StatusAccepted ->
        exists msg m, authorised (w_db w) (w_clock w) r msg /\ replays msg (w_db w) m))
  \/ (exists msg now rand, authorised (w_db w) (w_clock w) r msg
        /\ accepted st msg now rand (w_db w) (db_of out)).
Proof.
  intros Hq. cbn zeta. unfold db_of, world_of, result_of.
  destruct (requireKey_run ScopeEmailsSend (handleSend srv) r script w Hq)
    as [(resp & rest & -> & Href & Hdb)|(id & row & s1 & w1 & resp & rest & Hkey & Hdb1 & Hq1 & Hc & Hn & ->)]; cbn.
  { left. split; [done|]. intros Hs. by destruct Href as [-> | [-> _]]. }
  rewrite <- Hdb1 in Hkey.
  destruct (handleSend_run id row r s1 w1 Hq1 Hkey)
    as [(resp' & rest' & Hrun & Hst & Hdb)|(msg & s2 & w2 & outcome & rest' & Hau & Hdb2 & Hq2 & Hen & Hrun)];
    rewrite Hn in Hrun; simplify_eq.
  { left. split; [congruence|]. by intros ?%Hst. }
  apply authorised_earlier with (c := w_clock w) in Hau; [|done]. rewrite Hdb1 in *.
  pose proof (EnqueueMessage_run st msg s2 w2) as Hr. cbn zeta in Hr.
  unfold result_of, db_of, world_of in Hr. rewrite Hen in Hr; cbn in Hr.
  apply quiet_pop in Hq2 as [Hq2 _]. rewrite Hdb2, !Hq2 in Hr.
  destruct Hr as [(err & -> & Hdb)|[(m & -> & Hdb & _ & Hrep)|[Ha _]]].
  - left. split; [done|]. cbn. repeat case_match; done.
  - left. split; [done|]. eauto.
  - right. eauto 10.
Qed.

(** C3: No request gets a message into the queue that it was not entitled to
    send.  Whatever fails and whatever is answered, POST /v1/emails either leaves
    the tables as they were or adds exactly one authorised message: sending is
    enabled, the bearer key is stored, not revoked, not expired, scoped for
    sending and under its quota, the sender's domain is verified, and the
    recipients are exactly those requested that are not suppressed.  A 202 is
    answered only for such a message or for the replay of an earlier one. *)
Theorem send_is_authorised r script w :
  Forall quiet script ->
  let out := run (requireKey srv ScopeEmailsSend (handleSend srv) r) script w in
  (db_of out = w_db w
   \/ exists msg now rand, authorised (w_db w) (w_clock w) r msg
        /\ accepted st msg now rand (w_db w) (db_of out))
  /\ (rs_Status (result_of out).1 = StatusAccepted ->
       exists msg, authorised (w_db w) (w_clock w) r msg
         /\ ((exists now rand, accepted st msg now rand (w_db w) (db_of out))
             \/ (db_of out = w_db w /\ exists m, replays msg (w_db w) m))).
Proof.
  intros Hq. cbn zeta. destruct (send_outcome r script w Hq) as [[Hdb Hs]|(msg & now & rand & Hau & Ha)].
  - split; [by left|]. intros (msg & m & Hau & Hrep)%Hs. exists msg. eauto.
  - split; [right|]; eauto 10.
Qed.

(** C33: Every refusal of a credential looks the same.  Without a usable key for
    the scope (the header missing or malformed, the key unknown, revoked or
    expired) the answer is the one 401 response of the request, or, only to the
    holder of a stored key that is not revoked and lacks the scope, 403; the
    handler does not run, no goroutine starts and nothing is written. *)
Theorem refusals_are_uniform scope next r script w :
  Forall quiet script ->
  (forall id row, ~ live_key (w_db w) (w_clock w) r scope id row) ->
  let out := run (requireKey srv scope next r) script w in
  refusal (w_db w) r scope (result_of out).1 /\ (result_of out).2 = [] /\ db_of out = w_db w.
Proof.
  intros Hq Hno. cbn zeta. unfold result_of, db_of, world_of.
  destruct (requireKey_run scope next r script w Hq)
    as [(resp & rest & -> & Href & Hdb)|(id & row & s1 & w1 & resp & rest & Hkey & _ & _ & Hc & _)]; [done|].
  destruct (Hno id row). by eapply live_key_earlier.
Qed.

(** ** What requests can change *)

(** Everything about a key except when and from where it was last used. *)
Definition key_core (row : api_key_row) : api_key_row :=
  APIKeyRec (key_name row) (key_prefix row) (key_secret_hash row) (key_scopes row) (key_quota_per_hour row)
    (key_expires_at row) (key_revoked_at row) None None (key_created_at row).

(** The databases differ at most in the last use of keys. *)
Definition same_but_last_use (db db' : DB) : Prop :=
  set_api_keys (fmap key_core) db = set_api_keys (fmap key_core) db'.

Definition only_last_use (p : prog ()) : Prop :=
  forall script w, Forall quiet script -> same_but_last_use (w_db w) (db_of (run p script w)).

Lemma recordKeyUse_only_last_use r id : only_last_use (recordKeyUse srv r id).
Proof.
  intros script w [Hq _]%quiet_pop. unfold recordKeyUse, db_of, world_of. rewrite run_bind. cbn.
  destruct (pop script) as [e script']; cbn in *. unfold sem, sem_at, sem_stmt; cbn.
  assert (Hs : forall db f, (forall row, key_core (f row) = key_core row) ->
            same_but_last_use db (set_api_keys (alter f id) db)).
  { intros db f Hf. unfold same_but_last_use. destruct db; cbn. f_equal. apply map_eq. intros i.
    rewrite !lookup_fmap. destruct (decide (i = id)) as [->|Hne].
    - rewrite lookup_alter_eq. destruct (api_keys !! id) as [row|]; cbn; [by rewrite Hf|done].
    - by rewrite lookup_alter_ne. }
  destruct (e_fault e); cbn; rewrite Hq; (reflexivity || by apply Hs).
Qed.

Definition tame (out : Response * list (prog ())) : Prop := Forall only_last_use out.2.

Lemma requireKey_tame scope next r : returns tame (requireKey srv scope next r).
Proof.
  unfold requireKey. destruct (bearerToken r); [|by constructor].
  destruct (Keys.Parse _); [|by constructor]. apply returns_bind. intros [key|]; [|by constructor].
  apply returns_bind. intros now. destruct (_ || _); [by constructor|]. destruct (negb _); [by constructor|].
  apply returns_bind. intros response. cbn. unfold tame. cbn. constructor; [|done].
  apply recordKeyUse_only_last_use.
Qed.

Lemma no_goroutine_tame p : returns tame (no_goroutine p).
Proof. apply returns_bind. intros response. by constructor. Qed.

Lemma requireKey_read_only scope next r :
  (forall key, read_only (next key r)) -> read_only (requireKey srv scope next r).
Proof.
  intros Hn. unfold requireKey. destruct (bearerToken r); [|done]. destruct (Keys.Parse _); [|done].
  apply read_only_bind; [apply read_only_APIKeyByHash|]. intros [key|]; [|done].
  apply read_only_bind; [done|]. intros now. destruct (_ || _); [done|]. destruct (negb _); [done|].
  by apply read_only_bind.
Qed.

Lemma no_goroutine_read_only p : read_only p -> read_only (no_goroutine p).
Proof. intros Hp. by apply read_only_bind. Qed.

Lemma handleGetMessage_read_only id key r : read_only (handleGetMessage srv id key r).
Proof. apply read_only_bind; [apply read_only_MessageByID|done]. Qed.

Lemma handleReady_read_only r : read_only (handleReady srv r).
Proof. apply read_only_bind; [|done]. split; [apply reads_query|done]. Qed.

(** The two requests that may write. *)
Definition writes (r : Request) : Prop :=
  r_Method r = str "POST"
  /\ (r_Path r = [str "v1"; str "emails"] \/ exists token, r_Path r = [str "u"; token]).

Lemma route_tame r : returns tame (route srv r).
Proof.
  unfold route. repeat case_match; try (by constructor); eauto using requireKey_tame, no_goroutine_tame.
Qed.

Lemma route_read_only r : ~ writes r -> read_only (route srv r).
Proof.
  intros Hw. unfold route, is_post.
  repeat case_match; try done; eauto using requireKey_read_only, no_goroutine_read_only,
    handleGetMessage_read_only, handleReady_read_only;
    try (by apply no_goroutine_read_only);
    (destruct Hw; boolify; destruct_and?; subst; unfold writes; eauto).
Qed.

(** Only two requests write: POST /v1/emails and POST /u/{token}.  Every
    other request, whatever its method, path, headers and credential, leaves the
    tables as they are; and what any request leaves running behind it changes
    nothing but the last use of its key.  In particular the unsubscribe form,
    which mail scanners fetch, is inert. *)
Theorem only_two_requests_write r script w :
  Forall quiet script ->
  let out := run (Handler srv r) script w in
  (~ writes r -> db_of out = w_db w) /\ Forall only_last_use (result_of out).2.
Proof.
  intros Hq. cbn zeta. split.
  - intros Hw. destruct (read_only_run (Handler srv r) script w) as (a & s' & w' & E & Hdb & _); [|done|].
    + apply read_only_bind; [done|]. intros e. apply read_only_bind; [|done]. by apply route_read_only.
    + unfold db_of, world_of. by rewrite E.
  - apply (returns_run tame). apply returns_bind. intros e.
    assert (Hr : forall (p : served) id, returns tame p ->
      returns tame (let! answer := p in Ret (with_header (str "X-Request-Id") id answer.1, answer.2))).
    { intros p id Hp. induction p as [a|X op k IH]; cbn in *; eauto. }
    apply Hr, route_tame.
Qed.

(** ** One-click unsubscribe *)

(** A [POST] of a token: what the clock says when it is checked decides. *)
Lemma handleUnsubscribe_run token r script w :
  Forall quiet script ->
  let now := w_clock (arrive (pop script).1 w) in
  exists response script' w', run (handleUnsubscribe srv token r) script w = (response, (script', w'))
  /\ Forall quiet script'
  /\ match Unsubscribe.Verify (sv_unsubscribeSecret srv) token now with
     | Err e => w_db w' = w_db w
         /\ rs_Status response = if errors_Is e unsubscribe_ErrExpired then StatusGone else StatusBadRequest
     | Ok claim =>
         (forall h row, suppressions (w_db w) !! h = Some row -> suppressions (w_db w') !! h = Some row)
         /\ messages (w_db w') = messages (w_db w)
         /\ (rs_Status response = StatusOK -> suppressed (w_db w') (Unsubscribe.t_Address claim))
     end.
Proof.
  intros [Hq1 Hq2]%quiet_pop. cbn zeta. unfold handleUnsubscribe. rewrite run_bind. cbn [run perform].
  destruct (pop script) as [e script'] eqn:Ep; cbn [fst snd] in *. unfold sem, sem_at.
  destruct (Unsubscribe.Verify _ token _) as [claim|err].
  2:{ do 3 eexists. split; [reflexivity|]. cbn. by rewrite Hq1. }
  rewrite run_bind. change (ms_Suppress (sv_messages srv)) with (Suppress st).
  pose proof (Suppress_run st (Unsubscribe.t_Address claim) (str "unsubscribe") (str "requested by the recipient")
    (Unsubscribe.t_MessageID claim) script' (arrive e w)) as Hs.
  apply quiet_pop in Hq2 as [Hq2 Hq3]. destruct (pop script') as [e2 script'']; cbn [fst snd] in *.
  destruct (run (Suppress _ _ _ _ _) script' _) as [[[]|] [rest w']]; cbn in Hs |- *;
    rewrite Hq1, Hq2 in Hs; destruct Hs as (-> & Hkeep & Hm & Hs);
    (do 3 eexists; split; [reflexivity|]); (split_and!; [done..|]); [by intros _; apply Hs|done].
Qed.

(** A one-click unsubscribe acts on its token only: an invalid or expired
    token changes nothing (and is answered 400 or 410), a valid one removes no
    suppression and touches no message, and a 200 means the address the token was
    issued for is on the list. *)
Theorem unsubscribe_effect token r script w :
  Forall quiet script ->
  let out := run (handleUnsubscribe srv token r) script w in
  let now := w_clock (arrive (pop script).1 w) in
  match Unsubscribe.Verify (sv_unsubscribeSecret srv) token now with
  | Err e => db_of out = w_db w
      /\ rs_Status (result_of out) = if errors_Is e unsubscribe_ErrExpired then StatusGone else StatusBadRequest
  | Ok claim =>
      (forall h row, suppressions (w_db w) !! h = Some row -> suppressions (db_of out) !! h = Some row)
      /\ messages (db_of out) = messages (w_db w)
      /\ (rs_Status (result_of out) = StatusOK -> suppressed (db_of out) (Unsubscribe.t_Address claim))
  end.
Proof.
  intros Hq. destruct (handleUnsubscribe_run token r script w Hq) as (resp & s' & w' & E & _ & Hr).
  cbn zeta in *. unfold db_of, world_of, result_of. rewrite E. exact Hr.
Qed.

(** A reply-to address is checked and then dropped.  Two requests that differ
    only in a valid [reply_to] make the same message, so nothing downstream can
    honour it. *)
Theorem reply_to_is_dropped r key req raw a b ea eb :
  a <> [] -> b <> [] -> ParseAddress a = Ok ea -> ParseAddress b = Ok eb ->
  let with_reply_to address :=
    {| sq_From := sq_From req; sq_To := sq_To req; sq_Subject := sq_Subject req; sq_HTML := sq_HTML req;
       sq_Text := sq_Text req; sq_ReplyTo := address; sq_Headers := sq_Headers req; sq_Tags := sq_Tags req;
       sq_ScheduledAt := sq_ScheduledAt req; sq_Variables := sq_Variables req |} in
  buildMessage srv r key (with_reply_to a) raw = buildMessage srv r key (with_reply_to b) raw.
Proof.
  intros Ha Hb Ea Eb. cbn zeta. unfold buildMessage. cbn.
  assert (Hc : forall x ex, x <> [] -> ParseAddress x = Ok ex ->
    (if bool_decide (x <> []) then field_problem (str "reply_to") (ParseAddress x)
     else Ok {| a_Name := []; a_Email := []; a_Domain := [] |}) = Ok ex).
  { intros x ex Hx Ex. by rewrite bool_decide_eq_true_2, Ex. }
  unfold build_content. cbn [sq_ReplyTo sq_Variables sq_Subject sq_HTML sq_Text sq_Headers sq_Tags].
  rewrite (Hc _ _ Ha Ea), (Hc _ _ Hb Eb). done.
Qed.

End Sending.
End Acceptance.

(** ** A concrete deployment *)

Definition sample_config : Config := {|
  cfg_Env := EnvDevelopment; cfg_ListenAddr := str "127.0.0.1:8080"; cfg_DatabaseURL := str "postgres://db";
  cfg_LogLevel := str "info"; cfg_SendEnabled := true; cfg_EngineURL := str "http://engine";
  cfg_MaxSendPerHour := 100; cfg_DKIMMasterKey := replicate 32 "k"%char; cfg_MTASTSHosts := [];
  cfg_MTASTSMode := str "testing"; cfg_MTASTSMaxAge := 604800; cfg_SecurityContact := [];
  cfg_SecurityPolicyURL := []; cfg_PublicBaseURL := str "https://mail.x.io"; cfg_ConsolePasswordHash := [];
  cfg_ConsoleSecureCookies := false; cfg_ShutdownGrace := 30 * Second |}.

Definition plain_api_lib : ApiLib := {| ulid_Make _ _ := str "m1" |}.

(** The body of a send request to these recipients. *)
Definition sample_body (recipients : list gostring) : gostring :=
  json_of_members
    [(str "from", json_of_string (str "shop@x.io")); (str "to", json_of_strings recipients);
     (str "subject", json_of_string (str "Order {{n}}")); (str "html", json_of_string (str "<p>Hi</p>"));
     (str "variables", json_of_map {[ str "n" := str "7" ]})].

#[local] Existing Instances ascii_tables plain_runtime plain_url_lib plain_api_lib plain_json_errors plain_postgres.

Definition sample_request (method : gostring) (path : list gostring) (recipients : list gostring) : Request :=
  {| r_Method := method; r_Path := path;
     r_Header := fun k => if bool_decide (k = str "Authorization")
                          then str "Bearer " ++ Keys.sample_secret else [];
     r_RemoteAddr := str "9.9.9.9:4242"; r_Body := Ok (sample_body recipients); r_RequestID := str "r1" |}.

Definition sample_send : list gostring -> Request := sample_request (str "POST") [str "v1"; str "emails"].

(** One verified domain, one key, and the message [m0] of an earlier send. *)
Definition tenant : world :=
  World (set_messages <[str "m0" := sample_row sent 0 None]>
          (set_domains <[1 := DomainRec (str "x.io") (str "t") dom_verified None None 0]>
             (w_db Keys.one_key_world))) 0 [].

Definition sample_api : Server := api sample_config clear_store (str "dev") 0.

Definition send_run (recipients : list gostring) :=
  run (requireKey sample_api ScopeEmailsSend (handleSend sample_api) (sample_send recipients)) [] tenant.

Example send_accepted :
  rs_Status (result_of (send_run [str "Ann@y.io"; str "ann@y.io"])).1 = StatusAccepted
  /\ (m_subject <$> messages (db_of (send_run [str "Ann@y.io"; str "ann@y.io"])) !! str "m1") = Some (str "Order 7").
Proof. vm_compute. done. Qed.

Lemma send_is_authorised_witness :
  exists msg, authorised sample_config (w_db tenant) (w_clock tenant) (sample_send [str "ann@y.io"]) msg.
Proof.
  pose proof (send_is_authorised sample_config clear_store (str "dev") 0 (sample_send [str "ann@y.io"]) []
    tenant (Forall_nil_2 _)) as [_ H]. destruct H as (msg & Hau & _); [vm_compute; reflexivity|].
  exists msg. exact Hau.
Defined.

Definition anonymous : Request :=
  {| r_Method := str "GET"; r_Path := [str "v1"; str "emails"; str "m0"]; r_Header := fun _ => [];
     r_RemoteAddr := []; r_Body := Ok []; r_RequestID := str "r2" |}.

Lemma refusals_are_uniform_witness :
  (result_of (run (requireKey sample_api ScopeEmailsRead (handleGetMessage sample_api (str "m0")) anonymous) [] tenant)).2
  = [].
Proof.
  apply (refusals_are_uniform sample_config clear_store (str "dev") 0 ScopeEmailsRead
           (handleGetMessage sample_api (str "m0")) anonymous [] tenant (Forall_nil_2 _)).
  intros id row [_ (secret & Hb & _) _ _ _]. discriminate Hb.
Defined.

Definition bo_token : gostring :=
  Unsubscribe.Sign (Unsubscribe.DeriveSecret (cfg_DKIMMasterKey sample_config)) (str "m0") (str " Bo@y.io") 0.

Lemma only_two_requests_write_witness :
  db_of (run (Handler sample_api (sample_request (str "GET") [str "u"; bo_token] [])) [] tenant) = w_db tenant.
Proof.
  apply (only_two_requests_write sample_config clear_store (str "dev") 0
           (sample_request (str "GET") [str "u"; bo_token] []) [] tenant (Forall_nil_2 _)).
  intros [Hm _]. discriminate Hm.
Defined.

Lemma unsubscribe_effect_witness :
  suppressed (db_of (run (handleUnsubscribe sample_api bo_token (sample_send [])) [] tenant)) (str "bo@y.io").
Proof.
  pose proof (unsubscribe_effect sample_config clear_store (str "dev") 0 bo_token (sample_send []) [] tenant
    (Forall_nil_2 _)) as H.
  assert (Unsubscribe.Verify (sv_unsubscribeSecret sample_api) bo_token (w_clock (arrive (pop []).1 tenant))
    = Ok {| Unsubscribe.t_MessageID := str "m0"; Unsubscribe.t_Address := str "bo@y.io";
            Unsubscribe.t_ExpiresAt := 7776000 * Second |}) as E by (vm_compute; reflexivity).
  unfold sample_api in E. cbn zeta in H. rewrite E in H. apply H. vm_compute. reflexivity.
Defined.

Lemma reply_to_is_dropped_witness :
  str "a@x.io" <> str "b@x.io" /\
  let req address := {| sq_From := str "shop@x.io"; sq_To := str "ann@y.io"; sq_Subject := str "Hi"; sq_HTML := str "x";
    sq_Text := []; sq_ReplyTo := address; sq_Headers := None; sq_Tags := None; sq_ScheduledAt := [];
    sq_Variables := None |} in
  let key := {| k_ID := 1; k_Name := []; k_Prefix := []; k_Scopes := []; k_QuotaPerHour := 0; k_ExpiresAt := 0;
                k_RevokedAt := None; k_LastUsedAt := None |} in
  buildMessage sample_api (sample_send []) key (req (str "a@x.io")) []
  = buildMessage sample_api (sample_send []) key (req (str "b@x.io")) [].
Proof.
  split; [discriminate|]. cbn zeta.
  apply (reply_to_is_dropped sample_config clear_store (str "dev") 0 (sample_send []) _
    {| sq_From := str "shop@x.io"; sq_To := str "ann@y.io"; sq_Subject := str "Hi"; sq_HTML := str "x";
       sq_Text := []; sq_ReplyTo := []; sq_Headers := None; sq_Tags := None; sq_ScheduledAt := [];
       sq_Variables := None |} [] (str "a@x.io") (str "b@x.io")
    {| a_Name := []; a_Email := str "a@x.io"; a_Domain := str "x.io" |}
    {| a_Name := []; a_Email := str "b@x.io"; a_Domain := str "x.io" |}).
  - discriminate.
  - discriminate.
  - vm_compute. reflexivity.
  - vm_compute. reflexivity.
Defined.
