(* ===== verification/Optout.v ===== *)
(** * Opting out: what the API does once an address is on the suppression list

    Rely and guarantee for one entry of the list.  While nobody takes the entry off
    (the console's unsuppress is the only code that does), whatever other processes
    write meanwhile, no request served by the API adds a message to that address. *)

From S2P Require Import Unsubscribe Keys.
From S2P Require Import Prelude Utf8 GoStrings Sha256 Crypto Schema Program Mail Netguard Config.
From S2P Require Import StoreRecipients Reading StoreConn StoreQueue StoreMessages StoreKeys HttpApi Acceptance.
Local Open Scope Z_scope.
Local Open Scope go_scope.

(** ** Keeping an entry *)

Section Listed.
Context (h : gostring).

Definition listed (db : DB) : Prop := is_Some (suppressions db !! h).

(** A message to the address. *)
Definition mailed (db : DB) (id : gostring) : Prop :=
  exists row, messages db !! id = Some row /\ h ∈ m_recipients_hash row.

Definition no_new_mail (db db' : DB) : Prop := forall id, mailed db' id -> mailed db id.

(** From a state that has the entry to one that has it, with no message more to the
    address. *)
Definition holds_back (db db' : DB) : Prop := listed db -> listed db' /\ no_new_mail db db'.

#[global] Instance holds_back_preorder : PreOrder holds_back.
Proof.
  split; [intros db Hl; split; [done|by intros id]|]. intros a b c Hab Hbc Ha. destruct (Hab Ha) as [Hb Hn], (Hbc Hb) as [Hc Hn'].
  split; [done|]. intros id Hid. by apply Hn, Hn'.
Qed.

(** What is relied on of the others, and guaranteed by a program and its result. *)
Definition respects (e : env) : Prop := forall db, holds_back db (e_others e db).

Definition held {A} (p : prog A) (Q : A -> Prop) : Prop :=
  forall script w, Forall respects script -> listed (w_db w) ->
    let '(a, (script', w')) := run p script w in
    Forall respects script' /\ holds_back (w_db w) (w_db w') /\ Q a.

Lemma respects_pop script : Forall respects script -> respects (pop script).1 /\ Forall respects (pop script).2.
Proof. destruct 1 as [|e l He Hl]; split; try done. by intros db. Qed.

Lemma held_ret {A} (a : A) (Q : A -> Prop) : Q a -> held (Ret a) Q.
Proof. intros Ha script w Hs _. by split_and!. Qed.

Lemma held_bind {A B} (p : prog A) (f : A -> prog B) Q R :
  held p Q -> (forall a, Q a -> held (f a) R) -> held (bind p f) R.
Proof.
  intros Hp Hf script w Hs Hl. rewrite run_bind. specialize (Hp script w Hs Hl).
  destruct (run p script w) as [a [s1 w1]]. destruct Hp as (Hs1 & Hh & Ha).
  specialize (Hf a Ha s1 w1 Hs1 (proj1 (Hh Hl))). destruct (run (f a) s1 w1) as [b [s2 w2]].
  destruct Hf as (? & ? & ?). split_and!; [done|by etrans|done].
Qed.

Lemma held_mono {A} (p : prog A) (Q R : A -> Prop) : held p Q -> (forall a, Q a -> R a) -> held p R.
Proof.
  intros Hp Hq script w Hs Hl. specialize (Hp script w Hs Hl). destruct (run p script w) as [a [s1 w1]]. naive_solver.
Qed.

Definition statement_holds_back {A} (q : statement A) : Prop :=
  forall env db a db', q env db = Ok (a, db') -> holds_back db db'.

Lemma held_stmt {A : Set} {B} (q : statement A) (k : result A -> prog B) Q :
  statement_holds_back q -> (forall r, held (k r) Q) -> held (Do (Stmt q) k) Q.
Proof.
  intros Hq Hk script w [He Hs]%respects_pop Hl. cbn [run]. destruct (pop script) as [e script']; cbn [fst snd] in *.
  destruct (sem (Stmt q) e w) as [r w1] eqn:E. unfold sem, sem_at in E.
  assert (holds_back (w_db w) (w_db w1)) as H1.
  { transitivity (w_db (arrive e w)); [apply He|].
    apply sem_stmt_cases in E as [->|(a & db' & E & ->)]; [done|]. by eapply Hq. }
  specialize (Hk r script' w1 Hs (proj1 (H1 Hl))). destruct (run (k r) script' w1) as [b [s2 w2]].
  destruct Hk as (? & ? & ?). split_and!; [done|by etrans|done].
Qed.

Lemma held_exec {A : Set} prefix (q : statement A) : statement_holds_back q -> held (exec_wrapped prefix q) (fun _ => True).
Proof. intros Hq. apply held_stmt; [done|]. intros r. by apply held_ret. Qed.

(** Reading changes nothing. *)
Lemma held_read_only {A} (p : prog A) : read_only p -> held p (fun _ => True).
Proof.
  induction p as [a|X op k IH]; [intros _; by apply held_ret|]. intros [Hop Hk] script w [He Hs]%respects_pop Hl.
  cbn [run]. destruct (pop script) as [e script']; cbn [fst snd] in *. destruct (sem op e w) as [x w1] eqn:E.
  assert (w_db w1 = w_db (arrive e w)) as Hdb.
  { unfold sem in E. destruct op; cbn in *; try (by injection E as _ <-); [|done].
    apply sem_stmt_cases in E as [->|(a & db' & E & ->)]; [done|]. by apply Hop in E. }
  assert (holds_back (w_db w) (w_db w1)) as H1 by (rewrite Hdb; apply He).
  specialize (IH x (Hk x) script' w1 Hs (proj1 (H1 Hl))). destruct (run (k x) script' w1) as [b [s2 w2]].
  destruct IH as (? & ? & ?). split_and!; [done|by etrans|done].
Qed.

End Listed.

(** ** The API *)

Section Optout.
Context `{UnicodeTables} `{GoRuntime} `{UrlLib} `{ApiLib} `{JsonErrors} `{Postgres}.
Context (cfg : Config) (st : Store) (version : gostring) (started : Z) (h : gostring).
Let srv := api cfg st version started.

Definition not_to (a : gostring) : Prop := SuppressionHash a <> h.

Lemma held_FilterSuppressed l :
  held h (FilterSuppressed st l) (fun r => forall allowed blocked, r = Ok (allowed, blocked) -> Forall not_to allowed).
Proof.
  intros script w Hs Hl.
  pose proof (held_read_only h _ (read_only_FilterSuppressed st l) script w Hs Hl) as Hr.
  pose proof (fun al bl => FilterSuppressed_run st l script w al bl) as Hf. unfold result_of in Hf.
  destruct (run (FilterSuppressed st l) script w) as [r [s1 w1]]. destruct Hr as (Hs1 & Hh & _).
  split_and!; [done|done|]. intros al bl ->. destruct (Hf al bl eq_refl) as [-> _].
  apply list.Forall_forall. intros a [Hns _]%list_elem_of_filter Eh. apply Hns. unfold suppressed. rewrite Eh.
  apply respects_pop in Hs as [He _]. by apply (He (w_db w)).
Qed.

Lemma packRecipients_hashes rand l p : packRecipients st rand l = Ok p -> pk_hashes p = SuppressionHash <$> l.
Proof. unfold packRecipients. by repeat case_match; intros; simplify_eq. Qed.

Lemma accepted_holds_back msg now rand db db' :
  Forall not_to (n_Recipients msg) -> accepted st msg now rand db db' -> holds_back h db db'.
Proof.
  intros Hn (p & hd & tg & Hp & _ & _ & ->) Hl. apply packRecipients_hashes in Hp.
  assert (suppressions (set_messages <[n_ID msg := new_row msg p hd tg now]>
    (if bool_decide (n_IdempotencyKey msg <> []) then set_idempotency <[(n_APIKeyID msg, n_IdempotencyKey msg) :=
       IdempotencyRec (n_RequestHash msg) (Some (n_ID msg)) now (now + 24 * Hour)]> db else db)) = suppressions db
    /\ messages (set_messages <[n_ID msg := new_row msg p hd tg now]>
    (if bool_decide (n_IdempotencyKey msg <> []) then set_idempotency <[(n_APIKeyID msg, n_IdempotencyKey msg) :=
       IdempotencyRec (n_RequestHash msg) (Some (n_ID msg)) now (now + 24 * Hour)]> db else db))
       = <[n_ID msg := new_row msg p hd tg now]> (messages db)) as [Es Em] by (case_bool_decide; by destruct db).
  split; [unfold listed; by rewrite Es|]. intros id (row & Hrow & Hin). rewrite Em in Hrow.
  apply lookup_insert_Some in Hrow as [[_ <-]|[_ Hrow]]; [|by exists row]. exfalso. cbn in Hin. rewrite Hp in Hin.
  apply list_elem_of_fmap in Hin as (a & Ea & Ha). rewrite list.Forall_forall in Hn. by eapply Hn.
Qed.

Lemma held_EnqueueMessage msg :
  Forall not_to (n_Recipients msg) -> held h (EnqueueMessage st msg) (fun _ => True).
Proof.
  intros Hn script w Hs Hl. pose proof (EnqueueMessage_run st msg script w) as Hr. cbn zeta in Hr.
  assert ((run (EnqueueMessage st msg) script w).2.1 = (pop script).2) as Hsc.
  { clear. unfold EnqueueMessage, perform. cbn [run]. destruct (pop script) as [e script'].
    match goal with |- context [sem ?op e w] => by destruct (sem op e w) end. }
  unfold result_of, db_of, world_of in *. destruct (run (EnqueueMessage st msg) script w) as [r [s1 w1]]. cbn in Hr, Hsc.
  apply respects_pop in Hs as [He Hs]. subst s1. split; [done|]. split; [|done].
  transitivity (e_others (pop script).1 (w_db w)); [apply He|].
  destruct Hr as [(? & _ & ->)|[(? & _ & -> & _)|[Ha _]]]; [done..|]. by eapply accepted_holds_back.
Qed.

Lemma held_Suppress a reason detail mid : held h (Suppress st a reason detail mid) (fun _ => True).
Proof.
  apply held_exec. intros env db [] db' (Hk & _ & Hm)%suppress_stmt_rows [row Hrow].
  split; [exists row; by apply Hk|]. intros id (r & Hr & Hin). exists r. by rewrite <- Hm.
Qed.

Lemma held_TouchAPIKey id addr : held h (TouchAPIKey st id addr) (fun _ => True).
Proof. apply held_exec. intros env db [] db' [= <-]. unfold holds_back, no_new_mail, listed, mailed. by destruct db. Qed.

Lemma held_allowed l :
  held h (allowed_recipients srv l) (fun r => forall allowed, r = Ok allowed -> Forall not_to allowed).
Proof.
  eapply held_bind; [apply held_FilterSuppressed|]. intros [[allowed blocked]|e] Hr; apply held_ret; [|done].
  case_bool_decide; [done|]. intros ? [= <-]. by eapply Hr.
Qed.

(** Harmless reading inside a handler. *)
Lemma held_after {A B} (p : prog A) (f : A -> prog B) Q :
  read_only p -> (forall a, held h (f a) Q) -> held h (bind p f) Q.
Proof. intros Hp Hf. eapply held_bind; [by apply held_read_only|]. intros a _. apply Hf. Qed.

Lemma held_buildMessage r key req raw :
  held h (buildMessage srv r key req raw) (fun built => forall msg, built = Ok msg -> Forall not_to (n_Recipients msg)).
Proof.
  unfold buildMessage. destruct (let? _ := _ in _) as [[from recipients]|]; [|by apply held_ret].
  eapply held_bind; [apply held_allowed|]. intros allowed Ha.
  destruct (let? _ := _ in _) as [[l [[subject html] text]]|] eqn:E; [|by apply held_ret].
  apply rbind_ok in E as (l' & -> & (c & _ & [= -> ->])%rbind_ok).
  apply held_after; [apply read_only_schedule|]. intros [at_|]; [|by apply held_ret].
  apply held_after; [apply read_only_domain|]. intros [d|]; [|by apply held_ret].
  apply held_after; [done|]. intros now. apply held_after; [done|]. intros rand.
  apply held_ret. intros msg [= <-]. cbn. by apply Ha.
Qed.

Lemma held_handleSend key r : held h (handleSend srv key r) (fun _ => True).
Proof.
  unfold handleSend. case_match; [by apply held_ret|]. destruct (read_body r) as [raw|]; [|by apply held_ret].
  destruct (decode_send raw) as [req|]; [|by apply held_ret].
  eapply held_bind; [apply held_buildMessage|]. intros [msg|] Hm; [|by apply held_ret].
  apply held_after; [apply read_only_quota|]. intros [response|]; [by apply held_ret|].
  eapply held_bind; [by apply held_EnqueueMessage, Hm|]. intros outcome _. by apply held_ret.
Qed.

Lemma held_handleUnsubscribe token r : held h (handleUnsubscribe srv token r) (fun _ => True).
Proof.
  apply held_after; [done|]. intros now. destruct (Unsubscribe.Verify _ _ _); [|by apply held_ret].
  eapply held_bind; [apply held_Suppress|]. intros done _. by apply held_ret.
Qed.

Lemma held_recordKeyUse r id : held h (recordKeyUse srv r id) (fun _ => True).
Proof. eapply (held_bind h); [apply held_TouchAPIKey|]. intros u _. by apply held_ret. Qed.

(** What a request leaves running behind it is held too. *)
Definition held_served (out : Response * list (prog ())) : Prop := Forall (fun p => held h p (fun _ => True)) out.2.

Lemma held_answer response : held h (Ret (response, [])) held_served.
Proof. apply held_ret. constructor. Qed.

Lemma held_requireKey scope next r :
  (forall key, held h (next key r) (fun _ => True)) -> held h (requireKey srv scope next r) held_served.
Proof.
  intros Hn. unfold requireKey. destruct (bearerToken r); [|apply held_answer]. destruct (Keys.Parse _); [|apply held_answer].
  apply held_after; [apply read_only_APIKeyByHash|]. intros [key|]; [|apply held_answer].
  apply held_after; [done|]. intros now. case_match; [apply held_answer|]. case_match; [apply held_answer|].
  eapply held_bind; [apply Hn|]. intros response _. apply held_ret. unfold held_served; cbn [snd].
  constructor; [apply held_recordKeyUse|constructor].
Qed.

Lemma held_no_goroutine p : held h p (fun _ => True) -> held h (no_goroutine p) held_served.
Proof. intros Hp. eapply held_bind; [exact Hp|]. intros response _. apply held_answer. Qed.

Lemma held_route r : held h (route srv r) held_served.
Proof.
  unfold route. repeat case_match; try apply held_answer;
    eauto using held_requireKey, held_no_goroutine, held_handleSend, held_handleUnsubscribe, held_read_only,
      handleGetMessage_read_only, handleReady_read_only;
    by apply held_no_goroutine, held_read_only.
Qed.

Lemma held_Handler r : held h (Handler srv r) held_served.
Proof.
  apply held_after; [done|]. intros e. eapply held_bind; [apply held_route|]. intros out Ho. by apply held_ret.
Qed.

(** One request after the other, each with what it leaves running. *)
Definition serve (r : Request) : prog () := let! out := Handler srv r in for_each out.2 id.

Definition serve_all (rs : list Request) : prog () := for_each rs serve.

Lemma held_for_each {A} (l : list A) body :
  Forall (fun x => held h (body x) (fun _ => True)) l -> held h (for_each l body) (fun _ => True).
Proof.
  induction 1 as [|x l Hx _ IH]; [by apply held_ret|]. eapply held_bind; [exact Hx|]. intros _ _. exact IH.
Qed.

Lemma held_serve_all rs : held h (serve_all rs) (fun _ => True).
Proof.
  apply held_for_each, Forall_true. intros r. eapply held_bind; [apply held_Handler|]. intros out Ho.
  by apply held_for_each.
Qed.

End Optout.

Section Unsubscribed.
Context `{UnicodeTables} `{!LowerLaws} `{GoRuntime} `{UrlLib} `{ApiLib} `{JsonErrors} `{Postgres}.
Context (cfg : Config) (st : Store) (version : gostring) (started : Z).
Let srv := api cfg st version started.

(** C4: The link in a message works end to end, and for good.  When the recipient's
    token, as the worker signs it, is posted and answered 200, then as long as the
    entry stays on the suppression list (only the console's unsuppress takes one off)
    no request the API serves from then on, in whatever number and order, adds a
    message to that recipient, however the address is spelled: whatever fails, however
    late it is, and whatever other processes write at any moment meanwhile, provided
    they too keep the entry and add no message to it.  (The address is valid UTF-8, as
    text from the database is, and lower-casing obeys Unicode.) *)
Theorem unsubscribed_is_not_mailed mid address issued r1 rs script w :
  let token := Unsubscribe.Sign (Unsubscribe.DeriveSecret (cfg_DKIMMasterKey cfg)) mid address issued in
  let h := SuppressionHash address in
  let posted := run (handleUnsubscribe srv token r1) script w in
  let later := run (serve_all cfg st version started rs) posted.2.1 (world_of posted) in
  valid_utf8 address = true ->
  rs_Status (result_of posted) = StatusOK ->
  Forall (respects h) posted.2.1 ->
  listed h (db_of later) /\ forall id, mailed h (db_of later) id -> mailed h (db_of posted) id.
Proof.
  cbn zeta. intros Hv Hok Hs. set (token := Unsubscribe.Sign _ _ _ _) in *.
  assert (listed (SuppressionHash address) (db_of (run (handleUnsubscribe srv token r1) script w))) as Hl.
  { clear Hs. revert Hok. unfold handleUnsubscribe, db_of, world_of, result_of. rewrite run_bind. cbn [run perform].
    destruct (pop script) as [e script']. unfold sem, sem_at.
    destruct (Unsubscribe.Verify _ token _) as [claim|err] eqn:Ev.
    2:{ cbn [run fst snd]. unfold renderUnsubscribe. by destruct (errors_Is _ _). }
    apply Unsubscribe.own_token in Ev as [_ Ea]. rewrite run_bind.
    change (ms_Suppress (sv_messages srv)) with (Suppress st).
    pose proof (Suppress_run st (Unsubscribe.t_Address claim) (str "unsubscribe") (str "requested by the recipient")
      (Unsubscribe.t_MessageID claim) script' (arrive e w)) as Hsup.
    destruct (pop script') as [e2 script'']. destruct (run (Suppress _ _ _ _ _) script' _) as [r [rest w']].
    destruct Hsup as (_ & _ & _ & Hsup). destruct r as [[]|]; cbn [run fst snd]; [|done]. intros _.
    specialize (Hsup eq_refl). unfold suppressed, listed, SuppressionHash in *. rewrite Ea in Hsup.
    change (to_lower (trim_space address)) with (normalizeAddress address) in Hsup.
    by rewrite normalizeAddress_twice in Hsup. }
  pose proof (held_serve_all cfg st version started (SuppressionHash address) rs _ _ Hs Hl) as Hh.
  unfold db_of, world_of in *. destruct (run (serve_all _ _ _ _ rs) _ _) as [u [rest w']]. cbn.
  destruct Hh as (_ & Hh & _). by apply Hh.
Qed.

End Unsubscribed.

(** ** A recipient who opts out *)

#[local] Existing Instances ascii_tables plain_runtime plain_url_lib plain_api_lib plain_json_errors plain_postgres.

Definition opted_out : Response * (list env * world) :=
  run (handleUnsubscribe sample_api bo_token (sample_send [])) [] tenant.

(** Two more sends, the first to the recipient alone. *)
Definition tried_again : () * (list env * world) :=
  run (serve_all sample_config clear_store (str "dev") 0
         [sample_send [str "BO@y.io"]; sample_send [str "BO@y.io"; str "ann@y.io"]]) opted_out.2.1 (world_of opted_out).

Lemma unsubscribed_is_not_mailed_witness :
  (forall id, mailed (SuppressionHash (str " Bo@y.io")) (db_of tried_again) id
     -> mailed (SuppressionHash (str " Bo@y.io")) (db_of opted_out) id)
  /\ (dom (messages (db_of tried_again)) = {[str "m0"; str "m1"]}).
Proof.
  split; [|vm_compute; reflexivity].
  refine (proj2 (unsubscribed_is_not_mailed sample_config clear_store (str "dev") 0 (str "m0") (str " Bo@y.io") 0
           (sample_send []) [sample_send [str "BO@y.io"]; sample_send [str "BO@y.io"; str "ann@y.io"]]
           [] tenant _ _ _)).
  - vm_compute. reflexivity.
  - vm_compute. reflexivity.
  - match goal with |- Forall _ ?l => replace l with (@nil env) by (vm_compute; reflexivity) end. constructor.
Defined.
