(* ===== verification/Mux.v ===== *)
(** * internal/httpapi/server.go: the whole handler

    One mux serves the API and, when a password is configured, the console; the
    request-id middleware is around both.  The console's handlers work on the
    session table as well, so the whole is a [cprog] and the API's programs are
    lifted into it. *)

From S2P Require Import Keys Unsubscribe.
From S2P Require Import Prelude Utf8 GoStrings Crypto Schema Program Mail Netguard Config.
From S2P Require Import StoreRecipients Reading StoreKeys ConsoleAuth Console ConsoleSafety HttpApi Acceptance.
Local Open Scope Z_scope.
Local Open Scope go_scope.

(** A request with what either side reads of it: the cookie, the form and the
    query are parsed by net/http. *)
Record HTTPRequest := {
  hq_request : Request;
  hq_Cookie : option gostring;
  hq_Form : result (gostring -> gostring);
  hq_Query : gostring -> gostring;
}.

Definition for_console (r : HTTPRequest) : CRequest :=
  {| cr_Method := r_Method (hq_request r); cr_Path := r_Path (hq_request r); cr_Cookie := hq_Cookie r;
     cr_Form := hq_Form r; cr_Query := hq_Query r |}.

Definition with_id (id : gostring) (r : HTTPRequest) : HTTPRequest :=
  {| hq_request := set_request_id id (hq_request r); hq_Cookie := hq_Cookie r; hq_Form := hq_Form r;
     hq_Query := hq_Query r |}.

Inductive answer := FromAPI (r : Response) | FromConsole (r : CResponse).

Definition answer_header (k v : gostring) (a : answer) : answer :=
  match a with
  | FromAPI r => FromAPI (with_header k v r)
  | FromConsole r =>
      FromConsole {| c_Status := c_Status r; c_Headers := (k, v) :: c_Headers r; c_Cookies := c_Cookies r;
                     c_Body := c_Body r |}
  end.

Section Mux.
Context `{UnicodeTables} `{GoRuntime} `{UrlLib} `{ApiLib} `{JsonErrors} `{Postgres} `{Argon2}.

(** The console's patterns begin with a segment no other pattern has, so which is
    asked first does not matter. *)
Definition mux (ui : option Console) (s : Server) (r : HTTPRequest) : cprog (answer * list (prog ())) :=
  match ui ≫= fun c => Routes c (for_console r) with
  | Some page => let# response := page in CRet (FromConsole response, [])
  | None => let# out := lift (route s (hq_request r)) in CRet (FromAPI out.1, out.2)
  end.

(** [s.withRecovery(s.withRequestID(s.withLogging(mux)))] *)
Definition serve (ui : option Console) (s : Server) (r : HTTPRequest) : cprog (answer * list (prog ())) :=
  let# e := lift (perform Entropy) in
  let id := newRequestID e in
  let# out := mux ui s (with_id id r) in
  CRet (answer_header (str "X-Request-Id") id out.1, out.2).

(** ** Properties *)

(** A lifted program does what it does alone. *)
Lemma crun_lift {A} (p : prog A) script st :
  (crun (lift p) script st).1 = result_of (run p (ce_env <$> script) (cw_world st))
  /\ cw_world (final (crun (lift p) script st)) = world_of (run p (ce_env <$> script) (cw_world st)).
Proof.
  unfold final, world_of, result_of. revert script st.
  induction p as [a|X op k IH]; intros script st; [done|]. cbn [lift crun run].
  destruct script as [|e rest]; cbn [cpop pop fmap list_fmap ce_env]; unfold csem; cbn [ce_env].
  - destruct (sem op calm (cw_world st)) as [x wd]. apply (IH x [] (CWorld wd _)).
  - destruct (sem op (ce_env e) (cw_world st)) as [x wd]. apply (IH x rest (CWorld wd _)).
Qed.

Lemma crun_bind_ret {A B} (p : cprog A) (f : A -> B) script st :
  (crun (cbind p (fun a => CRet (f a))) script st).1 = f (crun p script st).1
  /\ final (crun (cbind p (fun a => CRet (f a))) script st) = final (crun p script st).
Proof.
  unfold final. revert script st. induction p as [a|X op k IH]; intros script st; [done|]. cbn.
  destruct (cpop script) as [e rest], (csem op e st) as [x st']. apply IH.
Qed.

Lemma writes_dec r : writes r \/ ~ writes r.
Proof.
  unfold writes. destruct (decide (r_Method r = str "POST")) as [Hm|Hm]; [|right; tauto].
  destruct (r_Path r) as [|a [|b [|x l]]]; [right; naive_solver..| |right; naive_solver].
  destruct (decide (a = str "u")) as [->|Ha]; [left; eauto|].
  destruct (decide (a = str "v1")) as [->|Hv], (decide (b = str "emails")) as [->|Hb];
    [left; auto|right; naive_solver..].
Qed.

Section Served.
Context (cfg : Config) (st : Store) (version : gostring) (started : Z) (opts : option Options).
Let srv := api cfg st version started.
Let ui := NewConsole (console_store st) <$> opts.

(** An operator's form: a session live when its guard looks, and its token. *)
Definition operator_form (r : HTTPRequest) (script : list cenv) (w : cworld) : Prop :=
  r_Method (hq_request r) = str "POST"
  /\ exists sess, signed_in (for_console r) script w = Some sess
       /\ form (for_console r) (str "csrf") = se_csrf sess.

(** The moment after the request's id was drawn. *)
Definition admitted (script : list cenv) (w : cworld) : list cenv * cworld :=
  let '(e, rest) := cpop script in (rest, (csem (Base Entropy) e w).2).

(** C6: What a request may change.  Of everything the server answers, with or
    without the console, only three kinds of request change the tables: a POST to
    /v1/emails, a POST to an unsubscribe link, and an operator's own form, whose
    cookie names a session live at that moment and which carries the session's
    token; the last changes just what it asks for, one key revoked or one address
    released.  Every other request leaves the tables as they are, and what a
    request leaves running behind it changes nothing but the last use of its key. *)
Theorem server_writes r script w :
  Forall cquiet script ->
  let out := crun (serve ui srv r) script w in
  let '(script', w') := admitted script w in
  (db_in (final out) = db_in w
   \/ writes (hq_request r)
   \/ (operator_form r script' w' /\ console_change (for_console r) (db_in w) (db_in (final out))))
  /\ Forall only_last_use out.1.2.
Proof.
  intros Hq. apply cquiet_pop in Hq as [Hq1 Hq2]. unfold admitted, serve. cbn [lift perform cbind crun].
  pose proof (csem_reads (Base Entropy) (cpop script).1 w I Hq1) as Hdb.
  destruct (cpop script) as [e rest]; cbn [fst snd] in *.
  assert (exists x w1, csem (Base Entropy) e w = (x, w1)) as (x & w1 & E) by (by destruct (csem _ e w); eauto).
  rewrite E in *. cbn [snd] in Hdb |- *. rewrite <- Hdb. set (id := newRequestID x).
  destruct (crun_bind_ret (mux ui srv (with_id id r))
    (fun out => (answer_header (str "X-Request-Id") id out.1, out.2)) rest w1) as [-> ->]. cbn [fst snd].
  unfold mux. destruct (ui ≫= _) as [page|] eqn:Hpage.
  - destruct (crun_bind_ret page (fun response => (FromConsole response, [] : list (prog ()))) rest w1) as [-> ->].
    split; [|constructor]. unfold ui in Hpage. destruct opts as [o|]; [|done]. cbn in Hpage.
    destruct (console_writes_authorised st o (for_console r) page rest w1 Hpage Hq2)
      as [Hsame|(Hp & Hs & Hch)]; [by left|right; right].
    split; [|done]. split; [by apply bool_decide_eq_true_1 in Hp|done].
  - destruct (crun_bind_ret (lift (route srv (hq_request (with_id id r))))
      (fun out => (FromAPI out.1, out.2)) rest w1) as [-> ->]. cbn [fst snd].
    destruct (crun_lift (route srv (hq_request (with_id id r))) rest w1) as [-> _]. split.
    + destruct (writes_dec (hq_request r)) as [Hw|Hw]; [by right; left|left].
      apply cread_only_run; [|done]. by apply cread_only_lift, route_read_only.
    + apply (returns_run tame), route_tame.
Qed.

End Served.
End Mux.

(** ** A concrete request *)

#[local] Existing Instances ascii_tables plain_runtime plain_url_lib plain_api_lib plain_json_errors plain_postgres
  plain_argon2.

(** The operator's form that revokes the key of [operator]. *)
Definition revoke_form : HTTPRequest :=
  {| hq_request := sample_request (str "POST") (str <$> ["console"; "keys"; "revoke"]%string) [];
     hq_Cookie := cr_Cookie revoke_request; hq_Form := cr_Form revoke_request; hq_Query := cr_Query revoke_request |}.

Lemma server_writes_witness :
  operator_form revoke_form (admitted [] operator).1 (admitted [] operator).2.
Proof.
  destruct (server_writes sample_config clear_store (str "dev") 0 (Some sample_options) revoke_form [] operator
              (Forall_nil_2 _)) as [[Hsame|[[_ [Hp|[t Hp]]]|[Hform _]]] _].
  - apply (f_equal (fun db => key_revoked_at <$> api_keys db !! 1)) in Hsame. vm_compute in Hsame. discriminate Hsame.
  - vm_compute in Hp. discriminate Hp.
  - apply (f_equal length) in Hp. vm_compute in Hp. discriminate Hp.
  - exact Hform.
Defined.
