(* ===== verification/Middleware.v ===== *)
(** * internal/httpapi/middleware.go: what stands around the handlers

    A handler is what it calls on its [http.ResponseWriter], in order, and how it
    ends: it returns or it panics.  The three middlewares are functions on such
    handlers, and the response is what net/http makes of the calls.  The handlers
    of Mux.v become handlers of this kind; none of them panics, so the recovery is
    stated for any handler. *)

From S2P Require Import Keys Unsubscribe.
From S2P Require Import Prelude Utf8 GoStrings Crypto Schema Program Mail Netguard Config.
From S2P Require Import StoreRecipients StoreKeys ConsoleAuth Console ConsoleSafety HttpApi Acceptance Mux.
Local Open Scope Z_scope.
Local Open Scope go_scope.

(** ** http.ResponseWriter *)

Inductive payload := APIBody (b : body) | ConsoleBody (b : cbody).

(** [Header().Set], [Header().Add] of a cookie, [WriteHeader], [Write] *)
Inductive call :=
  | SetHeader (k v : gostring)
  | SetCookie (c : Cookie)
  | WriteHeader (code : Z)
  | WriteBody (b : payload).

Record wire := Wire {
  wi_headers : gmap gostring gostring;
  wi_cookies : list Cookie;
  (** once written, the status and the headers no longer change *)
  wi_sent : option (Z * gmap gostring gostring * list Cookie);
  wi_body : list payload;
}.

Definition send (code : Z) (w : wire) : wire :=
  match wi_sent w with
  | Some _ => w
  | None => Wire (wi_headers w) (wi_cookies w) (Some (code, wi_headers w, wi_cookies w)) (wi_body w)
  end.

Definition make_call (w : wire) (c : call) : wire :=
  match c with
  | SetHeader k v => Wire (<[k := v]> (wi_headers w)) (wi_cookies w) (wi_sent w) (wi_body w)
  | SetCookie ck => Wire (wi_headers w) (wi_cookies w ++ [ck]) (wi_sent w) (wi_body w)
  | WriteHeader code => send code w
  | WriteBody b =>
      let w := send 200 w in Wire (wi_headers w) (wi_cookies w) (wi_sent w) (wi_body w ++ [b])
  end.

Definition fresh_wire : wire := Wire ∅ [] None [].

(** The finished response: nothing written is an empty 200. *)
Definition respond (calls : list call) : wire := send 200 (foldl make_call fresh_wire calls).

Definition status_sent (w : wire) : option Z := (fun s => s.1.1) <$> wi_sent w.

(** ** Handlers *)

Inductive outcome := Returned | Panicked (value : gostring).

Inductive log_line :=
  | LogRequest (request_id method : gostring) (path : list gostring) (status : Z)
  | LogPanic (request_id : gostring) (path : list gostring) (value : gostring).

Record reply := Reply {
  rp_calls : list call;
  rp_outcome : outcome;
  rp_logs : list log_line;
  rp_goroutines : list (prog ());
}.

Abbreviation handler := (HTTPRequest -> cprog reply).

Definition RequestIDFrom (r : HTTPRequest) : gostring := r_RequestID (hq_request r).

(** [statusRecorder] *)
Record statusRecorder := { sr_status : Z; sr_wroteHeader : bool }.

(** A call on the recorder, and what it calls on the writer inside. *)
Definition recorder_call (rec : statusRecorder) (c : call) : statusRecorder * list call :=
  match c with
  | WriteHeader code =>
      if sr_wroteHeader rec then (rec, []) else ({| sr_status := code; sr_wroteHeader := true |}, [c])
  | c => (rec, [c])
  end.

Fixpoint record_calls (rec : statusRecorder) (calls : list call) : statusRecorder * list call :=
  match calls with
  | [] => (rec, [])
  | c :: calls =>
      let '(rec, out) := recorder_call rec c in
      let '(rec, outs) := record_calls rec calls in (rec, out ++ outs)
  end.

(** The calls a [Response] stands for. *)
Definition response_calls (r : Response) : list call :=
  ((fun kv => SetHeader kv.1 kv.2) <$> rs_Headers r) ++ WriteHeader (rs_Status r)
  :: match rs_Body r with HttpApi.NoBody => [] | b => [WriteBody (APIBody b)] end.

(** What [withLogging] makes of the inner handler's calls; after a panic nothing
    of it runs. *)
Definition log_reply (r : HTTPRequest) (p : reply) : reply :=
  let '(rec, calls) := record_calls {| sr_status := StatusOK; sr_wroteHeader := false |} (rp_calls p) in
  match rp_outcome p with
  | Returned =>
      Reply calls Returned
        (rp_logs p ++ [LogRequest (RequestIDFrom r) (r_Method (hq_request r)) (r_Path (hq_request r)) (sr_status rec)])
        (rp_goroutines p)
  | Panicked v => Reply calls (Panicked v) (rp_logs p) (rp_goroutines p)
  end.

Definition withLogging (next : handler) : handler := fun r => let# p := next r in CRet (log_reply r p).

Definition id_reply (id : gostring) (p : reply) : reply :=
  Reply (SetHeader (str "X-Request-Id") id :: rp_calls p) (rp_outcome p) (rp_logs p) (rp_goroutines p).

Definition withRequestID (next : handler) : handler := fun r =>
  let# e := lift (perform Entropy) in
  let id := newRequestID e in
  let# p := next (with_id id r) in CRet (id_reply id p).

(** The deferred function sees the request [withRecovery] was given. *)
Definition recover_reply (r : HTTPRequest) (p : reply) : reply :=
  match rp_outcome p with
  | Returned => p
  | Panicked v =>
      Reply (rp_calls p ++ response_calls (internalError (hq_request r))) Returned
        (rp_logs p ++ [LogPanic (RequestIDFrom r) (r_Path (hq_request r)) v]) (rp_goroutines p)
  end.

Definition withRecovery (next : handler) : handler := fun r => let# p := next r in CRet (recover_reply r p).

(** A page is executed onto the writer without [WriteHeader]. *)
Definition console_calls (r : CResponse) : list call :=
  (SetCookie <$> c_Cookies r) ++ ((fun kv => SetHeader kv.1 kv.2) <$> c_Headers r)
  ++ match c_Body r with
     | Page name v => [WriteBody (ConsoleBody (Page name v))]
     | Console.NoBody => [WriteHeader (c_Status r)]
     | b => [WriteHeader (c_Status r); WriteBody (ConsoleBody b)]
     end.

Definition answer_calls (a : answer) : list call :=
  match a with FromAPI r => response_calls r | FromConsole r => console_calls r end.

(** ** The stack *)

Section Stack.
Context `{UnicodeTables} `{GoRuntime} `{UrlLib} `{ApiLib} `{JsonErrors} `{Postgres} `{Argon2}.

(** The mux as a handler of this kind. *)
Definition mux_handler (ui : option Console) (s : Server) : handler := fun r =>
  let# out := mux ui s r in CRet (Reply (answer_calls out.1) Returned [] out.2).

(** [s.withRecovery(s.withRequestID(s.withLogging(mux)))] *)
Definition wrapped (next : handler) : handler := withRecovery (withRequestID (withLogging next)).

Definition Server_Handler (ui : option Console) (s : Server) : handler := wrapped (mux_handler ui s).

(** ** Properties *)

Lemma send_again code w : is_Some (wi_sent w) -> send code w = w.
Proof. intros [s Hs]. unfold send. by rewrite Hs. Qed.

Lemma send_sent code w : is_Some (wi_sent (send code w)).
Proof. unfold send. destruct (wi_sent w) eqn:E; cbn; eauto. Qed.

Lemma make_call_sent c w : is_Some (wi_sent w) -> wi_sent (make_call w c) = wi_sent w.
Proof. intros Hw. destruct c; cbn; rewrite ?(send_again _ _ Hw); done. Qed.

Lemma make_calls_sent calls w : is_Some (wi_sent w) -> wi_sent (foldl make_call w calls) = wi_sent w.
Proof.
  revert w. induction calls as [|c calls IH]; intros w Hw; [done|]. cbn [foldl].
  pose proof (make_call_sent c w Hw) as E. by rewrite IH; rewrite E.
Qed.

(** The recorder is invisible: the calls it drops would have changed nothing. *)
Lemma record_calls_wire rec calls w :
  (sr_wroteHeader rec = true -> is_Some (wi_sent w)) ->
  foldl make_call w (record_calls rec calls).2 = foldl make_call w calls.
Proof.
  revert rec w. induction calls as [|c calls IH]; intros rec w Hw; [done|]. cbn [record_calls].
  destruct (recorder_call rec c) as [rec' out] eqn:Hc. specialize (IH rec').
  destruct (record_calls rec' calls) as [rec'' outs]; cbn [snd] in *. rewrite foldl_app. cbn [foldl].
  assert (foldl make_call w out = make_call w c) as ->.
  { destruct c; [simplify_eq/=; done..| |simplify_eq/=; done]. cbn [recorder_call] in Hc.
    destruct (sr_wroteHeader rec); simplify_eq/=; [|done]. by rewrite send_again by auto. }
  apply IH. intros Hr.
  destruct c as [k v|ck|code|b]; [..|cbn; apply send_sent|]; cbn [recorder_call] in Hc; simplify_eq.
  all: by rewrite make_call_sent; auto.
Qed.

(** The id drawn for a request. *)
Definition assigned_id (script : list cenv) (w : cworld) : gostring :=
  newRequestID (csem (Base Entropy) (cpop script).1 w).1.

(** The three layers around a handler, in the state after the id was drawn. *)
Lemma wrapped_run next r script w :
  let id := assigned_id script w in
  let out := crun (wrapped next r) script w in
  let inner := crun (next (with_id id r)) (admitted script w).1 (admitted script w).2 in
  out.1 = recover_reply r (id_reply id (log_reply (with_id id r) inner.1)) /\ final out = final inner.
Proof.
  unfold wrapped, withRecovery. cbv zeta.
  destruct (crun_bind_ret (withRequestID (withLogging next) r) (recover_reply r) script w) as [-> ->].
  unfold withRequestID, assigned_id, admitted. cbn [lift perform cbind crun].
  destruct (cpop script) as [e rest]; cbn [fst]. destruct (csem (Base Entropy) e w) as [x w1]; cbn [fst snd].
  set (id := newRequestID x).
  destruct (crun_bind_ret (withLogging next (with_id id r)) (id_reply id) rest w1) as [-> ->].
  unfold withLogging.
  by destruct (crun_bind_ret (next (with_id id r)) (log_reply (with_id id r)) rest w1) as [-> ->].
Qed.

(** The same of the handler of Mux.v. *)
Lemma serve_run ui s r script w :
  let id := assigned_id script w in
  let out := crun (serve ui s r) script w in
  let inner := crun (mux ui s (with_id id r)) (admitted script w).1 (admitted script w).2 in
  out.1 = (answer_header (str "X-Request-Id") id inner.1.1, inner.1.2) /\ final out = final inner.
Proof.
  unfold serve, assigned_id, admitted. cbv zeta. cbn [lift perform cbind crun].
  destruct (cpop script) as [e rest]; cbn [fst]. destruct (csem (Base Entropy) e w) as [x w1]; cbn [fst snd].
  set (id := newRequestID x).
  by destruct (crun_bind_ret (mux ui s (with_id id r))
    (fun out => (answer_header (str "X-Request-Id") id out.1, out.2)) rest w1) as [-> ->].
Qed.

Lemma header_calls_wire (hs : list (gostring * gostring)) w :
  foldl make_call w ((fun kv => SetHeader kv.1 kv.2) <$> hs)
  = Wire (foldl (fun m kv => <[kv.1 := kv.2]> m) (wi_headers w) hs) (wi_cookies w) (wi_sent w) (wi_body w).
Proof. revert w. induction hs as [|kv hs IH]; intros []; [done|]. cbn. by rewrite IH. Qed.

Lemma cookie_calls_wire (cs : list Cookie) w :
  foldl make_call w (SetCookie <$> cs) = Wire (wi_headers w) (wi_cookies w ++ cs) (wi_sent w) (wi_body w).
Proof.
  revert w. induction cs as [|c cs IH]; intros []; cbn; [by rewrite app_nil_r|]. rewrite IH. cbn.
  by rewrite <- app_assoc.
Qed.

(** Setting a header first or among an answer's own is the same. *)
Lemma answer_header_wire k v a :
  foldl make_call fresh_wire (answer_calls (answer_header k v a))
  = foldl make_call fresh_wire (SetHeader k v :: answer_calls a).
Proof.
  destruct a as [r|r]; [done|]. cbn [answer_header answer_calls]. unfold console_calls.
  cbn [c_Cookies c_Headers c_Status c_Body foldl]. rewrite !foldl_app, !cookie_calls_wire, !header_calls_wire. done.
Qed.

(** What the recorder notes of headers and cookies is nothing. *)
Lemma record_headers rec (hs : list (gostring * gostring)) calls :
  record_calls rec (((fun kv => SetHeader kv.1 kv.2) <$> hs) ++ calls)
  = let '(rec', out) := record_calls rec calls in (rec', ((fun kv => SetHeader kv.1 kv.2) <$> hs) ++ out).
Proof.
  induction hs as [|kv hs IH]; cbn; [by destruct (record_calls rec calls)|].
  fold (fmap (M:=list) (fun kv : gostring * gostring => SetHeader kv.1 kv.2) hs).
  rewrite IH. by destruct (record_calls rec calls).
Qed.

Lemma record_cookies rec (cs : list Cookie) calls :
  record_calls rec ((SetCookie <$> cs) ++ calls)
  = let '(rec', out) := record_calls rec calls in (rec', (SetCookie <$> cs) ++ out).
Proof.
  induction cs as [|ck cs IH]; cbn; [by destruct (record_calls rec calls)|].
  fold (fmap (M:=list) SetCookie cs). rewrite IH. by destruct (record_calls rec calls).
Qed.

(** The status that is logged is the one that is sent. *)
Lemma answer_status k v a :
  status_sent (respond (SetHeader k v :: answer_calls a))
  = Some (sr_status (record_calls {| sr_status := StatusOK; sr_wroteHeader := false |} (answer_calls a)).1).
Proof.
  unfold respond. cbn [foldl]. destruct a as [r|r]; cbn [answer_calls].
  - unfold response_calls. rewrite record_headers, foldl_app, header_calls_wire.
    by destruct (rs_Body r).
  - unfold console_calls. rewrite record_cookies, record_headers, !foldl_app, cookie_calls_wire, header_calls_wire.
    by destruct (c_Body r).
Qed.

(** C23: The middlewares do not change what a handler answers.  Around any request
    that does not panic, the whole stack sends the status, headers, cookies and
    body of the mux's answer with the request's id added, leaves the same tables,
    sessions and goroutines, and logs one line with that id, the method, the path
    and the status that was sent. *)
Theorem stack_answers ui s r script w :
  let out := crun (Server_Handler ui s r) script w in
  let plain := crun (serve ui s r) script w in
  rp_outcome out.1 = Returned
  /\ respond (rp_calls out.1) = respond (answer_calls plain.1.1)
  /\ rp_goroutines out.1 = plain.1.2 /\ final out = final plain
  /\ exists status, status_sent (respond (rp_calls out.1)) = Some status
       /\ rp_logs out.1 = [LogRequest (assigned_id script w) (r_Method (hq_request r)) (r_Path (hq_request r)) status].
Proof.
  cbv zeta. unfold Server_Handler.
  destruct (wrapped_run (mux_handler ui s) r script w) as [-> ->].
  destruct (serve_run ui s r script w) as [-> ->]. cbv zeta.
  set (id := assigned_id script w). destruct (admitted script w) as [script' w']; cbn [fst snd].
  unfold mux_handler.
  destruct (crun_bind_ret (mux ui s (with_id id r)) (fun out => Reply (answer_calls out.1) Returned [] out.2)
              script' w') as [-> ->].
  destruct (crun (mux ui s (with_id id r)) script' w').1 as [a gs]; cbn [fst snd].
  unfold log_reply. cbn [rp_calls rp_outcome rp_logs rp_goroutines].
  pose proof (answer_status (str "X-Request-Id") id a) as Hst.
  pose proof (record_calls_wire {| sr_status := StatusOK; sr_wroteHeader := false |} (answer_calls a)
                (make_call fresh_wire (SetHeader (str "X-Request-Id") id)) ltac:(done)) as Hw.
  destruct (record_calls _ (answer_calls a)) as [rec calls]; cbn [fst snd] in *.
  unfold id_reply, recover_reply. cbn [rp_calls rp_outcome rp_logs rp_goroutines].
  assert (respond (SetHeader (str "X-Request-Id") id :: calls)
          = respond (SetHeader (str "X-Request-Id") id :: answer_calls a)) as E by (unfold respond; cbn [foldl]; by rewrite Hw).
  rewrite E. split_and!; [done|unfold respond; by rewrite answer_header_wire|done|done|].
  eexists; split; [exact Hst|done].
Qed.

Lemma newRequestID_nonempty e : newRequestID e <> [].
Proof.
  unfold newRequestID. destruct (rand_read 12 e) as [b|] eqn:E; [|done].
  apply rand_read_length in E. by destruct b.
Qed.

(** Before anything is sent, nothing is in the body. *)
Lemma unsent_body calls w :
  wi_body w = [] -> wi_sent (foldl make_call w calls) = None -> wi_body (foldl make_call w calls) = [].
Proof.
  revert w. induction calls as [|c calls IH]; intros w Hb Hs; [done|]. cbn [foldl] in *.
  apply IH; [|done]. assert (wi_sent (make_call w c) = None) as E.
  { destruct (wi_sent (make_call w c)) eqn:E; [|done]. rewrite make_calls_sent in Hs by eauto. congruence. }
  destruct c; [done..| |].
  - cbn. unfold send. by destruct (wi_sent w).
  - cbn in E. unfold send in E. destruct (wi_sent w) eqn:Hw; cbn in E; congruence.
Qed.

Lemma header_stays k v calls w :
  (forall v', SetHeader k v' ∉ calls) -> wi_headers w !! k = Some v ->
  wi_headers (foldl make_call w calls) !! k = Some v.
Proof.
  revert w. induction calls as [|c calls IH]; intros w Hk Hv; [done|]. cbn [foldl].
  apply IH; [intros v'; specialize (Hk v'); set_solver|].
  destruct c as [k' v'|ck|code|b]; cbn; unfold send; try by destruct (wi_sent w).
  rewrite lookup_insert_ne; [done|]. intros ->. apply (Hk v'). left.
Qed.

(** The body of a recovered request. *)
Definition recovered_body (id : gostring) : payload :=
  APIBody (JSONBody (JObject
    [(str "error", JObject [(str "type", JString (str "internal_error"));
                            (str "message", JString (str "the request could not be completed"))]);
     (str "request_id", JString id)])).

Lemma recovered_wire r calls :
  RequestIDFrom r = [] ->
  let before := foldl make_call fresh_wire calls in
  let answer := respond (calls ++ response_calls (internalError (hq_request r))) in
  match wi_sent before with
  | Some reply_sent => wi_sent answer = Some reply_sent
  | None =>
      let headers := <[str "X-Content-Type-Options" := str "nosniff"]>
                       (<[str "Content-Type" := str "application/json; charset=utf-8"]> (wi_headers before)) in
      wi_sent answer = Some (500, headers, wi_cookies before)
      /\ wi_body answer = if bool_decide (r_Method (hq_request r) = str "HEAD") then [] else [recovered_body []]
  end.
Proof.
  unfold RequestIDFrom. intros Hr. cbv zeta. unfold respond. rewrite foldl_app.
  set (before := foldl make_call fresh_wire calls).
  destruct (wi_sent before) as [reply_sent|] eqn:Hs.
  - rewrite send_again; rewrite make_calls_sent; rewrite ?Hs; eauto.
  - pose proof (unsent_body calls fresh_wire eq_refl Hs) as Hb. change (wi_body before = []) in Hb.
    unfold response_calls. rewrite foldl_app, header_calls_wire.
    unfold internalError, writeError, writeJSON. cbn [rs_Headers rs_Status rs_Body foldl fst snd]. rewrite Hs, Hb, Hr.
    by destruct (bool_decide _).
Qed.

(** C12: What a panic leaves.  Whatever the handler had called when it panicked, the
    server goes on: the stack returns, with the state and the goroutines the handler
    left.  When nothing was sent yet the client gets the 500 error under the headers
    set so far, the request's id among them; a status already sent stays.  But the
    recovery stands outside the layer that draws the id: the error's body and the
    one line that is logged name the empty id, never the one in the header, and the
    request line with that id is not logged at all. *)
Theorem panic_answered next r script w v :
  let id := assigned_id script w in
  let inner := crun (next (with_id id r)) (admitted script w).1 (admitted script w).2 in
  let out := crun (wrapped next r) script w in
  let before := foldl make_call fresh_wire (SetHeader (str "X-Request-Id") id :: rp_calls inner.1) in
  let answer := respond (rp_calls out.1) in
  RequestIDFrom r = [] -> rp_outcome inner.1 = Panicked v ->
  rp_outcome out.1 = Returned
  /\ final out = final inner /\ rp_goroutines out.1 = rp_goroutines inner.1
  /\ rp_logs out.1 = rp_logs inner.1 ++ [LogPanic [] (r_Path (hq_request r)) v]
  /\ match wi_sent before with
     | Some reply_sent => wi_sent answer = Some reply_sent
     | None => exists headers,
         wi_sent answer = Some (500, headers, wi_cookies before)
         /\ wi_body answer = (if bool_decide (r_Method (hq_request r) = str "HEAD") then [] else [recovered_body []])
         /\ ((forall v', SetHeader (str "X-Request-Id") v' ∉ rp_calls inner.1) ->
             headers !! str "X-Request-Id" = Some id /\ id <> [])
     end.
Proof.
  cbv zeta. intros Hr Hp. destruct (wrapped_run next r script w) as [-> ->]. cbv zeta.
  set (id := assigned_id script w) in *.
  destruct (crun (next (with_id id r)) _ _) as [p rest]; cbn [fst] in *.
  unfold log_reply. rewrite Hp.
  pose proof (record_calls_wire {| sr_status := StatusOK; sr_wroteHeader := false |} (rp_calls p)
                (make_call fresh_wire (SetHeader (str "X-Request-Id") id)) ltac:(done)) as Hw.
  destruct (record_calls _ (rp_calls p)) as [rec calls]; cbn [snd] in Hw.
  unfold id_reply, recover_reply. cbn [rp_calls rp_outcome rp_logs rp_goroutines].
  rewrite Hr. split_and!; [done..|]. cbn [foldl]. rewrite <- Hw.
  pose proof (recovered_wire r (SetHeader (str "X-Request-Id") id :: calls) Hr) as Ha; cbv zeta in Ha; cbn [foldl] in Ha.
  destruct (wi_sent (foldl make_call _ calls)) eqn:Hs; [exact Ha|]. destruct Ha as [Ha Hb].
  eexists. split_and!; [exact Ha|exact Hb|]. intros Hx. rewrite !lookup_insert_ne by done. rewrite Hw. split.
  - by apply header_stays; [|apply lookup_insert_eq].
  - apply newRequestID_nonempty.
Qed.

End Stack.

(** ** A handler that panics *)

(** It has set a header and started nothing. *)
Definition panicking (value : gostring) : handler := fun _ =>
  CRet (Reply [SetHeader (str "Cache-Control") (str "no-store")] (Panicked value) [] []).

#[local] Existing Instances plain_runtime plain_url_lib.

Lemma panic_answered_witness :
  let out := crun (wrapped (panicking (str "nil map")) (with_id [] revoke_form)) [] operator in
  rp_outcome out.1 = Returned /\ status_sent (respond (rp_calls out.1)) = Some 500
  /\ wi_body (respond (rp_calls out.1)) = [recovered_body []].
Proof.
  destruct (panic_answered (panicking (str "nil map")) (with_id [] revoke_form) [] operator (str "nil map") eq_refl eq_refl)
    as (Hret & _ & _ & _ & Ha).
  destruct Ha as (headers & Ha & Hb & _). split_and!; [exact eq_refl| |].
  - unfold status_sent. rewrite Ha. reflexivity.
  - rewrite Hb. reflexivity.
Defined.
