(* ===== verification/Worker.v ===== *)
(** * internal/worker/worker.go: draining the queue

    The worker is written against interfaces, and so is this file: a Go
    interface is a record of programs, a nil one is [None].  What the interfaces'
    implementations promise is stated in System.v, where the worker runs against
    the store. *)

From S2P Require Import Unsubscribe.
From S2P Require Import Prelude Utf8 GoStrings Sha256 Crypto Bounce Schema Program Delivery.
From S2P Require Import GoJson GoTime StoreRecipients StoreQueue StoreKeys Mail Dkim.
Local Open Scope Z_scope.
Local Open Scope go_scope.

Definition batchSize : nat := 10.
Definition lockDuration : Z := 5 * Minute.
Definition idleInterval : Z := 5 * Second.
Definition MaxAttempts : Z := 8.

(** ** Interfaces *)

Record Queue := {
  q_ClaimMessages : nat -> Z -> prog (result (list Claimed));
  q_MarkSent : gostring -> prog (result ());
  q_MarkDeferred : gostring -> Z -> gostring -> prog (result ());
  q_MarkFailed : gostring -> gostring -> prog (result ());
  q_SentInLastHour : prog (result Z);
}.

Record Sender := { snd_Send : Message -> prog Response }.

Record EventPublisher := { ep_EnqueueDelivery : gostring -> gostring -> gostring -> prog (result ()) }.

Record Suppressor := { sp_Suppress : gostring -> gostring -> gostring -> gostring -> prog (result ()) }.

Record KeyStore := {
  ks_SigningKeyForMessage : gostring -> prog (result SigningKey);
  ks_MarkSigned : gostring -> prog (result ());
}.

Record MessageSigner := { ms_Sign : Key -> gostring -> prog (result gostring) }.

Record Worker := New {
  w_queue : Queue;
  w_sender : Sender;
  w_keys : option KeyStore;
  w_signer : option MessageSigner;
  w_events : option EventPublisher;
  w_suppressions : option Suppressor;
  w_unsubscribeSecret : gostring;
  w_publicBaseURL : gostring;
  w_maxPerHour : Z;
}.

(** The body posted to webhook endpoints ([EventPayload] of webhooks.go). *)
Record EventPayload := {
  pl_EventID : gostring;
  pl_Type : gostring;
  pl_CreatedAt : gostring;
  pl_Data : gmap gostring gostring;
}.

(** [json.Marshal] of the payload; its members have no error case. *)
Definition marshal_payload (p : EventPayload) : result gostring :=
  Ok (json_of_members
        [(str "event_id", json_of_string (pl_EventID p)); (str "type", json_of_string (pl_Type p));
         (str "created_at", json_of_string (pl_CreatedAt p)); (str "data", json_of_map (pl_Data p))]).

Section Worker.
Context `{UnicodeTables} `{GoRuntime}.

Definition BuildPayload (eventID eventType messageID reason : gostring) (at_ : Z) : result gostring :=
  let data := {[ str "email_id" := messageID ]} in
  let data := if bool_decide (reason <> []) then <[str "reason" := reason]> data else data in
  match marshal_payload
          {| pl_EventID := eventID; pl_Type := eventType; pl_CreatedAt := format_rfc3339 at_;
             pl_Data := data |} with
  | Ok body => Ok body
  | Err _ => Err (errors_New (str "encoding webhook payload failed"))
  end.

Definition event_id (messageID eventType : gostring) (attempt : Z) : gostring :=
  messageID ++ str ":" ++ eventType ++ str ":" ++ format_int attempt.

Definition publish (w : Worker) (messageID eventType reason : gostring) (attempt : Z) : prog () :=
  match w_events w with
  | None => Ret tt
  | Some events =>
      let eventID := event_id messageID eventType attempt in
      let! now := perform Now in
      match BuildPayload eventID eventType messageID reason now with
      | Err _ => Ret tt
      | Ok payload => let! _ := ep_EnqueueDelivery events eventID messageID payload in Ret tt
      end
  end.

(** [time.Duration(float64(base) * math.Pow(2, shift))]: the products up to
    2^20 minutes are exact in a float64 and in an int64. *)
Definition Backoff (attempt : Z) : Z :=
  let attempt := if attempt <? 1 then 1 else attempt in
  let shift := Z.min (attempt - 1) 20 in
  let delay := Minute * 2 ^ shift in
  let max := 6 * Hour in
  if (max <? delay) || (delay <=? 0) then max else delay.

Definition decodeHeaders (raw : gostring) : gmap gostring gostring :=
  if bool_decide (raw = []) then ∅ else default ∅ (unmarshal_map raw).

Definition suppressionReason (k : Kind) : gostring :=
  if bool_decide (k = Complaint) then str "complaint" else str "hard_bounce".

Definition suppressIfAddressIsBad (w : Worker) (msg : Claimed) (reason : gostring) : prog () :=
  match w_suppressions w with
  | None => Ret tt
  | Some sup =>
      let verdict := Classify reason in
      if negb (Kind_Suppresses (r_Kind verdict)) then Ret tt
      else for_each (c_Recipients msg) (fun recipient =>
             let! _ := sp_Suppress sup recipient (suppressionReason (r_Kind verdict))
                         (r_Reason verdict) (c_ID msg) in Ret tt)
  end.

Definition fail (w : Worker) (msg : Claimed) (reason : gostring) : prog () :=
  let! r := q_MarkFailed (w_queue w) (c_ID msg) reason in
  match r with
  | Err _ => Ret tt
  | Ok _ => publish w (c_ID msg) (str "email.failed") reason (c_Attempts msg)
  end.

(** The boundary [multipart.NewWriter] draws: thirty random bytes in hex. *)
Definition random_boundary (e : entropy) : gostring :=
  match read_full 30 e with Ok b => hex_encode b | Err _ => hex_encode (replicate 30 "000"%char) end.

Definition unsubscribe_url (w : Worker) (msg : Claimed) (now : Z) : gostring :=
  match c_Recipients msg with
  | first :: _ =>
      if bool_decide (w_publicBaseURL w <> []) then
        Unsubscribe.Link (w_publicBaseURL w)
          (Unsubscribe.Sign (w_unsubscribeSecret w) (c_ID msg) first now)
      else []
  | [] => []
  end.

Definition envelope_of (msg : Claimed) (domain unsubscribeURL : gostring) : Mail.Envelope :=
  {| e_MessageID := c_ID msg ++ str "@" ++ domain; e_From := c_FromAddress msg;
     e_To := c_Recipients msg; e_Subject := c_Subject msg; e_HTML := c_BodyHTML msg;
     e_Text := c_BodyText msg; e_ReplyTo := []; e_Extra := decodeHeaders (c_Headers msg);
     e_Date := None; e_UnsubscribeURL := unsubscribeURL |}.

Definition sign (w : Worker) (msg : Claimed) : prog (result gostring) :=
  match w_signer w, w_keys w with
  | Some signer, Some keys =>
      let! key := ks_SigningKeyForMessage keys (c_ID msg) in
      match key with
      | Err e => Ret (Err (wrap_w (str "no active signing key for this domain") e))
      | Ok key =>
          let! now := perform Now in
          let! rand := perform Entropy in
          match Build now (random_boundary rand)
                  (envelope_of msg (sk_Domain key) (unsubscribe_url w msg now)) with
          | Err e => Ret (Err e)
          | Ok raw =>
              let! signed := ms_Sign signer
                               {| key_Domain := sk_Domain key; key_Selector := sk_Selector key;
                                  key_Algorithm := sk_Algorithm key; key_Wrapped := sk_Wrapped key |} raw in
              match signed with
              | Err e => Ret (Err e)
              | Ok signed =>
                  let! _ := ks_MarkSigned keys (c_ID msg) in
                  Ret (Ok signed)
              end
          end
      end
  | _, _ => Ret (Err (errors_New (str "no signing key is configured")))
  end.

Definition outgoing (msg : Claimed) (raw : gostring) : Message :=
  {| msg_ID := c_ID msg; msg_From := c_FromAddress msg; msg_To := c_Recipients msg;
     msg_Subject := c_Subject msg; msg_HTML := c_BodyHTML msg; msg_Text := c_BodyText msg;
     msg_Headers := decodeHeaders (c_Headers msg); msg_Raw := raw |}.

Definition deliver (w : Worker) (msg : Claimed) : prog () :=
  let! raw := sign w msg in
  match raw with
  | Err e => fail w msg (str "could not sign message: " ++ err_text e)
  | Ok raw =>
      let! resp := snd_Send (w_sender w) (outgoing msg raw) in
      match resp_Result resp with
      | Sent =>
          let! r := q_MarkSent (w_queue w) (c_ID msg) in
          match r with
          | Err _ => Ret tt
          | Ok _ => publish w (c_ID msg) (str "email.sent") [] (c_Attempts msg)
          end
      | Temporary =>
          if MaxAttempts <=? c_Attempts msg then
            fail w msg (str "gave up after repeated temporary failures: " ++ resp_Reason resp)
          else
            let! now := perform Now in
            let retryAt := now + Backoff (c_Attempts msg) in
            let! r := q_MarkDeferred (w_queue w) (c_ID msg) retryAt (resp_Reason resp) in
            match r with
            | Err _ => Ret tt
            | Ok _ => publish w (c_ID msg) (str "email.deferred") (resp_Reason resp) (c_Attempts msg)
            end
      | Permanent =>
          let! _ := suppressIfAddressIsBad w msg (resp_Reason resp) in
          fail w msg (resp_Reason resp)
      end
  end.

(** How many messages the tick processed, or why it could not. *)
Definition tick (w : Worker) : prog (result nat) :=
  let claim_and_deliver :=
    let! claimed := q_ClaimMessages (w_queue w) batchSize lockDuration in
    match claimed with
    | Err e => Ret (Err e)
    | Ok claimed =>
        let! _ := for_each claimed (deliver w) in
        Ret (Ok (length claimed))
    end in
  if 0 <? w_maxPerHour w then
    let! recent := q_SentInLastHour (w_queue w) in
    match recent with
    | Err e => Ret (Err e)
    | Ok count => if w_maxPerHour w <=? count then Ret (Ok O) else claim_and_deliver
    end
  else claim_and_deliver.

(** The pause [Run] makes between two ticks. *)
Definition wait_after (r : result nat) : Z :=
  match r with Ok (S _) => 0 | _ => idleInterval end.

(** [Run] until the context ends, for at most [ticks] ticks; the answer says
    whether it ended.  [ctx.Err() != nil] is a wait of no length. *)
Fixpoint Run (w : Worker) (ticks : nat) : prog bool :=
  match ticks with
  | O => Ret false
  | S ticks =>
      let! r := tick w in
      let! over := match r with Err _ => perform (Wait 0) | Ok _ => Ret false end in
      if over then Ret true
      else
        let! over := perform (Wait (wait_after r)) in
        if over then Ret true else Run w ticks
  end.

(** ** Properties *)

Lemma Backoff_high attempt : 10 <= attempt -> Backoff attempt = 6 * Hour.
Proof.
  intros Ha. unfold Backoff. rewrite (proj2 (Z.ltb_ge attempt 1)) by lia.
  assert (2 ^ 9 <= 2 ^ Z.min (attempt - 1) 20) as Hp by (apply Z.pow_le_mono_r; lia).
  rewrite (proj2 (Z.ltb_lt (6 * Hour) _)); [done|]. change (2 ^ 9) with 512 in Hp.
  change Hour with (60 * Minute). change Minute with 60000000000. nia.
Qed.

(** A minute doubled with every attempt, as long as that stays below six hours. *)
Lemma Backoff_low attempt :
  Backoff attempt =
  if attempt <=? 1 then Minute else if attempt <=? 9 then Minute * 2 ^ (attempt - 1) else 6 * Hour.
Proof.
  destruct (Z.leb_spec attempt 1).
  - unfold Backoff. destruct (Z.ltb_spec attempt 1); [done|]. by replace attempt with 1 by lia.
  - destruct (Z.leb_spec attempt 9); [|apply Backoff_high; lia].
    assert (attempt = 2 \/ attempt = 3 \/ attempt = 4 \/ attempt = 5 \/ attempt = 6 \/ attempt = 7
            \/ attempt = 8 \/ attempt = 9) as Hcases by lia.
    destruct_or! Hcases; subst; reflexivity.
Qed.

(** Retries slow down and are bounded: a minute after the first attempt,
    doubling with every further one, capped at six hours, never shrinking. *)
Theorem Backoff_bounds attempt :
  Minute <= Backoff attempt <= 6 * Hour
  /\ Backoff attempt <= Backoff (attempt + 1)
  /\ (attempt <= 1 -> Backoff attempt = Minute)
  /\ (1 <= attempt <= 9 -> Backoff attempt = Minute * 2 ^ (attempt - 1))
  /\ (10 <= attempt -> Backoff attempt = 6 * Hour).
Proof.
  assert (Hb : forall a, 2 <= a <= 9 -> Minute * 2 <= Minute * 2 ^ (a - 1) <= Minute * 256).
  { intros a Ha. change 256 with (2 ^ 8). change 2 with (2 ^ 1) at 1.
    assert (2 ^ 1 <= 2 ^ (a - 1) <= 2 ^ 8) by (split; apply Z.pow_le_mono_r; lia).
    change Minute with 60000000000. lia. }
  assert (Minute = 60000000000 /\ 6 * Hour = Minute * 360) as [Hm Hh] by done.
  split_and!.
  - rewrite Backoff_low. specialize (Hb attempt). split_ifs; boolify; lia.
  - rewrite Backoff_low. specialize (Hb attempt). split_ifs; boolify; lia.
  - rewrite !Backoff_low. pose proof (Hb attempt). pose proof (Hb (attempt + 1)).
    replace (attempt + 1 - 1) with (Z.succ (attempt - 1)) in * by lia.
    split_ifs; boolify; try lia. rewrite Z.pow_succ_r by lia.
    pose proof (Z.pow_nonneg 2 (attempt - 1)). nia.
  - intros. rewrite Backoff_low. split_ifs; boolify; lia.
  - intros. rewrite Backoff_low. split_ifs; boolify; try lia.
    replace attempt with 1 by lia. done.
  - apply Backoff_high.
Qed.

End Worker.

Lemma Backoff_bounds_witness : Backoff 4 = Minute * 8.
Proof. apply (Backoff_bounds 4). lia. Defined.
