(* ===== verification/Background.v ===== *)
(** * internal/dnsverify and internal/worker/webhooks.go

    The webhook dispatcher and the domain checker, each written against its
    store interface, and the DNS proof the checker asks for. *)

From S2P Require Import Prelude Utf8 GoStrings Schema Program Netguard HttpClient WebhookSend.
From S2P Require Import StoreRecipients Reading StoreQueue StoreWebhooks Worker.
Local Open Scope Z_scope.
Local Open Scope go_scope.

(** ** dnsverify *)

Definition RecordPrefix : gostring := str "_aiemail.".

Definition ErrNoRecord : error :=
  Error (Some dnsverify_ErrNoRecord) (str "no verification record found").
Definition ErrMismatch : error :=
  Error (Some dnsverify_ErrMismatch) (str "verification record does not match").
Definition ErrLookupFail : error :=
  Error (Some dnsverify_ErrLookupFail) (str "dns lookup failed").

(** What a lookup proves about the expected token. *)
Definition judge (expected : gostring) (answer : dns_answer) : result () :=
  match answer with
  | LookupError e => Err (Error (Some dnsverify_ErrLookupFail) (err_text ErrLookupFail ++ str ": " ++ err_text e))
  | NotFound => Err ErrNoRecord
  | Records records =>
      if bool_decide (records = []) then Err ErrNoRecord
      else if existsb (fun record => bool_decide (trim_space record = expected)) records then Ok tt
      else Err ErrMismatch
  end.

Section Dnsverify.
Context `{UnicodeTables}.

Definition Verifier_Verify (domain expected : gostring) : prog (result ()) :=
  if bool_decide (trim_space domain = []) || bool_decide (trim_space expected = [])
  then Ret (Err ErrMismatch)
  else
    let name := RecordPrefix ++ trim_suffix (str ".") (to_lower domain) in
    Do (LookupTXT name) (fun answer => Ret (judge expected answer)).

Definition Recheckable (e : error) : bool := errors_Is e dnsverify_ErrLookupFail.

End Dnsverify.

(** ** The dispatcher *)

Definition webhookBatch : nat := 20.
Definition webhookLock : Z := 2 * Minute.
Definition MaxWebhookTries : Z := 8.

Record WebhookQueue := {
  wq_ClaimDeliveries : nat -> Z -> prog (result (list PendingDelivery));
  wq_MarkDeliverySucceeded : Z -> prog (result ());
  wq_RescheduleDelivery : Z -> Z -> gostring -> prog (result ());
  wq_MarkDeliveryFailed : Z -> gostring -> prog (result ());
}.

Record WebhookSender := { ws_Send : gostring -> gostring -> gostring -> prog WebhookSend.Result }.

Record Dispatcher := NewDispatcher { d_queue : WebhookQueue; d_sender : WebhookSender }.

(** The switch on the outcome of an attempt. *)
Definition record_result (d : Dispatcher) (item : PendingDelivery) (r : WebhookSend.Result) : prog () :=
  match res_Outcome r with
  | Delivered => let! _ := wq_MarkDeliverySucceeded (d_queue d) (pd_ID item) in Ret tt
  | Drop => let! _ := wq_MarkDeliveryFailed (d_queue d) (pd_ID item) (res_Reason r) in Ret tt
  | Retry =>
      if MaxWebhookTries <=? pd_Attempts item then
        let! _ := wq_MarkDeliveryFailed (d_queue d) (pd_ID item) (str "gave up: " ++ res_Reason r) in Ret tt
      else
        let! now := perform Now in
        let at_ := now + Backoff (pd_Attempts item) in
        let! _ := wq_RescheduleDelivery (d_queue d) (pd_ID item) at_ (res_Reason r) in Ret tt
  end.

Definition Dispatcher_deliver (d : Dispatcher) (item : PendingDelivery) : prog () :=
  let! r := ws_Send (d_sender d) (pd_URL item) (pd_Secret item) (pd_Payload item) in record_result d item r.

Definition Dispatcher_tick (d : Dispatcher) : prog (result nat) :=
  let! claimed := wq_ClaimDeliveries (d_queue d) webhookBatch webhookLock in
  match claimed with
  | Err e => Ret (Err e)
  | Ok claimed => let! _ := for_each claimed (Dispatcher_deliver d) in Ret (Ok (length claimed))
  end.

(** [Run] until the context ends, for at most [ticks] ticks. *)
Fixpoint Dispatcher_Run (d : Dispatcher) (ticks : nat) : prog bool :=
  match ticks with
  | O => Ret false
  | S ticks =>
      let! r := Dispatcher_tick d in
      let! over := perform (Wait (wait_after r)) in
      if over then Ret true else Dispatcher_Run d ticks
  end.

(** ** The domain checker *)

Definition domainRecheckInterval : Z := 24 * Hour.
Definition domainBatch : nat := 50.

Record DomainStore := {
  ds_DomainsDueForRecheck : Z -> nat -> prog (result (list DomainProof));
  ds_MarkDomainVerified : Z -> prog (result ());
  ds_SuspendDomain : Z -> prog (result ());
  ds_TouchDomainCheck : Z -> prog (result ());
}.

Section Checker.
Context `{UnicodeTables}.

(** One iteration of the loop over the due domains. *)
Definition check_domain (c : DomainStore) (domain : DomainProof) : prog () :=
  let! r := Verifier_Verify (dp_Name domain) (dp_Token domain) in
  match r with
  | Ok _ => let! _ := ds_MarkDomainVerified c (dp_ID domain) in Ret tt
  | Err e =>
      if Recheckable e then let! _ := ds_TouchDomainCheck c (dp_ID domain) in Ret tt
      else let! _ := ds_SuspendDomain c (dp_ID domain) in Ret tt
  end.

Definition DomainChecker_tick (c : DomainStore) : prog (result ()) :=
  let! due := ds_DomainsDueForRecheck c domainRecheckInterval domainBatch in
  match due with
  | Err e => Ret (Err e)
  | Ok due => let! _ := for_each due (check_domain c) in Ret (Ok tt)
  end.

(** The interval [NewDomainChecker] sets. *)
Definition domainInterval : Z := Hour.

Fixpoint DomainChecker_Run (c : DomainStore) (ticks : nat) : prog bool :=
  match ticks with
  | O => Ret false
  | S ticks =>
      let! _ := DomainChecker_tick c in
      let! over := perform (Wait domainInterval) in
      if over then Ret true else DomainChecker_Run c ticks
  end.

(** ** Wired to the store *)

Context `{Postgres}.

Definition store_domains (s : Store) : DomainStore :=
  {| ds_DomainsDueForRecheck := DomainsDueForRecheck s; ds_MarkDomainVerified := MarkDomainVerified s;
     ds_SuspendDomain := SuspendDomain s; ds_TouchDomainCheck := TouchDomainCheck s |}.

Definition store_webhooks (s : Store) : WebhookQueue :=
  {| wq_ClaimDeliveries := ClaimDeliveries s; wq_MarkDeliverySucceeded := MarkDeliverySucceeded s;
     wq_RescheduleDelivery := RescheduleDelivery s; wq_MarkDeliveryFailed := MarkDeliveryFailed s |}.

Definition status_in (db : DB) (id : Z) : option domain_status := dom_status <$> domains db !! id.

(** What a check makes of a status when the lookup is answered with [answer].  Which
    domains are checked is the choice of [DomainsDueForRecheck]: never a suspended one. *)
Definition status_after (old : domain_status) (domain expected : gostring) (answer : dns_answer) : domain_status :=
  if bool_decide (trim_space domain = []) || bool_decide (trim_space expected = []) then dom_suspended
  else match answer with
       | LookupError _ => old
       | Records l => if existsb (fun r => bool_decide (trim_space r = expected)) l then dom_verified
                      else dom_suspended
       | NotFound => dom_suspended
       end.

(** A single domain update that ran or did not. *)
Lemma exec_domain_run prefix (f : stmt_env -> domain_row -> domain_row) id script wd :
  let e := (pop script).1 in
  let here := arrive e wd in
  let '(r, (rest, wd')) := run (exec_wrapped prefix (fun env db =>
       Ok (tt, set_domains (alter (f env) id) db))) script wd in
  rest = (pop script).2
  /\ (w_db wd' = w_db here \/ w_db wd' = set_domains (alter (f (env_of e here)) id) (w_db here))
  /\ (e_fault e = NoFault -> w_db wd' = set_domains (alter (f (env_of e here)) id) (w_db here)).
Proof.
  cbn. destruct (pop script) as [e script']; cbn. unfold sem, sem_at, sem_stmt.
  destruct (e_fault e); cbn; split_and!; naive_solver.
Qed.

Lemma status_in_alter f id db id' :
  status_in (set_domains (alter f id) db) id'
  = if decide (id' = id) then dom_status ∘ f <$> domains db !! id else status_in db id'.
Proof.
  unfold status_in. destruct db as [d ? ? ? ? ? ? ? ?]; cbn. destruct (decide (id' = id)) as [->|Hne].
  - rewrite lookup_alter_eq. by destruct (d !! id).
  - by rewrite lookup_alter_ne.
Qed.

(** The status an update writes. *)
Definition writes (f : stmt_env -> domain_row -> domain_row) (g : domain_status -> domain_status) : Prop :=
  forall env d, dom_status (f env d) = g (dom_status d).

Lemma update_status prefix f g id script wd :
  writes f g -> quiet (pop script).1 ->
  let wd' := world_of (run (exec_wrapped prefix (fun env db =>
               Ok (tt, set_domains (alter (f env) id) db))) script wd) in
  (forall id', id' <> id -> status_in (w_db wd') id' = status_in (w_db wd) id')
  /\ (status_in (w_db wd') id = status_in (w_db wd) id
      \/ status_in (w_db wd') id = g <$> status_in (w_db wd) id)
  /\ (e_fault (pop script).1 = NoFault -> status_in (w_db wd') id = g <$> status_in (w_db wd) id).
Proof.
  intros Hw Hq. cbn zeta. pose proof (exec_domain_run prefix f id script wd) as Hr. unfold world_of.
  destruct (run _ script wd) as [r [rest wd']]; cbn [snd]. destruct Hr as (_ & Hdb & Hok).
  assert (w_db (arrive (pop script).1 wd) = w_db wd) as E by (cbn; apply Hq). rewrite E in *.
  assert (Hset : forall env, status_in (set_domains (alter (f env) id) (w_db wd)) id
    = g <$> status_in (w_db wd) id).
  { intros env. rewrite status_in_alter, decide_True by done. unfold status_in.
    destruct (domains (w_db wd) !! id); [|done]. cbn. by rewrite Hw. }
  split_and!.
  - intros id' Hne. destruct Hdb as [-> | ->]; [done|]. by rewrite status_in_alter, decide_False.
  - destruct Hdb as [-> | ->]; [by left|right; apply Hset].
  - intros Hf. rewrite (Hok Hf). apply Hset.
Qed.

(** What the three updates write. *)
Lemma writes_verified : writes (fun env d => with_check dom_verified
  (match dom_verified_at d with Some t => Some t | None => Some (se_now env) end) (Some (se_now env)) d)
  (fun _ => dom_verified).
Proof. done. Qed.

Lemma writes_suspended : writes (fun env d => with_check dom_suspended (dom_verified_at d) (Some (se_now env)) d)
  (fun _ => dom_suspended).
Proof. done. Qed.

Lemma writes_touched : writes (fun env d => with_check (dom_status d) (dom_verified_at d) (Some (se_now env)) d) id.
Proof. done. Qed.

Definition well_named (dp : DomainProof) : Prop := trim_space (dp_Name dp) <> [] /\ trim_space (dp_Token dp) <> [].

(** Ignoring a result changes nothing. *)
Lemma run_ignore {A} (p : prog A) script wd :
  world_of (run (let! _ := p in Ret tt) script wd) = world_of (run p script wd).
Proof. rewrite run_bind. by destruct (run p script wd) as [a [rest wd']]. Qed.

Lemma check_domain_status s dp e1 script wd :
  well_named dp -> quiet e1 -> quiet (pop script).1 ->
  let wd' := world_of (run (check_domain (store_domains s) dp) (e1 :: script) wd) in
  (forall id', id' <> dp_ID dp -> status_in (w_db wd') id' = status_in (w_db wd) id')
  /\ (status_in (w_db wd') (dp_ID dp) = status_in (w_db wd) (dp_ID dp)
      \/ status_in (w_db wd') (dp_ID dp)
         = (fun st => status_after st (dp_Name dp) (dp_Token dp) (e_dns e1)) <$> status_in (w_db wd) (dp_ID dp))
  /\ (e_fault (pop script).1 = NoFault -> status_in (w_db wd') (dp_ID dp)
        = (fun st => status_after st (dp_Name dp) (dp_Token dp) (e_dns e1)) <$> status_in (w_db wd) (dp_ID dp)).
Proof.
  intros [Hn Ht] Hq1 Hq2. cbn zeta. unfold check_domain, Verifier_Verify, status_after.
  rewrite !bool_decide_eq_false_2 by done. cbn [orb bind run pop fst].
  unfold sem, sem_at. cbn beta iota.
  assert (Hid : forall o : option domain_status, id <$> o = o) by (by intros []).
  replace (status_in (w_db wd)) with (status_in (w_db (arrive e1 wd))) by (cbn; by rewrite Hq1).
  unfold judge. destruct (e_dns e1) as [l| |err].
  - destruct l as [|r l]; [rewrite bool_decide_eq_true_2 by done|rewrite bool_decide_eq_false_2 by done].
    + unfold Recheckable, errors_Is; cbn [err_is ErrNoRecord]. rewrite bool_decide_eq_false_2 by done.
      rewrite run_ignore. by apply (update_status _ _ _ _ _ _ writes_suspended).
    + destruct (existsb _ _).
      * rewrite run_ignore. by apply (update_status _ _ _ _ _ _ writes_verified).
      * unfold Recheckable, errors_Is; cbn [err_is ErrMismatch]. rewrite bool_decide_eq_false_2 by done.
        rewrite run_ignore. by apply (update_status _ _ _ _ _ _ writes_suspended).
  - unfold Recheckable, errors_Is; cbn [err_is ErrNoRecord]. rewrite bool_decide_eq_false_2 by done.
    rewrite run_ignore. by apply (update_status _ _ _ _ _ _ writes_suspended).
  - unfold Recheckable, errors_Is; cbn [err_is]. rewrite bool_decide_eq_true_2 by done.
    rewrite run_ignore. by apply (update_status _ _ _ _ _ _ writes_touched).
Qed.

(** C31: A domain check changes the trust of that domain only, and only as the
    lookup warrants: a published token verifies it, an absent or different record
    suspends it (a domain still pending included), and a failed lookup leaves it as
    it was. *)
Theorem check_domain_outcome s dp e1 script wd old :
  well_named dp -> quiet e1 -> quiet (pop script).1 ->
  status_in (w_db wd) (dp_ID dp) = Some old ->
  let wd' := world_of (run (check_domain (store_domains s) dp) (e1 :: script) wd) in
  let new := status_after old (dp_Name dp) (dp_Token dp) (e_dns e1) in
  (forall id', id' <> dp_ID dp -> status_in (w_db wd') id' = status_in (w_db wd) id')
  /\ (status_in (w_db wd') (dp_ID dp) = Some old \/ status_in (w_db wd') (dp_ID dp) = Some new)
  /\ (e_fault (pop script).1 = NoFault -> status_in (w_db wd') (dp_ID dp) = Some new).
Proof.
  intros Hn Hq1 Hq2 Hold. cbn zeta. pose proof (check_domain_status s dp e1 script wd Hn Hq1 Hq2) as Hc.
  cbn zeta in Hc. rewrite Hold in Hc. exact Hc.
Qed.

(** ** Suspension is final *)

(** [p] leaves the status of every domain but [id] alone. *)
Definition frames {A} (id : Z) (p : prog A) : Prop :=
  forall script wd, Forall quiet script ->
    let '(_, (rest, wd')) := run p script wd in
    Forall quiet rest /\ forall id', id' <> id -> status_in (w_db wd') id' = status_in (w_db wd) id'.

Lemma frames_update prefix f id :
  frames id (let! _ := exec_wrapped prefix (fun env db => Ok (tt, set_domains (alter (f env) id) db)) in Ret tt).
Proof.
  intros script wd Hq. rewrite run_bind. pose proof (exec_domain_run prefix f id script wd) as Hr.
  destruct (run _ script wd) as [r [rest wd']]. cbn [run]. destruct Hr as (-> & Hdb & _).
  apply quiet_pop in Hq as [Hq1 Hq2]. split; [done|]. intros id' Hne.
  assert (w_db (arrive (pop script).1 wd) = w_db wd) as E by (cbn; apply Hq1). rewrite E in *.
  destruct Hdb as [-> | ->]; [done|]. by rewrite status_in_alter, decide_False.
Qed.

Lemma frames_check s dp : frames (dp_ID dp) (check_domain (store_domains s) dp).
Proof.
  unfold check_domain, Verifier_Verify.
  assert (Hfin : forall r : result (), frames (dp_ID dp) match r with
    | Ok _ => let! _ := ds_MarkDomainVerified (store_domains s) (dp_ID dp) in Ret tt
    | Err e => if Recheckable e then let! _ := ds_TouchDomainCheck (store_domains s) (dp_ID dp) in Ret tt
               else let! _ := ds_SuspendDomain (store_domains s) (dp_ID dp) in Ret tt
    end).
  { intros [[]|e]; [apply frames_update|]. destruct (Recheckable e); apply frames_update. }
  destruct (bool_decide _ || bool_decide _).
  - intros script wd Hq. rewrite run_bind. apply (Hfin (Err ErrMismatch) script wd Hq).
  - intros script wd Hq. rewrite run_bind. cbn [run]. apply quiet_pop in Hq as [Hq1 Hq2].
    destruct (pop script) as [e script']; cbn [fst snd] in *. unfold sem, sem_at.
    specialize (Hfin (judge (dp_Token dp) (e_dns e)) script' (arrive e wd) Hq2).
    destruct (run _ script' (arrive e wd)) as [u [rest wd']]. destruct Hfin as [Hr Hs].
    split; [done|]. intros id' Hne. rewrite Hs by done. cbn. by rewrite Hq1.
Qed.

Lemma check_all_frame s due script wd d :
  Forall quiet script -> Forall (fun dp => dp_ID dp <> d) due ->
  status_in (w_db (world_of (run (for_each due (check_domain (store_domains s))) script wd))) d
  = status_in (w_db wd) d.
Proof.
  intros Hq Hdue. revert script wd Hq. induction Hdue as [|dp due Hd _ IH]; intros script wd Hq; [done|].
  cbn [for_each]. unfold world_of in *. rewrite run_bind.
  pose proof (frames_check s dp script wd Hq) as Hf.
  destruct (run (check_domain _ dp) script wd) as [u [rest wd']]. destruct Hf as [Hr Hs].
  rewrite IH by done. by apply Hs.
Qed.

(** A suspended domain stays suspended: the checker never selects it again,
    so publishing the record later does not restore it. *)
Theorem suspended_is_final s script wd d :
  Forall quiet script ->
  status_in (w_db wd) d = Some dom_suspended ->
  status_in (db_of (run (DomainChecker_tick (store_domains s)) script wd)) d = Some dom_suspended.
Proof.
  intros Hq Hd. unfold DomainChecker_tick, db_of, world_of. rewrite run_bind.
  apply quiet_pop in Hq as [Hq1 Hq]. cbn [store_domains ds_DomainsDueForRecheck].
  unfold DomainsDueForRecheck, exec_wrapped. cbn [run].
  destruct (pop script) as [e script']; cbn [fst snd] in *. unfold sem, sem_at, sem_stmt, query.
  assert (w_db (arrive e wd) = w_db wd) as E by (cbn; apply Hq1).
  destruct (e_fault e); cbn [run wrap_err snd]; try (by rewrite E).
  rewrite run_bind. cbn [set_db]. match goal with |- context [for_each ?l _] => set (due := l) end.
  pose proof (check_all_frame s due script' (set_db (w_db (arrive e wd)) (arrive e wd)) d Hq) as Hf.
  unfold world_of in Hf. destruct (run (for_each due _) script' _) as [u [rest wd']]. cbn [run snd] in *.
  rewrite Hf; [cbn; by rewrite Hq1|]. subst due. apply list.Forall_fmap, list.Forall_forall.
  intros [id row] Hin Hid. cbn in Hid. subst id. apply elem_of_take in Hin as (i & Hi & _).
  apply list_elem_of_lookup_2 in Hi. rewrite order_by_perm in Hi.
  apply list_elem_of_filter in Hi as [Hdue Hrow%elem_of_rows]. rewrite E in Hrow.
  unfold status_in in Hd. rewrite Hrow in Hd. injection Hd as Hd. unfold domain_due in Hdue. cbn in Hdue.
  rewrite Hd in Hdue. discriminate Hdue.
Qed.

End Checker.

(** ** Webhook dispatch *)

Section Dispatch.
Context `{UnicodeTables} `{UrlLib} `{Postgres}.

Definition webhook_sender : WebhookSender := {| ws_Send := WebhookSend.Sender_Send |}.

(** The status a delivery has after an attempt that was recorded. *)
Definition delivery_after (o : Outcome) (attempts : Z) : delivery_status :=
  match o with
  | Delivered => dl_delivered
  | Drop => dl_failed
  | Retry => if MaxWebhookTries <=? attempts then dl_failed else dl_pending
  end.

Lemma Sender_Send_read_only url secret payload : read_only (WebhookSend.Sender_Send url secret payload).
Proof.
  unfold WebhookSend.Sender_Send. destruct (ValidateURL url); [|done]. destruct (new_request _ _ _); [|done].
  split; [done|]. intros now. apply read_only_bind; [apply talks_read_only, guarded_do_talks|done].
Qed.

(** What an update of one delivery leaves behind, recorded or not. *)
Definition recorded_as (id : Z) (db db' : DB) (st : delivery_status) : Prop :=
  db' = db \/ exists next locked err, db' = update_deliveries [id]
    (fun r => with_delivery st (dl_attempts r) (next r) locked (err r) r) db.

Lemma update_recorded prefix id st next locked err (ok : bool) v script wd :
  Forall quiet script ->
  recorded_as id (w_db wd) (db_of (run (exec_wrapped prefix (fun _ db => ensure ok v
    (Ok (tt, update_deliveries [id]
       (fun r => with_delivery st (dl_attempts r) (next r) locked (err r) r) db)))) script wd)) st.
Proof.
  intros [Hq _]%quiet_pop. unfold recorded_as, db_of, world_of. cbn. destruct (pop script) as [e script']; cbn in *.
  unfold sem, sem_at, sem_stmt; cbn. rewrite Hq. destruct (e_fault e); cbn; [|by left|];
    (destruct ok; cbn; [right; by eexists _, _, _|by left]).
Qed.

Lemma db_ignore {A} (p : prog A) script wd : db_of (run (let! _ := p in Ret tt) script wd) = db_of (run p script wd).
Proof. unfold db_of. by rewrite run_ignore. Qed.

Lemma record_result_run s item r script wd :
  Forall quiet script ->
  recorded_as (pd_ID item) (w_db wd)
    (db_of (run (record_result (NewDispatcher (store_webhooks s) webhook_sender) item r) script wd))
    (delivery_after (res_Outcome r) (pd_Attempts item)).
Proof.
  intros Hq. unfold record_result, delivery_after. cbn [d_queue store_webhooks wq_MarkDeliverySucceeded
    wq_MarkDeliveryFailed wq_RescheduleDelivery].
  destruct (res_Outcome r); [|destruct (MaxWebhookTries <=? pd_Attempts item)|].
  - rewrite db_ignore. by apply (update_recorded _ _ _ dl_next_attempt None dl_last_error true invalid_text).
  - rewrite db_ignore. by apply update_recorded with (next := dl_next_attempt).
  - destruct (read_only_then (perform Now) (fun now => let! _ := RescheduleDelivery s (pd_ID item)
      (now + Backoff (pd_Attempts item)) (res_Reason r) in Ret tt) script wd) as (now & s1 & w1 & _ & Hdb & Hq1 & _ & E);
      [done|done|]. unfold db_of, world_of. rewrite E, <- Hdb.
    change (w_db (run ?p s1 w1).2.2) with (db_of (run p s1 w1)). rewrite db_ignore.
    by apply (update_recorded _ _ _ (fun _ => timestamptz (now + Backoff (pd_Attempts item)))).
  - rewrite db_ignore. by apply update_recorded with (next := dl_next_attempt).
Qed.

(** One attempt at a webhook delivery changes that delivery only, and
    records what the attempt came to: delivered, failed for good (a destination
    that is not allowed, an endpoint that is gone, the eighth failure), or pending
    again; or, when the record fails, nothing at all. *)
Theorem dispatch_outcome s item script wd row :
  Forall quiet script ->
  webhook_deliveries (w_db wd) !! pd_ID item = Some row ->
  let sent := run (WebhookSend.Sender_Send (pd_URL item) (pd_Secret item) (pd_Payload item)) script wd in
  let db' := db_of (run (Dispatcher_deliver (NewDispatcher (store_webhooks s) webhook_sender) item) script wd) in
  (forall id, id <> pd_ID item -> webhook_deliveries db' !! id = webhook_deliveries (w_db wd) !! id)
  /\ (messages db' = messages (w_db wd) /\ domains db' = domains (w_db wd))
  /\ exists row', webhook_deliveries db' !! pd_ID item = Some row' /\ dl_attempts row' = dl_attempts row
       /\ (row' = row \/ dl_status row' = delivery_after (res_Outcome (result_of sent)) (pd_Attempts item)).
Proof.
  intros Hq Hrow. cbn zeta. unfold Dispatcher_deliver, db_of, world_of, result_of.
  cbn [d_sender webhook_sender ws_Send]. rewrite run_bind.
  destruct (read_only_run _ script wd (Sender_Send_read_only (pd_URL item) (pd_Secret item) (pd_Payload item)) Hq)
    as (r & s1 & w1 & -> & Hdb & Hq1 & _).
  pose proof (record_result_run s item r s1 w1 Hq1) as Hr. unfold db_of, world_of in Hr. cbn [fst].
  destruct (run _ s1 w1) as [u [rest w']]; cbn in *. rewrite Hdb in Hr. clear Hq Hq1 Hdb.
  destruct Hr as [-> | (next & locked & err & ->)]; [split_and!; [done..|exists row; auto]|].
  destruct (w_db wd); cbn in *. split_and!; try done.
  - intros id Hne. rewrite map_lookup_imap. destruct (webhook_deliveries !! id); [|done]. cbn.
    rewrite bool_decide_eq_false_2; [done|]. by rewrite list_elem_of_singleton.
  - rewrite map_lookup_imap, Hrow. cbn. rewrite bool_decide_eq_true_2 by by rewrite list_elem_of_singleton.
    eexists. split; [done|]. destruct row; cbn. auto.
Qed.

End Dispatch.

(** ** Witnesses *)

Definition pending_world : world :=
  World (set_domains (fun _ => {[ 1 := DomainRec (str "x.io") (str "tok") dom_pending None None 0 ]})
           empty_db) 1000 [].

Definition pending_proof : DomainProof :=
  {| dp_ID := 1; dp_Name := str "x.io"; dp_Token := str "tok"; dp_Status := dom_pending |}.

(** The record is not published yet. *)
Definition unpublished : env :=
  {| e_others := id; e_delay := 0; e_fault := NoFault; e_begin := None; e_tx_faults := [];
     e_locked_message := fun _ => false; e_locked_delivery := fun _ => false;
     e_entropy := Ok []; e_http := Ok (Answer 200 []); e_stale := 0; e_dns := NotFound;
     e_ips := e_ips calm |}.

Definition first_check : world :=
  world_of (run (check_domain (H := ascii_tables) (store_domains (H0 := plain_postgres) clear_store) pending_proof)
    [unpublished] pending_world).

Lemma check_domain_outcome_witness : status_in (w_db first_check) 1 = Some dom_suspended.
Proof.
  apply (check_domain_outcome (H := ascii_tables) (H0 := plain_postgres) clear_store pending_proof unpublished []
           pending_world dom_pending).
  - split; vm_compute; discriminate.
  - done.
  - done.
  - vm_compute. reflexivity.
  - reflexivity.
Defined.

Lemma suspended_is_final_witness :
  status_in (db_of (run (DomainChecker_tick (H := ascii_tables) (store_domains (H0 := plain_postgres) clear_store))
    [] first_check)) 1 = Some dom_suspended.
Proof.
  apply (suspended_is_final (H := ascii_tables) (H0 := plain_postgres) clear_store [] first_check 1).
  - constructor.
  - vm_compute. reflexivity.
Defined.

Definition hook_row : delivery_row :=
  DeliveryRec 1 (str "m1:email.sent:1") (str "m1") (str "{}") dl_delivering 1 0 (Some 120000) None 0.

Definition hook_world : world :=
  World (set_deliveries (fun _ => {[ 1 := hook_row ]}) empty_db) 1000 [].

Definition hook_item : PendingDelivery :=
  {| pd_ID := 1; pd_URL := str "localhost"; pd_Secret := str "s"; pd_Payload := str "{}"; pd_Attempts := 1 |}.

Lemma dispatch_outcome_witness :
  exists row', webhook_deliveries (db_of (run (Dispatcher_deliver
      (NewDispatcher (store_webhooks (H0 := plain_postgres) clear_store)
         (webhook_sender (H := ascii_tables) (H0 := plain_url_lib))) hook_item) [] hook_world)) !! 1
    = Some row' /\ dl_attempts row' = 1.
Proof.
  destruct (dispatch_outcome (H := ascii_tables) (H0 := plain_url_lib) (H1 := plain_postgres)
    clear_store hook_item [] hook_world hook_row) as (_ & _ & row' & Hrow & Ha & _).
  - constructor.
  - vm_compute. reflexivity.
  - exists row'. split; [exact Hrow|exact Ha].
Defined.
