(* ===== verification/Protocol.v ===== *)
(** * The contract between the worker and what it is wired to

    A claimed message is owned by the program that delivers it. [obeys] says,
    effect by effect, that such a program keeps its side: it hands the message to
    the engine under the message's own id, again only where the engine's answer
    redirects it and ten times at most, it ends the claim at most once, with a status
    that fits what the engine answered, and it touches the lifecycle of no other
    message. The interfaces of worker.go get this contract
    as classes; the worker is proved against the classes, the store, the engine and
    the DKIM signer discharge them. *)

From S2P Require Import Prelude Utf8 GoStrings Crypto Bounce Schema Program Netguard HttpClient Delivery.
From S2P Require Import StoreRecipients StoreQueue StoreWebhooks StoreKeys Mail Dkim Worker.
Local Open Scope Z_scope.
Local Open Scope go_scope.

(** Where a delivery stands: not yet handed over, sent elsewhere by the engine with
    [hops] requests left to make, answered with a success, answered otherwise or not
    at all, or no longer in charge of the message. *)
Inductive phase := Owned | Redirected (hops : nat) | Accepted | Refused | Released.

(** Requests a delivery may still make. *)
Definition hops_left (ph : phase) : nat :=
  match ph with Owned => 10 | Redirected hops => hops | _ => 0 end.

#[global] Instance phase_eq_dec : EqDecision phase.
Proof. solve_decision. Defined.

(** The lifecycle columns of a row. *)
Definition life (r : message_row) : message_status * Z := (m_status r, m_attempts r).

Definition same_life (db db' : DB) : Prop :=
  forall id, life <$> messages db' !! id = life <$> messages db !! id.

(** When each message was accepted; no delivery changes it. *)
Definition same_dates (db db' : DB) : Prop :=
  forall id, m_created_at <$> messages db' !! id = m_created_at <$> messages db !! id.

Definition frozen (db db' : DB) : Prop := same_life db db' /\ same_dates db db'.

(** A statement that leaves every message's lifecycle and date alone. *)
Definition neutral {A} (q : statement A) : Prop :=
  forall env db a db', q env db = Ok (a, db') -> frozen db db'.

(** A statement that ends the claim on [id] with status [st], and changes no date. *)
Definition finishes {A} (id : gostring) (st : message_status) (q : statement A) : Prop :=
  forall env db a db', q env db = Ok (a, db') -> same_dates db db' /\ forall id',
    life <$> messages db' !! id' =
    if decide (id' = id) then (fun r => (st, m_attempts r)) <$> messages db !! id
    else life <$> messages db !! id'.

(** The statuses a claim of attempt [n] may end with. *)
Definition may_finish (n : Z) (ph : phase) (st : message_status) : Prop :=
  match ph, st with
  | Owned, failed | Redirected _, failed | Refused, failed | Accepted, sent => True
  | Redirected _, deferred | Refused, deferred => n < MaxAttempts
  | _, _ => False
  end.

Definition request_id (r : http_request) : option gostring :=
  head (base.filter (fun kv : gostring * gostring => kv.1 = str "Idempotency-Key") (hr_headers r)).*2.

(** The engine said it has the message.  An answer that was lost says nothing: the
    engine may have taken the message then, and is offered it again under its id. *)
Definition acknowledges (answer : result http_answer) : bool :=
  match answer with Ok a => (200 <=? an_status a) && (an_status a <? 300) | Err _ => false end.

Definition after_answer (hops : nat) (answer : result http_answer) : phase :=
  if acknowledges answer then Accepted else if moved answer then Redirected hops else Refused.

Definition allowed (id : gostring) (n : Z) (ph : phase) {X : Set} (op : effect X) : (X -> phase) -> Prop :=
  match op in effect X return (X -> phase) -> Prop with
  | Stmt q => fun after =>
      (neutral q /\ forall r, after r = ph)
      \/ (exists st, may_finish n ph st /\ finishes id st q /\ forall r, after r = Released)
  | Transact _ _ => fun _ => False
  | Now => fun after => forall x, after x = ph
  | Entropy => fun after => forall x, after x = ph
  | RoundTrip via r => fun after => exists hops,
      hops_left ph = S hops /\ request_id r = Some id /\ via = Pooled MaxIdleConnsPerHost
      /\ forall x, after x = after_answer hops x
  | LookupTXT _ => fun after => forall x, after x = ph
  | LookupNetIP _ => fun _ => False
  | Wait _ => fun after => forall x, after x = ph
  end.

Fixpoint obeys {A} (id : gostring) (n : Z) (ph : phase) (p : prog A) (Q : phase -> A -> Prop) : Prop :=
  match p with
  | Ret a => Q ph a
  | Do op k => exists after, allowed id n ph op after /\ forall x, obeys id n (after x) (k x) Q
  end.

Section Obeys.
Context (id : gostring) (n : Z).

Lemma obeys_bind {A B} (p : prog A) (f : A -> prog B) ph Q R :
  obeys id n ph p Q -> (forall ph' a, Q ph' a -> obeys id n ph' (f a) R) -> obeys id n ph (bind p f) R.
Proof.
  revert ph; induction p as [a|X op k IH]; intros ph Hp Hf; cbn in *; [by apply Hf|].
  destruct Hp as (after & Hop & Hk). exists after. eauto.
Qed.

Lemma obeys_mono {A} (p : prog A) ph (Q R : phase -> A -> Prop) :
  obeys id n ph p Q -> (forall ph' a, Q ph' a -> R ph' a) -> obeys id n ph p R.
Proof.
  revert ph; induction p as [a|X op k IH]; intros ph Hp Hf; cbn in *; [by apply Hf|].
  destruct Hp as (after & Hop & Hk). exists after. eauto.
Qed.

(** A program that may run in any phase without changing it. *)
Definition harmless {A} (p : prog A) : Prop := forall ph, obeys id n ph p (fun ph' _ => ph' = ph).

Lemma harmless_ret {A} (a : A) : harmless (Ret a).
Proof. done. Qed.

Lemma harmless_bind {A B} (p : prog A) (f : A -> prog B) :
  harmless p -> (forall a, harmless (f a)) -> harmless (bind p f).
Proof. intros Hp Hf ph. eapply obeys_bind; [apply Hp|]. intros ? a ->. apply Hf. Qed.

Lemma harmless_for_each {A} (l : list A) body :
  (forall x, harmless (body x)) -> harmless (for_each l body).
Proof.
  intros Hb. induction l as [|x l IH]; [apply harmless_ret|]. cbn. by apply harmless_bind.
Qed.

Lemma harmless_now : harmless (perform Now).
Proof. intros ph. exists (fun _ => ph). done. Qed.

Lemma harmless_entropy : harmless (perform Entropy).
Proof. intros ph. exists (fun _ => ph). done. Qed.

Lemma harmless_stmt {A : Set} {B} (q : statement A) (k : result A -> prog B) :
  neutral q -> (forall r, harmless (k r)) -> harmless (Do (Stmt q) k).
Proof. intros Hq Hk ph. exists (fun _ => ph). split; [by left|]. intros r. apply Hk. Qed.

Lemma harmless_exec {A : Set} prefix (q : statement A) : neutral q -> harmless (exec_wrapped prefix q).
Proof. intros Hq. apply harmless_stmt; [done|]. intros r. apply harmless_ret. Qed.

(** Harmless work, then a program with its own contract. *)
Lemma obeys_after_harmless {A B} (p : prog A) (f : A -> prog B) ph Q :
  harmless p -> (forall a, obeys id n ph (f a) Q) -> obeys id n ph (bind p f) Q.
Proof. intros Hp Hf. eapply obeys_bind; [apply Hp|]. intros ? a ->. apply Hf. Qed.

End Obeys.

Create HintDb protocol discriminated.
#[export] Hint Resolve harmless_ret harmless_now harmless_entropy harmless_bind harmless_for_each
  harmless_exec : protocol.

(** ** The interfaces' contracts *)

(** Handed over and not acknowledged; and that, or never handed over. *)
Definition unacknowledged (ph : phase) : Prop := ph = Refused \/ exists hops, ph = Redirected hops.
Definition unsent (ph : phase) : Prop := ph = Owned \/ unacknowledged ph.

(** The three ways of ending a claim fit the phase they are called in. *)
Class QueueSpec (q : Queue) := {
  MarkSent_spec : forall id n, obeys id n Accepted (q_MarkSent q id) (fun ph _ => ph = Released);
  MarkDeferred_spec : forall id n ph t reason, unacknowledged ph -> n < MaxAttempts ->
    obeys id n ph (q_MarkDeferred q id t reason) (fun ph _ => ph = Released);
  MarkFailed_spec : forall id n ph reason, unsent ph ->
    obeys id n ph (q_MarkFailed q id reason) (fun ph _ => ph = Released);
}.

(** Sending hands the message over and reports what came back. *)
Class SenderSpec (s : Sender) := {
  Send_spec : forall n m, obeys (msg_ID m) n Owned (snd_Send s m) (fun ph r =>
    match resp_Result r with
    | Sent => ph = Accepted
    | Temporary => unacknowledged ph
    | Permanent => unsent ph
    end);
}.

Class KeyStoreSpec (ks : KeyStore) := {
  SigningKey_spec : forall id n mid, harmless id n (ks_SigningKeyForMessage ks mid);
  MarkSigned_spec : forall id n mid, harmless id n (ks_MarkSigned ks mid);
}.

Class SignerSpec (s : MessageSigner) := {
  Sign_spec : forall id n key raw, harmless id n (ms_Sign s key raw);
}.

Class PublisherSpec (p : EventPublisher) := {
  EnqueueDelivery_spec : forall id n ev mid body, harmless id n (ep_EnqueueDelivery p ev mid body);
}.

Class SuppressorSpec (s : Suppressor) := {
  Suppress_spec : forall id n a reason detail mid, harmless id n (sp_Suppress s a reason detail mid);
}.

(** Everything a worker is wired to keeps its contract. *)
Class WorkerSpec (w : Worker) := {
  spec_queue :: QueueSpec (w_queue w);
  spec_sender :: SenderSpec (w_sender w);
  spec_keys : forall ks, w_keys w = Some ks -> KeyStoreSpec ks;
  spec_signer : forall s, w_signer w = Some s -> SignerSpec s;
  spec_events : forall p, w_events w = Some p -> PublisherSpec p;
  spec_suppressions : forall s, w_suppressions w = Some s -> SuppressorSpec s;
}.

Section Deliver.
Context `{UnicodeTables} `{GoRuntime} (w : Worker) `{!WorkerSpec w}.

Lemma harmless_publish id n mid ev reason attempt : harmless id n (publish w mid ev reason attempt).
Proof.
  unfold publish. destruct (w_events w) as [p|] eqn:Ep; [|apply harmless_ret].
  pose proof (spec_events p Ep) as Hp. apply harmless_bind; [apply harmless_now|]. intros now.
  destruct (BuildPayload _ _ _ _ _); [|apply harmless_ret].
  apply harmless_bind; [apply EnqueueDelivery_spec|]. intros _. apply harmless_ret.
Qed.

Lemma harmless_suppress id n msg reason : harmless id n (suppressIfAddressIsBad w msg reason).
Proof.
  unfold suppressIfAddressIsBad. destruct (w_suppressions w) as [s|] eqn:Es; [|apply harmless_ret].
  pose proof (spec_suppressions s Es) as Hs. case_match; [apply harmless_ret|].
  apply harmless_for_each. intros recipient. apply harmless_bind; [apply Suppress_spec|].
  intros _. apply harmless_ret.
Qed.

Lemma harmless_sign id n msg : harmless id n (sign w msg).
Proof.
  unfold sign. destruct (w_signer w) as [s|] eqn:Es; [|apply harmless_ret].
  destruct (w_keys w) as [ks|] eqn:Ek; [|apply harmless_ret].
  pose proof (spec_signer s Es) as Hs. pose proof (spec_keys ks Ek) as Hk.
  apply harmless_bind; [apply SigningKey_spec|]. intros [key|e]; [|apply harmless_ret].
  apply harmless_bind; [apply harmless_now|]. intros now.
  apply harmless_bind; [apply harmless_entropy|]. intros rand.
  destruct (Build _ _ _) as [raw|]; [|apply harmless_ret].
  apply harmless_bind; [apply Sign_spec|]. intros [signed|]; [|apply harmless_ret].
  apply harmless_bind; [apply MarkSigned_spec|]. intros _. apply harmless_ret.
Qed.

(** Once released, what follows must be harmless. *)
Lemma finish_then {A} id n ph (p : prog (result A)) (k : result A -> prog ()) :
  obeys id n ph p (fun ph _ => ph = Released) -> (forall r, harmless id n (k r)) ->
  obeys id n ph (bind p k) (fun ph _ => ph = Released).
Proof. intros Hp Hk. eapply obeys_bind; [exact Hp|]. intros ? r ->. apply Hk. Qed.

Lemma fail_obeys n ph msg reason :
  unsent ph ->
  obeys (c_ID msg) n ph (fail w msg reason) (fun ph _ => ph = Released).
Proof.
  intros Hph. unfold fail. apply finish_then; [by apply MarkFailed_spec|].
  intros [[]|]; [apply harmless_publish|apply harmless_ret].
Qed.

(** Delivering a claimed message keeps the contract from beginning to end. *)
Lemma deliver_obeys msg :
  obeys (c_ID msg) (c_Attempts msg) Owned (deliver w msg) (fun ph _ => ph = Released).
Proof.
  unfold deliver. apply obeys_after_harmless; [apply harmless_sign|].
  intros [raw|e]; [|apply fail_obeys; by left].
  eapply obeys_bind; [apply (Send_spec (c_Attempts msg) (outgoing msg raw))|].
  intros ph [[] reason]; cbn.
  - intros ->. apply finish_then; [apply MarkSent_spec|].
    intros [[]|]; [apply harmless_publish|apply harmless_ret].
  - intros Hph. destruct (Z.leb_spec MaxAttempts (c_Attempts msg)); [apply fail_obeys; by right|].
    apply (obeys_after_harmless _ _ (perform Now)); [apply harmless_now|]. intros now.
    apply finish_then; [by apply MarkDeferred_spec|].
    intros [[]|]; [apply harmless_publish|apply harmless_ret].
  - intros Hph. apply obeys_after_harmless; [apply harmless_suppress|]. intros _. by apply fail_obeys.
Qed.

End Deliver.

(** ** The store, the engine and the signer keep their contracts *)

Definition store_queue `{UnicodeTables} `{JsonErrors} `{Postgres} (s : Store) : Queue :=
  {| q_ClaimMessages := ClaimMessages s; q_MarkSent := MarkSent s; q_MarkDeferred := MarkDeferred s;
     q_MarkFailed := MarkFailed s; q_SentInLastHour := SentInLastHour s |}.

Definition store_keys `{Postgres} (s : Store) : KeyStore :=
  {| ks_SigningKeyForMessage := SigningKeyForMessage s; ks_MarkSigned := MarkSigned s |}.

Definition store_events `{Postgres} (s : Store) : EventPublisher :=
  {| ep_EnqueueDelivery := EnqueueDelivery s |}.

Definition store_suppressor `{UnicodeTables} `{Postgres} (s : Store) : Suppressor :=
  {| sp_Suppress := Suppress s |}.

Definition engine_sender `{UnicodeTables} `{UrlLib} (e : Engine) : Sender := {| snd_Send := Engine_Send e |}.

Definition dkim_signer `{UnicodeTables} `{GoRuntime} `{DkimLib} (k : Keeper) : MessageSigner :=
  {| ms_Sign := Signer_Sign k |}.

Section Instances.
Context `{UnicodeTables} `{JsonErrors} `{Postgres}.

Lemma same_messages_frozen db db' : messages db' = messages db -> frozen db db'.
Proof. intros E. split; intros id; by rewrite E. Qed.

Lemma neutral_query {A} (f : stmt_env -> DB -> A) : neutral (query f).
Proof. intros env db a db' [= _ <-]. by apply same_messages_frozen. Qed.

Lemma neutral_insert_event mid ev payload : neutral (insert_event mid ev payload).
Proof. intros env db [] db' [E _]%insert_event_Ok. by apply same_messages_frozen. Qed.

Lemma neutral_suppress a h reason detail mid : neutral (suppress_stmt a h reason detail mid).
Proof. intros env db [] db' (_ & _ & E)%suppress_stmt_rows. by apply same_messages_frozen. Qed.

Lemma neutral_enqueue_delivery ev mid payload : neutral (enqueue_delivery_stmt ev mid payload).
Proof. intros env db [] db' (_ & _ & _ & _ & E)%enqueue_delivery_Ok. by apply same_messages_frozen. Qed.

Lemma update_messages_frozen ids f db :
  (forall r, life (f r) = life r) -> (forall r, m_created_at (f r) = m_created_at r) ->
  frozen db (update_messages ids f db).
Proof.
  intros Hl Hd. split; intros id; rewrite update_messages_lookup; (destruct (messages db !! id); cbn; [|done]);
    case_bool_decide; by rewrite ?Hl, ?Hd.
Qed.

Lemma finish_stmt_finishes id st schedule last_error : finishes id st (finish_stmt id st schedule last_error).
Proof.
  intros env db [] db'. unfold finish_stmt. rewrite ensure_Ok. intros [_ [= <-]].
  split; intros id'; rewrite update_messages_lookup.
  { destruct (messages db !! id') as [r|]; cbn; [|done]. case_bool_decide; by destruct r. }
  destruct (decide (id' = id)) as [->|Hne].
  - destruct (messages db !! id) as [r|]; cbn; [|done].
    rewrite bool_decide_eq_true_2 by (by left). by destruct r.
  - destruct (messages db !! id') as [r|]; cbn; [|done].
    rewrite bool_decide_eq_false_2; [done|]. by intros ->%list_elem_of_singleton.
Qed.

Lemma harmless_RecordEvent s id n mid ev detail : harmless id n (RecordEvent s mid ev detail).
Proof. apply harmless_exec, neutral_insert_event. Qed.

Lemma finish_obeys {A : Set} id n ph st (q : statement A) (k : result A -> prog (result ())) :
  may_finish n ph st -> finishes id st q -> (forall r, harmless id n (k r)) ->
  obeys id n ph (Do (Stmt q) k) (fun ph _ => ph = Released).
Proof.
  intros Hm Hq Hk. exists (fun _ => Released). split; [right; by exists st|]. intros r. apply Hk.
Qed.

Lemma transition_obeys s id n ph st ev reason :
  may_finish n ph st -> obeys id n ph (transition s id st ev reason) (fun ph _ => ph = Released).
Proof.
  intros Hm. unfold transition. eapply finish_obeys; [exact Hm|apply finish_stmt_finishes|].
  intros [[]|]; [apply harmless_RecordEvent|apply harmless_ret].
Qed.

#[global] Instance store_queue_spec s : QueueSpec (store_queue s).
Proof.
  split; unfold store_queue; cbn [q_MarkSent q_MarkDeferred q_MarkFailed].
  - intros id n. by apply transition_obeys.
  - intros id n ph t reason Hph Hn. eapply (finish_obeys _ _ _ deferred); [|apply finish_stmt_finishes|].
    { by destruct Hph as [-> | [hops ->]]. }
    intros [[]|]; [apply harmless_RecordEvent|apply harmless_ret].
  - intros id n ph reason Hph. apply transition_obeys. by destruct Hph as [-> | [-> | [hops ->]]].
Qed.

#[global] Instance store_keys_spec s : KeyStoreSpec (store_keys s).
Proof.
  split; unfold store_keys; cbn [ks_SigningKeyForMessage ks_MarkSigned]; intros id n mid.
  - apply harmless_stmt; [|intros r; apply harmless_ret]. intros env db a db'.
    rewrite ensure_Ok. intros [_ [= _ <-]]. by apply same_messages_frozen.
  - apply harmless_exec. intros env db [] db'. rewrite ensure_Ok. intros [_ [= <-]].
    apply update_messages_frozen; by intros [].
Qed.

#[global] Instance store_events_spec s : PublisherSpec (store_events s).
Proof. split. intros. apply harmless_exec, neutral_enqueue_delivery. Qed.

#[global] Instance store_suppressor_spec s : SuppressorSpec (store_suppressor s).
Proof. split. intros. apply harmless_exec, neutral_suppress. Qed.

End Instances.

Lemma request_id_set id r : request_id (set_header (str "Idempotency-Key") id r) = Some id.
Proof.
  unfold request_id, set_header; cbn [hr_headers]. rewrite list.filter_app.
  assert (base.filter (fun kv : gostring * gostring => kv.1 = str "Idempotency-Key")
    (base.filter (fun kv : gostring * gostring => kv.1 <> str "Idempotency-Key") (hr_headers r)) = []) as ->.
  { induction (hr_headers r) as [|kv l IH]; [done|]. rewrite filter_cons.
    case_decide; [|done]. rewrite filter_cons. by rewrite decide_False. }
  cbn. by rewrite decide_True.
Qed.

(** A further request of a call is under the first one's id. *)
Lemma request_id_hop `{UnicodeTables} `{UrlLib} first last url method body :
  request_id (hop_request first last url method body) = request_id first.
Proof.
  assert (Hkey : forall l : list (gostring * gostring), base.filter (fun kv => kv.1 = str "Idempotency-Key")
    (base.filter (fun kv => body = true \/ kv.1 ∉ body_headers) l) = base.filter (fun kv => kv.1 = str "Idempotency-Key") l).
  { intros l. rewrite list_filter_filter. apply list_filter_iff. intros [k v]. cbn. split; [tauto|]. intros ->.
    split; [done|]. right. unfold body_headers. rewrite !not_elem_of_cons. split_and!; try discriminate. apply not_elem_of_nil. }
  unfold hop_request. destruct (referer last url) as [|c ref]; unfold request_id; cbn [hr_headers]; [by rewrite Hkey|].
  unfold set_header; cbn [hr_headers]. rewrite list.filter_app, filter_cons, decide_False, app_nil_r by done.
  rewrite list_filter_filter. rewrite <- (Hkey (hr_headers first)). do 3 f_equal. apply list_filter_iff.
  intros [k v]. cbn. split; [tauto|]. by intros ->.
Qed.

Lemma redirects_not_acknowledged a : redirects a = true -> acknowledges (Ok a) = false.
Proof.
  unfold redirects, acknowledges. intros [Hs _]%andb_true_iff. boolify.
  rewrite !elem_of_cons, elem_of_nil in Hs.
  lia.
Qed.

(** One call of the engine's client, from its first request. *)
Lemma follow_obeys `{UnicodeTables} `{UrlLib} id n first fuel body hops req ph :
  request_id first = Some id -> request_id req = Some id ->
  hops_left ph = S hops -> (hops <= 9)%nat ->
  obeys id n ph (follow fuel engine_client first body (10 - hops) req) (fun ph' r =>
    match r with
    | Ok a => redirects a = false /\ ph' = if acknowledges (Ok a) then Accepted else Refused
    | Err _ => unacknowledged ph'
    end).
Proof.
  intros Hfirst. revert body hops req ph. induction fuel as [|fuel IH]; intros body hops req ph Hreq Hph Hle;
    cbn [follow]; cbn [cl_trip engine_client perform bind obeys];
    (exists (after_answer hops); split; [by exists hops|]); unfold after_answer;
    (intros [a|e]; [|by left]); destruct (next_request first body req a) as [|e|r body'] eqn:En.
  all: try (apply next_request_Done in En; cbn [obeys moved]; rewrite En; by destruct (acknowledges (Ok a))).
  all: assert (Er : redirects a = true)
    by (destruct (redirects a) eqn:E; [done|apply (next_request_Done first body req) in E; congruence]).
  all: cbn [moved]; rewrite Er, redirects_not_acknowledged by done.
  all: try by right; eauto.
  all: cbn [cl_check engine_client]; unfold defaultCheckRedirect;
    destruct (Nat.leb_spec 10 (10 - hops)) as [|Hlt]; [right; eauto|].
  - right; eauto.
  - destruct hops as [|hops]; [lia|]. replace (S (10 - S hops)) with (10 - hops)%nat by lia.
    apply IH; [|done|lia]. unfold next_request in En. destruct (redirectBehavior _ _) as [[method keep]|]; [|done].
    case_bool_decide; [done|]. destruct (url_resolve _ _); [|done]. injection En as <- _. by rewrite request_id_hop.
Qed.

#[global] Instance engine_sender_spec `{UnicodeTables} `{UrlLib} e : SenderSpec (engine_sender e).
Proof.
  split. intros n m. unfold engine_sender, Engine_Send; cbn [snd_Send].
  destruct (json_message m) as [body|]; [|by left].
  destruct (new_request _ _ _) as [req|]; [|by left].
  eapply obeys_bind; [apply (follow_obeys (msg_ID m) n _ 10 true 9); [apply request_id_set..|done|lia]|].
  intros ph [a|err] Hr; cbn [obeys resp_Result]; [|done]. destruct Hr as [_ ->]. unfold response_of_status.
  cbn [acknowledges]. destruct ((200 <=? an_status a) && (an_status a <? 300)); cbn; [done|].
  unfold unsent, unacknowledged. split_ifs; cbn [resp_Result]; eauto.
Qed.

#[global] Instance dkim_signer_spec `{UnicodeTables} `{GoRuntime} `{DkimLib} k : SignerSpec (dkim_signer k).
Proof.
  split. intros id n key raw. unfold dkim_signer, Signer_Sign; cbn [ms_Sign]. case_bool_decide; [apply harmless_ret|].
  destruct (unwrapSigner _ _ _); [|apply harmless_ret]. intros ph. by exists (fun _ => ph).
Qed.

(** The worker as cmd/aiemail wires it. *)
Definition wired `{UnicodeTables} `{JsonErrors} `{Postgres} `{UrlLib} `{GoRuntime} `{DkimLib}
    (s : Store) (e : Engine) (k : Keeper) (secret url : gostring) (ceiling : Z) : Worker :=
  {| w_queue := store_queue s; w_sender := engine_sender e; w_keys := Some (store_keys s);
     w_signer := Some (dkim_signer k); w_events := Some (store_events s);
     w_suppressions := Some (store_suppressor s); w_unsubscribeSecret := secret;
     w_publicBaseURL := url; w_maxPerHour := ceiling |}.

#[global] Instance wired_spec `{UnicodeTables} `{JsonErrors} `{Postgres} `{UrlLib} `{GoRuntime} `{DkimLib}
    s e k secret url ceiling : WorkerSpec (wired s e k secret url ceiling).
Proof. split; cbn; try apply _; intros ? [= <-]; apply _. Qed.
