(* ===== verification/Hooks.v ===== *)
(** * Several dispatchers on one table of deliveries

    A step relation for the webhook half of the running deployment: any number of
    dispatchers claim batches of deliveries, each claimed delivery is a thread that
    runs [Dispatcher_deliver] one effect at a time, dispatchers die, and everything
    else queues new deliveries and writes around them.  Every request, the delivery it
    is made for and its answer are kept in a log. *)

From S2P Require Import Prelude Utf8 GoStrings Schema Program Netguard HttpClient WebhookSend.
From S2P Require Import StoreRecipients Reading StoreQueue StoreWebhooks Worker Background.
From stdpp Require Import relations.
Local Open Scope Z_scope.
Local Open Scope go_scope.

Record hook := Hook { hk_id : Z; hk_attempt : Z; hk_prog : prog () }.

Record hooks := Hooks { ho_world : world; ho_threads : list hook; ho_posted : list (Z * result http_answer) }.

(** The columns that decide about a delivery. *)
Definition dlife (r : delivery_row) : delivery_status * Z := (dl_status r, dl_attempts r).

Definition stage (db : DB) (id : Z) : option (delivery_status * Z) := dlife <$> webhook_deliveries db !! id.

(** The rest of the deployment queues deliveries and leaves the others' stage alone. *)
Definition hooks_env (db db' : DB) : Prop :=
  forall id, stage db' id = stage db id \/ (stage db id = None /\ stage db' id = Some (dl_pending, 0)).

Definition is_post {X : Set} (op : effect X) : bool := match op with RoundTrip _ _ => true | _ => false end.

(** The answer to log, when the effect was a request. *)
Definition answered {X : Set} (op : effect X) : X -> list (result http_answer) :=
  match op in effect X return X -> list (result http_answer) with
  | RoundTrip _ _ => fun a => [a]
  | _ => fun _ => []
  end.

(** ** Requests for one delivery *)

(** All of them, and those the client did not go on from. *)
Definition posts (log : list (Z * result http_answer)) (id : Z) : Z :=
  Z.of_nat (length (base.filter (fun x => x.1 = id) log)).

Definition concluded (log : list (Z * result http_answer)) (id : Z) : Z :=
  Z.of_nat (length (base.filter (fun x => x.1 = id /\ moved x.2 = false) log)).

Lemma posts_cons log id id' a :
  posts ((id', a) :: log) id = posts log id + (if decide (id' = id) then 1 else 0)
  /\ concluded ((id', a) :: log) id = concluded log id + (if decide (id' = id) then if moved a then 0 else 1 else 0).
Proof.
  unfold posts, concluded. rewrite !filter_cons. cbn [fst snd].
  destruct (moved a); repeat case_decide; cbn; (split; [lia|]); try lia; naive_solver.
Qed.

Lemma posts_nonneg log id : 0 <= posts log id.
Proof. unfold posts. lia. Qed.

(** ** The contract of a delivery *)

(** Not posted yet, redirected with [hops] requests left to make, answered otherwise
    or refused, and no longer in charge. *)
Inductive hphase := Unposted | Hopping (hops : nat) | Posted | Recorded.

#[global] Instance hphase_eq_dec : EqDecision hphase.
Proof. solve_decision. Defined.

Definition posts_left (ph : hphase) : nat := match ph with Unposted => 3 | Hopping hops => hops | _ => 0 end.

Definition hook_finishes {A} (id : Z) (st : delivery_status) (q : statement A) : Prop :=
  forall env db a db', q env db = Ok (a, db') -> forall id',
    stage db' id' = if decide (id' = id) then (fun x => (st, x.2)) <$> stage db id else stage db id'.

(** A claim of attempt [n] may end pending only while attempts are left. *)
Definition hook_ends (n : Z) (st : delivery_status) : Prop :=
  match st with dl_delivered | dl_failed => True | dl_pending => n < MaxWebhookTries | dl_delivering => False end.

Definition hook_allowed (id n : Z) (ph : hphase) {X : Set} (op : effect X) : (X -> hphase) -> Prop :=
  match op in effect X return (X -> hphase) -> Prop with
  | Stmt q => fun after =>
      ph <> Recorded /\ exists st, hook_ends n st /\ hook_finishes id st q /\ forall r, after r = Recorded
  | RoundTrip _ _ => fun after => exists hops,
      posts_left ph = S hops /\ forall x, after x = if moved x then Hopping hops else Posted
  | Now => fun after => forall x, after x = ph
  | LookupNetIP _ => fun after => forall x, after x = ph
  | _ => fun _ => False
  end.

Fixpoint hook_obeys (id n : Z) (ph : hphase) (p : prog ()) : Prop :=
  match p with
  | Ret _ => True
  | Do op k => exists after, hook_allowed id n ph op after /\ forall x, hook_obeys id n (after x) (k x)
  end.

Section Contract.
Context `{UnicodeTables} `{UrlLib} `{Postgres}.

Lemma stage_update id f db id' :
  stage (update_deliveries [id] f db) id'
  = if decide (id' = id) then (fun r => dlife (f r)) <$> webhook_deliveries db !! id else stage db id'.
Proof.
  unfold stage, update_deliveries. rewrite (proj1 (proj2 (set_deliveries_frame _ db))), map_lookup_imap.
  destruct (decide (id' = id)) as [->|Hne].
  - destruct (webhook_deliveries db !! id); [|done]. cbn. by rewrite bool_decide_eq_true_2 by (by left).
  - destruct (webhook_deliveries db !! id'); [|done]. cbn.
    rewrite bool_decide_eq_false_2; [done|]. by rewrite list_elem_of_singleton.
Qed.

(** A recording statement, guarded or not. *)
Lemma records_finishes id st next locked err (ok : bool) v :
  hook_finishes id st (fun _ db => ensure ok v (Ok (tt, update_deliveries [id]
    (fun r => with_delivery st (dl_attempts r) (next r) locked (err r) r) db))).
Proof.
  intros env db [] db' [_ [= <-]]%ensure_Ok id'. rewrite stage_update. case_decide; [|done].
  unfold stage. destruct (webhook_deliveries db !! id) as [[]|]; done.
Qed.

Lemma recording_obeys id n ph prefix (q : statement ()) st :
  ph <> Recorded -> hook_ends n st -> hook_finishes id st q ->
  hook_obeys id n ph (let! _ := exec_wrapped prefix q in Ret tt).
Proof. intros Hph Hst Hq. exists (fun _ => Recorded). split; [|done]. split; [done|]. by exists st. Qed.

(** What [record_result] does is one of the three endings. *)
Lemma record_result_obeys s item r ph :
  ph <> Recorded ->
  hook_obeys (pd_ID item) (pd_Attempts item) ph
    (record_result (NewDispatcher (store_webhooks s) webhook_sender) item r).
Proof.
  intros Hph. unfold record_result. destruct (res_Outcome r); [|destruct (Z.leb_spec MaxWebhookTries (pd_Attempts item))|].
  - eapply (recording_obeys _ _ _ _ _ dl_delivered); [done|done|].
    apply (records_finishes _ _ dl_next_attempt None dl_last_error true invalid_text).
  - eapply (recording_obeys _ _ _ _ _ dl_failed); [done|done|]. apply records_finishes with (next := dl_next_attempt).
  - exists (fun _ => ph). split; [done|]. intros now.
    eapply (recording_obeys _ _ _ _ _ dl_pending); [done|done|].
    apply (records_finishes _ _ (fun _ => timestamptz (now + Backoff (pd_Attempts item)))).
  - eapply (recording_obeys _ _ _ _ _ dl_failed); [done|done|]. apply records_finishes with (next := dl_next_attempt).
Qed.

Lemma hook_obeys_assoc {A B} id n ph (p : prog A) (f : A -> prog B) (k : B -> prog ()) :
  hook_obeys id n ph (bind p (fun x => bind (f x) k)) -> hook_obeys id n ph (bind (bind p f) k).
Proof.
  revert ph. induction p as [a|X op g IH]; cbn; intros ph; [done|].
  intros (after & Hop & Hk). exists after. eauto.
Qed.

(** One call of the guarded client, from its first request. *)
Lemma follow_hook_obeys id n first fuel body hops req ph k :
  posts_left ph = S hops -> (hops <= 2)%nat ->
  (forall ph' r, ph' <> Recorded -> hook_obeys id n ph' (k r)) ->
  hook_obeys id n ph (bind (follow fuel sender_client first body (3 - hops) req) k).
Proof.
  intros Hph Hle Hk. revert body hops req ph Hph Hle. induction fuel as [|fuel IH]; intros body hops req ph Hph Hle;
    cbn [follow]; cbn [cl_trip sender_client guarded_client guarded_trip bind hook_obeys];
    (assert (Hn : ph <> Recorded) by (by intros ->));
    (exists (fun _ => ph); split; [done|]); intros ips;
    (destruct (dial_address _ _) as [[ip|e]|]; cbn [bind perform hook_obeys]; [|by apply Hk|by apply Hk]);
    (exists (fun x => if moved x then Hopping hops else Posted); split; [by exists hops|]);
    (intros [a|e]; [|by apply Hk]); destruct (next_request first body req a) as [|e|r body'] eqn:En;
    try (cbn [bind]; apply Hk; by destruct (moved (Ok a))).
  all: assert (Er : redirects a = true)
    by (destruct (redirects a) eqn:E; [done|apply (next_request_Done first body req) in E; congruence]).
  all: cbn [moved]; rewrite Er; cbn [cl_check sender_client guarded_client]; unfold check_redirect;
    destruct (Nat.leb_spec 3 (3 - hops)) as [|Hlt]; [by apply Hk|];
    destruct (ValidateURL (hr_url r)); [|by apply Hk].
  - by apply Hk.
  - destruct hops as [|hops]; [lia|]. replace (S (3 - S hops)) with (3 - hops)%nat by lia.
    apply IH; [done|lia].
Qed.

Lemma deliver_hook_obeys s item :
  hook_obeys (pd_ID item) (pd_Attempts item) Unposted
    (Dispatcher_deliver (NewDispatcher (store_webhooks s) webhook_sender) item).
Proof.
  unfold Dispatcher_deliver. cbn [d_sender webhook_sender ws_Send]. unfold WebhookSend.Sender_Send.
  destruct (ValidateURL _); [|by apply record_result_obeys]. destruct (new_request _ _ _); [|by apply record_result_obeys].
  cbn [bind]. exists (fun _ => Unposted). split; [done|]. intros now. apply hook_obeys_assoc.
  apply (follow_hook_obeys _ _ _ _ _ 2); [done|lia|]. intros ph r Hph. by apply record_result_obeys.
Qed.

End Contract.

(** ** Steps *)

Section Hooks.
Context `{UnicodeTables} `{UrlLib} `{Postgres}.
Context (s : Store).

Definition dispatcher : Dispatcher := NewDispatcher (store_webhooks s) webhook_sender.

Definition hook_of (item : PendingDelivery) : hook :=
  Hook (pd_ID item) (pd_Attempts item) (Dispatcher_deliver dispatcher item).

Definition claimed_hooks (r : result (list PendingDelivery)) : list hook :=
  match r with Ok items => hook_of <$> items | Err _ => [] end.

Inductive hstep : hooks -> hooks -> Prop :=
  | hstep_claim e wd ts log r rest wd' :
      quiet e ->
      run (ClaimDeliveries s webhookBatch webhookLock) [e] wd = (r, (rest, wd')) ->
      hstep (Hooks wd ts log) (Hooks wd' (ts ++ claimed_hooks r) log)
  | hstep_thread (X : Set) (op : effect X) k e wd x wd' i id n ts log :
      quiet e -> ts !! i = Some (Hook id n (Do op k)) ->
      sem op e wd = (x, wd') ->
      hstep (Hooks wd ts log)
        (Hooks wd' (<[i := Hook id n (k x)]> ts) ((pair id <$> answered op x) ++ log))
  (** a dispatcher dies and this delivery is never taken further *)
  | hstep_crash i id n p wd ts log :
      ts !! i = Some (Hook id n p) ->
      hstep (Hooks wd ts log) (Hooks wd (<[i := Hook id n (Ret tt)]> ts) log)
  | hstep_env wd db' t reqs ts log :
      hooks_env (w_db wd) db' ->
      hstep (Hooks wd ts log) (Hooks (World db' t (w_requests wd ++ reqs)) ts log).

(** Before the first claim: what is queued has not been tried. *)
Definition hinitial (st : hooks) : Prop :=
  ho_threads st = [] /\ ho_posted st = []
  /\ forall id l, stage (w_db (ho_world st)) id = Some l -> l = (dl_pending, 0).

Definition hreachable (st : hooks) : Prop := exists st0, hinitial st0 /\ rtc hstep st0 st.

(** ** The invariant *)

(** What a thread in charge knows of its delivery. *)
Definition in_charge (db : DB) (log : list (Z * result http_answer)) (x : hook * hphase) : Prop :=
  x.2 <> Recorded ->
  stage db (hk_id x.1) = Some (dl_delivering, hk_attempt x.1)
  /\ (x.2 <> Posted -> posts log (hk_id x.1) + Z.of_nat (posts_left x.2) <= 3 * hk_attempt x.1
       /\ concluded log (hk_id x.1) < hk_attempt x.1).

Definition stage_ok (db : DB) (log : list (Z * result http_answer)) (id : Z) : Prop :=
  match stage db id with
  | None => posts log id = 0 /\ concluded log id = 0
  | Some (st, n) => posts log id <= 3 * n /\ concluded log id <= n <= MaxWebhookTries
      /\ (st = dl_pending -> n < MaxWebhookTries)
  end.

Record hgood (db : DB) (log : list (Z * result http_answer)) (l : list (hook * hphase)) : Prop := {
  hg_obeys : forall i x, l !! i = Some x -> hook_obeys (hk_id x.1) (hk_attempt x.1) x.2 (hk_prog x.1);
  hg_charge : forall i x, l !! i = Some x -> in_charge db log x;
  hg_alone : forall i j x y, l !! i = Some x -> l !! j = Some y ->
    x.2 <> Recorded -> y.2 <> Recorded -> hk_id x.1 = hk_id y.1 -> i = j;
  hg_stages : forall id, stage_ok db log id;
}.

Definition hinvariant (st : hooks) : Prop :=
  exists l, l.*1 = ho_threads st /\ hgood (w_db (ho_world st)) (ho_posted st) l.

(** Only the stages and the counts matter. *)
Lemma hgood_ext db db' log l : (forall id, stage db' id = stage db id) -> hgood db log l -> hgood db' log l.
Proof.
  intros Hst [Hob Hch Hal Hok]. split; [done| |done|].
  - intros i x Hx Hph. rewrite Hst. by eapply Hch.
  - intros id. unfold stage_ok. rewrite Hst. apply Hok.
Qed.

(** One thread moves on, staying or ceasing to be in charge, and the deliveries of
    the others keep their stage and count. *)
Lemma hgood_move db db' log log' l i id n p p' ph ph' :
  hgood db log l -> l !! i = Some (Hook id n p, ph) ->
  (ph' <> Recorded -> ph <> Recorded) ->
  hook_obeys id n ph' p' ->
  in_charge db' log' (Hook id n p', ph') ->
  (forall id', id' <> id -> stage db' id' = stage db id' /\ posts log' id' = posts log id'
     /\ concluded log' id' = concluded log id') ->
  stage_ok db' log' id ->
  (ph = Recorded -> (forall id', stage db' id' = stage db id') /\ log' = log) ->
  hgood db' log' (<[i := (Hook id n p', ph')]> l).
Proof.
  intros [Hob Hch Hal Hok] Hi Hph Hp' Hme Hne Hid Hrec.
  assert (Hcase : forall j x, <[i := (Hook id n p', ph')]> l !! j = Some x ->
    (j = i /\ x = (Hook id n p', ph')) \/ (j <> i /\ l !! j = Some x)).
  { intros j x [(-> & <- & _)|(Hji & Hx)]%list_lookup_insert_Some; auto. }
  split.
  - intros j x [[-> ->]|[_ Hx]]%Hcase; [done|by eapply Hob].
  - intros j x [[-> ->]|[Hji Hx]]%Hcase; [done|]. intros Hx2. specialize (Hch j x Hx Hx2).
    destruct (decide (ph = Recorded)) as [E|E].
    + destruct (Hrec E) as [Hst ->]. by rewrite Hst.
    + destruct (Hne (hk_id x.1)) as (-> & -> & ->); [|done]. intros Heq. apply Hji.
      symmetry. by eapply (Hal i j _ x Hi Hx E Hx2).
  - intros j k x y [[-> ->]|[Hji Hx]]%Hcase [[-> ->]|[Hki Hy]]%Hcase Hx2 Hy2 Heq; try done.
    + exfalso. apply Hki. symmetry. eapply (Hal i k _ y Hi Hy); [by apply Hph|done|done].
    + exfalso. apply Hji. eapply (Hal j i x _ Hx Hi); [done|by apply Hph|done].
    + by eapply Hal.
  - intros id'. destruct (decide (id' = id)) as [->|Hd]; [done|].
    destruct (Hne id' Hd) as (E1 & E2 & E3). unfold stage_ok. rewrite E1, E2, E3. apply Hok.
Qed.

(** Every effect of a thread keeps the invariant. *)
Lemma hgood_effect (X : Set) (op : effect X) k e wd x wd' i id n ph log l :
  quiet e -> sem op e wd = (x, wd') ->
  l !! i = Some (Hook id n (Do op k), ph) -> hgood (w_db wd) log l ->
  exists ph', hgood (w_db wd') ((pair id <$> answered op x) ++ log) (<[i := (Hook id n (k x), ph')]> l).
Proof.
  intros Hq Hsem Hi Hg. pose proof Hg as [Hob Hch _ Hok].
  destruct (Hob i _ Hi) as (after & Hop & Hk). cbn in Hop, Hk. specialize (Hk x). specialize (Hch i _ Hi).
  unfold in_charge in Hch; cbn in Hch. pose proof (Hok id) as Hid. exists (after x).
  assert (Hdb : w_db (arrive e wd) = w_db wd) by (cbn; apply Hq).
  unfold sem in Hsem. destruct op; cbn in Hop; try done; cbn [sem_at answered fmap list_fmap app] in *.
  - destruct Hop as (Hph & st & Hst & Hf & Ha). rewrite Ha in *. destruct (Hch Hph) as [Hmine Hlt].
    apply sem_stmt_cases in Hsem as [->|(a & db' & E & ->)].
    + rewrite Hdb. by eapply hgood_move.
    + rewrite Hdb in E. specialize (Hf _ _ _ _ E). cbn [w_db set_db].
      eapply hgood_move; try done.
      * intros id' Hne. rewrite Hf, decide_False by done. done.
      * unfold stage_ok in *. rewrite Hf, decide_True, Hmine by done. rewrite Hmine in Hid. cbn.
        destruct Hid as (Hb1 & Hb2 & _). split_and!; try lia. intros ->. exact Hst.
  - injection Hsem as <- <-. rewrite Hop in *. rewrite Hdb. by eapply hgood_move.
  - destruct Hop as (hops & Hph & Ha). rewrite Ha in *. injection Hsem as <- <-. cbn [w_db]. rewrite Hq.
    assert (ph <> Recorded /\ ph <> Posted) as [Hn1 Hn2] by (by split; intros ->).
    destruct (Hch Hn1) as [Hmine Hlt]. specialize (Hlt Hn2) as [Hl1 Hl2]. rewrite Hph in Hl1.
    destruct (posts_cons log id id (e_http e)) as [E1 E2]. rewrite decide_True in E1, E2 by done.
    eapply hgood_move; try done.
    + intros _. cbn. split; [done|]. intros Hnp. rewrite E1, E2. destruct (moved (e_http e)); [cbn|done]. lia.
    + intros id' Hne. destruct (posts_cons log id' id (e_http e)) as [-> ->].
      rewrite !decide_False by congruence. by rewrite !Z.add_0_r.
    + unfold stage_ok in *. rewrite Hmine in *. rewrite E1, E2. split_and!; [lia|destruct (moved _); lia|lia|done].
  - injection Hsem as <- <-. rewrite Hop in *. rewrite Hdb. by eapply hgood_move.
Qed.

(** ** Claiming *)

(** The rows a claim takes, each joined with its endpoint. *)
Definition taken_rows (env : stmt_env) (db : DB) : list (Z * delivery_row * endpoint_row) :=
  omap (joined db) (delivery_pick webhookBatch env db).

Definition item_of (x : Z * delivery_row * endpoint_row) : PendingDelivery :=
  let '(id, r, e) := x in
  {| pd_ID := id; pd_URL := ep_url e; pd_Secret := ep_secret e; pd_Payload := dl_payload r;
     pd_Attempts := dl_attempts r + 1 |}.

Lemma joined_row db x y : joined db x = Some y -> y.1 = x.
Proof. unfold joined. destruct (webhook_endpoints db !! _); [|done]. by intros [= <-]. Qed.

Lemma taken_rows_pending env db id r e :
  (id, r, e) ∈ taken_rows env db -> webhook_deliveries db !! id = Some r /\ dl_status r = dl_pending.
Proof.
  intros ([id' r'] & Hin & Hj)%list_elem_of_omap. apply joined_row in Hj. cbn in Hj. simplify_eq.
  apply elem_of_take in Hin as (i & Hi & _). apply list_elem_of_lookup_2 in Hi. rewrite order_by_perm in Hi.
  apply list_elem_of_filter in Hi as [Hd Hr%elem_of_rows]. split; [done|].
  cbn in Hd. unfold delivery_due in Hd. revert Hd. boolify. tauto.
Qed.

Lemma taken_rows_distinct env db : NoDup (taken_rows env db).*1.*1.
Proof.
  assert (forall l, (omap (joined db) l).*1 `sublist_of` l) as Hj.
  { induction l as [|x l IH]; [constructor|]. cbn. destruct (joined db x) eqn:E.
    - apply joined_row in E. cbn. rewrite E. by apply sublist_skip.
    - by apply sublist_cons. }
  eapply sublist_NoDup; [|apply fmap_sublist, Hj]. unfold delivery_pick.
  rewrite fmap_take. eapply sublist_NoDup; [|apply sublist_take]. rewrite order_by_perm.
  eapply sublist_NoDup; [apply (NoDup_rows (webhook_deliveries db))|]. apply fmap_sublist, sublist_filter.
Qed.

Lemma claim_hooks_run e wd r rest wd' :
  run (ClaimDeliveries s webhookBatch webhookLock) [e] wd = (r, (rest, wd')) ->
  let picked := taken_rows (env_of e (arrive e wd)) (w_db (arrive e wd)) in
  let after := update_deliveries picked.*1.*1 (claim_delivery (w_clock (arrive e wd)) webhookLock) (w_db (arrive e wd)) in
  match r with
  | Ok items => items ≡ₚ item_of <$> picked /\ w_db wd' = after
  | Err _ => w_db wd' = w_db (arrive e wd) \/ w_db wd' = after
  end.
Proof.
  unfold ClaimDeliveries, exec_wrapped. cbn [run pop]. unfold sem, sem_at, sem_stmt. fold (taken_rows (env_of e (arrive e wd)) (w_db (arrive e wd))).
  destruct (e_fault e); cbn; intros [= <- <- <-]; [|by left|by right].
  split; [|done]. rewrite returning_perm. done.
Qed.

Lemma stage_claimed ids now lockFor db id :
  stage (update_deliveries ids (claim_delivery now lockFor) db) id
  = if decide (id ∈ ids) then (fun x => (dl_delivering, x.2 + 1)) <$> stage db id else stage db id.
Proof.
  unfold stage, update_deliveries. rewrite (proj1 (proj2 (set_deliveries_frame _ db))), map_lookup_imap.
  destruct (webhook_deliveries db !! id) as [[]|]; cbn; [|by case_decide].
  case_decide as Hin; [by rewrite bool_decide_eq_true_2|by rewrite bool_decide_eq_false_2].
Qed.

(** Pending rows move to 'delivering'; [new] are threads in charge of some of them. *)
Lemma hgood_claimed db log l ids now lockFor new :
  hgood db log l ->
  (forall id, id ∈ ids -> exists n, stage db id = Some (dl_pending, n)) ->
  NoDup (hk_id <$> new) ->
  (forall t, t ∈ new -> hk_id t ∈ ids /\ (exists st, stage db (hk_id t) = Some (st, hk_attempt t - 1))
     /\ hook_obeys (hk_id t) (hk_attempt t) Unposted (hk_prog t)) ->
  hgood (update_deliveries ids (claim_delivery now lockFor) db) log (l ++ ((fun t => (t, Unposted)) <$> new)).
Proof.
  intros [Hob Hch Hal Hok] Hids Hnd Hnew.
  assert (Hcase : forall i x, (l ++ ((fun t => (t, Unposted)) <$> new)) !! i = Some x ->
    l !! i = Some x \/ exists j t, i = (length l + j)%nat /\ new !! j = Some t /\ x = (t, Unposted)).
  { intros i x [Hx|[Hle Hx]]%lookup_app_Some; [by left|right]. rewrite list_lookup_fmap in Hx.
    destruct (new !! (i - length l)%nat) as [t|] eqn:E; [|done]. injection Hx as <-.
    exists (i - length l)%nat, t. split_and!; [lia|done|done]. }
  assert (Hnot : forall i x, l !! i = Some x -> x.2 <> Recorded -> hk_id x.1 ∉ ids).
  { intros i x Hx Hph (n & Hn)%Hids. destruct (Hch i x Hx Hph) as [Hd _]. congruence. }
  split.
  - intros i x [Hx|(j & t & -> & Ht & ->)]%Hcase; [by eapply Hob|].
    apply Hnew. by eapply list_elem_of_lookup_2.
  - intros i x [Hx|(j & t & -> & Ht & ->)]%Hcase Hph.
    + rewrite stage_claimed, decide_False by (by eapply Hnot). by eapply Hch.
    + apply list_elem_of_lookup_2, Hnew in Ht as (Hin & (st & Hst) & _). cbn [fst].
      rewrite stage_claimed, decide_True, Hst by done. cbn. split; [repeat f_equal; lia|]. intros _.
      destruct (Hids _ Hin) as [n Hn]. specialize (Hok (hk_id t)). unfold stage_ok in Hok. rewrite Hst in Hok.
      cbn. lia.
  - intros i j x y [Hx|(i' & t & -> & Ht & ->)]%Hcase [Hy|(j' & u & -> & Hu & ->)]%Hcase Hx2 Hy2 Heq.
    + by eapply Hal.
    + exfalso. apply (Hnot i x Hx Hx2). rewrite Heq. apply list_elem_of_lookup_2, Hnew in Hu. tauto.
    + exfalso. apply (Hnot j y Hy Hy2). rewrite <- Heq. apply list_elem_of_lookup_2, Hnew in Ht. tauto.
    + f_equal. eapply (NoDup_lookup (hk_id <$> new)); [done|rewrite list_lookup_fmap, Ht; done|].
      rewrite list_lookup_fmap, Hu. cbn in *. by rewrite Heq.
  - intros id. specialize (Hok id). unfold stage_ok in *. rewrite stage_claimed.
    case_decide as Hin; [|done]. destruct (Hids id Hin) as [n Hn]. rewrite Hn in *. cbn.
    destruct Hok as (Hb1 & Hb2 & Hm). specialize (Hm eq_refl). split_and!; try done; lia.
Qed.

Lemma hgood_claim e wd r rest wd' log l :
  quiet e -> run (ClaimDeliveries s webhookBatch webhookLock) [e] wd = (r, (rest, wd')) -> hgood (w_db wd) log l ->
  hgood (w_db wd') log (l ++ ((fun t => (t, Unposted)) <$> claimed_hooks r)).
Proof.
  intros Hq Hrun%claim_hooks_run Hg. cbn zeta in Hrun.
  assert (Hdb : w_db (arrive e wd) = w_db wd) by (cbn; apply Hq). rewrite Hdb in Hrun.
  set (picked := taken_rows _ _) in Hrun.
  assert (Hids : forall id, id ∈ picked.*1.*1 -> exists n, stage (w_db wd) id = Some (dl_pending, n)).
  { intros id (y & -> & ([[id' row] ep] & -> & Hin)%list_elem_of_fmap)%list_elem_of_fmap.
    apply taken_rows_pending in Hin as [Hr Hp]. exists (dl_attempts row). unfold stage, dlife. cbn.
    by rewrite Hr; cbn; rewrite Hp. }
  destruct r as [items|err].
  - destruct Hrun as [Hp ->]. apply hgood_claimed; [done|done|..].
    + cbn [claimed_hooks]. rewrite <- list_fmap_compose. change (NoDup (pd_ID <$> items)). rewrite Hp, <- list_fmap_compose.
      rewrite (list_fmap_ext _ (fun x => x.1.1)) by (by intros ? [[id' row] ep] _).
      change (NoDup (fst ∘ fst <$> picked)). rewrite list_fmap_compose. apply taken_rows_distinct.
    + intros t (item & -> & Hin)%list_elem_of_fmap. rewrite Hp in Hin.
      apply list_elem_of_fmap in Hin as ([[id row] ep] & -> & Hin). cbn. split_and!.
      * apply list_elem_of_fmap. exists (id, row). split; [done|]. apply list_elem_of_fmap. by exists (id, row, ep).
      * apply taken_rows_pending in Hin as [Hr _]. exists (dl_status row). unfold stage, dlife. rewrite Hr. cbn.
        repeat f_equal; lia.
      * apply (deliver_hook_obeys s (item_of (id, row, ep))).
  - cbn. rewrite app_nil_r. destruct Hrun as [-> | ->]; [done|].
    rewrite <- (app_nil_r l). apply (hgood_claimed _ _ _ _ _ _ []); [done|done|constructor|]. by intros t ?%elem_of_nil.
Qed.

Lemma hgood_env db db' log l : hooks_env db db' -> hgood db log l -> hgood db' log l.
Proof.
  intros He [Hob Hch Hal Hok]. split; [done| |done|].
  - intros i x Hx Hph. destruct (Hch i x Hx Hph) as [Hst Hlt]. destruct (He (hk_id x.1)) as [->|[Hn _]]; [done|congruence].
  - intros id. specialize (Hok id). unfold stage_ok in *. destruct (He id) as [->|[Hn ->]]; [done|].
    rewrite Hn in Hok. destruct Hok as [-> ->]. unfold MaxWebhookTries. lia.
Qed.

(** ** Every reachable state is good *)

Lemma hstep_invariant st st' : hstep st st' -> hinvariant st -> hinvariant st'.
Proof.
  intros Hstep (l & Hl & Hg). destruct Hstep as
    [e wd ts log r rest wd' Hq Hrun|X op k e wd x wd' i id n ts log Hq Hi Hsem|i id n p wd ts log Hi|wd db' t reqs ts log He];
    cbn [ho_world ho_threads ho_posted w_db] in *; subst ts.
  - exists (l ++ ((fun t => (t, Unposted)) <$> claimed_hooks r)). split; [|by eapply hgood_claim].
    cbn. rewrite fmap_app, <- list_fmap_compose. f_equal. cbn. apply list_fmap_id.
  - rewrite list_lookup_fmap in Hi. destruct (l !! i) as [[h ph]|] eqn:Hli; [|done]. cbn in Hi. injection Hi as ->.
    destruct (hgood_effect X op k e wd x wd' i id n ph log l Hq Hsem Hli Hg) as [ph' Hg'].
    exists (<[i := (Hook id n (k x), ph')]> l). split; [by rewrite list_fmap_insert|done].
  - rewrite list_lookup_fmap in Hi. destruct (l !! i) as [[h ph]|] eqn:Hli; [|done]. cbn in Hi. injection Hi as ->.
    exists (<[i := (Hook id n (Ret tt), Recorded)]> l). split; [by rewrite list_fmap_insert|].
    eapply hgood_move; try done. apply Hg.
  - exists l. split; [done|]. by eapply hgood_env.
Qed.

Lemma hreachable_invariant st : hreachable st -> hinvariant st.
Proof.
  intros (st0 & (Ht & Hp & Hs) & Hsteps).
  assert (hinvariant st0) as Hi.
  { exists []. rewrite Ht, Hp. split; [done|]. split; try (intros; done).
    intros id. unfold stage_ok. destruct (stage _ id) as [[st' n]|] eqn:E; [|done].
    apply Hs in E as [= -> ->]. unfold posts, concluded, MaxWebhookTries. cbn. lia. }
  clear Ht Hp Hs. induction Hsteps as [|st1 st2 st3 Hst _ IH]; [done|]. by eapply IH, hstep_invariant.
Qed.

(** ** Properties *)

Definition about_to_post (h : hook) : bool := match hk_prog h with Do op _ => is_post op | Ret _ => false end.

(** C11: However many dispatchers run, fail or die, at most three requests are made
    for a delivery in each recorded attempt, the redirects followed included, and at
    most one of them per attempt has an answer other than a redirect; there are at most
    eight attempts, so twenty-four requests and eight such answers in all.  No two
    dispatchers are ever about to make a request for the same delivery. *)
Theorem posts_bounded st :
  hreachable st ->
  (forall id r, webhook_deliveries (w_db (ho_world st)) !! id = Some r ->
     posts (ho_posted st) id <= 3 * dl_attempts r
     /\ concluded (ho_posted st) id <= dl_attempts r <= MaxWebhookTries)
  /\ (forall i j h h', ho_threads st !! i = Some h -> ho_threads st !! j = Some h' ->
     about_to_post h = true -> about_to_post h' = true -> hk_id h = hk_id h' -> i = j).
Proof.
  intros (l & Hl & [Hob Hch Hal Hok])%hreachable_invariant. split.
  - intros id r Hr. specialize (Hok id). unfold stage_ok, stage in Hok. rewrite Hr in Hok. cbn in Hok. tauto.
  - rewrite <- Hl. intros i j h h' Hi Hj Hp Hp' Heq. rewrite list_lookup_fmap in Hi, Hj.
    assert (Hun : forall i h, fst <$> l !! i = Some h -> about_to_post h = true ->
      exists ph, l !! i = Some (h, ph) /\ ph <> Recorded).
    { clear -Hob. intros i h Hi Hp. destruct (l !! i) as [[h0 ph]|] eqn:E; [|done]. injection Hi as ->.
      exists ph. split; [done|]. specialize (Hob i _ E). cbn in Hob. unfold about_to_post in Hp.
      destruct (hk_prog h) as [|X op k]; [done|]. destruct Hob as (after & Hop & _).
      destruct op; try done. cbn in Hop. destruct Hop as (hops & Hl & _). by intros ->. }
    destruct (Hun i h Hi Hp) as (ph & Hli & Hph), (Hun j h' Hj Hp') as (ph' & Hlj & Hph').
    by eapply (Hal i j).
Qed.

(** Nobody is working on it. *)
Definition abandoned (id : Z) (ts : list hook) : Prop :=
  forall i h, ts !! i = Some h -> hk_id h = id -> hk_prog h = Ret tt.

Definition at_rest (id : Z) (l : delivery_status) (ts : list hook) : Prop :=
  l = dl_delivered \/ l = dl_failed \/ (l = dl_delivering /\ abandoned id ts).

(** A thread's effect leaves such a delivery alone. *)
Lemma effect_frame (X : Set) (op : effect X) k e wd x wd' id1 n1 ph log id l n :
  quiet e -> sem op e wd = (x, wd') ->
  hook_obeys id1 n1 ph (Do op k) -> in_charge (w_db wd) log (Hook id1 n1 (Do op k), ph) ->
  stage (w_db wd) id = Some (l, n) -> (id1 = id -> l <> dl_delivering) ->
  stage (w_db wd') id = Some (l, n) /\ (answered op x <> [] -> id1 <> id).
Proof.
  intros Hq Hsem (after & Hop & _) Hch Hst Hid. unfold in_charge in Hch; cbn in Hch.
  assert (Hdb : w_db (arrive e wd) = w_db wd) by (cbn; apply Hq).
  assert (Hne : ph <> Recorded -> id1 <> id).
  { intros Hph ->. destruct (Hch Hph) as [Hd _]. rewrite Hst in Hd. injection Hd as -> _. by apply Hid. }
  unfold sem in Hsem. destruct op; cbn in Hop; try done; cbn [sem_at answered] in *.
  - destruct Hop as (Hph & st & _ & Hf & _). split; [|done].
    apply sem_stmt_cases in Hsem as [->|(a & db' & E & ->)]; [by rewrite Hdb|]. rewrite Hdb in E. cbn [w_db set_db].
    rewrite (Hf _ _ _ _ E), decide_False; [done|]. intros ->. by apply Hne.
  - injection Hsem as _ <-. by rewrite Hdb.
  - injection Hsem as _ <-. cbn [w_db]. rewrite Hq. split; [done|]. intros _. apply Hne.
    destruct Hop as (hops & Hl & _). by intros ->.
  - injection Hsem as _ <-. by rewrite Hdb.
Qed.

Lemma at_rest_step st st' id l n :
  hinvariant st -> hstep st st' -> stage (w_db (ho_world st)) id = Some (l, n) -> at_rest id l (ho_threads st) ->
  stage (w_db (ho_world st')) id = Some (l, n) /\ posts (ho_posted st') id = posts (ho_posted st) id
  /\ at_rest id l (ho_threads st').
Proof.
  intros (gl & Hl & Hg) Hstep Hst Hrest. assert (Hnp : l <> dl_pending) by (by destruct Hrest as [->|[->|[-> _]]]).
  destruct Hstep as
    [e wd ts log r rest wd' Hq Hrun|X op k e wd x wd' i id' m ts log Hq Hi Hsem|i id' m p wd ts log Hi|wd db' t reqs ts log He];
    cbn [ho_world ho_threads ho_posted w_db] in *.
  - apply claim_hooks_run in Hrun. cbn zeta in Hrun.
    assert (Hdb : w_db (arrive e wd) = w_db wd) by (cbn; apply Hq). rewrite Hdb in Hrun.
    set (picked := taken_rows _ _) in Hrun.
    assert (Hni : id ∉ picked.*1.*1).
    { intros (y & -> & ([[id' row] ep] & -> & Hin)%list_elem_of_fmap)%list_elem_of_fmap.
      apply taken_rows_pending in Hin as [Hr Hp]. cbn in Hst. unfold stage, dlife in Hst. rewrite Hr in Hst.
      cbn in Hst. congruence. }
    assert (Hst' : stage (w_db wd') id = Some (l, n)).
    { destruct r; [destruct Hrun as [_ ->]|destruct Hrun as [-> | ->]]; [|done|];
        by rewrite stage_claimed, decide_False. }
    split_and!; [done|done|]. destruct Hrest as [?|[?|[-> Ha]]]; [by left|by right; left|right; right].
    split; [done|]. intros i h [Hh|[_ Hh]]%lookup_app_Some Hid; [by eapply Ha|]. exfalso. apply Hni.
    destruct r as [items|]; [|done]. destruct Hrun as [Hp _]. apply list_elem_of_lookup_2 in Hh.
    apply list_elem_of_fmap in Hh as (item & -> & Hin). rewrite Hp in Hin.
    apply list_elem_of_fmap in Hin as ([[id' row] ep] & -> & Hin). cbn in Hid. subst id'.
    apply list_elem_of_fmap. exists (id, row). split; [done|]. apply list_elem_of_fmap. by exists (id, row, ep).
  - subst ts. rewrite list_lookup_fmap in Hi. destruct (gl !! i) as [[h ph]|] eqn:Hli; [|done]. cbn in Hi. injection Hi as ->.
    destruct Hg as [Hob Hch _ _]. specialize (Hob i _ Hli). specialize (Hch i _ Hli). cbn in Hob.
    assert (Hab : l = dl_delivering -> id' <> id).
    { intros -> ->. destruct Hrest as [?|[?|[_ Ha]]]; [done..|].
      assert (Hk : hk_prog (Hook id m (Do op k)) = Ret tt); [|discriminate Hk].
      apply (Ha i); [|done]. by rewrite list_lookup_fmap, Hli. }
    destruct (effect_frame X op k e wd x wd' id' m ph log id l n Hq Hsem Hob Hch Hst) as [Hst' Hpo]; [by intros <- ->; apply Hab|].
    split_and!; [done| |].
    + destruct op; try done; cbn [answered fmap list_fmap app]. rewrite (proj1 (posts_cons _ _ _ _)), decide_False by auto. lia.
    + destruct Hrest as [?|[?|[-> Ha]]]; [by left|by right; left|right; right]. split; [done|].
      intros j h [(-> & <- & _)|[_ Hh]]%list_lookup_insert_Some Hid; [by apply Hab in Hid|by eapply Ha].
  - split_and!; [done|done|]. destruct Hrest as [?|[?|[-> Ha]]]; [by left|by right; left|right; right]. split; [done|].
    intros j h [(-> & <- & _)|[_ Hh]]%list_lookup_insert_Some Hid; [done|by eapply Ha].
  - split_and!; [|done|done]. destruct (He id) as [->|[Hn _]]; [done|congruence].
Qed.

(** C22: What is settled stays settled.  A delivery recorded as delivered or failed is
    never posted again and never changes, whatever happens later; and neither is one
    left 'delivering' by a dispatcher that died: the lock it carries expires, but no
    claim looks at it. *)
Theorem delivery_at_rest st st' id l n :
  hreachable st -> stage (w_db (ho_world st)) id = Some (l, n) -> at_rest id l (ho_threads st) ->
  rtc hstep st st' ->
  stage (w_db (ho_world st')) id = Some (l, n) /\ posts (ho_posted st') id = posts (ho_posted st) id.
Proof.
  intros Hr%hreachable_invariant Hst Hrest Hsteps. revert Hr Hst Hrest.
  induction Hsteps as [st|st1 st2 st3 Hstep _ IH]; intros Hi Hst Hrest; [done|].
  destruct (at_rest_step st1 st2 id l n Hi Hstep Hst Hrest) as (Hst2 & Hp & Hrest2).
  rewrite <- Hp. apply IH; [by eapply hstep_invariant|done|done].
Qed.

End Hooks.

(** ** Two dispatchers and one delivery *)

#[local] Existing Instances ascii_tables plain_url_lib plain_postgres.

(** The next steps of a schedule. *)
Definition claim_now (st : hooks) : hooks :=
  let '(r, (_, wd')) := run (ClaimDeliveries clear_store webhookBatch webhookLock) [calm] (ho_world st) in
  Hooks wd' (ho_threads st ++ claimed_hooks clear_store r) (ho_posted st).

Definition advance (e : env) (i : nat) (st : hooks) : hooks :=
  match ho_threads st !! i with
  | Some (Hook id n (Do op k)) =>
      let '(x, wd') := sem op e (ho_world st) in
      Hooks wd' (<[i := Hook id n (k x)]> (ho_threads st)) ((pair id <$> answered op x) ++ ho_posted st)
  | _ => st
  end.

Definition kill (i : nat) (st : hooks) : hooks :=
  match ho_threads st !! i with
  | Some (Hook id n _) => Hooks (ho_world st) (<[i := Hook id n (Ret tt)]> (ho_threads st)) (ho_posted st)
  | None => st
  end.

Lemma claim_now_step st : rtc (hstep clear_store) st (claim_now st).
Proof.
  destruct st as [wd ts log]. unfold claim_now. cbn [ho_world ho_threads ho_posted].
  destruct (run _ [calm] wd) as [r [rest wd']] eqn:E. apply rtc_once. by eapply hstep_claim; [|exact E].
Qed.

Lemma advance_step e i st : quiet e -> rtc (hstep clear_store) st (advance e i st).
Proof.
  intros Hq. destruct st as [wd ts log]. unfold advance. cbn [ho_world ho_threads ho_posted].
  destruct (ts !! i) as [[id n [|X op k]]|] eqn:Hi; [done| |done].
  destruct (sem op e wd) as [x wd'] eqn:E. apply rtc_once. by eapply hstep_thread; [|exact Hi|exact E].
Qed.

Lemma kill_step i st : rtc (hstep clear_store) st (kill i st).
Proof.
  destruct st as [wd ts log]. unfold kill. cbn [ho_world ho_threads ho_posted].
  destruct (ts !! i) as [[id n p]|] eqn:Hi; [|done]. apply rtc_once. by eapply hstep_crash.
Qed.

Definition queued_delivery : hooks :=
  Hooks (World (set_deliveries (fun _ => {[ 1 := DeliveryRec 1 (str "m1:email.sent:1") (str "m1") (str "{}")
                                                   dl_pending 0 0 None None 0 ]}) (w_db hooked_world)) 1000 []) [] [].

Lemma queued_delivery_initial : hinitial queued_delivery.
Proof.
  split_and!; [done|done|]. intros id l. unfold stage. cbn. intros Hl.
  destruct (decide (id = 1)) as [->|Hne]; [by rewrite lookup_singleton_eq in Hl; injection Hl as <-|].
  by rewrite lookup_singleton_ne in Hl.
Qed.

(** The endpoint has moved. *)
Definition moving : env :=
  {| e_others := id; e_delay := 0; e_fault := NoFault; e_begin := None; e_tx_faults := [];
     e_locked_message := fun _ => false; e_locked_delivery := fun _ => false;
     e_entropy := Ok []; e_http := Ok (Answer 307 (str "z.io")); e_stale := 0; e_dns := NotFound;
     e_ips := e_ips calm |}.

(** Both dispatchers claim, one gets the delivery, posts it and follows the redirect:
    the clock, then a lookup and a request for each destination. *)
Definition posted_once : hooks :=
  advance calm 0 (advance calm 0 (advance moving 0 (advance calm 0 (advance calm 0
    (claim_now (claim_now queued_delivery)))))).

Lemma posted_once_reached : hreachable clear_store posted_once.
Proof.
  exists queued_delivery. split; [apply queued_delivery_initial|]. unfold posted_once.
  repeat (etrans; [|by apply advance_step || apply claim_now_step]). done.
Qed.

Lemma posts_bounded_witness :
  exists r, webhook_deliveries (w_db (ho_world posted_once)) !! 1 = Some r
    /\ posts (ho_posted posted_once) 1 = 2 /\ dl_attempts r = 1 /\ 2 <= 3 * dl_attempts r
    /\ concluded (ho_posted posted_once) 1 <= dl_attempts r <= MaxWebhookTries.
Proof.
  destruct (posts_bounded clear_store posted_once posted_once_reached) as [Hb _].
  eexists. split; [vm_compute; reflexivity|]. split; [vm_compute; reflexivity|]. split; [reflexivity|].
  exact (Hb 1 _ ltac:(vm_compute; reflexivity)).
Defined.

(** The dispatcher dies before it records; the lock has expired an hour later. *)
Definition left_behind : hooks := kill 0 posted_once.

Definition hour_later : hooks :=
  claim_now (Hooks (World (w_db (ho_world left_behind)) Hour (w_requests (ho_world left_behind) ++ []))
               (ho_threads left_behind) (ho_posted left_behind)).

Lemma delivery_at_rest_witness :
  stage (w_db (ho_world hour_later)) 1 = Some (dl_delivering, 1) /\ posts (ho_posted hour_later) 1 = 2.
Proof.
  destruct (delivery_at_rest clear_store left_behind hour_later 1 dl_delivering 1) as [Hs Hp].
  - destruct posted_once_reached as (st0 & Hi & Hsteps). exists st0. split; [exact Hi|].
    etrans; [exact Hsteps|apply kill_step].
  - vm_compute. reflexivity.
  - right. right. split; [reflexivity|]. intros [|i] h Hh _; [|discriminate Hh].
    vm_compute in Hh. injection Hh as <-. reflexivity.
  - etrans; [|apply claim_now_step]. apply rtc_once. destruct left_behind as [wd ts log]. apply hstep_env.
    intros id. by left.
  - split; [exact Hs|]. rewrite Hp. vm_compute. reflexivity.
Defined.
