(* ===== verification/Ceiling.v ===== *)
(** * The hourly ceiling over a worker's whole life

    A tick compares the sends of the last hour with the ceiling once and then
    delivers a batch.  Here that is followed through [Run]: a program is given the
    number of sends it can record ([logs]), the recorded times are a list that only
    grows, and every hour of that list, wherever it starts, stays under the ceiling
    plus what one batch can add. *)

From S2P Require Import Prelude Utf8 GoStrings Crypto Schema Program Mail Dkim Netguard HttpClient Delivery.
From S2P Require Import StoreRecipients StoreQueue StoreWebhooks StoreKeys Worker Background Protocol.
Local Open Scope Z_scope.
Local Open Scope go_scope.

(** When the sends of the event table took place. *)
Definition sent_times (db : DB) : list Z :=
  (fun x : Z * event_row => ev_occurred_at x.2) <$>
    base.filter (fun x => ev_type x.2 = str "email.sent") (rows (message_events db)).

(** Those of the hour that ends at [t]. *)
Definition in_hour (t : Z) (times : list Z) : nat := length (base.filter (fun o => t - Hour < o <= t) times).

Definition sent_in_hour (t : Z) (db : DB) : nat := in_hour t (sent_times db).

(** [after] has at most [n] times more than [before], taken from [now] to [now']. *)
Definition logged (n : nat) (now now' : Z) (before after : list Z) : Prop :=
  exists new, after ≡ₚ new ++ before /\ (length new <= n)%nat /\ Forall (fun o => now <= o <= now') new.

Definition stmt_logs {A} (n : nat) (q : statement A) : Prop :=
  forall env db a db', q env db = Ok (a, db') ->
    logged n (se_now env) (se_now env) (sent_times db) (sent_times db').

Definition op_logs {X : Set} (n : nat) (op : effect X) : Prop :=
  match op with Stmt q => stmt_logs n q | Transact _ _ => False | _ => True end.

(** The program records at most [n] sends. *)
Fixpoint logs {A} (n : nat) (p : prog A) : Prop :=
  match p with
  | Ret _ => True
  | Do op k => exists c m, (c + m <= n)%nat /\ op_logs c op /\ forall x, logs m (k x)
  end.

(** Every hour, past or current, has less than [n] sends. *)
Definition every_hour_below (n : Z) (db : DB) : Prop := forall t, Z.of_nat (sent_in_hour t db) < n.

(** Nobody else records a send. *)
Definition sole_sender (e : env) : Prop := forall db, sent_times (e_others e db) ≡ₚ sent_times db.

(** ** Counting *)

Lemma logged_refl now now' l l' : l' ≡ₚ l -> logged 0 now now' l l'.
Proof. intros E. by exists []. Qed.

Lemma widen a a' b b' (l : list Z) :
  Forall (fun o => a <= o <= b) l -> a' <= a -> b <= b' -> Forall (fun o => a' <= o <= b') l.
Proof. intros Hl ??. eapply Forall_impl; [|exact Hl]. cbn. lia. Qed.

Lemma logged_trans n m t1 t2 t3 l1 l2 l3 :
  t1 <= t2 <= t3 -> logged n t1 t2 l1 l2 -> logged m t2 t3 l2 l3 -> logged (n + m) t1 t3 l1 l3.
Proof.
  intros Ht (new & E & Hn & Hnew) (new' & E' & Hn' & Hnew'). exists (new' ++ new).
  split; [by rewrite E', E, app_assoc|]. split; [rewrite length_app; lia|].
  apply Forall_app. split; eapply widen; [exact Hnew'| | |exact Hnew| |]; lia.
Qed.

Lemma logged_weaken n m t1 t1' t2 t2' l l' :
  logged n t1 t2 l l' -> (n <= m)%nat -> t1' <= t1 -> t2 <= t2' -> logged m t1' t2' l l'.
Proof.
  intros (new & E & Hn & Hnew) ???. exists new. split; [done|]. split; [lia|]. by eapply widen.
Qed.

Lemma sem_clock_le {X : Set} (op : effect X) e wd : w_clock wd <= w_clock (arrive e wd) <= w_clock (sem op e wd).2.
Proof.
  unfold sem. cbn. split; [lia|]. destruct op as [| | | | | | |d]; cbn; try lia; [| |pose proof (slept_nonneg e d); lia].
  - unfold sem_stmt. destruct (e_fault e); cbn; try lia; destruct (q _ _) as [[]|]; cbn; lia.
  - unfold sem_transact. destruct (e_begin e); cbn; [lia|]. destruct (body _) as [[]]; cbn; [|lia].
    destruct (e_fault e); cbn; lia.
Qed.

Lemma sem_logs {X : Set} n (op : effect X) e wd :
  op_logs n op -> sole_sender e ->
  logged n (w_clock (arrive e wd)) (w_clock (sem op e wd).2)
    (sent_times (w_db wd)) (sent_times (w_db (sem op e wd).2)).
Proof.
  intros Hop He. specialize (He (w_db wd)).
  assert (Hnone : forall t t', logged n t t' (sent_times (w_db wd)) (sent_times (e_others e (w_db wd)))).
  { intros t t'. eapply logged_weaken; [by apply (logged_refl t t')|lia..]. }
  unfold sem. destruct op; cbn in *; try done; try apply Hnone.
  unfold sem_stmt. destruct (e_fault e); cbn; try apply Hnone;
    (destruct (q _ _) as [[a db']|] eqn:E; cbn; [|apply Hnone]; apply Hop in E as (new & E & Hn & Hnew);
     exists new; split; [by rewrite E, <- He|done]).
Qed.

Lemma run_logs {A} n (p : prog A) script wd :
  logs n p -> Forall sole_sender script ->
  let wd' := world_of (run p script wd) in
  w_clock wd <= w_clock wd' /\ logged n (w_clock wd) (w_clock wd') (sent_times (w_db wd)) (sent_times (w_db wd'))
  /\ Forall sole_sender (run p script wd).2.1.
Proof.
  cbn zeta. unfold world_of. revert n script wd.
  induction p as [a|X op k IH]; intros n script wd Hp Hs.
  { cbn. split; [lia|]. split; [|done]. eapply logged_weaken; [by apply (logged_refl (w_clock wd) (w_clock wd))|lia..]. }
  destruct Hp as (c & m & Hcm & Hop & Hk). cbn [run].
  assert (sole_sender (pop script).1 /\ Forall sole_sender (pop script).2) as [He Hs'].
  { destruct Hs as [|e rest He Hs]; [|done]. by split; [intros db|]. }
  destruct (pop script) as [e rest]. cbn [fst snd] in *.
  pose proof (sem_logs c op e wd Hop He) as Hl. pose proof (sem_clock_le op e wd) as Hc.
  destruct (sem op e wd) as [x wd1]. cbn [snd] in *.
  destruct (IH x m rest wd1 (Hk x) Hs') as (Hc' & Hl' & Hrest).
  split; [lia|]. split; [|done].
  eapply logged_weaken; [eapply logged_trans; [|exact Hl|exact Hl']|..]; lia.
Qed.

Lemma logs_mono {A} n m (p : prog A) : logs n p -> (n <= m)%nat -> logs m p.
Proof. destruct p; [done|]. intros (c & k' & Hc & H) Hm. exists c, k'. split; [lia|done]. Qed.

Lemma logs_bind {A B} n m (p : prog A) (f : A -> prog B) :
  logs n p -> (forall a, logs m (f a)) -> logs (n + m) (bind p f).
Proof.
  intros Hp Hf. revert n Hp. induction p as [a|X op k IH]; intros n Hp; cbn.
  - eapply logs_mono; [apply Hf|lia].
  - destruct Hp as (c & m' & Hc & Hop & Hk). exists c, (m' + m)%nat. split; [lia|]. eauto.
Qed.

Lemma logs_then {A B} n (p : prog A) (f : A -> prog B) :
  logs 0 p -> (forall a, logs n (f a)) -> logs n (bind p f).
Proof. apply (logs_bind 0). Qed.

Lemma logs_for_each {A} n (l : list A) body :
  (forall x, logs n (body x)) -> logs (length l * n) (for_each l body).
Proof. intros Hb. induction l as [|x l IH]; [done|]. by apply logs_bind. Qed.

Lemma logs_none_each {A} (l : list A) body : (forall x, logs 0 (body x)) -> logs 0 (for_each l body).
Proof. intros Hb. induction l as [|x l IH]; [done|]. by apply logs_then. Qed.

Lemma talks_logs {A} (p : prog A) : talks p -> logs 0 p.
Proof.
  induction p as [a|X op k IH]; cbn; [done|]. intros [Ho Hk]. exists 0%nat, 0%nat.
  split_and!; [done|by destruct op|]. intros x. apply IH, Hk.
Qed.

Lemma logs_do {A : Set} {B} n (q : statement A) (k : result A -> prog B) :
  stmt_logs 0 q -> (forall r, logs n (k r)) -> logs n (Do (Stmt q) k).
Proof. intros Hq Hk. by exists 0%nat, n. Qed.

Lemma logs_exec {A : Set} n prefix (q : statement A) : stmt_logs n q -> logs n (exec_wrapped prefix q).
Proof. intros Hq. exists n, 0%nat. split; [lia|]. done. Qed.

Lemma logs_perform {X : Set} (op : effect X) : op_logs 0 op -> logs 0 (perform op).
Proof. intros Hop. by exists 0%nat, 0%nat. Qed.

(** What the ceiling is compared with, read off the times. *)
Lemma sent_since_times t db : length (sent_since t db) = length (base.filter (fun o => t < o) (sent_times db)).
Proof.
  unfold sent_since, sent_times. induction (rows (message_events db)) as [|x l IH]; [done|].
  rewrite !filter_cons. destruct (decide (ev_type x.2 = str "email.sent")) as [Hx|Hx].
  - rewrite fmap_cons, filter_cons. destruct (decide (t < ev_occurred_at x.2)).
    + rewrite decide_True by done. cbn. by rewrite IH.
    + rewrite decide_False by tauto. done.
  - rewrite decide_False by tauto. done.
Qed.

Lemma filter_length_le {A} (P Q : A -> Prop) `{!forall x, Decision (P x)} `{!forall x, Decision (Q x)} (l : list A) :
  (forall x, P x -> Q x) -> (length (base.filter P l) <= length (base.filter Q l))%nat.
Proof.
  intros HPQ. induction l as [|x l IH]; [done|]. rewrite !filter_cons.
  destruct (decide (P x)) as [Hp|]; [rewrite decide_True by auto; cbn; lia|].
  destruct (decide (Q x)); cbn; lia.
Qed.

Lemma filter_nothing {A} (P : A -> Prop) `{!forall x, Decision (P x)} (l : list A) :
  Forall (fun x => ~ P x) l -> base.filter P l = [].
Proof. induction 1; [done|]. by rewrite filter_cons_False. Qed.

Lemma in_hour_perm t l l' : l ≡ₚ l' -> in_hour t l = in_hour t l'.
Proof. intros E. unfold in_hour. by rewrite E. Qed.

(** New times only matter to hours that end after them, and such an hour has at
    most what the hour before them had. *)
Lemma logged_in_hour n now now' l l' t :
  logged n now now' l l' ->
  (in_hour t l' <= in_hour t l)%nat
  \/ (in_hour t l' <= length (base.filter (fun o => now - Hour < o)%Z l) + n)%nat.
Proof.
  intros (new & E & Hn & Hnew). rewrite (in_hour_perm t _ _ E). unfold in_hour. rewrite list.filter_app, length_app.
  destruct (Z.lt_ge_cases t now) as [Hlt|Hge]; [left|right].
  - rewrite filter_nothing; [done|]. eapply Forall_impl; [|exact Hnew]. cbn. lia.
  - pose proof (list.length_filter (fun o => t - Hour < o <= t) new).
    pose proof (filter_length_le (fun o => t - Hour < o <= t) (fun o => now - Hour < o) l) as Hle.
    assert (forall o, t - Hour < o <= t -> now - Hour < o) as Hin by (intros; lia). specialize (Hle Hin). lia.
Qed.

Lemma logged_below n m now now' l l' :
  logged n now now' l l' -> (forall t, Z.of_nat (in_hour t l) < m + Z.of_nat n) ->
  Z.of_nat (length (base.filter (fun o => now - Hour < o) l)) < m ->
  forall t, Z.of_nat (in_hour t l') < m + Z.of_nat n.
Proof.
  intros Hl Hb Hlt t. specialize (Hb t). destruct (logged_in_hour _ _ _ _ _ t Hl); lia.
Qed.

Create HintDb ceiling discriminated.
#[export] Hint Resolve logs_exec logs_do logs_perform logs_none_each : ceiling.
#[export] Hint Extern 0 (logs _ (Ret _)) => exact I : ceiling.
#[export] Hint Extern 0 (op_logs 0 _) => exact I : ceiling.

(** ** The statements a delivery makes *)

Definition leaves_events {A} (q : statement A) : Prop :=
  forall env db a db', q env db = Ok (a, db') -> message_events db' = message_events db.

Lemma leaves_logs {A} (q : statement A) : leaves_events q -> stmt_logs 0 q.
Proof. intros Hq env db a db' E. apply logged_refl. unfold sent_times. by rewrite (Hq _ _ _ _ E). Qed.

Lemma leaves_query {A} (f : stmt_env -> DB -> A) : leaves_events (query f).
Proof. by intros env db a db' [= _ <-]. Qed.

Lemma update_messages_events ids f db : message_events (update_messages ids f db) = message_events db.
Proof. by destruct db. Qed.

Section Statements.
Context `{UnicodeTables} `{JsonErrors} `{Postgres}.

Lemma leaves_ensure {A} b v (q : statement A) :
  leaves_events q -> leaves_events (fun env db => ensure b v (q env db)).
Proof. intros Hq env db a db' [_ E]%ensure_Ok. by eapply Hq. Qed.

Lemma leaves_finish id st schedule last_error : leaves_events (finish_stmt id st schedule last_error).
Proof. intros env db a db' [_ E]%ensure_Ok. injection E as _ <-. apply update_messages_events. Qed.

Lemma leaves_suppress a h reason detail mid : leaves_events (suppress_stmt a h reason detail mid).
Proof.
  apply leaves_ensure, leaves_ensure. intros env db a' db'. destruct (suppressions db !! h).
  - by intros [= _ <-].
  - intros [_ E]%ensure_Ok. injection E as _ <-. by destruct db.
Qed.

Lemma leaves_enqueue_delivery ev mid payload : leaves_events (enqueue_delivery_stmt ev mid payload).
Proof.
  apply leaves_ensure. intros env db a db'. destruct (jsonb_in payload); [|done].
  intros [_ E]%ensure_Ok. injection E as _ <-. by destruct db.
Qed.

Lemma leaves_claim limit d : leaves_events (claim_stmt limit d).
Proof. intros env db a db' [= _ <-]. apply update_messages_events. Qed.

(** One event is one row; it counts when it is a send. *)
Lemma event_logs mid ev payload :
  stmt_logs (if bool_decide (ev = str "email.sent") then 1 else 0) (insert_event mid ev payload).
Proof.
  intros env db [] db' (_ & j & _ & E)%insert_event_Ok. unfold sent_times. rewrite E. unfold rows.
  assert (Hp := map_to_list_insert (message_events db) (next_id (message_events db))
    (EventRec mid ev j (se_now env)) (next_id_fresh _)).
  exists (if bool_decide (ev = str "email.sent") then [se_now env] else []).
  rewrite Hp. case_bool_decide as Hev.
  - rewrite filter_cons_True by done. split_and!; [done|done|]. by constructor.
  - rewrite filter_cons_False by done. by split_and!.
Qed.

Lemma other_event_logs mid ev payload : ev <> str "email.sent" -> stmt_logs 0 (insert_event mid ev payload).
Proof. intros Hne. pose proof (event_logs mid ev payload) as Hl. by rewrite bool_decide_eq_false_2 in Hl. Qed.

End Statements.

#[export] Hint Resolve leaves_logs leaves_query leaves_ensure leaves_finish leaves_suppress leaves_enqueue_delivery
  leaves_claim : ceiling.

(** ** One delivery, one tick *)

Section Ceiling.
Context `{UnicodeTables} `{JsonErrors} `{Postgres} `{UrlLib} `{GoRuntime} `{DkimLib}.
Context (s : Store) (e : Engine) (k : Keeper) (secret url : gostring) (ceiling : Z).

Abbreviation w := (wired s e k secret url ceiling).

Lemma logs_publish mid ev reason attempt : logs 0 (publish w mid ev reason attempt).
Proof.
  unfold publish. apply logs_then; [eauto with ceiling|]. intros now.
  destruct (BuildPayload _ _ _ _ _); [|done]. apply logs_then; [|done].
  apply logs_exec, leaves_logs, leaves_enqueue_delivery.
Qed.

Lemma logs_suppress msg reason : logs 0 (suppressIfAddressIsBad w msg reason).
Proof.
  unfold suppressIfAddressIsBad. cbn [wired w_suppressions]. case_match; [done|].
  apply logs_none_each. intros x. apply logs_then; [|done]. apply logs_exec; eauto with ceiling.
Qed.

Lemma logs_transition n id st ev reason :
  (forall payload, stmt_logs n (insert_event id ev payload)) -> logs n (transition s id st ev reason).
Proof. intros He. apply logs_do; [eauto with ceiling|]. intros [[]|]; [|done]. by apply logs_exec. Qed.

Lemma logs_fail msg reason : logs 0 (fail w msg reason).
Proof.
  unfold fail. apply logs_then; [by apply logs_transition; intros; apply other_event_logs|]. intros [[]|]; [apply logs_publish|done].
Qed.

Lemma logs_sign msg : logs 0 (sign w msg).
Proof.
  unfold sign. cbn [wired w_signer w_keys store_keys ks_SigningKeyForMessage ks_MarkSigned dkim_signer ms_Sign].
  apply logs_then.
  { apply logs_do; [|done]. apply leaves_logs, leaves_ensure. by intros env db ? db' [= _ <-]. }
  intros [key|]; [|done]. apply logs_then; [eauto with ceiling|]. intros now.
  apply logs_then; [eauto with ceiling|]. intros rand. destruct (Build _ _ _); [|done].
  apply logs_then.
  { unfold Signer_Sign. repeat case_match; try done. by exists 0%nat, 0%nat. }
  intros [signed|]; [|done]. apply logs_then; [|done]. apply logs_exec, leaves_logs, leaves_ensure.
  intros env db ? db' [= _ <-]. apply update_messages_events.
Qed.

Lemma logs_deliver msg : logs 1 (deliver w msg).
Proof.
  unfold deliver. apply logs_then; [apply logs_sign|].
  intros [raw|err]; [|apply (logs_mono 0); [apply logs_fail|lia]].
  apply logs_then.
  { cbn [wired w_sender engine_sender snd_Send]. unfold Engine_Send, json_message. destruct (new_request _ _ _); [|done].
    apply (logs_bind 0 0); [apply talks_logs, engine_do_talks|done]. }
  intros [[] reason]; cbn [resp_Result resp_Reason].
  - apply (logs_bind 1 0); [apply logs_transition; intros; apply (event_logs _ (str "email.sent"))|]. intros [[]|]; [apply logs_publish|done].
  - apply (logs_mono 0); [|lia]. case_match; [apply logs_fail|].
    apply logs_then; [eauto with ceiling|]. intros now. apply logs_then.
    + apply logs_do; [eauto with ceiling|]. intros [[]|]; [|done]. by apply logs_exec, other_event_logs.
    + intros [[]|]; [apply logs_publish|done].
  - apply (logs_mono 0); [|lia]. apply logs_then; [apply logs_suppress|]. intros _. apply logs_fail.
Qed.

Lemma silent_below {A} n (p : prog A) script wd :
  logs 0 p -> Forall sole_sender script -> every_hour_below n (w_db wd) ->
  every_hour_below n (w_db (world_of (run p script wd))) /\ Forall sole_sender (run p script wd).2.1.
Proof.
  intros Hp Hs Hb. destruct (run_logs 0 p script wd Hp Hs) as (_ & ([|o l] & E & Hl & _) & Hs'); [|by cbn in Hl; lia].
  split; [|done]. intros t. unfold sent_in_hour. rewrite (in_hour_perm t _ _ E). apply Hb.
Qed.

(** What a tick does below the ceiling. *)
Lemma batch_logs script wd :
  Forall sole_sender script ->
  let out := run (let! claimed := ClaimMessages s batchSize lockDuration in
                  match claimed with
                  | Err e => Ret (Err e)
                  | Ok claimed => let! _ := for_each claimed (deliver w) in Ret (Ok (length claimed))
                  end) script wd in
  logged batchSize (w_clock wd) (w_clock (world_of out)) (sent_times (w_db wd)) (sent_times (w_db (world_of out)))
  /\ Forall sole_sender out.2.1.
Proof.
  intros Hs. cbn zeta. rewrite run_bind.
  assert (logs 0 (ClaimMessages s batchSize lockDuration)) as Hcl.
  { apply logs_do; [eauto with ceiling|]. by intros [rs|err]. }
  destruct (run_logs 0 _ script wd Hcl Hs) as (Ht & Hl & Hs'). unfold world_of in *.
  pose proof (ClaimMessages_run s batchSize lockDuration script wd) as Hc.
  destruct (run (ClaimMessages s batchSize lockDuration) script wd) as [[cs|err] [script' wd']];
    destruct Hc as (_ & _ & Hok & _); cbn [fst snd] in *.
  - assert (length cs <= batchSize)%nat as Hlen.
    { destruct (Hok cs eq_refl) as (Hp & _). apply Permutation_length in Hp. rewrite !length_fmap in Hp.
      unfold claim_pick in Hp. rewrite length_take in Hp. lia. }
    rewrite run_bind. pose proof (logs_for_each 1 cs (deliver w) logs_deliver) as Hd.
    destruct (run_logs _ _ script' wd' Hd Hs') as (Ht' & Hl' & Hs''). unfold world_of in *.
    destruct (run (for_each cs (deliver w)) script' wd') as [u [script'' wd'']]. cbn [run fst snd] in *.
    split; [|done]. eapply logged_weaken; [eapply logged_trans; [|exact Hl|exact Hl']|..]; lia.
  - cbn. split; [|done]. eapply logged_weaken; [exact Hl|..]; lia.
Qed.

Lemma below_others n e' db : sole_sender e' -> every_hour_below n db -> every_hour_below n (e_others e' db).
Proof. intros He Hb t. unfold sent_in_hour. rewrite (in_hour_perm t _ _ (He db)). apply Hb. Qed.

Lemma tick_below script wd :
  0 < ceiling -> Forall sole_sender script ->
  every_hour_below (ceiling + Z.of_nat batchSize) (w_db wd) ->
  let out := run (tick w) script wd in
  every_hour_below (ceiling + Z.of_nat batchSize) (w_db (world_of out)) /\ Forall sole_sender out.2.1.
Proof.
  intros Hpos Hs Hb. cbn zeta. unfold tick. cbn [wired w_maxPerHour w_queue store_queue q_SentInLastHour q_ClaimMessages].
  rewrite (proj2 (Z.ltb_lt _ _) Hpos). unfold SentInLastHour, exec_wrapped. cbn [bind run].
  assert (sole_sender (pop script).1 /\ Forall sole_sender (pop script).2) as [He Hs'].
  { destruct Hs as [|e' rest He Hs]; [|done]. by split; [intros db|]. }
  destruct (pop script) as [e' script']; cbn [fst snd] in *. pose proof (below_others _ e' _ He Hb) as Hb'.
  unfold sem, sem_at, sem_stmt, query. destruct (e_fault e'); cbn [run bind wrap_err]; try by split.
  cbn [se_now env_of]. destruct (Z.leb_spec ceiling
    (Z.of_nat (length (sent_since (w_clock (arrive e' wd) - Hour) (w_db (arrive e' wd)))))) as [|Hlt]; [by split|].
  destruct (batch_logs script' (arrive e' wd) Hs') as [Hl Hs'']. split; [|exact Hs''].
  rewrite sent_since_times in Hlt. intros t. exact (logged_below _ _ _ _ _ _ Hl Hb' Hlt t).
Qed.

(** The hourly ceiling over a worker's life.  When one worker drains the queue,
    every hour of its history, wherever it starts, has fewer recorded sends than
    the ceiling plus one batch: for any number of ticks, whatever fails, and
    whatever else is written meanwhile that records no send itself. *)
Theorem hourly_ceiling ticks script wd :
  0 < ceiling -> Forall sole_sender script ->
  every_hour_below (ceiling + Z.of_nat batchSize) (w_db wd) ->
  every_hour_below (ceiling + Z.of_nat batchSize) (w_db (world_of (run (Run w ticks) script wd))).
Proof.
  intros Hpos. revert script wd. induction ticks as [|n IH]; intros script wd Hs Hb; [done|].
  cbn [Run]. rewrite run_bind. destruct (tick_below script wd Hpos Hs Hb) as [Hb1 Hs1]. unfold world_of in *.
  destruct (run (tick w) script wd) as [r [script1 wd1]]. cbn [fst snd] in *. rewrite run_bind.
  assert (logs 0 (match r with Err _ => perform (Wait 0) | Ok _ => Ret false end)) as Hw.
  { destruct r; [done|eauto with ceiling]. }
  destruct (silent_below _ _ script1 wd1 Hw Hs1 Hb1) as [Hb2 Hs2]. unfold world_of in *.
  destruct (run _ script1 wd1) as [[] [script2 wd2]]; [done|]. cbn [fst snd] in *. rewrite run_bind.
  destruct (silent_below _ (perform (Wait (wait_after r))) script2 wd2 ltac:(eauto with ceiling) Hs2 Hb2) as [Hb3 Hs3].
  unfold world_of in *. destruct (run _ script2 wd2) as [[] [script3 wd3]]; [done|]. by apply IH.
Qed.

End Ceiling.

(** ** A concrete deployment *)

Definition sample_keeper : Keeper :=
  {| Wrap := EnvelopeKeeper_Wrap (H := clear_aead) []; Unwrap := EnvelopeKeeper_Unwrap (H := clear_aead) [] |}.

Definition draining (ceiling : Z) : Worker :=
  wired (H := ascii_tables) (H0 := plain_json_errors) (H1 := plain_postgres) (H2 := plain_url_lib)
    (H3 := plain_runtime) (H4 := plain_dkim_lib)
    clear_store (NewEngine (str "http://engine")) sample_keeper (str "secret") (str "https://x.io") ceiling.

(** One verified domain with a signing key, and a queue. *)
Definition serving (queue : list (gostring * message_row)) : world :=
  World (set_dkim (fun _ => {[ 1 := DkimRec 1 (str "s1") (str "ed25519")
                                  (replicate 12 "000"%char ++ replicate 64 "s"%char) [] true 5 ]})
        (set_domains (fun _ => {[ 1 := DomainRec (str "x.io") (str "t") dom_verified None None 0 ]})
           (w_db (world_with queue)))) 1000 [].

(** Twelve messages are waiting and the ceiling is one an hour. *)
Definition backlog : world :=
  serving ((fun n => (str "m" ++ format_int (Z.of_nat n), sample_row queued 5 None)) <$> seq 1 12).

Definition drained (ticks : nat) : world :=
  world_of (run (Run (H := ascii_tables) (H0 := plain_runtime) (draining 1) ticks) [] backlog).

(** The bound is met: the first tick finds no send and makes ten, and the ceiling
    holds every later one. *)
Lemma hourly_ceiling_witness :
  sent_in_hour (w_clock (drained 3)) (w_db (drained 3)) = 10%nat
  /\ every_hour_below (1 + Z.of_nat batchSize) (w_db (drained 3)).
Proof.
  split; [vm_compute; reflexivity|].
  apply (hourly_ceiling (H := ascii_tables) (H0 := plain_json_errors) (H1 := plain_postgres)
           (H2 := plain_url_lib) (H3 := plain_runtime) (H4 := plain_dkim_lib)
           clear_store (NewEngine (str "http://engine")) sample_keeper (str "secret") (str "https://x.io") 1
           3 [] backlog).
  - reflexivity.
  - constructor.
  - intros t. reflexivity.
Defined.
