(* ===== verification/Pool.v ===== *)
(** * The hourly ceiling over several workers

    Nothing keeps two worker processes from draining the queue together.  Here any
    number of them, up to a bound, start, crash and interleave one effect at a time
    over one store; a member is what is left of its [Run], or it sleeps until a
    deadline.  Each carries a budget, the sends it may still record before it asks
    for the count again; the sends of any hour and the budgets outstanding stay
    under the ceiling plus one batch for each process that may run at once. *)

From S2P Require Import Prelude Utf8 GoStrings Crypto Schema Program Mail Dkim Netguard Delivery.
From S2P Require Import StoreRecipients StoreQueue StoreWebhooks StoreKeys Worker Background Protocol Ceiling.
From stdpp Require Import relations.
Local Open Scope Z_scope.
Local Open Scope go_scope.

(** ** The pool *)

Inductive member :=
  | Active (p : prog bool)
  | Asleep (until : Z) (k : bool -> prog bool).

(** The next effect of a member; a sleeper wakes when its deadline has passed or
    its context ends. *)
Definition act (m : member) (e : env) (wd : world) : option (member * world) :=
  match m with
  | Active (Ret _) => None
  | Active (Do op k) =>
      match op in effect X return (X -> prog bool) -> option (member * world) with
      | Wait d => fun k =>
          let wd' := arrive e wd in Some (Asleep (w_clock wd' + Z.max 0 d) k, wd')
      | op => fun k => let '(x, wd') := sem op e wd in Some (Active (k x), wd')
      end k
  | Asleep until k =>
      let wd' := arrive e wd in
      if cancelled e then Some (Active (k true), wd')
      else if until <=? w_clock wd' then Some (Active (k false), wd')
      else None
  end.

Record pool := Pool { po_world : world; po_members : list member }.

Section Paced.
Context (ceiling : Z).

(** ** Budgets *)

Definition is_stmt {X : Set} (op : effect X) : Prop := match op with Stmt _ => True | _ => False end.

(** The answers of a statement that come with a count below the ceiling. *)
Definition guards {X : Set} (op : effect X) (pass : X -> bool) : Prop :=
  (forall x, pass x = true -> is_stmt op)
  /\ forall e wd, let '(x, wd') := sem op e wd in
    pass x = true ->
    Z.of_nat (length (base.filter (fun o => w_clock wd' - Hour < o) (sent_times (w_db wd')))) < ceiling.

Definition possible {X : Set} (op : effect X) (x : X) : Prop := exists e wd, (sem op e wd).1 = x.

(** The program records at most [n] sends before it next finds the count below
    the ceiling, and at most a batch from there to the next time. *)
Fixpoint paced {A} (n : nat) (p : prog A) : Prop :=
  match p with
  | Ret _ => True
  | Do op k => exists c m pass,
      (c + m <= n)%nat /\ op_logs c op /\ guards op pass
      /\ forall x, possible op x -> paced (if pass x then batchSize else m) (k x)
  end.

Lemma guards_never {X : Set} (op : effect X) : guards op (fun _ => false).
Proof. split; [done|]. intros e wd. by destruct (sem op e wd). Qed.

Lemma paced_do {A} {X : Set} c m (op : effect X) (k : X -> prog A) :
  op_logs c op -> (forall x, possible op x -> paced m (k x)) -> paced (c + m) (Do op k).
Proof. intros Hop Hk. exists c, m, (fun _ => false). split_and!; [lia|done|apply guards_never|done]. Qed.

Lemma paced_mono {A} n m (p : prog A) : paced n p -> (n <= m)%nat -> paced m p.
Proof. destruct p; [done|]. intros (c & m' & pass & Hc & H) Hm. exists c, m', pass. split; [lia|done]. Qed.

Lemma paced_bind {A B} n m (p : prog A) (f : A -> prog B) :
  logs n p -> (forall a, paced m (f a)) -> paced (n + m) (bind p f).
Proof.
  intros Hp Hf. revert n Hp. induction p as [a|X op k IH]; intros n Hp; cbn.
  - eapply paced_mono; [apply Hf|lia].
  - destruct Hp as (c & m' & Hc & Hop & Hk). exists c, (m' + m)%nat, (fun _ => false).
    split_and!; [lia|done|apply guards_never|eauto].
Qed.

Lemma paced_then {A B} n (p : prog A) (f : A -> prog B) :
  logs 0 p -> (forall a, paced n (f a)) -> paced n (bind p f).
Proof. apply (paced_bind 0). Qed.

Lemma paced_assoc {A B C} n (p : prog A) (f : A -> prog B) (g : B -> prog C) :
  paced n (bind p (fun a => bind (f a) g)) -> paced n (bind (bind p f) g).
Proof.
  revert n. induction p as [a|X op k IH]; intros n; cbn; [done|].
  intros (c & m & pass & Hc & Hop & Hg & Hk). exists c, m, pass. split_and!; eauto.
Qed.

(** ** The worker's loop *)

Section Worker.
Context `{UnicodeTables} `{JsonErrors} `{Postgres} `{UrlLib} `{GoRuntime} `{DkimLib}.
Context (s : Store) (e : Engine) (k : Keeper) (secret url : gostring).

Abbreviation w := (wired s e k secret url ceiling).

(** A claim returns no more than it was asked for. *)
Lemma paced_claim {A} n (f : result (list Claimed) -> prog A) :
  (forall err, paced n (f (Err err))) ->
  (forall cs, (length cs <= batchSize)%nat -> paced n (f (Ok cs))) ->
  paced n (bind (ClaimMessages s batchSize lockDuration) f).
Proof.
  intros Herr Hok. unfold ClaimMessages. cbn [bind]. apply (paced_do 0); [apply leaves_logs, leaves_claim|].
  intros x (e' & wd & <-). unfold sem, sem_at, sem_stmt, claim_stmt.
  destruct (e_fault e'); cbn [fst bind]; try apply Herr.
  destruct (scan_rows (scan_claimed s) _) as [cs|] eqn:Hcs; [|apply Herr]. apply Hok.
  apply scan_claimed_ids in Hcs. rewrite <- (length_fmap c_ID cs), Hcs, length_fmap, returning_perm, length_fmap.
  unfold claim_pick. rewrite length_take. lia.
Qed.

Lemma paced_tick {A} (f : result nat -> prog A) :
  0 < ceiling -> (forall r, paced 0 (f r)) -> paced 0 (bind (tick w) f).
Proof.
  intros Hpos Hf. unfold tick. cbn [wired w_maxPerHour w_queue store_queue q_SentInLastHour q_ClaimMessages].
  rewrite (proj2 (Z.ltb_lt _ _) Hpos). unfold SentInLastHour, exec_wrapped. cbn [bind].
  exists 0%nat, 0%nat, (fun x => match x with Ok n => n <? ceiling | Err _ => false end).
  split_and!; [done|apply leaves_logs, leaves_query| |].
  - split; [done|]. intros e' wd. unfold sem, sem_at, sem_stmt, query. destruct (e_fault e'); cbn; try done.
    rewrite sent_since_times. intros Hlt%Z.ltb_lt. exact Hlt.
  - intros [count|err] _; cbn [bind wrap_err]; [|apply Hf].
    rewrite Z.leb_antisym. destruct (count <? ceiling); cbn [negb]; [|apply Hf].
    apply paced_assoc, paced_claim; [intros err; eapply paced_mono; [apply Hf|lia]|].
    intros cs Hlen. apply paced_assoc. eapply paced_mono; [apply (paced_bind (length cs * 1) 0)|lia].
    + apply logs_for_each, logs_deliver.
    + intros _. apply Hf.
Qed.

Lemma paced_Run ticks : 0 < ceiling -> paced 0 (Run w ticks).
Proof.
  intros Hpos. induction ticks as [|n IH]; [done|]. cbn [Run]. apply paced_tick; [done|]. intros r.
  apply paced_then; [destruct r; [done|eauto with ceiling]|]. intros [|]; [done|].
  apply paced_then; [eauto with ceiling|]. by intros [|].
Qed.

End Worker.

(** ** The invariant *)

Definition member_paced (n : nat) (m : member) : Prop :=
  match m with Active p => paced n p | Asleep _ k => forall over, paced n (k over) end.

Record budgeted (bound : Z) (st : pool) (budgets : list nat) : Prop := {
  bu_paced : Forall2 (fun n m => (n <= batchSize)%nat /\ member_paced n m) budgets (po_members st);
  bu_hours : every_hour_below bound (w_db (po_world st));
  (** hours not over yet leave room for what may still be recorded *)
  bu_room : forall t, w_clock (po_world st) <= t ->
    Z.of_nat (sent_in_hour t (w_db (po_world st))) + Z.of_nat (sum_list budgets) < bound;
}.

Lemma possible_wait d over : possible (Wait d) over.
Proof.
  exists (Env id 0 (if over then Lost (errors_New []) else NoFault) None [] (fun _ => false) (fun _ => false)
            (Ok []) (e_http calm) 0 NotFound (e_ips calm)).
  exists (World empty_db 0 []). by destruct over.
Qed.

Lemma act_do {X : Set} (op : effect X) (k : X -> prog bool) e wd m' wd' :
  act (Active (Do op k)) e wd = Some (m', wd') ->
  (m' = Active (k (sem op e wd).1) /\ wd' = (sem op e wd).2)
  \/ (~ is_stmt op /\ wd' = arrive e wd
      /\ exists until k', m' = Asleep until k' /\ forall over, exists x, possible op x /\ k' over = k x).
Proof.
  destruct op; cbn [act]; try (destruct (sem _ e wd) as [x wd1]; intros [= <- <-]; by left).
  intros [= <- <-]. right. split_and!; [by intros []|done|]. do 2 eexists. split; [done|].
  intros over. exists over. split; [apply possible_wait|done].
Qed.

Lemma arrive_logged e wd :
  sole_sender e ->
  logged 0 (w_clock wd) (w_clock (arrive e wd)) (sent_times (w_db wd)) (sent_times (w_db (arrive e wd))).
Proof. intros He. apply logged_refl. cbn. apply He. Qed.

(** One effect of a member with budget [n]: what it records is taken from the
    budget, unless it has just seen the count below the ceiling. *)
Definition spends (n : nat) (wd : world) (m' : member) (wd' : world) : Prop :=
  exists c n', (n' <= batchSize)%nat /\ (c <= n)%nat /\ member_paced n' m'
    /\ logged c (w_clock wd) (w_clock wd') (sent_times (w_db wd)) (sent_times (w_db wd'))
    /\ ((c + n' <= n)%nat
        \/ Z.of_nat (length (base.filter (fun o => w_clock wd' - Hour < o) (sent_times (w_db wd')))) < ceiling).

Lemma act_paced n m e wd m' wd' :
  (n <= batchSize)%nat -> member_paced n m -> sole_sender e -> act m e wd = Some (m', wd') ->
  w_clock wd <= w_clock wd' /\ spends n wd m' wd'.
Proof.
  intros Hn Hm He Hact. destruct m as [[|X op k]|until k]; [done| |].
  - destruct Hm as (c & m & pass & Hc & Hop & [Hst Hg] & Hk). specialize (Hg e wd).
    apply act_do in Hact as [[-> ->]|(Hns & -> & until & k' & -> & Hk')].
    + pose proof (sem_clock_le op e wd) as Hclock. pose proof (sem_logs c op e wd Hop He) as Hl.
      specialize (Hk _ (ex_intro _ e (ex_intro _ wd eq_refl))).
      destruct (sem op e wd) as [x wd']; cbn [fst snd] in *. split; [lia|].
      exists c, (if pass x then batchSize else m). split_and!; [case_match; lia|lia|done| |].
      * eapply logged_weaken; [exact Hl|lia..].
      * destruct (pass x); [right; by apply Hg|left; lia].
    + split; [cbn; lia|]. exists 0%nat, m. split_and!; [lia|lia| |by apply arrive_logged|lia].
      intros over. destruct (Hk' over) as (x & Hx & ->). specialize (Hk x Hx).
      destruct (pass x) eqn:Hp; [by apply Hst in Hp|done].
  - assert (wd' = arrive e wd /\ exists over, m' = Active (k over)) as [-> [over ->]].
    { cbn [act] in Hact. repeat case_match; simplify_eq; eauto. }
    split; [cbn; lia|]. exists 0%nat, n. split_and!; [lia|lia|apply Hm|by apply arrive_logged|lia].
Qed.

(** ** Steps *)

Context `{UnicodeTables} `{JsonErrors} `{Postgres} `{UrlLib} `{GoRuntime} `{DkimLib}.
Context (processes : nat).

Inductive pool_step : pool -> pool -> Prop :=
  (** a process starts, when fewer than [processes] run *)
  | pool_start s e k secret url ticks wd ms :
      (length ms < processes)%nat ->
      pool_step (Pool wd ms) (Pool wd (ms ++ [Active (Run (wired s e k secret url ceiling) ticks)]))
  | pool_act e wd wd' ms i m m' :
      sole_sender e -> ms !! i = Some m -> act m e wd = Some (m', wd') ->
      pool_step (Pool wd ms) (Pool wd' (<[i := m']> ms))
  (** a process ends, or is killed at any point *)
  | pool_stop m wd ms1 ms2 : pool_step (Pool wd (ms1 ++ m :: ms2)) (Pool wd (ms1 ++ ms2))
  (** time passes and others write *)
  | pool_elsewhere e wd ms : sole_sender e -> pool_step (Pool wd ms) (Pool (arrive e wd) ms).

Definition limit : Z := ceiling + Z.of_nat (processes * batchSize).

Definition pool_ok (st : pool) : Prop :=
  (length (po_members st) <= processes)%nat /\ exists budgets, budgeted limit st budgets.

Lemma sum_budgets (budgets : list nat) b : Forall (fun n => (n <= b)%nat) budgets -> (sum_list budgets <= length budgets * b)%nat.
Proof. induction 1; cbn; unfold id in *; lia. Qed.

Lemma sum_update (l : list nat) i n n' :
  l !! i = Some n -> (sum_list (<[i := n']> l) + n = sum_list l + n')%nat.
Proof.
  intros Hi. rewrite insert_take_drop by (by eapply lookup_lt_Some).
  rewrite <- (take_drop_middle l i n Hi) at 3. rewrite !sum_list_with_app. cbn. unfold id. lia.
Qed.

Lemma logged_hour c now now' l l' t :
  logged c now now' l l' ->
  (in_hour t l' <= in_hour t l + c)%nat /\ (t < now -> in_hour t l' = in_hour t l).
Proof.
  intros (new & E & Hn & Hnew). rewrite (in_hour_perm t _ _ E). unfold in_hour.
  rewrite list.filter_app, length_app. split.
  - pose proof (list.length_filter (fun o => t - Hour < o <= t) new). lia.
  - intros Ht. rewrite filter_nothing; [done|]. eapply Forall_impl; [exact Hnew|]. cbn. lia.
Qed.

Lemma budgets_sum budgets ms :
  Forall2 (fun n m => (n <= batchSize)%nat /\ member_paced n m) budgets ms ->
  (sum_list budgets <= length ms * batchSize)%nat.
Proof.
  intros Hf. rewrite <- (Forall2_length _ _ _ Hf). apply sum_budgets.
  eapply Forall2_Forall_l; [exact Hf|]. apply Forall_forall. by intros ? _ ? [? _].
Qed.

(** A member's move keeps every hour under the bound. *)
Lemma spend_hours n m' wd wd' ms budgets i :
  w_clock wd <= w_clock wd' -> budgeted limit (Pool wd ms) budgets -> (length ms <= processes)%nat ->
  budgets !! i = Some n -> spends n wd m' wd' ->
  exists budgets', budgeted limit (Pool wd' (<[i := m']> ms)) budgets'.
Proof.
  intros Hclock Hbu Hlen Hi (c & n' & Hn' & Hc & Hm' & Hl & Hcase).
  pose proof Hbu as [Hf Hh Hr]. cbn [po_world po_members] in *.
  pose proof (sum_update budgets i n n' Hi) as Hsum.
  pose proof (fun t => logged_hour _ _ _ _ _ t Hl) as Hhour.
  assert (Forall2 (fun n m => (n <= batchSize)%nat /\ member_paced n m) (<[i := n']> budgets) (<[i := m']> ms)) as Hf'
    by (by apply Forall2_insert).
  exists (<[i := n']> budgets). split; cbn [po_world po_members]; [done| |].
  - intros t. unfold sent_in_hour. destruct (Hhour t) as [Hle Heq], (Z.lt_ge_cases t (w_clock wd)) as [Hlt|Hge].
    + rewrite Heq by done. apply Hh.
    + specialize (Hr t Hge). unfold sent_in_hour in Hr.
      pose proof (sum_list_with_in n id budgets (list_elem_of_lookup_2 _ _ _ Hi)) as Hin. unfold id at 1 in Hin. lia.
  - intros t Ht. destruct Hcase as [Hcase|Hcount].
    + destruct (Hhour t) as [Hle _]. specialize (Hr t ltac:(lia)). unfold sent_in_hour in *. lia.
    + assert (in_hour t (sent_times (w_db wd'))
              <= length (base.filter (fun o => (w_clock wd' - Hour < o)%Z) (sent_times (w_db wd'))))%nat
        by (apply Ceiling.filter_length_le; intros o; lia).
      pose proof (budgets_sum _ _ Hf') as Hs. rewrite length_insert in Hs. unfold sent_in_hour, limit. nia.
Qed.

Lemma step_ok st st' : 0 < ceiling -> pool_step st st' -> pool_ok st -> pool_ok st'.
Proof.
  intros Hpos Hstep [Hlen [budgets Hbu]]. destruct Hstep as
    [s e k secret url ticks wd ms Hroom|e wd wd' ms i m m' He Hm Hact|m wd ms1 ms2|e wd ms He];
    unfold pool_ok in *; cbn [po_members] in *.
  - split; [rewrite length_app; cbn; lia|]. exists (budgets ++ [0%nat]). destruct Hbu as [Hf Hh Hr].
    split; cbn [po_world po_members] in *; [|done|intros t Ht; rewrite sum_list_with_app; cbn; specialize (Hr t Ht); lia].
    apply Forall2_app; [done|]. constructor; [|constructor]. split; [lia|by apply paced_Run].
  - rewrite length_insert. split; [done|]. pose proof Hbu as [Hf _ _]. cbn [po_members] in Hf.
    destruct (Forall2_lookup_r _ _ _ _ _ Hf Hm) as (n & Hn & Hnb & Hnm).
    destruct (act_paced n m e wd m' wd' Hnb Hnm He Hact) as [Hclock Hspend]. by eapply spend_hours.
  - rewrite !length_app in *. cbn in Hlen. split; [lia|]. destruct Hbu as [Hf Hh Hr]. cbn [po_world po_members] in *.
    apply Forall2_app_inv_r in Hf as (b1 & b2 & Hf1 & Hf2 & ->).
    apply Forall2_cons_inv_r in Hf2 as (n & b3 & _ & Hf3 & ->).
    exists (b1 ++ b3). split; cbn [po_world po_members]; [by apply Forall2_app|done|].
    intros t Ht. specialize (Hr t Ht). rewrite sum_list_with_app in *. cbn in Hr. lia.
  - split; [done|]. exists budgets. destruct Hbu as [Hf Hh Hr]. split; cbn [po_world po_members] in *; [done| |].
    + by apply below_others.
    + intros t Ht. unfold sent_in_hour, arrive. cbn [w_db]. rewrite (in_hour_perm t _ _ (He (w_db wd))). apply Hr. cbn in Ht. lia.
Qed.

(** C10: The hourly ceiling over any number of workers.  While no more than
    [processes] worker processes drain the queue at once, started, killed and
    interleaved one effect at a time in any way and under any faults, every hour of
    the history has fewer recorded sends than the ceiling plus one batch for each
    process: the count is asked for once a batch and by each on its own. *)
Theorem pool_ceiling st st' :
  0 < ceiling -> po_members st = [] -> every_hour_below limit (w_db (po_world st)) ->
  rtc pool_step st st' -> every_hour_below limit (w_db (po_world st')).
Proof.
  intros Hpos Hnone Hh Hsteps.
  assert (pool_ok st) as Hok.
  { unfold pool_ok. rewrite Hnone. split; [cbn; lia|]. exists []. split; rewrite ?Hnone; [done|done|].
    intros t _. specialize (Hh t). cbn. lia. }
  assert (pool_ok st') as [_ [budgets [_ Hh' _]]]; [|done].
  clear Hnone Hh. induction Hsteps as [st|st1 st2 st3 Hstep _ IH]; [done|]. apply IH. by eapply step_ok.
Qed.

(** A schedule: which member moves next, with nothing going wrong. *)
Fixpoint play (schedule : list nat) (st : pool) : pool :=
  match schedule with
  | [] => st
  | i :: schedule =>
      match po_members st !! i ≫= fun m => act m calm (po_world st) with
      | Some (m', wd') => play schedule (Pool wd' (<[i := m']> (po_members st)))
      | None => play schedule st
      end
  end.

Lemma play_steps schedule st : rtc pool_step st (play schedule st).
Proof.
  revert st. induction schedule as [|i schedule IH]; intros [wd ms]; [done|]. cbn [play po_members po_world].
  destruct (ms !! i) as [m|] eqn:Hm; cbn; [|apply IH].
  destruct (act m calm wd) as [[m' wd']|] eqn:Hact; [|apply IH].
  eapply rtc_l; [|apply IH]. eapply pool_act; [|exact Hm|exact Hact]. by intros db.
Qed.

End Paced.

(** ** Two workers and a ceiling of one *)

#[local] Existing Instances ascii_tables plain_json_errors plain_postgres plain_url_lib plain_runtime plain_dkim_lib.

Definition long_queue : world :=
  serving ((fun n => (str "m" ++ format_int (Z.of_nat n), sample_row queued 5 None)) <$> seq 1 25).

(** Both ask for the count before either has sent anything. *)
Definition both_pass : list nat := [0; 1]%nat ++ replicate 200 0%nat ++ replicate 200 1%nat.

Definition two_workers : pool :=
  Pool long_queue [Active (Run (draining 1) 1); Active (Run (draining 1) 1)].

Definition after_both : world := po_world (play both_pass two_workers).

(** Twenty messages go out in the hour, and no schedule of two makes it twenty-one. *)
Lemma pool_ceiling_witness :
  sent_in_hour (w_clock after_both) (w_db after_both) = 20%nat
  /\ every_hour_below (limit 1 2) (w_db after_both).
Proof.
  split; [vm_compute; reflexivity|].
  apply (pool_ceiling 1 2 (Pool long_queue [])); [reflexivity|reflexivity|intros t; reflexivity|].
  eapply rtc_l; [apply (pool_start 1 2 clear_store (NewEngine (str "http://engine")) sample_keeper (str "secret")
                          (str "https://x.io") 1); cbn; lia|].
  eapply rtc_l; [apply (pool_start 1 2 clear_store (NewEngine (str "http://engine")) sample_keeper (str "secret")
                          (str "https://x.io") 1); cbn; lia|].
  exact (play_steps 1 2 both_pass two_workers).
Defined.
