(* ===== verification/Admin.v ===== *)
(** * cmd/aiemail: the subcommands of the binary

    admin.go, webhooks.go, console.go and the start of each run mode in main.go.
    A subcommand is a program over the parsed flags, the environment ([getenv])
    and the database; its answer is what it prints to standard output, or the
    error the process exits with.  [serve] and [worker] answer what they have
    wired once startup is over; how the process ends is in Lifecycle.v. *)

From S2P Require Import Keys Unsubscribe.
From S2P Require Import Prelude Utf8 GoStrings Quote Encoding Crypto Schema Program Mail GoFlag Dkim Netguard Config.
From S2P Require Import GoTime Delivery StoreRecipients Reading StoreConn StoreQueue StoreMessages StoreWebhooks StoreKeys.
From S2P Require Import ConsoleAuth Console HttpApi Acceptance Mux Middleware Worker Background Protocol.
Local Open Scope Z_scope.
Local Open Scope go_scope.

(** ** What is printed *)

Definition newline : gostring := ["010"%char].

Definition lines (l : list gostring) : gostring := concat ((fun s => s ++ newline) <$> l).

(** ** Flags *)

Record keyFlags := KeyFlags { kf_name : gostring; kf_scopes : gostring; kf_quota : Z; kf_days : Z }.

Definition key_defaults : keyFlags := KeyFlags [] (str "emails:send,emails:read") 0 90.

Definition key_flags : list (flag keyFlags) :=
  [Flag (str "name") (fun v f => let? v := set_string v in Ok (KeyFlags v (kf_scopes f) (kf_quota f) (kf_days f)));
   Flag (str "scopes") (fun v f => let? v := set_string v in Ok (KeyFlags (kf_name f) v (kf_quota f) (kf_days f)));
   Flag (str "quota") (fun v f => let? v := set_int v in Ok (KeyFlags (kf_name f) (kf_scopes f) v (kf_days f)));
   Flag (str "days") (fun v f => let? v := set_int v in Ok (KeyFlags (kf_name f) (kf_scopes f) (kf_quota f) v))].

(** The one string flag of the other subcommands. *)
Definition string_flag (name : gostring) : list (flag gostring) := [Flag name (fun v _ => set_string v)].

Definition splitScopes (raw : gostring) : list gostring :=
  List.filter (fun p => negb (bool_decide (p = []))) (trim_space <$> split raw [","%char]).

(** ** Logging *)

Inductive level := LevelDebug | LevelInfo | LevelWarn | LevelError.

Definition newLogger (l : gostring) : level :=
  if bool_decide (l = str "debug") then LevelDebug
  else if bool_decide (l = str "warn") then LevelWarn
  else if bool_decide (l = str "error") then LevelError
  else LevelInfo.

Section Admin.
Context `{UnicodeTables} `{GoRuntime} `{UrlLib} `{Postgres} `{JsonErrors} `{DbLib}.
Context `{AEAD} `{DkimLib} `{Argon2}.
Context (version : gostring) (getenv : gostring -> gostring).

(** ** Startup *)

Definition boot : result (Config * level) :=
  match Load getenv with
  | inl cfg => Ok (cfg, newLogger (cfg_LogLevel cfg))
  | inr problems => Err (errors_New (ValidationError_Error problems))
  end.

(** The two calls every subcommand that needs the database begins with. *)
Definition connect (cfg : Config) : prog (result Store) :=
  try! _ := Migrate (cfg_DatabaseURL cfg) in Open (cfg_DatabaseURL cfg).

Definition attachKeeper (db : Store) (masterKey : gostring) : result Store :=
  if bool_decide (masterKey = []) then Ok db
  else let? envelope := NewEnvelope masterKey in Ok (UseKeeper db envelope).

(** ** keys create *)

(** [keys.Lifetime(time.Duration(days) * 24 * time.Hour)], each product an [int64] *)
Definition key_lifetime (days : Z) : Z := Keys.Lifetime (wrap_int64 (wrap_int64 (days * 24) * Hour)).

Definition create_key (f : keyFlags) (db : Store) : prog (result (APIKey * gostring)) :=
  try! generated := Keys.Generate in
  let! now := perform Now in
  try! created := CreateAPIKey db
    {| nk_Name := kf_name f; nk_Prefix := Keys.g_Prefix generated; nk_SecretHash := Keys.g_Hash generated;
       nk_Scopes := splitScopes (kf_scopes f); nk_QuotaPerHour := kf_quota f;
       nk_ExpiresAt := now + key_lifetime (kf_days f) |} in
  Ret (Ok (created, Keys.g_Secret generated)).

Definition key_report (k : APIKey) (secret : gostring) : gostring :=
  lines [str "Key created. This is the only time the secret is shown."; [];
         str "  id      " ++ format_int (k_ID k);
         str "  name    " ++ k_Name k;
         str "  scopes  " ++ join (k_Scopes k) (str ", ");
         str "  expires " ++ format_rfc3339 (k_ExpiresAt k); [];
         str "  " ++ secret; []].

Definition is_blank (s : gostring) : bool := bool_decide (trim_space s = []).

Definition runCreateKey (args : list gostring) : prog (result gostring) :=
  try! f := Ret (GoFlag.Parse key_flags args key_defaults) in
  if is_blank (kf_name f) then Ret (Err (errors_New (str "-name is required")))
  else
    try! (cfg, _) := Ret boot in
    try! db := connect cfg in
    try! (created, secret) := create_key f db in
    Ret (Ok (key_report created secret)).

(** ** domains add *)

Definition token_prefix : gostring := str "aiemail-verify=".

Definition verificationToken : prog (result gostring) :=
  Do Entropy (fun e => Ret
    match Keys.rand_read 20 e with
    | Err err => Err (wrap_w (str "generating verification token") err)
    | Ok b => Ok (token_prefix ++ to_lower (base32_encode b))
    end).

Definition find_domain (name : gostring) (db : DB) : option (Z * domain_row) :=
  head (base.filter (fun x : Z * domain_row => dom_name x.2 = name) (rows (domains db))).

Definition with_token (token : gostring) (d : domain_row) : domain_row :=
  DomainRec (dom_name d) token (dom_status d) (dom_verified_at d) (dom_last_checked_at d) (dom_created_at d).

(** [INSERT INTO domains ... ON CONFLICT (name) DO UPDATE ... RETURNING] *)
Definition upsert_domain (name token : gostring) : statement (Z * gostring) := fun env db =>
  ensure (text_ok name && text_ok token) invalid_text
  match find_domain name db with
  | Some (id, d) => Ok ((id, token), set_domains <[id := with_token token d]> db)
  | None =>
      let id := next_id (domains db) in
      Ok ((id, token), set_domains <[id := DomainRec name token dom_pending None None (se_now env)]> db)
  end.

(** [dkim.Generate], which draws the key and then the nonce. *)
Definition generate_pair (k : Crypto.Keeper) (selector : gostring) : prog (result KeyPair) :=
  let! gen := perform Entropy in
  let! nonce := perform Entropy in
  Ret (Dkim.Generate k selector gen nonce).

Definition no_master_key : error :=
  errors_New (str "AIEMAIL_DKIM_MASTER_KEY is required to generate a signing key; generate one with: aiemail keygen").

(** From the check of the master key on. *)
Definition add_key (masterKey : gostring) (id : Z) (db : Store) : prog (result KeyPair) :=
  if bool_decide (masterKey = []) then Ret (Err no_master_key)
  else
    try! keeper := Ret (NewEnvelopeKeeper masterKey) in
    let! now := perform Now in
    try! keyPair := generate_pair keeper (format_month now) in
    try! _ := CreateSigningKey db id (kp_Selector keyPair) (kp_Algorithm keyPair) (kp_WrappedSecret keyPair)
                (kp_PublicRecord keyPair) in
    Ret (Ok keyPair).

(** The stored token and the public half of the domain's new key. *)
Definition add_domain (masterKey domain : gostring) (db : Store) : prog (result (gostring * KeyPair)) :=
  try! token := verificationToken in
  try! (id, stored) := exec (upsert_domain domain token) in
  try! keyPair := add_key masterKey id db in
  Ret (Ok (stored, keyPair)).

Definition txt_record (name value : gostring) : gostring :=
  str "  " ++ name ++ str "   TXT   " ++ in_quotes value.

Definition domain_report (domain stored : gostring) (keyPair : KeyPair) : gostring :=
  lines [str "Domain " ++ domain ++ str " registered, awaiting DNS proof."; [];
         str "Publish these records:"; [];
         txt_record (str "_aiemail." ++ domain) stored; [];
         txt_record (DNSRecordName (kp_Selector keyPair) domain) (kp_PublicRecord keyPair); [];
         txt_record domain (str "v=spf1 include:" ++ domain ++ str " ~all"); [];
         txt_record (str "_dmarc." ++ domain) (str "v=DMARC1; p=none; rua=mailto:dmarc@" ++ domain); [];
         str "Start DMARC at p=none, read the reports, and move to quarantine then reject";
         str "once you can see that legitimate mail passes."; []].

Definition runAddDomain (args : list gostring) : prog (result gostring) :=
  try! name := Ret (GoFlag.Parse (string_flag (str "name")) args []) in
  if is_blank name then Ret (Err (errors_New (str "-name is required")))
  else
    try! (cfg, _) := Ret boot in
    try! db := connect cfg in
    let domain := to_lower (trim_space name) in
    try! (stored, keyPair) := add_domain (cfg_DKIMMasterKey cfg) domain db in
    Ret (Ok (domain_report domain stored keyPair)).

(** ** webhooks add *)

Definition endpoint_report (ep : Endpoint) (secret : gostring) : gostring :=
  lines [str "Webhook endpoint registered."; [];
         str "  id      " ++ format_int (ep_ID ep);
         str "  url     " ++ ep_URL ep;
         str "  secret  " ++ base64_std_encode secret; [];
         str "Verify every delivery with this secret. An unsigned webhook is";
         str "indistinguishable from a forged one, and requests carry a signature over the";
         str "method, target, body digest, and creation time with a five minute window."; []].

Definition add_webhook (target : gostring) (db : Store) : prog (result (Endpoint * gostring)) :=
  let! e := perform Entropy in
  match Keys.rand_read 32 e with
  | Err err => Ret (Err (wrap_w (str "generating endpoint secret") err))
  | Ok secret =>
      try! endpoint := CreateEndpoint db target secret in
      Ret (Ok (endpoint, secret))
  end.

Definition runAddWebhook (args : list gostring) : prog (result gostring) :=
  try! target := Ret (GoFlag.Parse (string_flag (str "url")) args []) in
  if is_blank target then Ret (Err (errors_New (str "-url is required")))
  else match ValidateURL target with
  | Err e => Ret (Err (wrap_w (str "that destination cannot be used") e))
  | Ok _ =>
    try! (cfg, _) := Ret boot in
    try! db := connect cfg in
    try! (endpoint, secret) := add_webhook target db in
    Ret (Ok (endpoint_report endpoint secret))
  end.

(** ** keygen and console password *)

Definition runKeygen : prog (result gostring) :=
  Do Entropy (fun e => Ret
    match Keys.rand_read 32 e with
    | Err err => Err (wrap_w (str "generating master key") err)
    | Ok key =>
        Ok (lines [str "AIEMAIL_DKIM_MASTER_KEY=" ++ base64_std_encode key; [];
                   str "Store this in your secret manager, not in a file beside the database. Losing";
                   str "it means every signing key must be regenerated and every DKIM record";
                   str "republished; leaking it means an attacker can sign mail as your domains."; []])
    end).

Definition runConsolePassword (args : list gostring) : prog (result gostring) :=
  try! password := Ret (GoFlag.Parse (string_flag (str "password")) args []) in
  if is_blank password then Ret (Err (errors_New (str "-password is required")))
  else
    try! hash := HashPassword password in
    Ret (Ok (lines [str "AIEMAIL_CONSOLE_PASSWORD_HASH=" ++ hash; [];
                    str "Set this in the environment to enable the console at /console. Without it the";
                    str "console is not served at all."; []])).

(** ** serve and worker *)

(** The console, when a password is configured. *)
Definition configured_console (cfg : Config) (db : Store) : result (option Console) :=
  if bool_decide (cfg_ConsolePasswordHash cfg = []) then Ok None
  else
    let? hash := ParsePasswordHash (cfg_ConsolePasswordHash cfg) in
    Ok (Some (NewConsole (console_store db)
      {| o_PasswordHash := hash; o_Secure := cfg_ConsoleSecureCookies cfg; o_Env := cfg_Env cfg;
         o_Version := version; o_SendEnabled := cfg_SendEnabled cfg; o_MaxPerHour := cfg_MaxSendPerHour cfg |})).

(** What [runServe] listens with. *)
Record Serving := { srv_store : Store; srv_server : Server; srv_console : option Console }.

Definition runServe : prog (result Serving) :=
  try! (cfg, _) := Ret boot in
  try! db := connect cfg in
  try! db := Ret (attachKeeper db (cfg_DKIMMasterKey cfg)) in
  try! _ := SchemaVersion (cfg_DatabaseURL cfg) in
  try! ui := Ret (configured_console cfg db) in
  let! now := perform Now in
  Ret (Ok {| srv_store := db; srv_console := ui;
             srv_server := HttpApi.New cfg (store_pinger db) (store_key_api db) (store_message_api db) version now |}).

(** The handler of its [http.Server]. *)
Definition srv_handler `{ApiLib} (sv : Serving) (r : HTTPRequest) : cprog reply :=
  Server_Handler (srv_console sv) (srv_server sv) r.

(** The three loops [runWorker] starts. *)
Record Working := {
  wk_store : Store;
  wk_delivery : Worker;
  wk_webhooks : Dispatcher;
  wk_domains : DomainStore;
}.

Definition runWorker : prog (result Working) :=
  try! (cfg, _) := Ret boot in
  if negb (cfg_SendEnabled cfg) then
    Ret (Err (errors_New (str "sending is disabled on this deployment; set AIEMAIL_SEND_ENABLED=true to run the worker")))
  else
    try! db := connect cfg in
    try! db := Ret (attachKeeper db (cfg_DKIMMasterKey cfg)) in
    try! keeper := Ret (NewEnvelopeKeeper (cfg_DKIMMasterKey cfg)) in
    Ret (Ok {| wk_store := db;
               wk_delivery := wired db (NewEngine (cfg_EngineURL cfg)) keeper
                 (Unsubscribe.DeriveSecret (cfg_DKIMMasterKey cfg)) (cfg_PublicBaseURL cfg) (cfg_MaxSendPerHour cfg);
               wk_webhooks := NewDispatcher (store_webhooks db) {| ws_Send := WebhookSend.Sender_Send |};
               wk_domains := store_domains db |}).

(** They run beside each other until the context ends; each for at most [ticks]
    ticks here. *)
Definition wk_loops (wk : Working) (ticks : nat) : list (prog bool) :=
  [Run (wk_delivery wk) ticks; Dispatcher_Run (wk_webhooks wk) ticks; DomainChecker_Run (wk_domains wk) ticks].

(** ** The subcommands *)

Inductive outcome := Printed (text : gostring) | Serve (s : Serving) | Work (w : Working).

Definition printing (p : prog (result gostring)) : prog (result outcome) :=
  try! text := p in Ret (Ok (Printed text)).

Definition usage_of (command : gostring) : prog (result outcome) :=
  Ret (Err (errors_New (str "usage: aiemail " ++ command))).

(** [args] is [os.Args] without the program's name. *)
Definition run_command (args : list gostring) : prog (result outcome) :=
  let mode := default (str "serve") (head args) in
  let sub := head (tail args) in
  let rest := drop 2 args in
  if bool_decide (mode = str "version") then Ret (Ok (Printed (lines [version])))
  else if bool_decide (mode = str "serve") then try! s := runServe in Ret (Ok (Serve s))
  else if bool_decide (mode = str "worker") then try! w := runWorker in Ret (Ok (Work w))
  else if bool_decide (mode = str "keys") then
    if bool_decide (sub = Some (str "create")) then printing (runCreateKey rest)
    else usage_of (str "keys create -name NAME")
  else if bool_decide (mode = str "domains") then
    if bool_decide (sub = Some (str "add")) then printing (runAddDomain rest)
    else usage_of (str "domains add -name DOMAIN")
  else if bool_decide (mode = str "webhooks") then
    if bool_decide (sub = Some (str "add")) then printing (runAddWebhook rest)
    else usage_of (str "webhooks add -url URL")
  else if bool_decide (mode = str "console") then
    if bool_decide (sub = Some (str "password")) then printing (runConsolePassword rest)
    else usage_of (str "console password")
  else if bool_decide (mode = str "keygen") then printing runKeygen
  else if bool_decide (mode ∈ str <$> ["help"; "-h"; "--help"]%string) then Ret (Ok (Printed []))
  else Ret (Err (errors_New (str "unknown command " ++ quote mode))).

(** ** Lemmas *)

Lemma find_domain_None name db :
  find_domain name db = None -> forall id d, domains db !! id = Some d -> dom_name d <> name.
Proof.
  unfold find_domain. destruct (base.filter _ _) as [|x l] eqn:E; [|done]. intros _ id d Hd Hn.
  assert ((id, d) ∈ base.filter (fun x : Z * domain_row => dom_name x.2 = name) (rows (domains db))) as Hin.
  { apply list_elem_of_filter. split; [done|]. by apply elem_of_rows. }
  rewrite E in Hin. by apply elem_of_nil in Hin.
Qed.

Lemma find_domain_Some name db id d :
  find_domain name db = Some (id, d) -> domains db !! id = Some d /\ dom_name d = name.
Proof. intros [Hn Hd%elem_of_rows]%head_Some_elem_of%list_elem_of_filter. done. Qed.

Lemma read_only_connect cfg : read_only (connect cfg).
Proof. unfold connect. eauto with reading. Qed.

End Admin.

(** ** Key lifetimes *)

Lemma key_lifetime_capped days : 0 < key_lifetime days <= Keys.MaxLifetime.
Proof.
  assert (Hour = 3600000000000) as HH by done.
  unfold key_lifetime, Keys.Lifetime, Keys.DefaultLifetime, Keys.MaxLifetime. rewrite HH. split_ifs; boolify; lia.
Qed.

Lemma key_duration_exact days : - 106751 <= days <= 106751 ->
  wrap_int64 (wrap_int64 (days * 24) * Hour) = days * 24 * Hour.
Proof.
  intros Hd. unfold wrap_int64, Hour, Minute, Second, Millisecond, min_int64.
  rewrite (Z.mod_small (days * 24 - _)) by lia. rewrite Z.mod_small by lia. lia.
Qed.

Lemma key_lifetime_asked days : 1 <= days <= 365 -> key_lifetime days = days * 24 * Hour.
Proof.
  intros Hd. unfold key_lifetime. rewrite key_duration_exact by lia. assert (Hour = 3600000000000) as HH by done.
  unfold Keys.Lifetime, Keys.DefaultLifetime, Keys.MaxLifetime. rewrite ?HH. split_ifs; boolify; lia.
Qed.

Lemma key_lifetime_default days : - 106751 <= days <= 0 -> key_lifetime days = Keys.DefaultLifetime.
Proof.
  intros Hd. unfold key_lifetime. rewrite key_duration_exact by lia. assert (Hour = 3600000000000) as HH by done.
  unfold Keys.Lifetime, Keys.DefaultLifetime, Keys.MaxLifetime. rewrite ?HH. split_ifs; boolify; lia.
Qed.

(** Whatever number of days is asked for, the key lives for a positive time
    of at most a year: the asked one up to a year, and a year from there until the
    product leaves the 64 bits of a duration.  Beyond that it wraps around, and a
    request for 213504 days makes a key that lives for less than half an hour. *)
Theorem key_lifetime_bounds :
  (forall days, 0 < key_lifetime days <= Keys.MaxLifetime)
  /\ (forall days, 1 <= days <= 365 -> key_lifetime days = days * 24 * Hour)
  /\ (forall days, 365 <= days <= 106751 -> key_lifetime days = Keys.MaxLifetime)
  /\ (forall days, - 106751 <= days <= 0 -> key_lifetime days = Keys.DefaultLifetime)
  /\ key_lifetime 213504 < 30 * Minute.
Proof.
  split_and!; [apply key_lifetime_capped|apply key_lifetime_asked| |apply key_lifetime_default|by vm_compute].
  intros days Hd. unfold key_lifetime. rewrite key_duration_exact by lia. assert (Hour = 3600000000000) as HH by done.
  unfold Keys.Lifetime, Keys.DefaultLifetime, Keys.MaxLifetime. rewrite ?HH. split_ifs; boolify; lia.
Qed.
