(* ===== verification/Lifecycle.v ===== *)
(** * cmd/aiemail/main.go: how the process ends

    [run_command] of Admin.v answers what a mode has started.  Here that is taken to
    the exit of the process: [serve] waits for its listener or a signal and then
    shuts down, [worker] waits for its three loops, every other mode is over, and
    [main] turns the result into the exit code and the line on standard error. *)

From S2P Require Import Keys Unsubscribe.
From S2P Require Import Prelude Utf8 GoStrings Crypto Schema Program Mail Dkim Config Console HttpApi Mux Worker Admin.
Local Open Scope Z_scope.
Local Open Scope go_scope.

Definition ErrServerClosed : error := Error (Some http_ErrServerClosed) (str "http: Server closed").

(** ** The listening server *)

(** The [http.Server] of [runServe], its handler apart. *)
Record http_Server := {
  hs_Addr : gostring;
  hs_ReadHeaderTimeout : Z;
  hs_ReadTimeout : Z;
  hs_WriteTimeout : Z;
  hs_IdleTimeout : Z;
  hs_MaxHeaderBytes : Z;
}.

Definition http_server (cfg : Config) : http_Server :=
  {| hs_Addr := cfg_ListenAddr cfg; hs_ReadHeaderTimeout := 10 * Second; hs_ReadTimeout := 30 * Second;
     hs_WriteTimeout := 60 * Second; hs_IdleTimeout := 120 * Second; hs_MaxHeaderBytes := Z.shiftl 1 20 |}.

(** What the serving process meets, in the order its [select] sees it:
    [ListenAndServe] returns, or SIGINT or SIGTERM arrives. *)
Inductive happening := ListenReturned (err : option error) | SignalReceived.

Inductive selected := FromErrCh (err : error) | ContextDone.

(** The goroutine around [ListenAndServe]: what it sends to [errCh]. *)
Definition errCh_gets (err : option error) : option error :=
  match err with
  | Some e => if errors_Is e http_ErrServerClosed then None else Some e
  | None => None
  end.

(** The [select]; [None] while it waits. *)
Fixpoint select_first (l : list happening) : option selected :=
  match l with
  | [] => None
  | SignalReceived :: _ => Some ContextDone
  | ListenReturned err :: l =>
      match errCh_gets err with Some e => Some (FromErrCh e) | None => select_first l end
  end.

(** [shutdown] is what [srv.Shutdown] answers within the grace period. *)
Definition serve_end (l : list happening) (shutdown : result ()) : option (result ()) :=
  (fun s => match s with
            | FromErrCh e => Err (wrap_w (str "server failed") e)
            | ContextDone =>
                match shutdown with
                | Err e => Err (wrap_w (str "graceful shutdown failed") e)
                | Ok _ => Ok tt
                end
            end) <$> select_first l.

(** ** The worker *)

(** Each loop's end is logged when it is an error, and [wg.Wait] returns when all
    three have ended. *)
Definition worker_end (loops : list (option (result ()))) : option (result ()) :=
  if forallb (fun l => bool_decide (is_Some l)) loops then Some (Ok tt) else None.

(** ** main *)

Record exit := Exit { ex_code : Z; ex_stdout : gostring; ex_stderr : gostring }.

Definition usage_text : gostring := lines
  ([str "aiemail — AI-Email server"; []]
   ++ (str <$> ["Usage:";
      "  aiemail serve          Serve the REST API";
      "  aiemail worker         Run background delivery and event work";
      "  aiemail keys create    Issue an API key (shown once)";
      "  aiemail domains add    Register a sending domain";
      "  aiemail version        Print the build version"]%string)
   ++ [[]; str "Configuration comes from the environment; see docs/."]).

(** Whether [run] prints the usage. *)
Definition prints_usage (args : list gostring) : bool :=
  match args with
  | [] => false
  | mode :: _ => negb (bool_decide (mode ∈ str <$>
      ["version"; "serve"; "worker"; "keys"; "domains"; "webhooks"; "console"; "keygen"]%string))
  end.

Record ending := {
  en_happenings : list happening;
  en_shutdown : result ();
  en_loops : list (option (result ()));
}.

(** What [run] returns, with what was printed; [None] while the process runs. *)
Definition run_end (started : result outcome) (en : ending) : option (result gostring) :=
  match started with
  | Err e => Some (Err e)
  | Ok (Printed text) => Some (Ok text)
  | Ok (Serve _) => (fun r => let? _ := r in Ok []) <$> serve_end (en_happenings en) (en_shutdown en)
  | Ok (Work _) => (fun r => let? _ := r in Ok []) <$> worker_end (en_loops en)
  end.

Definition main (args : list gostring) (started : result outcome) (en : ending) : option exit :=
  let usage := if prints_usage args then usage_text else [] in
  (fun r => match r with
            | Ok text => Exit 0 text usage
            | Err e => Exit 1 [] (usage ++ lines [str "aiemail: " ++ err_text e])
            end) <$> run_end started en.

(** ** Properties *)

Lemma select_first_done l :
  select_first l = Some ContextDone <->
  exists before after, l = before ++ SignalReceived :: after
    /\ Forall (fun h => exists err, h = ListenReturned err /\ errCh_gets err = None) before.
Proof.
  split.
  - induction l as [|[err|] l IH]; cbn [select_first]; [done| |].
    + destruct (errCh_gets err) eqn:E; [done|]. intros (before & after & -> & Hb)%IH.
      exists (ListenReturned err :: before), after. split; [done|]. constructor; [eauto|done].
    + intros _. by exists [], l.
  - intros (before & after & -> & Hb). induction Hb as [|h before (err & -> & E) _ IH]; [done|].
    cbn [app select_first]. by rewrite E.
Qed.

(** A serving process exits with 0 exactly when it was asked to stop before its
    listener failed and everything in flight was answered within the grace. *)
Lemma serve_exit args sv en :
  prints_usage args = false ->
  main args (Ok (Serve sv)) en = Some (Exit 0 [] [])
  <-> en_shutdown en = Ok tt
      /\ exists before after, en_happenings en = before ++ SignalReceived :: after
           /\ Forall (fun h => exists err, h = ListenReturned err /\ errCh_gets err = None) before.
Proof.
  intros Hu. rewrite <- select_first_done. unfold main, run_end, serve_end. rewrite Hu.
  destruct (select_first _) as [[e|]|]; cbn; [|destruct (en_shutdown en) as [[]|]; cbn|]; naive_solver.
Qed.
