(* ===== verification/Soundness.v ===== *)
(** * Every program keeps the integrity of the tables

    The handlers of the API, the console's routes, the background loops
    and every subcommand are built from the store's operations; Integrity.v
    shows that those keep the tables well formed, here it is carried through the
    programs, whatever faults they meet and whatever else writes meanwhile that
    keeps them well formed too. *)

From S2P Require Import Keys Unsubscribe.
From S2P Require Import Prelude Utf8 GoStrings Crypto Schema Program Mail Dkim Netguard HttpClient Config Delivery.
From S2P Require Import StoreRecipients Reading StoreConn StoreQueue StoreMessages StoreWebhooks StoreKeys Integrity.
From S2P Require Import StoreConsole ConsoleAuth Console ConsoleSafety HttpApi Acceptance Mux Worker Background Protocol Admin.
Local Open Scope Z_scope.
Local Open Scope go_scope.

(** Cuts a program at its sequencing and its branches. *)
Ltac keep :=
  repeat first
    [ done
    | solve [eauto with keeping reading nocore]
    | apply keeps_bind; [|intros ?]
    | apply keeps_and_then; [|intros ?]
    | apply keeps_for_each; intros ?
    | apply keeps_perform; exact I
    | match goal with
      | |- keeps _ (match ?x with _ => _ end) => destruct x
      | |- keeps _ (Do _ _) => split; [exact I|intros ?]
      end ].

#[export] Hint Resolve read_only_keeps : keeping.

Section Soundness.
Context `{UnicodeTables} `{GoRuntime} `{UrlLib} `{ApiLib} `{Postgres} `{JsonErrors} `{DbLib}.
Context `{AEAD} `{DkimLib} `{Argon2}.

Notation kept := (keeps integrity).

(** ** The API *)

Section Api.
Context (cfg : Config) (st : Store) (version : gostring) (started : Z).
Let srv := api cfg st version started.

Lemma kept_requireKey scope next r :
  (forall key r, kept (next key r)) -> kept (requireKey srv scope next r).
Proof.
  intros Hn. unfold requireKey. keep. apply read_only_keeps, read_only_APIKeyByHash.
Qed.

Lemma kept_handleSend key r : kept (handleSend srv key r).
Proof.
  unfold handleSend. keep.
  - apply read_only_keeps, read_only_buildMessage.
  - apply read_only_keeps, read_only_quota.
  - apply keeps_EnqueueMessage.
Qed.

Lemma kept_handleUnsubscribe token r : kept (handleUnsubscribe srv token r).
Proof. unfold handleUnsubscribe. keep. apply keeps_Suppress. Qed.

Lemma kept_handleGetMessage id key r : kept (handleGetMessage srv id key r).
Proof. apply read_only_keeps, read_only_bind; [apply read_only_MessageByID|done]. Qed.

Lemma kept_handleReady r : kept (handleReady srv r).
Proof. apply read_only_keeps, read_only_bind; [apply read_only_Ping|done]. Qed.

#[local] Hint Resolve kept_requireKey kept_handleSend kept_handleUnsubscribe kept_handleGetMessage
  kept_handleReady : keeping.

Lemma kept_route r : kept (route srv r).
Proof. unfold route, no_goroutine. keep. Qed.

Lemma kept_recordKeyUse r id : kept (recordKeyUse srv r id).
Proof. unfold recordKeyUse. keep. apply keeps_TouchAPIKey. Qed.

End Api.

(** ** The background loops *)

Section Delivery.
Context (s : Store) (e : Engine) (k : Crypto.Keeper) (secret url : gostring) (ceiling : Z).
Let w := wired s e k secret url ceiling.

Lemma kept_Engine_Send msg : kept (Engine_Send e msg).
Proof.
  unfold Engine_Send. destruct (json_message _); [|done]. destruct (new_request _ _ _); [|done].
  apply read_only_keeps, read_only_bind; [apply talks_read_only, engine_do_talks|done].
Qed.

Lemma kept_Signer_Sign key message : kept (Signer_Sign k key message).
Proof. unfold Signer_Sign. keep. Qed.

Lemma kept_SigningKey mid : kept (SigningKeyForMessage s mid).
Proof. apply keeps_stmt; [|done]. apply reads_keeps, reads_ensure. by intros env db a db' [= _ <-]. Qed.

Lemma kept_sent : kept (SentInLastHour s).
Proof. apply read_only_keeps, read_only_exec, reads_query. Qed.

#[local] Hint Resolve kept_Engine_Send kept_Signer_Sign kept_SigningKey kept_sent : keeping.

Lemma kept_publish mid ev reason attempt : kept (publish w mid ev reason attempt).
Proof. unfold publish; cbn [w wired w_events store_events ep_EnqueueDelivery]. keep. Qed.

#[local] Hint Resolve kept_publish : keeping.

Lemma kept_fail msg reason : kept (fail w msg reason).
Proof. unfold fail; cbn [w wired w_queue store_queue q_MarkFailed]. keep. by apply keeps_transition. Qed.

Lemma kept_suppress_bad msg reason : kept (suppressIfAddressIsBad w msg reason).
Proof. unfold suppressIfAddressIsBad; cbn [w wired w_suppressions store_suppressor sp_Suppress]. keep. Qed.

Lemma kept_sign msg : kept (sign w msg).
Proof. unfold sign; cbn [w wired w_signer w_keys store_keys dkim_signer ks_SigningKeyForMessage ms_Sign ks_MarkSigned]. keep. Qed.

#[local] Hint Resolve kept_fail kept_suppress_bad kept_sign : keeping.

Lemma kept_deliver msg : kept (deliver w msg).
Proof.
  unfold deliver. keep; cbn [w wired w_sender w_queue engine_sender store_queue snd_Send q_MarkSent q_MarkDeferred];
    eauto with keeping.
Qed.

#[local] Hint Resolve kept_deliver : keeping.

Lemma kept_tick : kept (tick w).
Proof.
  unfold tick. keep; cbn [w wired w_queue store_queue q_SentInLastHour q_ClaimMessages]; eauto with keeping.
Qed.

Lemma kept_Run ticks : kept (Worker.Run w ticks).
Proof. induction ticks as [|n IH]; [done|]. cbn [Worker.Run]. apply keeps_bind; [apply kept_tick|intros r]. keep. Qed.

End Delivery.

Lemma kept_Dispatcher_tick s : kept (Dispatcher_tick (NewDispatcher (store_webhooks s) webhook_sender)).
Proof.
  unfold Dispatcher_tick, Dispatcher_deliver, record_result; cbn [d_queue d_sender].
  keep; cbn [store_webhooks webhook_sender wq_ClaimDeliveries wq_MarkDeliverySucceeded wq_RescheduleDelivery
    wq_MarkDeliveryFailed ws_Send]; eauto with keeping. apply read_only_keeps, Sender_Send_read_only.
Qed.

Lemma kept_Dispatcher_Run s ticks : kept (Dispatcher_Run (NewDispatcher (store_webhooks s) webhook_sender) ticks).
Proof.
  induction ticks as [|n IH]; [done|]. cbn [Dispatcher_Run]. apply keeps_bind; [apply kept_Dispatcher_tick|].
  intros r. keep.
Qed.

Lemma kept_DomainChecker_tick s : kept (DomainChecker_tick (store_domains s)).
Proof.
  unfold DomainChecker_tick, check_domain, Verifier_Verify. keep; cbn [store_domains ds_DomainsDueForRecheck
    ds_MarkDomainVerified ds_SuspendDomain ds_TouchDomainCheck]; eauto with keeping.
  apply read_only_keeps, read_only_exec, reads_query.
Qed.

Lemma kept_DomainChecker_Run s ticks : kept (DomainChecker_Run (store_domains s) ticks).
Proof.
  induction ticks as [|n IH]; [done|]. cbn [DomainChecker_Run]. apply keeps_bind; [apply kept_DomainChecker_tick|].
  intros r. keep.
Qed.

(** ** The subcommands *)

Section Commands.
Context (version : gostring) (getenv : gostring -> gostring).

Lemma kept_upsert name token : stmt_keeps integrity (upsert_domain name token).
Proof.
  apply stmt_keeps_ensure. intros env db a db' _ Hdb. destruct (find_domain name db) as [[id d]|] eqn:E.
  - apply find_domain_Some in E as [Hd Hn]. intros [= _ <-]. apply integrity_domains; [done|..].
    + apply unique_insert; [apply (ok_domain_names _ Hdb)|]. cbn. intros j q Hq Hj.
      by eapply (ok_domain_names _ Hdb).
    + apply map_Forall_insert_2; [|apply (ok_domains _ Hdb)]. by destruct (ok_domains _ Hdb id d Hd).
    + apply grows_insert.
  - intros [= _ <-]. apply integrity_domains; [done|..].
    + apply unique_insert; [apply (ok_domain_names _ Hdb)|]. cbn. intros j q Hq Hj.
      by destruct (find_domain_None _ _ E j q Hq).
    + apply map_Forall_insert_2; [done|apply (ok_domains _ Hdb)].
    + apply grows_insert.
Qed.

Lemma kept_connect cfg : kept (connect cfg).
Proof. apply read_only_keeps, read_only_connect. Qed.

Lemma kept_create_key f db : kept (create_key f db).
Proof. unfold create_key, Keys.Generate. keep. Qed.

Lemma kept_add_domain master domain db : kept (add_domain master domain db).
Proof.
  unfold add_domain, verificationToken, add_key, generate_pair. keep. split; [apply kept_upsert|done].
Qed.

Lemma kept_add_webhook target db : kept (add_webhook target db).
Proof. unfold add_webhook. keep. Qed.

#[local] Hint Resolve kept_connect kept_create_key kept_add_domain kept_add_webhook : keeping.

Lemma kept_run_command args : kept (run_command version getenv args).
Proof.
  unfold run_command, printing, usage_of, runServe, runWorker, runCreateKey, runAddDomain, runAddWebhook,
    runKeygen, runConsolePassword, HashPassword. keep.
Qed.

End Commands.

(** ** The console *)

Definition cop_keeps {X : Set} (op : ceffect X) : Prop :=
  match op with Base op => op_keeps integrity op | Table _ => True end.

Fixpoint ckeeps {A} (p : cprog A) : Prop :=
  match p with
  | CRet _ => True
  | CDo op k => cop_keeps op /\ forall x, ckeeps (k x)
  end.

Definition crespects (e : cenv) : Prop := respects integrity (ce_env e).

Lemma ckeeps_bind {A B} (p : cprog A) (f : A -> cprog B) : ckeeps p -> (forall a, ckeeps (f a)) -> ckeeps (cbind p f).
Proof.
  intros Hp Hf. induction p as [a|X op k IH]; cbn in *; [done|].
  destruct Hp as [Ho Hk]. split; [done|]. intros x. apply IH, Hk.
Qed.

Lemma ckeeps_lift {A} (p : prog A) : kept p -> ckeeps (lift p).
Proof. induction p as [a|X op k IH]; cbn; [done|]. intros [Ho Hk]. split; [done|]. intros x. apply IH, Hk. Qed.

Lemma csem_keeps {X : Set} (op : ceffect X) e st :
  cop_keeps op -> crespects e -> integrity (db_in st) -> integrity (db_in (csem op e st).2).
Proof.
  intros Hop He Hst. unfold db_in, csem. destruct op as [X op|X f]; cbn in Hop.
  - pose proof (sem_keeps integrity op (ce_env e) (cw_world st) Hop He Hst) as Hk.
    destruct (sem op (ce_env e) (cw_world st)); exact Hk.
  - destruct (f _ _). cbn. by apply He.
Qed.

Lemma ckeeps_run {A} (p : cprog A) script st :
  ckeeps p -> Forall crespects script -> integrity (db_in st) -> integrity (db_in (final (crun p script st))).
Proof.
  revert script st. induction p as [a|X op k IH]; intros script st Hp Hs Hst; [done|].
  destruct Hp as [Hop Hk]. cbn [crun].
  assert (crespects (cpop script).1 /\ Forall crespects (cpop script).2) as [He Hs'].
  { destruct Hs; [split; [by intros ? ?|constructor]|done]. }
  destruct (cpop script) as [e rest]; cbn in He, Hs'.
  pose proof (csem_keeps op e st Hop He Hst) as Hdb. destruct (csem op e st) as [x st']. by apply IH.
Qed.

Ltac ckeep :=
  repeat first
    [ done
    | solve [auto with keeping nocore]
    | apply ckeeps_bind; [|intros ?]
    | apply ckeeps_lift
    | match goal with
      | |- ckeeps (match ?x with _ => _ end) => destruct x
      | |- ckeeps (CDo _ _) => split; [exact I|intros ?]
      end ].

Lemma ckeeps_key_views rows : ckeeps (key_views rows).
Proof. induction rows; cbn; [done|]. split; [done|]. intros now. by apply ckeeps_bind. Qed.

Lemma ckeeps_Routes s opts r p : Routes (NewConsole (console_store s) opts) r = Some p -> ckeeps p.
Proof.
  unfold Routes. repeat case_match; intros [= <-];
    unfold guard, guardPost, loginForm, login, create, setSessionCookie, logout, currentSession, listing, overview,
      domains_page, keys, messages_page_handler, suppressions_page, unsuppress, revokeKey, randomToken;
    ckeep; cbn [cn_store console_store cs_DashboardCounts cs_ListDomains cs_ListAPIKeys cs_ListMessages
      cs_ListSuppressions cs_Unsuppress cs_RevokeAPIKey];
    try apply ckeeps_key_views; eauto with keeping reading.
Qed.

(** Everything the server answers. *)
Lemma ckeeps_serve cfg st version started opts r :
  ckeeps (serve (NewConsole (console_store st) <$> opts) (api cfg st version started) r).
Proof.
  unfold serve, mux. apply ckeeps_bind; [done|]. intros x. apply ckeeps_bind; [|done].
  destruct (_ ≫= _) as [page|] eqn:Hpage.
  - destruct opts as [o|]; [|done]. apply ckeeps_bind; [eapply ckeeps_Routes, Hpage|done].
  - apply ckeeps_bind; [apply ckeeps_lift, kept_route|done].
Qed.

(** ** Properties *)

Definition preserved {A} (p : prog A) : Prop :=
  forall script w, Forall (respects integrity) script -> integrity (w_db w) -> integrity (db_of (run p script w)).

Definition cpreserved {A} (p : cprog A) : Prop :=
  forall script st, Forall crespects script -> integrity (db_in st) -> integrity (db_in (final (crun p script st))).

Lemma kept_preserved {A} (p : prog A) : kept p -> preserved p.
Proof. intros Hp script w. by apply keeps_run. Qed.

(** C5: The empty tables are well formed and every program keeps them so: the
    answer to any request, of the API or of the console, and the goroutines it
    starts, each background loop for any number of ticks, and any subcommand,
    whatever fails on the way and whatever else writes to the tables meanwhile, as
    long as that keeps them well formed as well. *)
Theorem integrity_preserved :
  integrity empty_db
  /\ (forall cfg st version started opts r,
        cpreserved (serve (NewConsole (console_store st) <$> opts) (api cfg st version started) r))
  /\ (forall cfg st version started r id, preserved (recordKeyUse (api cfg st version started) r id))
  /\ (forall s e k secret url ceiling n, preserved (Worker.Run (wired s e k secret url ceiling) n))
  /\ (forall s n, preserved (Dispatcher_Run (NewDispatcher (store_webhooks s) webhook_sender) n))
  /\ (forall s n, preserved (DomainChecker_Run (store_domains s) n))
  /\ (forall version getenv args, preserved (run_command version getenv args)).
Proof.
  split; [apply empty_integrity|]. split_and!; intros.
  - intros script w. apply ckeeps_run, ckeeps_serve.
  - apply kept_preserved, kept_recordKeyUse.
  - apply kept_preserved, kept_Run.
  - apply kept_preserved, kept_Dispatcher_Run.
  - apply kept_preserved, kept_DomainChecker_Run.
  - apply kept_preserved, kept_run_command.
Qed.

End Soundness.
