(* ===== verification/AdminSafety.v ===== *)
(** * What the subcommands guarantee

    A key that was issued opens the API until it expires; a domain that was
    registered proves itself once its record is published, and loses that proof
    when it is registered again; the server and the worker started from one
    environment understand each other. *)

From S2P Require Import Keys Unsubscribe.
From S2P Require Import Prelude Utf8 GoStrings Encoding Crypto Schema Program Mail Dkim Netguard Config.
From S2P Require Import GoTime StoreRecipients Reading StoreConn StoreQueue StoreMessages StoreKeys StoreWebhooks Integrity.
From S2P Require Import ConsoleAuth ConsoleSafety HttpApi Acceptance Worker Background Protocol Admin.
Local Open Scope Z_scope.
Local Open Scope go_scope.

(** ** Keys *)

Section Keys.
Context `{UnicodeTables} `{GoRuntime} `{UrlLib} `{ApiLib} `{JsonErrors} `{Postgres}.

(** A hash that is unique is found under its one row. *)
Lemma key_by_hash_unique db id row :
  unique key_secret_hash (api_keys db) -> api_keys db !! id = Some row ->
  key_by_hash (key_secret_hash row) db = Some (id, row).
Proof.
  intros Hu Hr. destruct (key_by_hash (key_secret_hash row) db) as [[id' row']|] eqn:E.
  - apply head_Some_elem_of, list_elem_of_filter in E as [Hh Hr'%elem_of_rows]. cbn in Hh.
    assert (id' = id) as -> by by eapply Hu. congruence.
  - by destruct (key_by_hash_None _ _ E _ _ Hr).
Qed.

(** A statement that answered, among quiet surroundings. *)
Lemma exec_wrapped_Ok {A : Set} prefix (q : statement A) script w a rest w' :
  quiet (pop script).1 -> run (exec_wrapped prefix q) script w = (Ok a, (rest, w')) ->
  exists env db', q env (w_db w) = Ok (a, db') /\ w_db w' = db' /\ rest = (pop script).2
    /\ w_clock w' = w_clock w + Z.of_N (e_delay (pop script).1) /\ se_now env = w_clock w'.
Proof.
  intros Hq. cbn. destruct (pop script) as [e s]; cbn in *. unfold sem, sem_at, sem_stmt. cbn. rewrite Hq.
  destruct (e_fault e); cbn; try done; destruct (q _ _) as [[a' db']|] eqn:E; cbn; try done.
  intros [= <- <- <-]. eauto 10.
Qed.

(** What a run of [create_key] that succeeded did. *)
Lemma create_key_Ok f st script w created secret :
  Forall quiet script ->
  let made := run (create_key f st) script w in
  result_of made = Ok (created, secret) ->
  exists raw row t, length raw = Keys.secretBytes /\ secret = Keys.secret_of raw
    /\ w_clock w <= t <= w_clock (world_of made)
    /\ created = api_key_of (k_ID created, row) /\ api_keys (db_of made) !! k_ID created = Some row
    /\ key_secret_hash row = Keys.Hash secret /\ key_scopes row = splitScopes (kf_scopes f)
    /\ key_expires_at row = timestamptz (t + key_lifetime (kf_days f)) /\ key_revoked_at row = None.
Proof.
  intros Hq. cbn zeta. unfold result_of, db_of, world_of, create_key.
  apply quiet_pop in Hq as [Hq1 Hq]. rewrite run_and_then. unfold Keys.Generate; cbn [run].
  destruct (pop script) as [e1 s1]; cbn -[CreateAPIKey] in *.
  destruct (Keys.rand_read _ _) as [raw|err] eqn:Er; [|done]. apply Keys.rand_read_length in Er.
  apply quiet_pop in Hq as [Hq2 Hq]. cbn [run bind perform]. destruct (pop s1) as [e2 s2]; cbn -[CreateAPIKey] in *.
  apply quiet_pop in Hq as [Hq3 _]. rewrite run_and_then.
  destruct (run (CreateAPIKey _ _) _ _) as [[k|err] [s3 w3]] eqn:E; [|done].
  apply exec_wrapped_Ok in E as (env & db' & E & Hdb & _ & Hc & _); [|done]. cbn -[api_key_of] in *.
  rewrite !ensure_Ok in E. destruct E as (_ & _ & _ & _ & [= <- <-]). intros [= <- <-].
  set (t := w_clock w + Z.of_N (e_delay e1) + Z.of_N (e_delay e2)) in *.
  exists raw, (APIKeyRec (kf_name f) (Keys.Display (Keys.secret_of raw)) (Keys.Hash (Keys.secret_of raw))
    (splitScopes (kf_scopes f)) (kf_quota f) (timestamptz (t + key_lifetime (kf_days f))) None None None (se_now env)), t.
  split_and!; try done.
  - lia.
  - rewrite Hc. pose proof (N2Z.is_nonneg (e_delay (pop s2).1)). lia.
  - cbn. rewrite Hdb, Hq1, Hq2. destruct (w_db w); cbn. apply lookup_insert_eq.
Qed.

Section Opens.
Context (cfg : Config) (st : Store) (version : gostring) (started : Z).
Let srv := api cfg st version started.

(** C8: A key that [keys create] has handed out opens the API.  As long as its
    row is there and hashes are unique, a request that presents the secret for one
    of the scopes the key was created with reaches the handler when it arrives
    before the key's expiry, and gets the one refusal afterwards.  The expiry is the
    moment of creation plus the key's lifetime, to the microsecond; that is the days
    asked for when they are 1 to 365, ninety when none or less are, and never more
    than a year.  (Days beyond what a duration holds wrap around: a finding.) *)
Theorem created_key_opens f script w created secret :
  Forall quiet script ->
  let made := run (create_key f st) script w in
  result_of made = Ok (created, secret) ->
  (exists t lifetime, w_clock w <= t <= w_clock (world_of made) /\ k_ExpiresAt created = timestamptz (t + lifetime)
     /\ 0 < lifetime <= 365 * 24 * Hour
     /\ (1 <= kf_days f <= 365 -> lifetime = kf_days f * 24 * Hour)
     /\ (- 106751 <= kf_days f <= 0 -> lifetime = 90 * 24 * Hour))
  /\ forall scope next r script' w',
       bearerToken r = Some secret -> scope ∈ splitScopes (kf_scopes f) ->
       unique key_secret_hash (api_keys (w_db w')) ->
       api_keys (w_db w') !! k_ID created = api_keys (db_of made) !! k_ID created ->
       Forall quiet script' -> e_fault (pop script').1 = NoFault ->
       let '(e1, rest) := pop script' in
       let '(e2, rest) := pop rest in
       let here := arrive e2 (arrive e1 w') in
       run (requireKey srv scope next r) script' w' =
       if w_clock here <? k_ExpiresAt created
       then run (let! response := next created r in Ret (response, [recordKeyUse srv r (k_ID created)])) rest here
       else (((unauthorized r, []) : HttpApi.Response * list (prog ())), (rest, here)).
Proof.
  intros Hq. cbn zeta. intros Hmade.
  destruct (create_key_Ok f st script w created secret Hq Hmade)
    as (raw & row & t & Hraw & Hsec & Ht & Hcr & Hrow & Hhash & Hsc & Hexp & Hrev).
  split.
  { exists t, (key_lifetime (kf_days f)). pose proof (key_lifetime_capped (kf_days f)) as [Hpos Hcap].
    split_and!; [apply Ht|apply Ht|by rewrite Hcr|exact Hpos|exact Hcap|apply key_lifetime_asked|apply key_lifetime_default]. }
  intros scope next r script' w' Hb Hin Hu Hsame Hq' Hf. rewrite Hrow in Hsame.
  unfold requireKey. rewrite Hb, Hsec, Keys.Parse_secret_of, <- Hsec by done. cbn.
  apply quiet_pop in Hq' as [Hq1 Hq']. destruct (pop script') as [e1 rest]; cbn in *.
  unfold sem, sem_at, sem_stmt. rewrite Hf. cbn. rewrite Hq1, <- Hhash, (key_by_hash_unique _ _ _ Hu Hsame). cbn.
  assert (set_db (w_db w') (arrive e1 w') = arrive e1 w') as -> by (unfold set_db, arrive; by rewrite Hq1).
  destruct (pop rest) as [e2 rest2]; cbn in *.
  assert (k_ExpiresAt created = key_expires_at row) as -> by by rewrite Hcr.
  unfold Expired, HasScope; cbn. rewrite Hrev, Hsc. cbn.
  destruct (Z.ltb_spec (w_clock w' + Z.of_N (e_delay e1) + Z.of_N (e_delay e2)) (key_expires_at row)); cbn; [|done].
  assert (existsb (fun s => bool_decide (s = scope)) (splitScopes (kf_scopes f)) = true) as ->.
  { apply List.existsb_exists. exists scope. split; [by apply list_elem_of_In|by apply bool_decide_eq_true]. }
  cbn. rewrite <- Hsc, <- Hrev. by rewrite <- Hcr.
Qed.

End Opens.
End Keys.

(** ** Domains *)

Section Domains.
Context `{UnicodeTables} `{GoRuntime} `{JsonErrors} `{Postgres} `{AEAD} `{DkimLib}.

Definition token_of_bytes (b : gostring) : gostring := token_prefix ++ to_lower (base32_encode b).

Definition plain_char (c : ascii) : bool :=
  (0 <? byte_val c) && (byte_val c <? 128) && negb (is_space (byte_val c)).

Lemma token_letters b : Forall (fun c => plain_char c = true) (token_of_bytes b).
Proof.
  assert (Forall (fun c => (byte_val c <? 128) && plain_char (byte_of (lower_rune (byte_val c))) = true) (base32_encode b))
    as Hb by (apply (encoded_letters_in _ 5); [lia|by vm_compute]).
  assert (is_ascii (base32_encode b) = true) as Ha.
  { apply forallb_Forall. eapply list.Forall_impl; [exact Hb|]. cbn. intros c Hc. by apply andb_true_iff in Hc as [? _]. }
  unfold token_of_bytes. rewrite to_lower_ascii by done. apply Forall_app. split.
  - apply forallb_Forall. by vm_compute.
  - apply Forall_fmap. eapply list.Forall_impl; [exact Hb|]. cbn. intros c Hc. by apply andb_true_iff in Hc as [_ ?].
Qed.

Lemma token_all (p : ascii -> bool) b : (forall c, plain_char c = true -> p c = true) -> forallb p (token_of_bytes b) = true.
Proof. intros Hp. apply forallb_Forall. eapply list.Forall_impl; [apply token_letters|done]. Qed.

(** A token is plain text: what a resolver answers compares equal to it. *)
Lemma token_plain b : trim_space (token_of_bytes b) = token_of_bytes b /\ trim_space (token_of_bytes b) <> [].
Proof.
  assert (trim_space (token_of_bytes b) = token_of_bytes b) as E; [|split; [done|]; by rewrite E].
  apply trim_space_plain; apply token_all; unfold plain_char; intros c; boolify; tauto.
Qed.

Lemma token_text_ok b : text_ok (token_of_bytes b) = true.
Proof.
  unfold text_ok. apply andb_true_iff. split; [apply valid_utf8_ascii|]; apply token_all; unfold plain_char;
    intros c; boolify; [tauto|lia].
Qed.

(** The record that was asked for proves the domain, among whatever others. *)
Lemma token_proves old domain b l :
  trim_space domain <> [] -> token_of_bytes b ∈ l -> status_after old domain (token_of_bytes b) (Records l) = dom_verified.
Proof.
  intros Hd Hl. destruct (token_plain b) as [E Hn]. unfold status_after.
  rewrite !bool_decide_eq_false_2 by done. cbn [orb].
  assert (existsb (fun r => bool_decide (trim_space r = token_of_bytes b)) l = true) as ->; [|done].
  apply List.existsb_exists. exists (token_of_bytes b). split; [by apply list_elem_of_In|].
  by apply bool_decide_eq_true.
Qed.

(** What the checker picks up: rows of the table, of the two statuses it looks at. *)
Lemma due_rows s script w due rest dp :
  Forall quiet script ->
  run (DomainsDueForRecheck s domainRecheckInterval domainBatch) script w = (Ok due, rest) -> dp ∈ due ->
  w_db rest.2 = w_db w /\ exists d, domains (w_db w) !! dp_ID dp = Some d
    /\ dp_Name dp = dom_name d /\ dp_Token dp = dom_token d
    /\ (dom_status d = dom_verified \/ dom_status d = dom_pending).
Proof.
  intros Hq. destruct rest as [s1 w1]. unfold DomainsDueForRecheck. intros E Hin.
  apply quiet_pop in Hq as [Hq _]. apply exec_wrapped_Ok in E as (env & db' & E & Hdb & _); [|done].
  injection E as <- <-. split; [done|]. apply list_elem_of_fmap in Hin as ([id d] & -> & Hin). exists d. cbn.
  apply elem_of_take in Hin as (i & Hi & _). apply list_elem_of_lookup_2 in Hi. rewrite order_by_perm in Hi.
  apply list_elem_of_filter in Hi as [Hdue Hrow%elem_of_rows]. cbn in Hdue. split_and!; [done..|].
  unfold domain_due in Hdue. apply andb_true_iff in Hdue as [Hs _]. by apply bool_decide_eq_true in Hs.
Qed.

Lemma stale_records_suspend old domain b l :
  Forall (fun record => trim_space record <> token_of_bytes b) l ->
  status_after old domain (token_of_bytes b) (Records l) = dom_suspended.
Proof.
  intros Hl. unfold status_after. case_match; [done|].
  induction Hl as [|record l Hr _ IH]; cbn; [done|]. by rewrite bool_decide_eq_false_2.
Qed.

(** What registering does to the table of domains. *)
Definition registered (domain token : gostring) (now id : Z) (before after : gmap Z domain_row) : Prop :=
  exists d, after = <[id := d]> before /\ dom_name d = domain /\ dom_token d = token
    /\ match before !! id with
       | Some d0 => d = with_token token d0
       | None => d = DomainRec domain token dom_pending None None now
       end.

Lemma upsert_domain_Ok domain token env db id stored db' :
  upsert_domain domain token env db = Ok ((id, stored), db') ->
  stored = token /\ registered domain token (se_now env) id (domains db) (domains db')
  /\ dkim_keys db' = dkim_keys db
  /\ (forall id' d, find_domain domain db = Some (id', d) -> id' = id).
Proof.
  unfold upsert_domain. rewrite ensure_Ok. intros [_ E]. destruct (find_domain domain db) as [[id' d]|] eqn:Ef.
  - apply find_domain_Some in Ef as [Hd Hn]. injection E as <- <- <-. split_and!; try done.
    + exists (with_token token d). destruct db; cbn in *. by rewrite Hd.
    + by destruct db.
    + by intros ? ? [= <- <-].
  - injection E as <- <- <-. split_and!; try done; [|by destruct db].
    eexists. destruct db; cbn. by rewrite next_id_fresh.
Qed.

(** A statement among quiet surroundings that answered. *)
Lemma sem_stmt_Ok {A : Set} (q : statement A) e w a w' :
  quiet e -> sem_stmt q e (arrive e w) = (Ok a, w') ->
  exists db', q (env_of e (arrive e w)) (w_db w) = Ok (a, db') /\ w' = set_db db' (arrive e w).
Proof.
  unfold sem_stmt. cbn. intros ->. destruct (e_fault e); cbn; try done;
    destruct (q _ _) as [[a' db']|] eqn:E; cbn; try done. intros [= <- <-]. eauto.
Qed.

(** The key a registration stores: of the domain, under the selector of the month,
    and usable by whoever holds the master key. *)
Definition stored_key (master : gostring) (id : Z) (kp : KeyPair) (now : Z) (row : dkim_row) : Prop :=
  dk_domain_id row = id /\ dk_active row = true /\ dk_selector row = format_month now
  /\ kp_Selector kp = format_month now /\ dk_public_record row = kp_PublicRecord kp
  /\ forall k, NewEnvelopeKeeper master = Ok k ->
       exists priv, unwrapSigner k (dk_algorithm row) (dk_wrapped_secret row) = Ok (Ed25519Key priv).

Lemma NewEnvelopeKeeper_law master k : NewEnvelopeKeeper master = Ok k -> KeeperLaw k.
Proof. unfold NewEnvelopeKeeper. case_match; [done|]. intros [= <-]. apply _. Qed.

Lemma add_key_Ok master id st script w kp rest w' :
  Forall quiet script -> run (add_key master id st) script w = (Ok kp, (rest, w')) ->
  exists now kid row, w_clock w <= now <= w_clock w' /\ domains (w_db w') = domains (w_db w)
    /\ dkim_keys (w_db w) !! kid = None /\ dkim_keys (w_db w') = <[kid := row]> (dkim_keys (w_db w))
    /\ stored_key master id kp now row.
Proof.
  intros Hq. unfold add_key. case_bool_decide; [done|]. rewrite run_and_then; cbn [run].
  destruct (NewEnvelopeKeeper master) as [k|] eqn:Ek; [|done]. apply NewEnvelopeKeeper_law in Ek as Hlaw.
  apply quiet_pop in Hq as [Hq3 Hq]. cbn [run bind perform]. destruct (pop script) as [e3 s3]; cbn [fst snd sem sem_at] in *.
  apply quiet_pop in Hq as [Hq4 Hq]. rewrite run_and_then. unfold generate_pair; cbn [run bind perform].
  destruct (pop s3) as [e4 s4]; cbn [fst snd sem sem_at] in *.
  apply quiet_pop in Hq as [Hq5 Hq]. destruct (pop s4) as [e5 s5]; cbn [fst snd sem sem_at] in *.
  destruct (Dkim.Generate _ _ _ _) as [kp'|] eqn:Eg; [|done].
  apply (Generate_unwraps k) in Eg as (pub & priv & _ & Hun & Hsel & Halg).
  apply quiet_pop in Hq as [Hq6 _]. rewrite run_and_then.
  destruct (run (CreateSigningKey _ _ _ _ _ _) _ _) as [[sk|err] [s6 w6]] eqn:E; [|done].
  apply exec_wrapped_Ok in E as (env & db' & E & Hdb & _ & Hc & _); [|done]. cbn in Hdb, Hc, E.
  rewrite !ensure_Ok, Hq3, Hq4, Hq5 in E. destruct E as (_ & _ & _ & _ & [= _ <-]).
  cbn [run]. intros [= <- _ <-]. exists (w_clock (arrive e3 w)). eexists _, _. rewrite Hdb, Hc.
  split_and!; [cbn; lia|cbn; lia|by destruct (w_db w)|apply next_id_fresh|by destruct (w_db w)|].
  split_and!; try done. intros k'. rewrite Ek. intros [= <-]. by exists priv.
Qed.

Lemma taken_selector st id selector algorithm wrapped record script w kid key :
  quiet (pop script).1 -> dkim_keys (w_db w) !! kid = Some key -> dk_domain_id key = id -> selector = dk_selector key ->
  exists err out, run (CreateSigningKey st id selector algorithm wrapped record) script w = (Err err, out)
    /\ w_db out.2 = w_db w.
Proof.
  intros Hq Hkey Hid ->. unfold CreateSigningKey, exec_wrapped; cbn [run].
  destruct (pop script) as [e s]; cbn [fst] in Hq. unfold sem, sem_at, sem_stmt; cbn. rewrite Hq.
  assert (existsb (fun x : Z * dkim_row => bool_decide (dk_domain_id x.2 = id /\ dk_selector x.2 = dk_selector key))
            (rows (dkim_keys (w_db w))) = true) as ->.
  { apply List.existsb_exists. exists (kid, key). split; [by apply list_elem_of_In, elem_of_rows|].
    by apply bool_decide_eq_true. }
  unfold ensure. destruct (e_fault e); cbn; repeat (case_match; cbn in *; try done); simplify_eq;
    (eexists _, _; split; [done|]; apply Hq).
Qed.

(** A selector that is taken ends the command in an error and writes nothing. *)
Lemma add_key_refused master id st script w kid key :
  Forall quiet script -> dkim_keys (w_db w) !! kid = Some key -> dk_domain_id key = id ->
  dk_selector key = format_month (w_clock w + Z.of_N (e_delay (pop script).1)) ->
  (exists err, result_of (run (add_key master id st) script w) = Err err)
  /\ w_db (world_of (run (add_key master id st) script w)) = w_db w.
Proof.
  intros Hq Hkey Hid Hsel. unfold result_of, world_of, add_key. case_bool_decide; [eauto|].
  rewrite run_and_then; cbn [run]. destruct (NewEnvelopeKeeper master) as [k|]; [|eauto].
  apply quiet_pop in Hq as [Hq1 Hq]. cbn [run bind perform]. destruct (pop script) as [e1 s1]; cbn [fst snd sem sem_at] in *.
  apply quiet_pop in Hq as [Hq2 Hq]. rewrite run_and_then. unfold generate_pair; cbn [run bind perform].
  destruct (pop s1) as [e2 s2]; cbn [fst snd sem sem_at] in *.
  apply quiet_pop in Hq as [Hq3 Hq]. destruct (pop s2) as [e3 s3]; cbn [fst snd sem sem_at] in *.
  set (w3 := arrive e3 _). assert (w_db w3 = w_db w) as Hw3 by (cbn; by rewrite Hq1, Hq2, Hq3).
  destruct (Dkim.Generate _ _ _ _) as [kp|] eqn:Eg; [|by split; [eexists|]].
  assert (kp_Selector kp = dk_selector key) as Hs.
  { rewrite Hsel. revert Eg. unfold Dkim.Generate. repeat (case_match; try done). by intros [= <-]. }
  apply quiet_pop in Hq as [Hq4 _]. rewrite run_and_then.
  destruct (taken_selector st id (kp_Selector kp) (kp_Algorithm kp) (kp_WrappedSecret kp) (kp_PublicRecord kp)
              s3 w3 kid key) as (err & [s4 w4] & -> & Hdb); [done|by rewrite Hw3|done..|].
  split; [by exists err|]. cbn in *. by rewrite <- Hw3.
Qed.

Lemma add_domain_Ok master domain st script w stored kp :
  Forall quiet script ->
  let out := run (add_domain master domain st) script w in
  result_of out = Ok (stored, kp) ->
  exists b id t now,
    stored = token_of_bytes b /\ w_clock w <= now <= w_clock (world_of out)
    /\ registered domain stored t id (domains (w_db w)) (domains (db_of out))
    /\ (forall id' d, find_domain domain (w_db w) = Some (id', d) -> id' = id)
    /\ exists kid row, dkim_keys (w_db w) !! kid = None
         /\ dkim_keys (db_of out) = <[kid := row]> (dkim_keys (w_db w)) /\ stored_key master id kp now row.
Proof.
  intros Hq. cbn zeta. unfold result_of, db_of, world_of, add_domain.
  apply quiet_pop in Hq as [Hq1 Hq]. rewrite run_and_then. unfold verificationToken; cbn [run].
  destruct (pop script) as [e1 s1]; cbn [fst snd sem sem_at] in *.
  destruct (Keys.rand_read 20 (e_entropy e1)) as [b|err]; [|done].
  apply quiet_pop in Hq as [Hq2 Hq]. rewrite run_and_then, run_exec.
  destruct (pop s1) as [e2 s2]; cbn [fst snd] in *.
  destruct (sem_stmt _ e2 _) as [[[id stored']|err] w2] eqn:E; [|done].
  apply sem_stmt_Ok in E as (db2 & E & ->); [|done]. cbn in E. rewrite Hq1 in E.
  apply upsert_domain_Ok in E as (-> & Hreg & Hkeys & Hid). rewrite run_and_then.
  destruct (run (add_key _ _ _) _ _) as [[kp'|err] [s3 w3]] eqn:E; [|done]. cbn [run]. intros [= <- <-].
  apply add_key_Ok in E as (now & kid & row & Hnow & Hdom & Hkid & Hk & Hst); [|done]. cbn in *.
  exists b, id, (w_clock (arrive e2 (arrive e1 w))), now. rewrite Hdom, Hk, Hkeys in *.
  split_and!; [done|lia|lia|done|done|by exists kid, row].
Qed.

(** What comes of publishing the records [l]: whenever the checker selects the domain
    (it does so only while it is pending or verified) and the lookup finds [l], its
    check leaves the domain in [status]. *)
Definition publishing_leaves (st : Store) (id : Z) (domain token : gostring) (l : list gostring)
    (status : domain_status) : Prop :=
  forall d s0 w0 due s1 w1 dp e1 rest,
    domains (w_db w0) !! id = Some d -> dom_name d = domain -> dom_token d = token ->
    Forall quiet s0 ->
    run (DomainsDueForRecheck st domainRecheckInterval domainBatch) s0 w0 = (Ok due, (s1, w1)) ->
    dp ∈ due -> dp_ID dp = id ->
    quiet e1 -> e_dns e1 = Records l -> quiet (pop rest).1 -> e_fault (pop rest).1 = NoFault ->
    dom_status d <> dom_suspended
    /\ status_in (w_db (world_of (run (check_domain (store_domains st) dp) (e1 :: rest) w1))) id = Some status.

Lemma token_publishing st id domain b l status :
  trim_space domain <> [] -> (forall old, status_after old domain (token_of_bytes b) (Records l) = status) ->
  publishing_leaves st id domain (token_of_bytes b) l status.
Proof.
  intros Hd Hafter d s0 w0 due s1 w1 dp e1 rest Hrow Hname Htok Hq0 Hdue Hin Hid Hq1 Hdns Hq2 Hf.
  destruct (due_rows st s0 w0 due _ dp Hq0 Hdue Hin) as (Hdb & d' & Hrow' & En & Et & Hst). cbn [snd] in Hdb.
  rewrite Hid, Hrow in Hrow'. injection Hrow' as <-. split; [by destruct Hst as [-> | ->]|].
  destruct (check_domain_status st dp e1 rest w1) as (_ & _ & Hc); [|done..|].
  { split; [by rewrite En, Hname|]. rewrite Et, Htok. apply token_plain. }
  rewrite <- Hid, (Hc Hf). unfold status_in. rewrite Hdb, Hid, Hrow. cbn. f_equal.
  by rewrite En, Et, Hname, Htok, Hdns.
Qed.

(** C15: A successful [domains add] changes one domain: it gets the printed token
    and keeps its name and, when it was known before, its status, so registering
    again does not lift a suspension; a new one is pending.  It stores one new
    signing key, active and of that domain, which unwraps under the master key to a
    private key.  From then on, while the domain has that token, every check of it
    that the checker makes (only while it is pending or verified, never when it is
    suspended) and that finds the printed token published leaves it verified. *)
Theorem add_domain_correct master domain st script w stored kp :
  Forall quiet script -> trim_space domain <> [] ->
  let out := run (add_domain master domain st) script w in
  result_of out = Ok (stored, kp) ->
  exists id t now,
    w_clock w <= now <= w_clock (world_of out)
    /\ registered domain stored t id (domains (w_db w)) (domains (db_of out))
    /\ (forall id' d, find_domain domain (w_db w) = Some (id', d) -> id' = id)
    /\ (exists kid row, dkim_keys (w_db w) !! kid = None
          /\ dkim_keys (db_of out) = <[kid := row]> (dkim_keys (w_db w)) /\ stored_key master id kp now row)
    /\ forall l, stored ∈ l -> publishing_leaves st id domain stored l dom_verified.
Proof.
  intros Hq Hd. cbn zeta. intros Ho. destruct (add_domain_Ok master domain st script w stored kp Hq Ho)
    as (b & id & t & now & -> & Hc & Hr & Hf & Hk). exists id, t, now. split_and!; try done; try apply Hc.
  intros l Hl. apply token_publishing; [done|]. intros old. by apply token_proves.
Qed.

(** Registering a domain a second time in one month takes its proof away and
    then fails.  The token is replaced by the first statement; the signing key of
    that month exists already, so the command ends in an error and the new token is
    not printed; the next check of the domain that finds the records published before
    suspends it. *)
Theorem readd_domain_loses_proof master domain st e1 e2 e3 rest w id d kid key raw :
  Forall quiet (e1 :: e2 :: e3 :: rest) -> e_fault e2 = NoFault -> e_entropy e1 = Ok raw ->
  text_ok domain = true -> trim_space domain <> [] -> find_domain domain (w_db w) = Some (id, d) ->
  dkim_keys (w_db w) !! kid = Some key -> dk_domain_id key = id ->
  dk_selector key = format_month (w_clock w + Z.of_N (e_delay e1) + Z.of_N (e_delay e2) + Z.of_N (e_delay e3)) ->
  let out := run (add_domain master domain st) (e1 :: e2 :: e3 :: rest) w in
  (exists err, result_of out = Err err)
  /\ exists b, domains (db_of out) = <[id := with_token (token_of_bytes b) d]> (domains (w_db w))
       /\ forall l, Forall (fun record => trim_space record <> token_of_bytes b) l ->
            publishing_leaves st id domain (token_of_bytes b) l dom_suspended.
Proof.
  intros Hq Hf Hraw Htext Hblank Hfind Hkey Hkid Hsel. cbn zeta. inversion_clear Hq as [|? ? Hq1 Hq'].
  inversion_clear Hq' as [|? ? Hq2 Hq'']. inversion_clear Hq'' as [|? ? Hq3 Hq].
  unfold add_domain. rewrite run_and_then. unfold verificationToken; cbn [run pop sem sem_at].
  rewrite Hraw. cbn [Keys.rand_read]. set (b := take 20 _). change (token_prefix ++ _) with (token_of_bytes b).
  rewrite run_and_then, run_exec. cbn [pop]. unfold sem_stmt. rewrite Hf.
  change (w_db (arrive e2 (arrive e1 w))) with (e_others e2 (e_others e1 (w_db w))). rewrite Hq1, Hq2.
  unfold upsert_domain. rewrite Htext, token_text_ok, Hfind. cbn [andb ensure].
  set (db2 := set_domains _ _). set (w2 := set_db _ _). cbn [env_of].
  destruct (add_key_refused master id st (e3 :: rest) w2 kid key) as [[err Herr] Hdb];
    [by constructor|by subst w2 db2; destruct (w_db w)|done|done|].
  unfold result_of, db_of, world_of in *. rewrite run_and_then.
  destruct (run (add_key _ _ _) _ _) as [r [s4 w4]]; cbn in Herr, Hdb. rewrite Herr. cbn.
  split; [by exists err|]. exists b. rewrite Hdb. split; [by subst db2; destruct (w_db w)|].
  intros l Hl. apply token_publishing; [done|]. intros old. by apply stale_records_suspend.
Qed.

End Domains.

(** ** The two run modes *)

Section Modes.
Context `{UnicodeTables} `{GoRuntime} `{UrlLib} `{Postgres} `{JsonErrors} `{DbLib}.
Context `{AEAD} `{DkimLib} `{Argon2} (version : gostring) (getenv : gostring -> gostring).

Lemma connect_store cfg : returns (fun r => forall s, r = Ok s -> keeper s = None) (connect cfg).
Proof.
  unfold connect. eapply (returns_and_then _ (fun _ => True)); [|intros _ _; apply Open_store|done].
  eapply returns_weaken; [|apply returns_any]. done.
Qed.

(** The recipient lists one store packs are encrypted, and the other reads them. *)
Definition reads_what_is_packed (writer reader : Store) : Prop :=
  forall rand recipients p, Forall (fun s => valid_utf8 s = true) recipients ->
    packRecipients writer rand recipients = Ok p ->
    pk_clear p = None /\ unpackRecipients reader (pk_encrypted p) (pk_clear p) = Ok recipients.

(** The store of either mode: opened, with the keeper of the master key. *)
Definition mode_store (cfg : Config) (s : Store) : Prop :=
  exists db, keeper db = None /\ attachKeeper db (cfg_DKIMMasterKey cfg) = Ok s.

Lemma mode_store_unique cfg s s' : mode_store cfg s -> mode_store cfg s' -> s = s'.
Proof. intros ([k] & E & Hs) ([k'] & E' & Hs'). cbn in *. subst. congruence. Qed.

Lemma boot_Ok cfg l : boot getenv = Ok (cfg, l) -> Load getenv = inl cfg.
Proof. unfold boot. destruct (Load getenv); [|done]. by intros [= -> _]. Qed.

Lemma runServe_Ok :
  returns (fun r => forall sv, r = Ok sv -> exists cfg now, Load getenv = inl cfg /\ mode_store cfg (srv_store sv)
    /\ srv_server sv = HttpApi.New cfg (store_pinger (srv_store sv)) (store_key_api (srv_store sv))
         (store_message_api (srv_store sv)) version now
    /\ (srv_console sv = None <-> cfg_ConsolePasswordHash cfg = []))
    (runServe version getenv).
Proof.
  unfold runServe. eapply (returns_and_then _ (fun x => Load getenv = inl x.1)); [|intros [cfg l] Hcfg; cbn in Hcfg|done].
  { intros [cfg l]. apply boot_Ok. }
  eapply returns_and_then; [apply connect_store|intros db Hdb|done].
  eapply (returns_and_then _ (mode_store cfg)); [intros s Hs; by exists db|intros s Hs|done].
  eapply (returns_and_then _ (fun _ => True)); [|intros schema _|done].
  { eapply returns_weaken; [|apply returns_any]. done. }
  eapply (returns_and_then _ (fun ui => ui = None <-> cfg_ConsolePasswordHash cfg = [])); [|intros ui Hui|done].
  { intros ui. unfold configured_console. case_bool_decide; [by intros [= <-]|].
    destruct (ParsePasswordHash _); [|done]. by intros [= <-]. }
  intros now sv [= <-]. by exists cfg, now.
Qed.

Lemma runWorker_Ok :
  returns (fun r => forall wk, r = Ok wk -> exists cfg k, Load getenv = inl cfg /\ cfg_SendEnabled cfg = true
    /\ mode_store cfg (wk_store wk) /\ NewEnvelopeKeeper (cfg_DKIMMasterKey cfg) = Ok k
    /\ wk_delivery wk = wired (wk_store wk) (Delivery.NewEngine (cfg_EngineURL cfg)) k
         (Unsubscribe.DeriveSecret (cfg_DKIMMasterKey cfg)) (cfg_PublicBaseURL cfg) (cfg_MaxSendPerHour cfg))
    (runWorker getenv).
Proof.
  unfold runWorker. eapply (returns_and_then _ (fun x => Load getenv = inl x.1)); [|intros [cfg l] Hcfg; cbn in Hcfg|done].
  { intros [cfg l]. apply boot_Ok. }
  destruct (cfg_SendEnabled cfg) eqn:Hsend; [cbn [negb]|done].
  eapply returns_and_then; [apply connect_store|intros db Hdb|done].
  eapply (returns_and_then _ (mode_store cfg)); [intros s Hs; by exists db|intros s Hs|done].
  eapply (returns_and_then _ (fun k => NewEnvelopeKeeper (cfg_DKIMMasterKey cfg) = Ok k)); [by intros k Hk|intros k Hk|done].
  intros wk [= <-]. by exists cfg, k.
Qed.

(** C16: A server and a worker started from one environment understand each
    other.  Both have the keeper of the same master key attached, so no recipient
    is stored in clear and every list the server packs the worker unpacks; the
    worker signs unsubscribe links under the secret the server verifies them with;
    and the server answers send requests only where the worker would start. *)
Theorem serve_and_worker_agree script1 w1 script2 w2 sv wk :
  result_of (run (runServe version getenv) script1 w1) = Ok sv ->
  result_of (run (runWorker getenv) script2 w2) = Ok wk ->
  srv_store sv = wk_store wk
  /\ sv_unsubscribeSecret (srv_server sv) = w_unsubscribeSecret (wk_delivery wk)
  /\ cfg_SendEnabled (sv_cfg (srv_server sv)) = true
  /\ reads_what_is_packed (srv_store sv) (wk_store wk).
Proof.
  intros Hs Hw.
  destruct (returns_run _ _ script1 w1 runServe_Ok _ Hs) as (cfg & now & Hcfg & Hst & Hsrv & _).
  destruct (returns_run _ _ script2 w2 runWorker_Ok _ Hw) as (cfg' & k & Hcfg' & Hsend & Hst' & Hk & Hwk).
  assert (cfg' = cfg) as -> by congruence. pose proof (mode_store_unique _ _ _ Hst Hst') as E.
  split_and!; [done|by rewrite Hsrv, Hwk|by rewrite Hsrv|]. rewrite E. intros rand l p Hl.
  destruct Hst' as ([none] & Hnone & Hatt). cbn in Hnone. subst none. revert Hatt. unfold attachKeeper.
  case_bool_decide as Hempty; [by rewrite Hempty in Hk|].
  destruct (NewEnvelope _) as [e|] eqn:He; [|done]. intros [= <-]. apply NewEnvelope_law in He as Hlaw.
  intros Hp. by destruct (pack_unpack rand l p Hl Hp).
Qed.

End Modes.

(** ** Witnesses *)

#[local] Existing Instances ascii_tables plain_runtime plain_url_lib plain_api_lib plain_json_errors plain_postgres clear_aead
  plain_dkim_lib plain_db_lib.

Definition first_start : world := World empty_db 1000 [].

Definition ci_flags : keyFlags := KeyFlags (str "ci") (str "emails:send, emails:read") 0 30.

Definition new_secret : gostring := Keys.secret_of (replicate 32 (byte_of 0)).

Definition new_key : APIKey :=
  {| k_ID := 1; k_Name := str "ci"; k_Prefix := Keys.Display new_secret;
     k_Scopes := [ScopeEmailsSend; ScopeEmailsRead]; k_QuotaPerHour := 0; k_ExpiresAt := 3000 + 30 * 24 * Hour;
     k_RevokedAt := None; k_LastUsedAt := None |}.

Definition presenting (secret : gostring) : Request :=
  {| r_Method := str "GET"; r_Path := []; r_Header := fun _ => str "Bearer " ++ secret; r_RemoteAddr := [];
     r_Body := Ok []; r_RequestID := str "r1" |}.

Lemma created_key_opens_witness :
  rs_Status (result_of (run (requireKey
    (api sample_config clear_store (str "dev") 0) ScopeEmailsRead
    (fun _ r => Ret (handleNotFound r)) (presenting new_secret)) []
    (world_of (run (create_key ci_flags clear_store) [] first_start)))).1 = StatusNotFound.
Proof.
  destruct (created_key_opens sample_config clear_store (str "dev") 0 ci_flags [] first_start
              new_key new_secret (Forall_nil_2 _)) as [_ Hopen]; [vm_compute; reflexivity|].
  specialize (Hopen ScopeEmailsRead (fun _ r => Ret (handleNotFound r)) (presenting new_secret) []
    (world_of (run (create_key ci_flags clear_store) [] first_start))). cbn [pop] in Hopen.
  unfold result_of. rewrite Hopen.
  - vm_compute. reflexivity.
  - vm_compute. reflexivity.
  - apply (bool_decide_unpack _). vm_compute. exact I.
  - intros i j r q Hi%elem_of_rows Hj%elem_of_rows _. vm_compute in Hi, Hj.
    apply list_elem_of_singleton in Hi, Hj. congruence.
  - reflexivity.
  - constructor.
  - reflexivity.
Defined.

Definition shop : gostring := str "x.io".

Definition master : gostring := replicate 32 "k"%char.

Definition add_shop : result (gostring * KeyPair) * (list env * world) :=
  run (add_domain master shop clear_store) [] first_start.

Definition shop_token : gostring := token_of_bytes (replicate 20 (byte_of 0)).

Definition shop_pair : KeyPair :=
  {| kp_Selector := str "197001"; kp_Algorithm := str "ed25519";
     kp_WrappedSecret := replicate 12 "000"%char ++ replicate 64 "s"%char; kp_PublicRecord := str "v=DKIM1; k=ed25519; p=" |}.

(** The token is published beside another record. *)
Definition published : env :=
  {| e_others := id; e_delay := 0; e_fault := NoFault; e_begin := None; e_tx_faults := [];
     e_locked_message := fun _ => false; e_locked_delivery := fun _ => false;
     e_entropy := Ok []; e_http := e_http calm; e_stale := 0; e_dns := Records [str "v=spf1 -all"; shop_token];
     e_ips := e_ips calm |}.

Definition shop_due : result (list DomainProof) * (list env * world) :=
  run (DomainsDueForRecheck clear_store domainRecheckInterval domainBatch) [] (world_of add_shop).

Definition shop_proof : DomainProof :=
  {| dp_ID := 1; dp_Name := shop; dp_Token := shop_token; dp_Status := dom_pending |}.

Lemma add_domain_correct_witness :
  result_of add_shop = Ok (shop_token, shop_pair)
  /\ status_in (w_db (world_of (run (check_domain (store_domains clear_store) shop_proof) [published] (world_of shop_due)))) 1
     = Some dom_verified.
Proof.
  assert (result_of add_shop = Ok (shop_token, shop_pair)) as E by (vm_compute; reflexivity).
  split; [exact E|].
  destruct (add_domain_correct master shop clear_store [] first_start shop_token shop_pair)
    as (id & t & now & _ & (d & Hdom & Hname & Htok & _) & _ & _ & Hpub); [constructor|done|exact E|].
  assert (id = 1) as ->.
  { assert (is_Some (domains (db_of add_shop) !! id)) as [d' Hd'] by (unfold add_shop; rewrite Hdom; by rewrite lookup_insert_eq).
    vm_compute in Hd'. revert Hd'. by destruct id as [|[]|]. }
  refine (proj2 (Hpub [str "v=spf1 -all"; shop_token] _ d [] (world_of add_shop) [shop_proof] [] (world_of shop_due)
    shop_proof published [] _ Hname Htok _ _ _ _ _ _ _ _)).
  - right. left.
  - change (domains (w_db (world_of add_shop))) with (domains (db_of (run (add_domain master shop clear_store) [] first_start))).
    rewrite Hdom. by rewrite lookup_insert_eq.
  - constructor.
  - vm_compute. reflexivity.
  - left.
  - reflexivity.
  - intros ?. reflexivity.
  - reflexivity.
  - intros ?. reflexivity.
  - reflexivity.
Defined.

(** Drawing other bytes the second time. *)
Definition redraw : env :=
  {| e_others := id; e_delay := 1000; e_fault := NoFault; e_begin := None; e_tx_faults := [];
     e_locked_message := fun _ => false; e_locked_delivery := fun _ => false;
     e_entropy := Ok (replicate 20 "x"%char); e_http := Ok (Answer 200 []); e_stale := 0; e_dns := NotFound;
     e_ips := e_ips calm |}.

Lemma readd_domain_loses_proof_witness :
  exists err, result_of (run (add_domain master shop clear_store) [redraw; calm; calm] (world_of add_shop)) = Err err.
Proof.
  apply (readd_domain_loses_proof master shop clear_store redraw calm calm [] (world_of add_shop) 1
           (DomainRec shop shop_token dom_pending None None 3000) 1
           (DkimRec 1 (str "197001") (str "ed25519") (kp_WrappedSecret shop_pair) (kp_PublicRecord shop_pair) true 7000)
           (replicate 20 "x"%char)); try reflexivity; try (vm_compute; reflexivity).
  - repeat constructor.
  - vm_compute. discriminate.
Defined.

Definition sending_env (key : gostring) : gostring :=
  let vars := [(str "AIEMAIL_DATABASE_URL", str "postgres://db/aiemail"); (str "AIEMAIL_SEND_ENABLED", str "true");
               (str "AIEMAIL_ENGINE_URL", str "http://engine"); (str "AIEMAIL_MAX_SEND_PER_HOUR", str "500");
               (str "AIEMAIL_DKIM_MASTER_KEY", base64_std_encode master)] in
  default [] (snd <$> head (base.filter (fun kv : gostring * gostring => kv.1 = key) vars)).

#[local] Existing Instances cut_url_lib plain_argon2.

Lemma serve_and_worker_agree_witness :
  is_ok (result_of (run (runServe (str "dev") sending_env) [] first_start)) = true
  /\ is_ok (result_of (run (runWorker sending_env) [] first_start)) = true
  /\ exists sv wk, srv_store sv = wk_store wk /\ cfg_SendEnabled (sv_cfg (srv_server sv)) = true.
Proof.
  assert (is_ok (result_of (run (runServe (str "dev") sending_env) [] first_start)) = true) as Hs by (vm_compute; reflexivity).
  assert (is_ok (result_of (run (runWorker sending_env) [] first_start)) = true) as Hw by (vm_compute; reflexivity).
  split; [exact Hs|]. split; [exact Hw|].
  destruct (result_of (run (runServe (str "dev") sending_env) [] first_start)) as [sv|] eqn:Es; [|discriminate Hs].
  destruct (result_of (run (runWorker sending_env) [] first_start)) as [wk|] eqn:Ew; [|discriminate Hw].
  exists sv, wk. destruct (serve_and_worker_agree (str "dev") sending_env [] first_start [] first_start sv wk Es Ew)
    as (E & _ & Hsend & _). by split.
Defined.
