(* ===== verification/System.v ===== *)
(** * Several workers on one queue

    A step relation for the running deployment: any number of worker processes
    claim batches and deliver them, one effect at a time and interleaved at will,
    processes crash, and everything else (the HTTP API, the webhook dispatcher,
    the console) changes the database around them.  Every claimed message is a
    thread running [deliver]; letting the messages of one batch interleave only
    adds behaviours.  The invariants hold of every reachable state. *)

From S2P Require Import Prelude Utf8 GoStrings Crypto Schema Program Netguard HttpClient Delivery.
From S2P Require Import StoreRecipients StoreQueue StoreMessages StoreKeys Mail Dkim Worker Protocol Ceiling.
From stdpp Require Import relations.
Local Open Scope Z_scope.

Record thread := Thread { t_id : gostring; t_attempt : Z; t_prog : prog () }.

Record sys := Sys { s_world : world; s_threads : list thread }.

(** What the rest of the deployment may do to the messages: accept new ones,
    and change columns outside the lifecycle. *)
Definition env_ok (db db' : DB) : Prop :=
  forall id, life <$> messages db' !! id = life <$> messages db !! id
    \/ (messages db !! id = None /\ life <$> messages db' !! id = Some (queued, 0)).

(** Requests of the other processes carry no message id. *)
Definition foreign (x : exchange) : Prop := request_id (ex_request x) = None.

(** What the hourly ceiling is compared with. *)
Definition sent_last_hour (wd : world) : Z := Z.of_nat (length (sent_since (w_clock wd - Hour) (w_db wd))).

Section System.
Context `{UnicodeTables} `{JsonErrors} `{Postgres} `{GoRuntime}.
Context (s : Store) (w : Worker) `{!WorkerSpec w}.

Definition thread_of (c : Claimed) : thread := Thread (c_ID c) (c_Attempts c) (deliver w c).

Definition claimed_threads (r : result (list Claimed)) : list thread :=
  match r with Ok cs => thread_of <$> cs | Err _ => [] end.

Inductive step : sys -> sys -> Prop :=
  | step_claim e wd ts r rest wd' :
      quiet e ->
      run (ClaimMessages s batchSize lockDuration) [e] wd = (r, (rest, wd')) ->
      step (Sys wd ts) (Sys wd' (ts ++ claimed_threads r))
  | step_thread (X : Set) (op : effect X) k e wd x wd' id n ts1 ts2 :
      quiet e ->
      sem op e wd = (x, wd') ->
      step (Sys wd (ts1 ++ Thread id n (Do op k) :: ts2)) (Sys wd' (ts1 ++ Thread id n (k x) :: ts2))
  | step_crash wd t ts1 ts2 :
      step (Sys wd (ts1 ++ t :: ts2)) (Sys wd (ts1 ++ ts2))
  | step_env wd db' t reqs ts :
      env_ok (w_db wd) db' -> Forall foreign reqs ->
      step (Sys wd ts) (Sys (World db' t (w_requests wd ++ reqs)) ts).

(** A deployment before its first claim. *)
Definition initial (st : sys) : Prop :=
  s_threads st = [] /\ w_requests (s_world st) = []
  /\ forall id r, messages (w_db (s_world st)) !! id = Some r -> life r = (queued, 0).

Definition reachable (st : sys) : Prop := exists st0, initial st0 /\ rtc step st0 st.

(** ** Counting hand-overs *)

Definition carried (id : gostring) (x : exchange) : Prop := request_id (ex_request x) = Some id.

#[global] Instance carried_dec id x : Decision (carried id x).
Proof. unfold carried. apply _. Defined.

(** How often a message may have reached the engine: every request made for it, with
    the copies the transport may have sent besides. *)
Definition copies (x : exchange) : Z := 1 + Z.of_nat (ex_resent x).
Definition total (l : list exchange) : Z := foldr Z.add 0 (copies <$> l).

Definition handed (wd : world) (id : gostring) : Z := total (base.filter (carried id) (w_requests wd)).

Definition count (P : exchange -> bool) (wd : world) (id : gostring) : Z :=
  Z.of_nat (length (base.filter (fun x => carried id x /\ P x = true) (w_requests wd))).

(** The requests a hand-over ended with, and those the engine acknowledged. *)
Definition concluded : world -> gostring -> Z := count (fun x => negb (moved (ex_answer x))).
Definition taken : world -> gostring -> Z := count (fun x => acknowledges (ex_answer x)).

(** Requests of one attempt: ten, each with at most [MaxIdleConnsPerHost] copies. *)
Definition request_copies : Z := 1 + Z.of_nat MaxIdleConnsPerHost.
Definition attempt_copies : Z := 10 * request_copies.

(** ** The invariant *)

(** What an owner in each phase knows about its message. *)
Definition owner_ok (wd : world) (id : gostring) (n : Z) (ph : phase) : Prop :=
  life <$> messages (w_db wd) !! id = Some (sending, n)
  /\ match ph with
     | Owned | Redirected _ =>
         handed wd id + request_copies * Z.of_nat (hops_left ph) <= attempt_copies * n
         /\ concluded wd id + 1 <= n /\ taken wd id = 0
     | Refused => taken wd id = 0
     | Accepted => taken wd id = 1
     | Released => True
     end.

(** What is known of every message. *)
Definition row_ok (wd : world) (id : gostring) (l : message_status * Z) : Prop :=
  handed wd id <= attempt_copies * l.2 /\ concluded wd id <= l.2 <= MaxAttempts /\ taken wd id <= 1
  /\ match l.1 with
     | queued | deferred => l.2 < MaxAttempts /\ taken wd id = 0
     | failed => taken wd id = 0
     | sent => taken wd id = 1
     | _ => True
     end.

Definition owning (x : thread * phase) : Prop := x.2 <> Released.

Definition owners (l : list (thread * phase)) : list gostring :=
  (fun x => t_id x.1) <$> base.filter (fun x => x.2 <> Released) l.

Record good (wd : world) (l : list (thread * phase)) : Prop := {
  good_obeys : forall x, x ∈ l ->
    obeys (t_id x.1) (t_attempt x.1) x.2 (t_prog x.1) (fun ph _ => ph = Released);
  good_owners : NoDup (owners l);
  good_owned : forall x, x ∈ l -> x.2 <> Released -> owner_ok wd (t_id x.1) (t_attempt x.1) x.2;
  good_rows : forall id r, messages (w_db wd) !! id = Some r -> row_ok wd id (life r);
  good_absent : forall id, messages (w_db wd) !! id = None ->
    handed wd id = 0 /\ concluded wd id = 0 /\ taken wd id = 0;
}.

Definition invariant (st : sys) : Prop :=
  exists l, l.*1 = s_threads st /\ good (s_world st) l.

(** ** Lemmas *)

(** Two logs that tell the same of a message. *)
Definition same_counts (wd wd' : world) (id : gostring) : Prop :=
  handed wd' id = handed wd id /\ concluded wd' id = concluded wd id /\ taken wd' id = taken wd id.

Lemma same_counts_log wd wd' id : w_requests wd' = w_requests wd -> same_counts wd wd' id.
Proof. unfold same_counts, handed, concluded, taken, count. by intros ->. Qed.

Lemma total_app l1 l2 : total (l1 ++ l2) = total l1 + total l2.
Proof. unfold total. rewrite fmap_app. induction (copies <$> l1) as [|z l IH]; cbn; lia. Qed.

Lemma total_copies_nonneg l : 0 <= total l.
Proof. unfold total, copies. induction l; cbn in *; lia. Qed.

(** Requests that are not the message's own do not count. *)
Lemma others_counts wd db t reqs id :
  Forall (fun x => ~ carried id x) reqs -> same_counts wd (World db t (w_requests wd ++ reqs)) id.
Proof.
  intros Hf. assert (Hnil : forall P (HP : forall x, Decision (P x)), (forall x, P x -> carried id x) ->
    base.filter P reqs = []).
  { intros P HP Hid. induction Hf as [|x reqs Hx _ IH]; [done|]. rewrite filter_cons, decide_False; auto. }
  unfold same_counts, handed, concluded, taken, count; cbn [w_requests].
  rewrite !list.filter_app, !length_app, total_app.
  rewrite (Hnil (carried id)), !(Hnil (fun x => _ /\ _)) by naive_solver. cbn. lia.
Qed.

Lemma foreign_counts wd db t reqs id :
  Forall foreign reqs -> same_counts wd (World db t (w_requests wd ++ reqs)) id.
Proof.
  intros Hf. apply others_counts. eapply list.Forall_impl; [exact Hf|].
  unfold foreign, carried. intros x ->. done.
Qed.

Lemma request_counts wd db t x id :
  carried id x ->
  let wd' := World db t (w_requests wd ++ [x]) in
  handed wd' id = handed wd id + copies x
  /\ concluded wd' id = concluded wd id + (if moved (ex_answer x) then 0 else 1)
  /\ taken wd' id = taken wd id + (if acknowledges (ex_answer x) then 1 else 0).
Proof.
  intros Hx. cbn zeta. unfold handed, concluded, taken, count; cbn [w_requests].
  rewrite !list.filter_app, !length_app, total_app, !filter_cons, decide_True by done. split_and!.
  - unfold total; cbn. lia.
  - destruct (moved (ex_answer x)); [rewrite decide_False by (by intros [_ ?])|rewrite decide_True by done]; cbn; lia.
  - destruct (acknowledges (ex_answer x)); [rewrite decide_True by done|rewrite decide_False by (by intros [_ ?])]; cbn; lia.
Qed.

Lemma handed_nonneg wd id : 0 <= handed wd id.
Proof. apply total_copies_nonneg. Qed.

Lemma concluded_nonneg wd id : 0 <= concluded wd id.
Proof. unfold concluded, count. lia. Qed.

(** Worlds that agree on lifecycles and hand-overs. *)
Definition same_view (wd wd' : world) : Prop :=
  (forall id, life <$> messages (w_db wd') !! id = life <$> messages (w_db wd) !! id)
  /\ (forall id, same_counts wd wd' id).

Lemma owner_ok_same wd wd' id n ph :
  life <$> messages (w_db wd') !! id = life <$> messages (w_db wd) !! id -> same_counts wd wd' id ->
  owner_ok wd id n ph -> owner_ok wd' id n ph.
Proof. unfold owner_ok. by intros -> (-> & -> & ->). Qed.

Lemma row_ok_same wd wd' id l : same_counts wd wd' id -> row_ok wd id l -> row_ok wd' id l.
Proof. unfold row_ok. by intros (-> & -> & ->). Qed.

Lemma same_view_good wd wd' l : same_view wd wd' -> good wd l -> good wd' l.
Proof.
  intros [Hlife Hcount] [Hob Hnd Hown Hrows Habs]. split; try done.
  - intros x Hx Hph. eapply owner_ok_same; [apply Hlife|apply Hcount|by apply Hown].
  - intros id r Hr. specialize (Hlife id). rewrite Hr in Hlife.
    destruct (messages (w_db wd) !! id) as [r0|] eqn:Hr0; [|done].
    injection Hlife as E1 E2. assert (life r = life r0) as -> by (unfold life; congruence).
    eapply row_ok_same; [apply Hcount|by apply Hrows].
  - intros id Hn. specialize (Hlife id). rewrite Hn in Hlife. destruct (Hcount id) as (-> & -> & ->).
    apply Habs. by destruct (messages (w_db wd) !! id).
Qed.

Lemma quiet_arrive e wd : quiet e -> same_view wd (arrive e wd).
Proof. intros Hq. split; [|done]. intros id. unfold arrive; cbn. by rewrite Hq. Qed.

(** ** One thread moves *)

Lemma owners_app l1 l2 : owners (l1 ++ l2) = owners l1 ++ owners l2.
Proof. unfold owners. by rewrite list.filter_app, fmap_app. Qed.

Lemma owners_cons x l :
  owners (x :: l) = (if decide (x.2 <> Released) then [t_id x.1] else []) ++ owners l.
Proof. unfold owners. rewrite filter_cons. by case_decide. Qed.

Lemma elem_of_owners l id : id ∈ owners l <-> exists x, x ∈ l /\ x.2 <> Released /\ t_id x.1 = id.
Proof.
  unfold owners. rewrite list_elem_of_fmap. split.
  - intros (x & -> & [Hp Hx]%list_elem_of_filter). by exists x.
  - intros (x & Hx & Hp & <-). exists x. split; [done|]. by apply list_elem_of_filter.
Qed.

(** Ownership is exclusive. *)
Lemma sole_owner l1 x l2 y :
  NoDup (owners (l1 ++ x :: l2)) -> x.2 <> Released -> y ∈ l1 ++ l2 -> y.2 <> Released ->
  t_id y.1 <> t_id x.1.
Proof.
  rewrite owners_app, owners_cons. intros Hnd Hx Hy Hyo E. rewrite decide_True in Hnd by done.
  assert (t_id y.1 ∈ owners (l1 ++ l2)) as Hin by (apply elem_of_owners; by exists y).
  rewrite owners_app, elem_of_app in Hin. rewrite NoDup_app in Hnd. destruct Hnd as (_ & Hdis & Hnd).
  cbn in Hnd. apply NoDup_cons in Hnd as [Hni _]. rewrite E in Hin. destruct Hin as [Hin|Hin]; [|done].
  apply (Hdis _ Hin). left.
Qed.

(** The thread moves from phase [ph] to [ph'] while the world changes in a way
    the other owners do not notice. *)
Lemma good_moves wd wd' l1 l2 id n p p' ph ph' :
  good wd (l1 ++ (Thread id n p, ph) :: l2) ->
  (ph' <> Released -> ph <> Released) ->
  obeys id n ph' p' (fun ph _ => ph = Released) ->
  (ph' <> Released -> owner_ok wd' id n ph') ->
  (forall y, y ∈ l1 ++ l2 -> y.2 <> Released ->
     owner_ok wd (t_id y.1) (t_attempt y.1) y.2 -> owner_ok wd' (t_id y.1) (t_attempt y.1) y.2) ->
  (forall id' r, messages (w_db wd') !! id' = Some r -> row_ok wd' id' (life r)) ->
  (forall id', messages (w_db wd') !! id' = None ->
     handed wd' id' = 0 /\ concluded wd' id' = 0 /\ taken wd' id' = 0) ->
  good wd' (l1 ++ (Thread id n p', ph') :: l2).
Proof.
  intros [Hob Hnd Hown _ _] Hph Hp' Hmine Hothers Hrows Habs.
  assert (Hin : forall y, y ∈ l1 ++ l2 -> y ∈ l1 ++ (Thread id n p, ph) :: l2).
  { intros y. rewrite !elem_of_app, elem_of_cons. tauto. }
  assert (Hcase : forall y, y ∈ l1 ++ (Thread id n p', ph') :: l2 ->
    y = (Thread id n p', ph') \/ y ∈ l1 ++ l2).
  { intros y. rewrite !elem_of_app, elem_of_cons. tauto. }
  split; try done.
  - intros y [->|Hy]%Hcase; [done|]. by apply Hob, Hin.
  - rewrite owners_app, owners_cons in *. eapply sublist_NoDup; [exact Hnd|].
    apply sublist_app; [done|]. apply sublist_app; [|done]. cbn.
    destruct (decide (ph' <> Released)); [|apply sublist_nil_l].
    by rewrite decide_True by (by apply Hph).
  - intros y [->|Hy]%Hcase Hyo; [by apply Hmine|]. apply Hothers; try done. by apply Hown; [apply Hin|].
Qed.

Lemma same_view_refl wd : same_view wd wd.
Proof. split; [done|]. intros id. by apply same_counts_log. Qed.

(** Effects that change neither phase nor lifecycle. *)
Lemma good_neutral wd wd' l1 l2 id n p p' ph :
  good wd (l1 ++ (Thread id n p, ph) :: l2) -> same_view wd wd' ->
  obeys id n ph p' (fun ph _ => ph = Released) ->
  good wd' (l1 ++ (Thread id n p', ph) :: l2).
Proof.
  intros Hg Hv Hp'. pose proof (same_view_good _ _ _ Hv Hg) as Hg'. destruct Hg' as [_ _ Hown Hrows Habs].
  eapply good_moves; try exact Hg; try done.
  - intros Hph. apply (Hown (Thread id n p, ph)); [|done]. apply elem_of_app. right. left.
  - intros y Hy Hyo _. apply Hown; [|done]. revert Hy. rewrite !elem_of_app, elem_of_cons. tauto.
Qed.

(** Ending the claim. *)
Lemma good_finish wd db' l1 l2 id n p p' ph st :
  good wd (l1 ++ (Thread id n p, ph) :: l2) -> may_finish n ph st ->
  (forall id', life <$> messages db' !! id' =
     if decide (id' = id) then (fun r => (st, m_attempts r)) <$> messages (w_db wd) !! id
     else life <$> messages (w_db wd) !! id') ->
  obeys id n Released p' (fun ph _ => ph = Released) ->
  good (set_db db' wd) (l1 ++ (Thread id n p', Released) :: l2).
Proof.
  intros Hg Hmay Hlife Hp'. assert (ph <> Released) as Hph by (by intros ->; destruct st).
  pose proof Hg as [_ Hnd Hown Hrows Habs].
  destruct (Hown (Thread id n p, ph)) as [Hme Hphase]; [apply elem_of_app; right; left|done|]. cbn in *.
  assert (Hsame : forall id', same_counts wd (set_db db' wd) id') by (intros id'; by apply same_counts_log).
  eapply good_moves; try exact Hg; try done.
  - intros y Hy Hyo. apply owner_ok_same; [|apply Hsame]. cbn. rewrite Hlife, decide_False; [done|].
    by apply (sole_owner l1 (Thread id n p, ph) l2 y).
  - intros id' r Hr. cbn in Hr. specialize (Hlife id'). rewrite Hr in Hlife. cbn in Hlife.
    destruct (decide (id' = id)) as [->|Hne].
    + destruct (messages (w_db wd) !! id) as [r0|] eqn:Hr0; [|done].
      pose proof (Hrows id r0 Hr0) as (Hh & Hc & Ht & _). injection Hme as Hs Hn. cbn in Hlife.
      injection Hlife as Hst Hat. unfold row_ok, life in *. cbn [fst snd] in *.
      destruct (Hsame id) as (-> & -> & ->). rewrite Hst, Hat, Hn in *.
      destruct ph, st; cbn in Hmay; try done; split_and!; try lia; tauto.
    + destruct (messages (w_db wd) !! id') as [r0|] eqn:Hr0; [|done].
      injection Hlife as E1 E2. replace (life r) with (life r0) by (unfold life; congruence).
      eapply row_ok_same; [apply Hsame|by apply Hrows].
  - intros id' Hn. cbn in Hn. specialize (Hlife id'). rewrite Hn in Hlife. cbn in Hlife.
    destruct (Hsame id') as (-> & -> & ->). apply Habs. destruct (decide (id' = id)) as [->|]; by destruct (messages (w_db wd) !! _).
Qed.

(** Handing over. *)
Lemma good_handover wd l1 l2 id n p p' x ph hops :
  good wd (l1 ++ (Thread id n p, ph) :: l2) -> carried id x -> copies x <= request_copies ->
  hops_left ph = S hops ->
  obeys id n (after_answer hops (ex_answer x)) p' (fun ph _ => ph = Released) ->
  good (World (w_db wd) (w_clock wd) (w_requests wd ++ [x])) (l1 ++ (Thread id n p', after_answer hops (ex_answer x)) :: l2).
Proof.
  intros Hg Hx Hcopies Hhops Hp'. pose proof Hg as [_ Hnd Hown Hrows Habs].
  assert (Hph : ph <> Released /\ (ph = Owned \/ exists h, ph = Redirected h))
    by (destruct ph; try done; eauto). destruct Hph as [Hph Hph2].
  destruct (Hown (Thread id n p, ph)) as (Hme & Hhand); [apply elem_of_app; right; left|done|]. cbn in *.
  assert (handed wd id + request_copies * Z.of_nat (hops_left ph) <= attempt_copies * n
    /\ concluded wd id + 1 <= n /\ taken wd id = 0) as (Hh & Hc & Ht) by (by destruct Hph2 as [-> | [h ->]]).
  clear Hhand Hph2. rewrite Hhops in Hh. set (wd' := World _ _ _).
  destruct (request_counts wd (w_db wd) (w_clock wd) x id Hx) as (Eh & Ec & Et). fold wd' in Eh, Ec, Et.
  assert (Hne : forall id', id' <> id -> same_counts wd wd' id').
  { intros id' Hid. apply others_counts. constructor; [|done]. unfold carried in *. congruence. }
  assert (0 <= copies x) by (unfold copies; lia).
  assert (request_copies = 5 /\ attempt_copies = 50) as [Er Ea] by done. rewrite Er, Ea in *.
  eapply good_moves; try exact Hg; try done.
  - intros _. split; [done|]. unfold after_answer in *. rewrite Eh, Ec, Et.
    destruct (acknowledges (ex_answer x)), (moved (ex_answer x)); cbn [hops_left]; rewrite ?Er, ?Ea; lia.
  - intros y Hy Hyo. apply owner_ok_same; [done|]. apply Hne. by apply (sole_owner l1 (Thread id n p, ph) l2 y).
  - intros id' row Hrow. destruct (decide (id' = id)) as [->|Hid].
    + cbn in Hrow. rewrite Hrow in Hme. injection Hme as Hs Ha. unfold row_ok, life; cbn [fst snd].
      pose proof (Hrows id row Hrow) as (_ & Hb & _). cbn in Hb. rewrite Eh, Ec, Et, Hs, Ea.
      split_and!; try done; destruct (acknowledges (ex_answer x)), (moved (ex_answer x)); lia.
    + eapply row_ok_same; [by apply Hne|by apply Hrows].
  - intros id' Hn. cbn in Hn. destruct (decide (id' = id)) as [->|Hid]; [by rewrite Hn in Hme|].
    destruct (Hne id' Hid) as (-> & -> & ->). by apply Habs.
Qed.

(** Every effect an obedient thread performs keeps the invariant. *)
Lemma good_effect (X : Set) (op : effect X) k e wd x wd' l1 l2 id n ph :
  quiet e -> sem op e wd = (x, wd') ->
  good wd (l1 ++ (Thread id n (Do op k), ph) :: l2) ->
  exists ph', good wd' (l1 ++ (Thread id n (k x), ph') :: l2).
Proof.
  intros Hq Hsem Hg. pose proof (same_view_good _ _ _ (quiet_arrive e wd Hq) Hg) as Hg1.
  pose proof Hg1 as [Hob _ _ _ _].
  destruct (Hob (Thread id n (Do op k), ph)) as (after & Hop & Hk); [apply elem_of_app; right; left|].
  specialize (Hk x). unfold sem in Hsem. revert Hsem. set (here := arrive e wd) in *.
  destruct op; cbn in *; intros Hsem.
  - destruct Hop as [[Hn Ha]|(st & Hm & Hf & Ha)]; rewrite Ha in Hk; [exists ph|exists Released].
    + eapply good_neutral; [exact Hg1| |exact Hk].
      apply sem_stmt_cases in Hsem as [->|(a & db' & Hq' & ->)]; [apply same_view_refl|].
      split; [|intros i; by apply same_counts_log]. cbn. intros i. by apply (proj1 (Hn _ _ _ _ Hq')).
    + apply sem_stmt_cases in Hsem as [->|(a & db' & Hq' & ->)].
      * eapply good_moves; try exact Hg1; try done; destruct Hg1; eauto.
      * eapply good_finish; [exact Hg1|exact Hm| |exact Hk]. cbn. by apply (proj2 (Hf _ _ _ _ Hq')).
  - done.
  - injection Hsem as <- <-. exists ph. rewrite Hop in Hk.
    eapply good_neutral; [exact Hg1|apply same_view_refl|exact Hk].
  - injection Hsem as <- <-. exists ph. rewrite Hop in Hk.
    eapply good_neutral; [exact Hg1|apply same_view_refl|exact Hk].
  - destruct Hop as (hops & Hh & Hr & -> & Ha). injection Hsem as <- <-. rewrite Ha in Hk. eexists.
    apply (good_handover here l1 l2 id n _ _ (Exchange r _ _ (e_http e)) ph hops Hg1 Hr); [|done|exact Hk].
    unfold copies, request_copies. cbn [ex_resent].
    apply Zplus_le_compat_l, inj_le, (resends_bound (Pooled MaxIdleConnsPerHost)).
  - injection Hsem as <- <-. exists ph. rewrite Hop in Hk.
    eapply good_neutral; [exact Hg1|apply same_view_refl|exact Hk].
  - done.
  - injection Hsem as <- <-. exists ph. rewrite Hop in Hk.
    eapply good_neutral; [exact Hg1| |exact Hk]. split; [done|]. intros i. by apply same_counts_log.
Qed.

(** A crash only gives up ownership. *)
Lemma good_crash wd x l1 l2 : good wd (l1 ++ x :: l2) -> good wd (l1 ++ l2).
Proof.
  intros [Hob Hnd Hown Hrows Habs].
  assert (Hin : forall y, y ∈ l1 ++ l2 -> y ∈ l1 ++ x :: l2).
  { intros y. rewrite !elem_of_app, elem_of_cons. tauto. }
  split; eauto. eapply sublist_NoDup; [exact Hnd|]. rewrite !owners_app, owners_cons.
  apply sublist_app; [done|]. by apply sublist_inserts_l.
Qed.

Lemma good_env wd db' t reqs l :
  env_ok (w_db wd) db' -> Forall foreign reqs -> good wd l ->
  good (World db' t (w_requests wd ++ reqs)) l.
Proof.
  intros Henv Hf [Hob Hnd Hown Hrows Habs].
  assert (Hc : forall id, same_counts wd (World db' t (w_requests wd ++ reqs)) id)
    by (intros id; by apply foreign_counts).
  split; try done.
  - intros x Hx Hph. pose proof (Hown x Hx Hph) as Ho. eapply owner_ok_same; [|apply Hc|exact Ho].
    cbn. destruct Ho as [Hl _], (Henv (t_id x.1)) as [E|[Hn _]]; [done|]. by rewrite Hn in Hl.
  - intros id r Hr. cbn in Hr. eapply row_ok_same; [apply Hc|].
    destruct (Henv id) as [E|[Hn E]]; rewrite Hr in E; cbn in E.
    + destruct (messages (w_db wd) !! id) as [r0|] eqn:Hr0; [|done]. injection E as Es En.
      unfold life. rewrite Es, En. by apply (Hrows id r0).
    + injection E as Es En. unfold row_ok, life; cbn [fst snd]. rewrite Es, En.
      by destruct (Habs id Hn) as (-> & -> & ->).
  - intros id Hn. cbn in Hn. destruct (Hc id) as (-> & -> & ->). apply Habs.
    destruct (Henv id) as [E|[Hn' _]]; [|done]. rewrite Hn in E.
    by destruct (messages (w_db wd) !! id).
Qed.

(** ** Claiming *)

Lemma due_claimable env r : due env r = true -> m_status r = queued \/ m_status r = deferred.
Proof. unfold due. boolify. tauto. Qed.

Lemma life_claim_row now lockFor r : life (claim_row now lockFor r) = (sending, m_attempts r + 1).
Proof. by destruct r. Qed.

(** The picked rows move to 'sending'; [new] are the threads that own some of them. *)
Lemma good_claimed wd wd' l env limit lockFor new :
  good wd l ->
  let picked := claim_pick limit env (w_db wd) in
  w_requests wd' = w_requests wd ->
  w_db wd' = update_messages picked.*1 (claim_row (se_now env) lockFor) (w_db wd) ->
  NoDup (t_id <$> new) ->
  (forall t, t ∈ new -> (exists row, (t_id t, row) ∈ picked /\ t_attempt t = m_attempts row + 1)
     /\ obeys (t_id t) (t_attempt t) Owned (t_prog t) (fun ph _ => ph = Released)) ->
  good wd' (l ++ ((fun t => (t, Owned)) <$> new)).
Proof.
  intros Hg picked Hreq Hdb Hndn Hnew. pose proof Hg as [Hob Hnd Hown Hrows Habs].
  assert (Hc : forall id, same_counts wd wd' id) by (intros id; by apply same_counts_log).
  assert (Hpk : forall id row, (id, row) ∈ picked ->
    messages (w_db wd) !! id = Some row /\ (m_status row = queued \/ m_status row = deferred)).
  { intros id row Hin%claim_pick_claimable%elem_of_claimable. destruct Hin as (? & ?%due_claimable & _). done. }
  assert (Hpids : forall id, id ∈ picked.*1 -> exists row, (id, row) ∈ picked).
  { intros id ([id' row] & -> & Hin)%list_elem_of_fmap. by exists row. }
  assert (Hlife : forall id row, (id, row) ∈ picked ->
    life <$> messages (w_db wd') !! id = Some (sending, m_attempts row + 1)).
  { intros id row Hin. destruct (Hpk _ _ Hin) as [Hr _]. rewrite Hdb.
    rewrite (update_messages_eq _ _ _ _ row); [cbn; by rewrite life_claim_row| |done].
    apply list_elem_of_fmap. by exists (id, row). }
  assert (Howner : forall x, x ∈ l -> x.2 <> Released -> t_id x.1 ∉ picked.*1).
  { intros x Hx Hph (row & Hin)%Hpids. destruct (Hpk _ _ Hin) as [Hr Hst].
    destruct (Hown x Hx Hph) as [Hl _]. rewrite Hr in Hl. injection Hl as Hl _. destruct Hst; congruence. }
  assert (Hin2 : forall x, x ∈ l ++ ((fun t => (t, Owned)) <$> new) ->
    x ∈ l \/ exists t, x = (t, Owned) /\ t ∈ new).
  { intros x. rewrite elem_of_app, list_elem_of_fmap. tauto. }
  split.
  - intros x [Hx|(t & -> & Ht)]%Hin2; [by apply Hob|]. by apply Hnew.
  - rewrite owners_app. assert (owners ((fun t => (t, Owned)) <$> new) = t_id <$> new) as ->.
    { clear. induction new as [|t new IH]; [done|]. rewrite fmap_cons, owners_cons, IH. done. }
    apply NoDup_app. split_and!; try done. intros id (x & Hx & Hph & <-)%elem_of_owners Hin.
    apply list_elem_of_fmap in Hin as (t & E & Ht). destruct (Hnew t Ht) as [(row & Hrow & _) _].
    apply (Howner x Hx Hph). rewrite E. apply list_elem_of_fmap. by exists (t_id t, row).
  - intros x [Hx|(t & -> & Ht)]%Hin2 Hph.
    + eapply owner_ok_same; [|apply Hc|by apply Hown].
      rewrite Hdb, update_messages_ne by (by apply Howner). done.
    + destruct (Hnew t Ht) as [(row & Hrow & Hat) _]. cbn. rewrite Hat. split; [by apply Hlife|].
      destruct (Hpk _ _ Hrow) as [Hr Hst]. destruct (Hc (t_id t)) as (-> & -> & ->).
      pose proof (Hrows _ _ Hr) as (Hh & Hb & _ & Hm). unfold life in *; cbn [fst snd] in *.
      assert (request_copies = 5 /\ attempt_copies = 50) as [Er Ea] by done. rewrite Er, Ea in *.
      destruct Hst as [Hst|Hst]; rewrite Hst in Hm; cbn [hops_left]; lia.
  - intros id r Hr. eapply row_ok_same; [apply Hc|].
    destruct (decide (id ∈ picked.*1)) as [Hin|Hni].
    + apply Hpids in Hin as [row Hin]. pose proof (Hlife _ _ Hin) as Hl. rewrite Hr in Hl.
      destruct (Hpk _ _ Hin) as [Hr0 Hst]. pose proof (Hrows _ _ Hr0) as (Hh & Hb & Ht & Hm).
      injection Hl as Hs Ha. unfold row_ok, life in *; cbn [fst snd] in *. rewrite Hs, Ha.
      assert (attempt_copies = 50) as Ea by done. rewrite Ea in *.
      destruct Hst as [Hst|Hst]; rewrite Hst in Hm; split_and!; (done || lia).
    + rewrite Hdb, update_messages_ne in Hr by done. by apply Hrows.
  - intros id Hn. destruct (Hc id) as (-> & -> & ->). apply Habs. rewrite Hdb, update_messages_lookup in Hn.
    by destruct (messages (w_db wd) !! id).
Qed.

Lemma good_claim e wd l r rest wd' :
  quiet e -> run (ClaimMessages s batchSize lockDuration) [e] wd = (r, (rest, wd')) -> good wd l ->
  good wd' (l ++ ((fun t => (t, Owned)) <$> claimed_threads r)).
Proof.
  intros Hq Hrun Hg. pose proof (ClaimMessages_run s batchSize lockDuration [e] wd) as Hcl.
  rewrite Hrun in Hcl. cbn [pop fst snd] in Hcl. destruct Hcl as (_ & Hreq & Hok & Hdb).
  pose proof (same_view_good _ _ _ (quiet_arrive e wd Hq) Hg) as Hg1. set (here := arrive e wd) in *.
  destruct r as [cs|err].
  - destruct (Hok cs eq_refl) as (Hperm & Hdb' & Hcs).
    eapply (good_claimed here wd' l (env_of e here)); [exact Hg1|exact Hreq|exact Hdb'| |].
    + cbn. rewrite <- list_fmap_compose. cbn. change (NoDup (c_ID <$> cs)).
      rewrite Hperm. apply NoDup_claim_pick.
    + intros t (c & -> & Hc)%list_elem_of_fmap. cbn. split; [by apply Hcs|]. apply deliver_obeys, _.
  - cbn. rewrite app_nil_r. destruct Hdb as [Hdb|Hdb].
    + eapply same_view_good; [|exact Hg1]. split; [by rewrite Hdb|].
      intros id. by apply same_counts_log.
    + rewrite <- (app_nil_r l). eapply (good_claimed here wd' l (env_of e here) _ _ []);
        [exact Hg1|exact Hreq|exact Hdb|constructor|]. by intros t ?%elem_of_nil.
Qed.

(** ** Every reachable state is good *)

Lemma step_invariant st st' : step st st' -> invariant st -> invariant st'.
Proof.
  intros Hstep (l & Hl & Hg). destruct Hstep as
    [e wd ts r rest wd' Hq Hrun|X op k e wd x wd' id n ts1 ts2 Hq Hsem|wd t ts1 ts2|wd db' t reqs ts Henv Hf];
    cbn in *.
  - exists (l ++ ((fun t => (t, Owned)) <$> claimed_threads r)). cbn.
    split; [|eapply good_claim; [exact Hq|exact Hrun|exact Hg]]. rewrite fmap_app, Hl, <- list_fmap_compose. f_equal.
    clear. induction (claimed_threads r) as [|t ts IH]; [done|]. by rewrite fmap_cons, IH.
  - apply fmap_app_inv in Hl as (l1 & l2' & -> & E & ->). symmetry in E.
    apply fmap_cons_inv in E as ([t ph] & l2 & Ht & -> & ->). cbn in Ht. subst t.
    destruct (good_effect X op k e wd x wd' l1 l2 id n ph Hq Hsem Hg) as [ph' Hg'].
    exists (l1 ++ (Thread id n (k x), ph') :: l2). cbn. by rewrite fmap_app.
  - apply fmap_app_inv in Hl as (l1 & l2' & -> & E & ->). symmetry in E.
    apply fmap_cons_inv in E as (y & l2 & -> & -> & ->). exists (l1 ++ l2). cbn.
    rewrite fmap_app. split; [done|]. by eapply good_crash.
  - exists l. split; [done|]. by apply good_env.
Qed.

Lemma initial_invariant st : initial st -> invariant st.
Proof.
  intros (Ht & Hr & Hm). exists []. rewrite Ht. split; [done|].
  assert (Hc : forall id, handed (s_world st) id = 0 /\ concluded (s_world st) id = 0 /\ taken (s_world st) id = 0).
  { intros id. unfold handed, concluded, taken, count. by rewrite Hr. }
  split; try (intros ? ?%elem_of_nil; done); [constructor| |by intros id _; apply Hc].
  intros id r Hrow. rewrite (Hm id r Hrow). unfold row_ok. by destruct (Hc id) as (-> & -> & ->).
Qed.

Lemma reachable_invariant st : reachable st -> invariant st.
Proof.
  intros (st0 & Hi & Hsteps). apply initial_invariant in Hi.
  induction Hsteps as [|st1 st2 st3 Hs _ IH]; [done|]. eapply IH, step_invariant; eauto.
Qed.

(** ** Properties *)

(** C2: However many workers run, fail or crash, handing a message over is bounded by
    its recorded attempts.  In each of them (eight at most) the engine is sent at most
    fifty copies of the message, all under its id: ten requests when it keeps
    redirecting, each written at most five times when kept-alive connections turn out
    closed; and at most one request ends without being redirected.  The engine
    acknowledges a message at most once, exactly once when it is recorded as sent, and
    not at all while it is recorded as queued, deferred or failed.  (A request whose
    answer was lost is not acknowledged; the engine may have taken it, and is then
    offered the message again under the same id.) *)
Theorem handover_bounds st id r :
  reachable st ->
  messages (w_db (s_world st)) !! id = Some r ->
  0 <= handed (s_world st) id <= 50 * m_attempts r
  /\ concluded (s_world st) id <= m_attempts r <= MaxAttempts
  /\ taken (s_world st) id <= 1
  /\ (m_status r = sent -> taken (s_world st) id = 1)
  /\ (m_status r ∈ [queued; deferred; failed] -> taken (s_world st) id = 0).
Proof.
  intros (l & _ & Hg)%reachable_invariant Hr. destruct Hg as [_ _ _ Hrows _].
  destruct (Hrows id r Hr) as (Hh & Hb & Ht & Hm). unfold life in *; cbn [fst snd] in *.
  assert (attempt_copies = 50) as Ea by done. rewrite Ea in *.
  pose proof (handed_nonneg (s_world st) id). split_and!; try lia.
  - intros Hs. by rewrite Hs in Hm.
  - intros Hs. rewrite !elem_of_cons, elem_of_nil in Hs.
    destruct Hs as [Hs|[Hs|[Hs|[]]]]; rewrite Hs in Hm; tauto.
Qed.

(** The next thing a thread does is call the engine. *)
Definition about_to_send (t : thread) : bool :=
  match t_prog t with
  | Do (RoundTrip _ _) _ => true
  | _ => false
  end.

Lemma about_to_send_owned t ph :
  obeys (t_id t) (t_attempt t) ph (t_prog t) (fun ph _ => ph = Released) ->
  about_to_send t = true -> ph <> Released.
Proof.
  destruct t as [id n [[]|X op k]]; [done|]. unfold about_to_send; cbn.
  intros (after & Hop & _) Hs. destruct op; try done. destruct Hop as (hops & Hh & _). by intros ->.
Qed.

(** C1: No message is ever being handed over twice at the same time: the
    deliveries that are about to call the engine are of pairwise different
    messages. *)
Theorem no_concurrent_handover st :
  reachable st ->
  NoDup (t_id <$> base.filter (fun t => about_to_send t = true) (s_threads st)).
Proof.
  intros (l & <- & [Hob Hnd _ _ _])%reachable_invariant. eapply sublist_NoDup; [exact Hnd|]. clear Hnd.
  induction l as [|[t ph] l IH]; [done|]. rewrite fmap_cons, owners_cons, filter_cons. cbn [fst snd].
  assert (Hrest : t_id <$> base.filter (fun t => about_to_send t = true) l.*1 `sublist_of` owners l).
  { apply IH. intros x Hx. apply Hob. by right. }
  destruct (decide (about_to_send t = true)) as [Hs|]; [|by apply sublist_inserts_l].
  assert (ph <> Released) by (eapply about_to_send_owned; [apply (Hob (t, ph)); left|done]).
  rewrite decide_True by done. cbn. by apply sublist_skip.
Qed.

(** A message left in 'sending' that no delivery is working on. *)
Definition stranded (id : gostring) (st : sys) : Prop :=
  m_status <$> messages (w_db (s_world st)) !! id = Some sending
  /\ Forall (fun t => t_id t <> id) (s_threads st).

Lemma status_of_life (db db' : DB) id :
  life <$> messages db' !! id = life <$> messages db !! id ->
  m_status <$> messages db' !! id = m_status <$> messages db !! id.
Proof. destruct (messages db' !! id), (messages db !! id); intros E; simplify_eq/=; congruence. Qed.

(** An effect of a delivery of another message. *)
Lemma other_effect (X : Set) (op : effect X) e wd x wd' id n ph after other :
  quiet e -> sem op e wd = (x, wd') -> allowed other n ph op after -> id <> other ->
  life <$> messages (w_db wd') !! id = life <$> messages (w_db wd) !! id
  /\ handed wd' id = handed wd id.
Proof.
  intros Hq Hsem Hop Hne. unfold sem in Hsem. revert Hsem. destruct (quiet_arrive e wd Hq) as [Hl _].
  specialize (Hl id). set (here := arrive e wd) in *.
  change (handed wd id) with (handed here id). rewrite <- Hl.
  destruct op; cbn in *; intros Hsem; try (by injection Hsem as _ <-); try done.
  - apply sem_stmt_cases in Hsem as [->|(a & db' & Hq' & ->)]; [done|]. split; [|done]. cbn.
    destruct Hop as [[Hn _]|(st & _ & Hf & _)]; [by apply (proj1 (Hn _ _ _ _ Hq'))|].
    rewrite (proj2 (Hf _ _ _ _ Hq')). by rewrite decide_False.
  - injection Hsem as _ <-. destruct Hop as (hops & _ & Hr & _). split; [done|].
    apply (others_counts here (w_db here) (w_clock here)). constructor; [|done]. unfold carried. cbn. congruence.
Qed.

Lemma stranded_step st st' id :
  invariant st -> step st st' -> stranded id st ->
  stranded id st' /\ handed (s_world st') id = handed (s_world st) id.
Proof.
  intros (l & Hl & [Hob _ _ _ _]) Hstep [Hst Hth]. destruct Hstep as
    [e wd ts r rest wd' Hq Hrun|X op k e wd x wd' id' n ts1 ts2 Hq Hsem|wd t ts1 ts2|wd db' t reqs ts Henv Hf];
    unfold stranded; cbn [s_world s_threads] in *.
  - pose proof (ClaimMessages_run s batchSize lockDuration [e] wd) as Hcl. rewrite Hrun in Hcl.
    cbn [pop fst snd] in Hcl. destruct Hcl as (_ & Hreq & Hok & Hdb).
    assert (w_db (arrive e wd) = w_db wd) as Harr by (cbn; apply Hq).
    set (picked := claim_pick _ _ _) in *.
    assert (id ∉ picked.*1) as Hni.
    { intros ([id' row] & -> & Hin)%list_elem_of_fmap. apply claim_pick_claimable, elem_of_claimable in Hin.
      destruct Hin as (Hr & Hd%due_claimable & _). rewrite Harr in Hr. cbn in Hst. rewrite Hr in Hst.
      injection Hst as Hst. destruct Hd; congruence. }
    split_and!.
    + destruct Hdb as [-> | ->]; [by rewrite Harr|]. by rewrite update_messages_ne, Harr.
    + apply Forall_app. split; [done|]. destruct r as [cs|]; [|constructor].
      destruct (Hok cs eq_refl) as (Hp & _). apply list.Forall_fmap, list.Forall_forall. intros c Hc E.
      apply Hni. rewrite <- Hp, <- E. by apply (list_elem_of_fmap_2 c_ID).
    + unfold handed. by rewrite Hreq.
  - apply Forall_app in Hth as [Ht1 [Hid Ht2]%Forall_cons]. cbn in Hid.
    assert (exists ph, (Thread id' n (Do op k), ph) ∈ l) as [ph Hin].
    { assert (Thread id' n (Do op k) ∈ l.*1) as Hin by (rewrite Hl; apply elem_of_app; right; left).
      apply list_elem_of_fmap in Hin as ([t ph] & -> & Hin). by exists ph. }
    apply Hob in Hin as (after & Hop & _). cbn in Hop.
    destruct (other_effect X op e wd x wd' id n ph after id' Hq Hsem Hop ltac:(done)) as [Hlife Hh].
    split_and!; [by rewrite (status_of_life _ _ _ Hlife)| |done].
    apply Forall_app. split; [done|]. by constructor.
  - apply Forall_app in Hth as [Ht1 [_ Ht2]%Forall_cons]. split_and!; try done. by apply Forall_app.
  - split_and!; [|done|by apply foreign_counts]. cbn. destruct (Henv id) as [E|[E _]].
    + by rewrite (status_of_life _ _ _ E).
    + by rewrite E in Hst.
Qed.

(** C21: A stranded message is lost: once a message is in 'sending' and the
    delivery that claimed it is gone, no worker ever claims, retries, sends or fails
    it again, however long the system runs. *)
Theorem stranded_forever st st' id :
  reachable st -> stranded id st -> rtc step st st' ->
  stranded id st' /\ handed (s_world st') id = handed (s_world st) id.
Proof.
  intros Hinv%reachable_invariant Hst Hsteps. revert Hinv Hst.
  induction Hsteps as [|st1 st2 st3 Hs _ IH]; intros Hinv Hst; [done|].
  destruct (stranded_step _ _ _ Hinv Hs Hst) as [Hst2 Hh].
  destruct (IH (step_invariant _ _ Hs Hinv) Hst2) as [Hst3 Hh']. split; [done|congruence].
Qed.

(** ** The hourly ceiling *)

Lemma run_stmt_requests {A : Set} (q : statement A) e wd r wd' :
  sem_stmt q e wd = (r, wd') -> w_requests wd' = w_requests wd.
Proof. by intros [->|(a & db' & _ & ->)]%sem_stmt_cases. Qed.

Lemma hops_after h answer : (hops_left (after_answer h answer) <= h)%nat.
Proof. unfold after_answer. repeat case_match; cbn; lia. Qed.

(** An obedient delivery makes as many requests as its phase leaves. *)
Lemma obeys_requests {A} id n ph (p : prog A) Q script wd :
  obeys id n ph p Q ->
  (length (w_requests (world_of (run p script wd))) <= length (w_requests wd) + hops_left ph)%nat.
Proof.
  revert ph script wd; induction p as [a|X op k IH]; intros ph script wd Hp.
  { unfold world_of; cbn. lia. }
  destruct Hp as (after & Hop & Hk). cbn. destruct (pop script) as [e script'].
  destruct (sem op e wd) as [x wd'] eqn:Hsem. specialize (IH x (after x) script' wd' (Hk x)).
  unfold sem in Hsem. revert Hop Hsem IH. destruct op; cbn; intros Hop Hsem IH; try done.
  - apply run_stmt_requests in Hsem. rewrite Hsem in IH. cbn in IH.
    destruct Hop as [[_ Ha]|(st & _ & _ & Ha)]; rewrite Ha in IH; [done|]. cbn in IH. lia.
  - injection Hsem as <- <-. by rewrite Hop in IH.
  - injection Hsem as <- <-. by rewrite Hop in IH.
  - injection Hsem as <- <-. destruct Hop as (hops & -> & _ & _ & Ha). rewrite Ha in IH. cbn in IH.
    rewrite length_app in IH. cbn in IH. pose proof (hops_after hops (e_http e)). lia.
  - injection Hsem as <- <-. by rewrite Hop in IH.
  - injection Hsem as <- <-. by rewrite Hop in IH.
Qed.

Lemma deliver_all_requests cs script wd :
  (length (w_requests (world_of (run (for_each cs (deliver w)) script wd)))
   <= length (w_requests wd) + 10 * length cs)%nat.
Proof.
  revert script wd; induction cs as [|c cs IH]; intros script wd; cbn [for_each].
  { unfold world_of; cbn. lia. }
  rewrite run_bind.
  pose proof (obeys_requests _ _ _ _ _ script wd (deliver_obeys w c)) as Hd.
  unfold world_of in *. destruct (run (deliver w c) script wd) as [[] [script' wd']].
  specialize (IH script' wd'). cbn in *. lia.
Qed.

Lemma claim_and_deliver_requests script wd :
  (length (w_requests (world_of (run
      (bind (ClaimMessages s batchSize lockDuration) (fun claimed =>
         match claimed with
         | Err e => Ret (Err e)
         | Ok claimed => bind (for_each claimed (deliver w)) (fun _ => Ret (Ok (length claimed)))
         end)) script wd))) <= length (w_requests wd) + 10 * batchSize)%nat.
Proof.
  rewrite run_bind. pose proof (ClaimMessages_run s batchSize lockDuration script wd) as Hc.
  destruct (run (ClaimMessages s batchSize lockDuration) script wd) as [[cs|err] [script' wd']];
    destruct Hc as (_ & Hreq & Hok & _).
  - rewrite run_bind. pose proof (deliver_all_requests cs script' wd') as Hd. unfold world_of in *.
    destruct (run (for_each cs (deliver w)) script' wd') as [u [script'' wd'']].
    destruct (Hok cs eq_refl) as (Hp & _). apply Permutation_length in Hp.
    rewrite !length_fmap in Hp. unfold claim_pick in Hp. rewrite length_take in Hp.
    cbn [run fst snd] in *. rewrite Hreq in Hd. lia.
  - unfold world_of; cbn. rewrite Hreq. lia.
Qed.

(** The hourly ceiling holds back delivery: when the count of the last hour
    has reached it, a tick claims nothing and calls nobody, whatever happens; and
    below it one tick hands over at most [batchSize] messages, each in at most ten
    requests. *)
Theorem tick_ceiling script wd :
  w_queue w = store_queue s ->
  0 < w_maxPerHour w ->
  let here := arrive (pop script).1 wd in
  let count := sent_last_hour here in
  let after := run (tick w) script wd in
  (w_maxPerHour w <= count -> db_of after = w_db here /\ w_requests (world_of after) = w_requests wd)
  /\ (length (w_requests (world_of after)) <= length (w_requests wd) + 10 * batchSize)%nat.
Proof.
  intros Hw Hmax. cbn zeta. unfold sent_last_hour, tick. rewrite (proj2 (Z.ltb_lt _ _) Hmax), Hw.
  cbn [q_SentInLastHour q_ClaimMessages store_queue]. unfold SentInLastHour, exec_wrapped. cbn [bind run].
  destruct (pop script) as [e script']; cbn [fst]. unfold sem, sem_at, sem_stmt, query.
  destruct (e_fault e); cbn [run bind wrap_err]; try (unfold db_of, world_of; cbn; split; [done|lia]).
  cbn [se_now env_of]. split.
  - intros Hc. rewrite (proj2 (Z.leb_le _ _) Hc). done.
  - destruct (Z.leb_spec (w_maxPerHour w)
      (Z.of_nat (length (sent_since (w_clock (arrive e wd) - Hour) (w_db (arrive e wd)))))).
    + unfold world_of; cbn. lia.
    + etrans; [apply claim_and_deliver_requests|]. done.
Qed.

(** What the API does to the queue is within [env_ok]. *)
Lemma EnqueueMessage_env_ok inm script wd :
  quiet (pop script).1 -> env_ok (w_db wd) (db_of (run (EnqueueMessage s inm) script wd)).
Proof.
  intros Hq id. pose proof (EnqueueMessage_run s inm script wd) as Hr. cbn zeta in Hr.
  replace (w_db (arrive (pop script).1 wd)) with (w_db wd) in Hr by (cbn; by rewrite Hq).
  destruct Hr as [(err & _ & ->)|[(m & _ & -> & _)|[Ha _]]]; [by left..|].
  destruct Ha as (p & hd & tg & _ & [Hn _] & _ & ->). clear Hq. set (db' := set_messages _ _).
  assert (messages db' = <[n_ID inm := new_row inm p hd tg (w_clock (arrive (pop script).1 wd))]>
            (messages (w_db wd))) as ->.
  { subst db'. case_bool_decide; by destruct (w_db wd). }
  destruct (decide (id = n_ID inm)) as [->|Hne].
  - right. by rewrite lookup_insert_eq.
  - left. by rewrite lookup_insert_ne.
Qed.

End System.

(** ** A concrete deployment *)

Definition sample_worker : Worker := draining 100.

(** One verified domain with a signing key, one queued message. *)
Definition deployed : world := serving [(str "m1", sample_row queued 5 None)].

Definition tick_of (script : list env) : result nat * (list env * world) :=
  run (tick (H := ascii_tables) (H0 := plain_runtime) sample_worker) script deployed.

(** From queue to engine: one tick signs the message, hands it over under its
    id, and records it as sent. *)
Example tick_sends :
  result_of (tick_of []) = Ok 1%nat
  /\ m_status <$> messages (db_of (tick_of [])) !! str "m1" = Some sent
  /\ (fun x => request_id (ex_request x)) <$> w_requests (world_of (tick_of [])) = [Some (str "m1")].
Proof. vm_compute. split_and!; reflexivity. Qed.

(** The engine is down: the message is deferred for a minute. *)
Example tick_defers :
  (fun r => (m_status r, m_attempts r, m_scheduled_at r))
    <$> messages (db_of (tick_of (replicate 20
          {| e_others := id; e_delay := 0; e_fault := NoFault; e_begin := None; e_tx_faults := [];
             e_locked_message := fun _ => false; e_locked_delivery := fun _ => false;
             e_entropy := Ok []; e_http := Ok (Answer 503 []); e_stale := 0; e_dns := NotFound;
             e_ips := e_ips calm |}))) !! str "m1"
  = Some (deferred, 1, Some (1000 + Minute)).
Proof. vm_compute. reflexivity. Qed.

Abbreviation the_step := (step (H := ascii_tables) (H0 := plain_json_errors) (H1 := plain_postgres)
  (H2 := plain_runtime) clear_store sample_worker).

Definition claim_run : result (list Claimed) * (list env * world) :=
  run (ClaimMessages (H0 := plain_json_errors) (H1 := plain_postgres) clear_store batchSize lockDuration)
    [calm] deployed.

Definition claimed_sys : sys :=
  Sys (world_of claim_run)
    (claimed_threads (H := ascii_tables) (H2 := plain_runtime)
       sample_worker (result_of claim_run)).

Definition crashed_sys : sys := Sys (world_of claim_run) [].

(** A day later. *)
Definition later_sys : sys :=
  Sys (World (w_db (world_of claim_run)) (24 * Hour) []) [].

Lemma deployed_initial : initial (Sys deployed []).
Proof.
  split_and!; [done|done|]. intros id r Hr. cbn in Hr.
  apply lookup_insert_Some in Hr as [[_ <-]|[_ Hr]]; [done|]. by rewrite lookup_empty in Hr.
Qed.

Lemma claimed_step : the_step (Sys deployed []) claimed_sys.
Proof.
  apply (step_claim (H := ascii_tables) (H2 := plain_runtime)
           clear_store sample_worker calm deployed [] (result_of claim_run) claim_run.2.1 (world_of claim_run)).
  - done.
  - unfold result_of, world_of. fold claim_run. by destruct claim_run as [? [? ?]].
Qed.

Lemma claimed_reachable : reachable (H := ascii_tables) (H0 := plain_json_errors) (H1 := plain_postgres)
  (H2 := plain_runtime) clear_store sample_worker claimed_sys.
Proof. exists (Sys deployed []). split; [apply deployed_initial|apply rtc_once, claimed_step]. Qed.

Lemma crash_step : the_step claimed_sys crashed_sys.
Proof.
  unfold claimed_sys. assert (result_of claim_run = Ok [claim_of (str "m1")]) as ->.
  { vm_compute. reflexivity. }
  apply (step_crash _ _ _ _ [] []).
Qed.

Lemma crashed_reachable : reachable (H := ascii_tables) (H0 := plain_json_errors) (H1 := plain_postgres)
  (H2 := plain_runtime) clear_store sample_worker crashed_sys.
Proof.
  exists (Sys deployed []). split; [apply deployed_initial|].
  eapply rtc_l; [apply claimed_step|]. apply rtc_once, crash_step.
Qed.

Lemma later_step : rtc the_step crashed_sys later_sys.
Proof. apply rtc_once, (step_env _ _ (world_of claim_run) _ _ []); [by left|constructor]. Qed.

(** The engine takes the message on a kept-alive connection that closes twice before
    it, and its answer is lost. *)
Definition unanswered : env :=
  {| e_others := id; e_delay := 0; e_fault := NoFault; e_begin := None; e_tx_faults := [];
     e_locked_message := fun _ => false; e_locked_delivery := fun _ => false;
     e_entropy := Ok []; e_http := Err (errors_New (str "timeout")); e_stale := 2; e_dns := NotFound;
     e_ips := e_ips calm |}.

Definition forward (st : sys) : sys :=
  match s_threads st with
  | Thread id n (Do op k) :: ts =>
      let '(x, wd') := sem op unanswered (s_world st) in Sys wd' (Thread id n (k x) :: ts)
  | _ => st
  end.

Lemma forward_step st : rtc the_step st (forward st).
Proof.
  destruct st as [wd [|[id n [u|X op k]] ts]]; [done..|]. unfold forward. cbn [s_threads s_world].
  destruct (sem op unanswered wd) as [x wd'] eqn:E. apply rtc_once.
  by apply (step_thread (H := ascii_tables) (H2 := plain_runtime) clear_store sample_worker X op k unanswered wd x wd' id n [] ts).
Qed.

Definition unanswered_sys : sys := Nat.iter 20 forward claimed_sys.

Lemma unanswered_reachable : reachable (H := ascii_tables) (H0 := plain_json_errors) (H1 := plain_postgres)
  (H2 := plain_runtime) clear_store sample_worker unanswered_sys.
Proof.
  exists (Sys deployed []). split; [apply deployed_initial|]. eapply rtc_l; [apply claimed_step|].
  unfold unanswered_sys. generalize 20%nat. intros n. induction n as [|n IH]; [done|]. etrans; [exact IH|apply forward_step].
Qed.

(** The message is deferred: three copies went out, none is acknowledged. *)
Lemma handover_bounds_witness :
  exists r, messages (w_db (s_world unanswered_sys)) !! str "m1" = Some r
    /\ m_status r = deferred /\ handed (s_world unanswered_sys) (str "m1") = 3
    /\ 3 <= 50 * m_attempts r /\ taken (s_world unanswered_sys) (str "m1") = 0.
Proof.
  destruct (messages (w_db (s_world unanswered_sys)) !! str "m1") as [r|] eqn:Hr; [|vm_compute in Hr; discriminate Hr].
  destruct (handover_bounds (H := ascii_tables) (H0 := plain_json_errors) (H1 := plain_postgres)
           (H2 := plain_runtime) clear_store sample_worker
           unanswered_sys (str "m1") r unanswered_reachable Hr) as ([_ Hb] & _ & _ & _ & Ht).
  assert (m_status r = deferred) as Hs by (vm_compute in Hr; injection Hr as <-; reflexivity).
  assert (handed (s_world unanswered_sys) (str "m1") = 3) as Hh by (vm_compute; reflexivity).
  exists r. split; [reflexivity|]. split; [exact Hs|]. split; [exact Hh|]. rewrite Hh in Hb. split; [exact Hb|].
  apply Ht. rewrite Hs. right. left.
Defined.

Lemma no_concurrent_handover_witness :
  NoDup (t_id <$> base.filter (fun t => about_to_send t = true) (s_threads claimed_sys)).
Proof.
  apply (no_concurrent_handover (H := ascii_tables) (H0 := plain_json_errors) (H1 := plain_postgres)
           (H2 := plain_runtime) clear_store sample_worker
           claimed_sys claimed_reachable).
Defined.

Lemma stranded_forever_witness : stranded (str "m1") later_sys.
Proof.
  apply (stranded_forever (H := ascii_tables) (H0 := plain_json_errors) (H1 := plain_postgres)
           (H2 := plain_runtime) clear_store sample_worker
           crashed_sys later_sys (str "m1") crashed_reachable).
  - split; [vm_compute; reflexivity|constructor].
  - apply later_step.
Defined.

Lemma tick_ceiling_witness :
  (length (w_requests (world_of (tick_of []))) <= length (w_requests deployed) + 10 * batchSize)%nat.
Proof.
  apply (tick_ceiling (H := ascii_tables) (H0 := plain_json_errors) (H1 := plain_postgres)
           (H2 := plain_runtime) clear_store sample_worker [] deployed).
  - reflexivity.
  - reflexivity.
Defined.
