(* ===== verification/Progress.v ===== *)
(** * Bounded overtaking: every due message gets its turn

    Workers claim the oldest due messages first and every claim of a message costs it
    one of its eight attempts.  So in any execution of System.v, however many workers
    run, crash or fail, a message that is due can be passed over by a bounded number of
    claims only: each takes a batch of attempts from older messages, which have no
    others to give as long as newcomers are dated later. *)

From S2P Require Import Prelude Utf8 GoStrings Crypto Schema Program Netguard Delivery.
From S2P Require Import StoreRecipients StoreQueue StoreMessages StoreKeys Mail Dkim Worker Protocol Ceiling System.
Local Open Scope Z_scope.

(** ** Executions, with the claims that pass a message over *)

(** Messages keep their dates, and those that appear are dated after [c0]. *)
Definition dated_later (c0 : Z) (db db' : DB) : Prop := forall id,
  m_created_at <$> messages db' !! id = m_created_at <$> messages db !! id
  \/ (messages db !! id = None /\ forall r, messages db' !! id = Some r -> c0 < m_created_at r).

(** A successful claim that leaves [id] behind although it was due and not locked. *)
Definition overtakes (id : gostring) (e : env) (wd : world) (r : result (list Claimed)) : bool :=
  let here := arrive e wd in
  match r, messages (w_db here) !! id with
  | Ok cs, Some row =>
      due (env_of e here) row && negb (e_locked_message e id) && negb (bool_decide (id ∈ c_ID <$> cs))
  | _, _ => false
  end.

(** The attempts the messages dated up to [c0] have left, [id] aside. *)
Definition room (r : message_row) : Z := Z.max 0 (MaxAttempts - m_attempts r).

Definition older (id : gostring) (c0 : Z) (db : DB) : list (gostring * message_row) :=
  base.filter (fun x => x.1 <> id /\ m_created_at x.2 <= c0) (map_to_list (messages db)).

Fixpoint total {A} (f : A -> Z) (l : list A) : Z :=
  match l with [] => 0 | x :: l => f x + total f l end.

Definition ahead (id : gostring) (c0 : Z) (db : DB) : Z := total (fun x => room x.2) (older id c0 db).

Section Progress.
Context `{UnicodeTables} `{JsonErrors} `{Postgres} `{GoRuntime}.
Context (s : Store) (w : Worker) `{!WorkerSpec w}.
Context (id : gostring) (c0 : Z).

(** The steps of System.v; the flag marks a claim that overtakes [id]. *)
Inductive move : bool -> sys -> sys -> Prop :=
  | move_claim e wd ts r rest wd' :
      quiet e ->
      run (ClaimMessages s batchSize lockDuration) [e] wd = (r, (rest, wd')) ->
      move (overtakes id e wd r) (Sys wd ts) (Sys wd' (ts ++ claimed_threads w r))
  | move_thread (X : Set) (op : effect X) k e wd x wd' i n ts1 ts2 :
      quiet e ->
      sem op e wd = (x, wd') ->
      move false (Sys wd (ts1 ++ Thread i n (Do op k) :: ts2)) (Sys wd' (ts1 ++ Thread i n (k x) :: ts2))
  | move_crash wd t ts1 ts2 :
      move false (Sys wd (ts1 ++ t :: ts2)) (Sys wd (ts1 ++ ts2))
  | move_env wd db' t reqs ts :
      env_ok (w_db wd) db' -> dated_later c0 (w_db wd) db' -> Forall foreign reqs ->
      move false (Sys wd ts) (Sys (World db' t (w_requests wd ++ reqs)) ts).

(** An execution in which [id] is overtaken [n] times. *)
Inductive history : nat -> sys -> sys -> Prop :=
  | history_end st : history 0 st st
  | history_step b n st1 st2 st3 :
      move b st1 st2 -> history n st2 st3 -> history (if b then S n else n) st1 st3.

Lemma move_is_step b st st' : move b st st' -> step s w st st'.
Proof. destruct 1; by econstructor. Qed.

Lemma one_overtaking e wd res : quiet e -> run (ClaimMessages s batchSize lockDuration) [e] wd = res ->
  overtakes id e wd (result_of res) = true ->
  history 1 (Sys wd []) (Sys (world_of res) (claimed_threads w (result_of res))).
Proof.
  destruct res as [r [rest wd']]. unfold result_of, world_of; cbn. intros Hq Hrun Ho.
  apply (history_step true 0 _ (Sys wd' (claimed_threads w r))); [|constructor].
  rewrite <- Ho. by apply (move_claim e wd [] r rest wd').
Qed.

(** ** Sums *)

Lemma total_le {A} (f g : A -> Z) l : (forall x, x ∈ l -> f x <= g x) -> total f l <= total g l.
Proof.
  induction l as [|x l IH]; intros Hle; cbn; [done|].
  pose proof (Hle x ltac:(left)). assert (total f l <= total g l); [|lia]. apply IH. intros y Hy. apply Hle. by right.
Qed.

Lemma total_ext {A} (f g : A -> Z) l : (forall x, x ∈ l -> f x = g x) -> total f l = total g l.
Proof. intros E. apply Z.le_antisymm; apply total_le; intros x Hx; by rewrite E. Qed.

Lemma total_fmap {A B} (f : B -> Z) (g : A -> B) l : total f (g <$> l) = total (fun x => f (g x)) l.
Proof. induction l as [|x l IH]; cbn; [done|]. by rewrite <- IH. Qed.

Lemma total_bound {A} (f : A -> Z) m l : (forall x, x ∈ l -> f x <= m) -> total f l <= m * Z.of_nat (length l).
Proof.
  induction l as [|x l IH]; intros Hle; cbn [total length]; [lia|].
  pose proof (Hle x ltac:(left)). assert (total f l <= m * Z.of_nat (length l)); [|lia].
  apply IH. intros y Hy. apply Hle. by right.
Qed.

Lemma total_nonneg {A} (f : A -> Z) l : (forall x, 0 <= f x) -> 0 <= total f l.
Proof. intros Hf. induction l as [|x l IH]; cbn; [done|]. pose proof (Hf x). lia. Qed.

(** What a sum loses when one unit is taken from each of some of its members. *)
Lemma total_taken {A} `{EqDecision A} (f g : A -> Z) l taken :
  NoDup l -> NoDup taken -> taken ⊆ l ->
  (forall x, x ∈ l -> f x = g x - (if decide (x ∈ taken) then 1 else 0)) ->
  total f l = total g l - Z.of_nat (length taken).
Proof.
  revert taken. induction l as [|x l IH]; intros taken Hl Ht Hsub Hf.
  { destruct taken as [|y taken]; [done|]. destruct (not_elem_of_nil y). apply Hsub. left. }
  apply list.NoDup_cons in Hl as [Hx Hl]. cbn [total].
  rewrite (Hf x) by left. destruct (decide (x ∈ taken)) as [Hin|Hni].
  - apply list_elem_of_split in Hin as (t1 & t2 & ->).
    assert (NoDup (t1 ++ t2) /\ x ∉ t1 ++ t2) as [Ht' Hxt].
    { rewrite <- (Permutation_middle t1 t2 x), list.NoDup_cons in Ht. tauto. }
    rewrite (IH (t1 ++ t2)); [rewrite !length_app; cbn; lia|done..| |].
    + intros y Hy. assert (y ∈ x :: l) as Hyl by (apply Hsub; set_solver).
      apply elem_of_cons in Hyl as [->|]; [by destruct Hxt|done].
    + intros y Hy. rewrite (Hf y) by (by right). repeat case_decide; set_solver.
  - rewrite (IH taken); [lia|done..| |intros y Hy; apply Hf; by right].
    intros y Hy. pose proof (Hsub y Hy) as Hyl. by apply elem_of_cons in Hyl as [->|].
Qed.

(** ** What a step costs *)

Definition spent (r : message_row) : Z * Z := (m_attempts r, m_created_at r).

Lemma spent_inj (r r' : message_row) : Some (spent r) = Some (spent r') ->
  m_attempts r = m_attempts r' /\ m_created_at r = m_created_at r'.
Proof. unfold spent. intros E. split; congruence. Qed.

Definition same_spent (db db' : DB) : Prop := forall i, spent <$> messages db' !! i = spent <$> messages db !! i.

Lemma same_spent_of db db' :
  (forall i, m_attempts <$> messages db' !! i = m_attempts <$> messages db !! i) -> same_dates db db' ->
  same_spent db db'.
Proof.
  intros Ha Hd i. specialize (Ha i). specialize (Hd i).
  destruct (messages db' !! i), (messages db !! i); simplify_eq/=; unfold spent; congruence.
Qed.

Lemma attempts_of_life (r r' : option message_row) : life <$> r' = life <$> r -> m_attempts <$> r' = m_attempts <$> r.
Proof. destruct r, r'; intros E; simplify_eq/=; congruence. Qed.

(** An effect of a delivery takes no attempt. *)
Lemma thread_spends (X : Set) (op : effect X) e wd x wd' i n ph after :
  quiet e -> sem op e wd = (x, wd') -> allowed i n ph op after -> same_spent (w_db wd) (w_db wd').
Proof.
  intros Hq Hsem Hop. unfold sem in Hsem. assert (w_db (arrive e wd) = w_db wd) as Hdb by (cbn; apply Hq).
  revert Hsem. rewrite <- Hdb. set (here := arrive e wd) in *.
  destruct op; cbn in *; intros Hsem; try (by injection Hsem as _ <-); try done.
  apply sem_stmt_cases in Hsem as [->|(a & db' & Hq' & ->)]; [done|]. cbn.
  destruct Hop as [[Hn _]|(st & _ & Hf & _)].
  - destruct (Hn _ _ _ _ Hq') as [Hl Hd]. apply same_spent_of; [|done]. intros j. apply attempts_of_life, Hl.
  - destruct (Hf _ _ _ _ Hq') as [Hd Hl]. apply same_spent_of; [|done]. intros j. specialize (Hl j).
    destruct (decide (j = i)) as [->|]; [|by apply attempts_of_life].
    cbn in Hl |- *. revert Hl. unfold life. destruct (messages db' !! i), (messages (e_others e (w_db wd)) !! i); cbn; congruence.
Qed.

Section Older.
Context (ids : list gostring).

(** [ids] are the messages dated up to [c0], which is the date of [id]. *)
Record settled (db : DB) : Prop := {
  st_later : forall i r, messages db !! i = Some r -> i ∉ ids -> i <> id -> c0 < m_created_at r;
  st_present : forall i, i ∈ ids -> is_Some (messages db !! i);
  st_mine : m_created_at <$> messages db !! id = Some c0;
}.

Definition room_at (db : DB) (i : gostring) : Z := from_option room 0 (messages db !! i).

Lemma same_spent_room db db' i : spent <$> messages db' !! i = spent <$> messages db !! i -> room_at db' i = room_at db i.
Proof.
  intros E. unfold room_at, room. destruct (messages db' !! i), (messages db !! i); try done.
  apply spent_inj in E as [E _]. cbn. by rewrite E.
Qed.

Lemma spent_settled db db' : same_spent db db' -> settled db ->
  settled db' /\ total (room_at db') ids = total (room_at db) ids.
Proof.
  intros Hs [Hl Hp Hm]. split; [|apply total_ext; intros i _; apply same_spent_room, Hs]. split.
  - intros i r Hr Hi Hne. specialize (Hs i). rewrite Hr in Hs. destruct (messages db !! i) as [r0|] eqn:E; [|done].
    apply spent_inj in Hs as [_ ->]. by eapply Hl.
  - intros i Hi. specialize (Hs i). destruct (Hp i Hi) as [r Hr]. rewrite Hr in Hs.
    destruct (messages db' !! i); [by eexists|done].
  - specialize (Hs id). destruct (messages db' !! id), (messages db !! id); try done.
    apply spent_inj in Hs as [_ E]. cbn in *. by rewrite E.
Qed.

Lemma env_settled db db' : env_ok db db' -> dated_later c0 db db' -> settled db ->
  settled db' /\ total (room_at db') ids = total (room_at db) ids.
Proof.
  intros Ho Hd [Hl Hp Hm].
  assert (Hsame : forall i, is_Some (messages db !! i) -> spent <$> messages db' !! i = spent <$> messages db !! i).
  { intros i [r Hr]. destruct (Hd i) as [E|[E _]]; [|congruence]. destruct (Ho i) as [E'|[E' _]]; [|congruence].
    apply attempts_of_life in E'. destruct (messages db' !! i), (messages db !! i); simplify_eq/=; unfold spent; congruence. }
  split; [|apply total_ext; intros i Hi; by apply same_spent_room, Hsame, Hp]. split.
  - intros i r Hr Hi Hne. destruct (Hd i) as [E|[_ Hn]]; [|by apply Hn]. rewrite Hr in E.
    destruct (messages db !! i) as [r0|] eqn:E0; [|done]. injection E as ->. by eapply Hl.
  - intros i Hi. specialize (Hsame i (Hp i Hi)). destruct (Hp i Hi) as [r Hr]. rewrite Hr in Hsame.
    destruct (messages db' !! i); [by eexists|done].
  - destruct (messages db !! id) as [r|] eqn:Er; [|done]. specialize (Hsame id ltac:(rewrite Er; by eexists)).
    rewrite Er in Hsame. destruct (messages db' !! id); [|done]. apply spent_inj in Hsame as [_ E]. cbn in *. by rewrite E.
Qed.

(** Every picked message gives one of its attempts. *)
Lemma claim_settled env db lockFor :
  (forall i r, messages db !! i = Some r -> m_status r = queued \/ m_status r = deferred -> m_attempts r < MaxAttempts) ->
  NoDup ids -> settled db ->
  let picked := claim_pick batchSize env db in
  let db' := update_messages picked.*1 (claim_row (se_now env) lockFor) db in
  settled db' /\ total (room_at db') ids <= total (room_at db) ids
  /\ (picked.*1 ⊆ ids -> total (room_at db') ids = total (room_at db) ids - Z.of_nat (length picked)).
Proof.
  intros Hlive Hnd [Hl Hp Hm] picked db'.
  assert (Hpk : forall i, i ∈ picked.*1 -> exists r, messages db !! i = Some r /\ m_attempts r < MaxAttempts).
  { intros i ([i' r] & -> & Hin%claim_pick_claimable%elem_of_claimable)%list_elem_of_fmap.
    destruct Hin as (Hr & Hd%due_claimable & _). exists r. split; [done|]. by eapply Hlive. }
  assert (Hroom : forall i, room_at db' i = room_at db i - (if decide (i ∈ picked.*1) then 1 else 0)).
  { intros i. unfold room_at, db'. rewrite update_messages_lookup. destruct (decide (i ∈ picked.*1)) as [Hin|Hni].
    - destruct (Hpk i Hin) as (r & -> & Hr). cbn. rewrite bool_decide_eq_true_2 by done.
      unfold room. destruct r; cbn in *. lia.
    - destruct (messages db !! i); cbn; [rewrite bool_decide_eq_false_2 by done|]; lia. }
  assert (Hdate : same_dates db db').
  { intros i. unfold db'. rewrite update_messages_lookup. destruct (messages db !! i) as [r|]; cbn; [|done].
    case_bool_decide; by destruct r. }
  split_and!.
  - split.
    + intros i r Hr Hi Hne. specialize (Hdate i). rewrite Hr in Hdate. destruct (messages db !! i) as [r0|] eqn:E; [|done].
      injection Hdate as ->. by eapply Hl.
    + intros i Hi. specialize (Hdate i). destruct (Hp i Hi) as [r Hr]. rewrite Hr in Hdate.
      destruct (messages db' !! i); [by eexists|done].
    + by rewrite Hdate.
  - apply total_le. intros i _. rewrite Hroom. case_decide; lia.
  - intros Hsub. rewrite <- (length_fmap fst picked). apply total_taken; try done. apply NoDup_claim_pick.
Qed.

(** A claim that overtakes [id] was a whole batch of older messages. *)
Lemma overtaken_batch e wd cs r picked :
  let here := arrive e wd in
  picked = claim_pick batchSize (env_of e here) (w_db here) ->
  settled (w_db here) -> c_ID <$> cs ≡ₚ picked.*1 ->
  r = Ok cs -> overtakes id e wd r = true ->
  length picked = batchSize /\ picked.*1 ⊆ ids.
Proof.
  intros here Hpick [Hl Hp Hm] Hperm ->. unfold overtakes. fold here.
  destruct (messages (w_db here) !! id) as [row|] eqn:Hrow; [|done].
  rewrite !andb_true_iff, !negb_true_iff, bool_decide_eq_false. intros [[Hdue Hlock] Hid]. rewrite Hperm in Hid.
  injection Hm as Hm.
  assert ((id, row) ∈ claimable (env_of e here) (w_db here)) as Hcl by (by apply elem_of_claimable).
  assert ((id, row) ∉ claim_pick batchSize (env_of e here) (w_db here)) as Hnp.
  { rewrite <- Hpick. intros Hin. apply Hid, list_elem_of_fmap. by exists (id, row). }
  rewrite Hpick in *. split; [by apply (claim_pick_oldest batchSize _ _ _ (id, row) Hcl Hnp)|].
  intros i ([i' r] & -> & Hin)%list_elem_of_fmap. cbn.
  pose proof (proj2 (claim_pick_oldest batchSize _ _ (id, row) (i', r) Hcl Hnp) Hin) as Hold. cbn in Hold.
  destruct (decide (i' ∈ ids)) as [|Hni]; [done|].
  pose proof Hin as (Hr & _)%claim_pick_claimable%elem_of_claimable.
  assert (i' <> id) as Hne.
  { intros ->. apply Hnp. rewrite Hrow in Hr. by injection Hr as ->. }
  specialize (Hl i' r Hr Hni Hne). lia.
Qed.

End Older.

(** ** The bound *)

Lemma move_settled ids b st st' : NoDup ids -> move b st st' -> invariant st -> settled ids (w_db (s_world st)) ->
  settled ids (w_db (s_world st'))
  /\ total (room_at (w_db (s_world st'))) ids + (if b then Z.of_nat batchSize else 0)
     <= total (room_at (w_db (s_world st))) ids.
Proof.
  intros Hnd Hmove (l & Hl & [Hob _ _ Hrows _]) Hset. destruct Hmove as
    [e wd ts r rest wd' Hq Hrun|X op k e wd x wd' i n ts1 ts2 Hq Hsem|wd t ts1 ts2|wd db' t reqs ts Henv Hd Hf];
    cbn [s_world s_threads w_db] in *.
  - pose proof (ClaimMessages_run s batchSize lockDuration [e] wd) as Hcl. rewrite Hrun in Hcl.
    cbn [pop fst snd] in Hcl. destruct Hcl as (_ & _ & Hok & Hdb).
    assert (w_db (arrive e wd) = w_db wd) as Harr by (cbn; apply Hq).
    rewrite <- Harr in Hset |- *. set (here := arrive e wd) in *.
    set (picked := claim_pick batchSize (env_of e here) (w_db here)) in *.
    assert (Hlive : forall i r, messages (w_db here) !! i = Some r -> m_status r = queued \/ m_status r = deferred ->
      m_attempts r < MaxAttempts).
    { intros i row Hr Hst. rewrite Harr in Hr. destruct (Hrows i row Hr) as (_ & _ & Hm). unfold life in Hm; cbn in Hm.
      destruct Hst as [Hst|Hst]; rewrite Hst in Hm; apply Hm. }
    destruct (claim_settled ids (env_of e here) (w_db here) lockDuration Hlive Hnd Hset) as (Hset' & Hle & Hex).
    fold picked in Hset', Hle, Hex. change (se_now (env_of e here)) with (w_clock here) in Hset', Hle, Hex.
    destruct (overtakes id e wd r) eqn:Ho.
    + destruct r as [cs|err]; [|done]. destruct (Hok cs eq_refl) as (Hperm & -> & _).
      destruct (overtaken_batch ids e wd cs (Ok cs) picked eq_refl Hset Hperm eq_refl Ho) as [Hlen Hsub].
      split; [exact Hset'|]. rewrite (Hex Hsub), Hlen. lia.
    + destruct Hdb as [-> | ->]; [split; [done|lia]|]. split; [exact Hset'|]. rewrite Z.add_0_r. exact Hle.
  - assert (exists ph after, allowed i n ph op after) as (ph & after & Hop).
    { assert (Thread i n (Do op k) ∈ l.*1) as Hin by (rewrite Hl; apply elem_of_app; right; left).
      apply list_elem_of_fmap in Hin as ([t ph] & Et & Hin). cbn in Et. subst t.
      destruct (Hob _ Hin) as (after & Hop & _). by exists ph, after. }
    destruct (spent_settled ids _ _ (thread_spends _ _ _ _ _ _ _ _ _ _ Hq Hsem Hop) Hset) as [? ->]. split; [done|lia].
  - split; [done|lia].
  - destruct (env_settled ids _ _ Henv Hd Hset) as [? ->]. split; [done|lia].
Qed.

Lemma history_settled ids n st st' : NoDup ids -> history n st st' -> invariant st ->
  settled ids (w_db (s_world st)) ->
  Z.of_nat (batchSize * n) <= total (room_at (w_db (s_world st))) ids.
Proof.
  intros Hnd. induction 1 as [st|b n st1 st2 st3 Hm _ IH]; intros Hinv Hset.
  - rewrite Nat.mul_0_r. apply total_nonneg. intros i. unfold room_at, room. destruct (_ !! i); cbn; lia.
  - destruct (move_settled ids b st1 st2 Hnd Hm Hinv Hset) as [Hset2 Hle].
    specialize (IH (step_invariant s w _ _ (move_is_step _ _ _ Hm) Hinv) Hset2). destruct b; lia.
Qed.

Lemma elem_of_older i r db : (i, r) ∈ older id c0 db <-> i <> id /\ m_created_at r <= c0 /\ messages db !! i = Some r.
Proof. unfold older. rewrite list_elem_of_filter, elem_of_map_to_list. cbn. tauto. Qed.

Lemma older_settled db r : messages db !! id = Some r -> m_created_at r = c0 ->
  NoDup (older id c0 db).*1 /\ settled (older id c0 db).*1 db
  /\ total (room_at db) (older id c0 db).*1 = ahead id c0 db.
Proof.
  intros Hr Hc. split_and!.
  - eapply sublist_NoDup; [apply (NoDup_fst_map_to_list (messages db))|]. apply fmap_sublist, sublist_filter.
  - split.
    + intros i r' Hr' Hni Hne. destruct (Z.le_gt_cases (m_created_at r') c0); [|lia]. destruct Hni.
      apply list_elem_of_fmap. exists (i, r'). by rewrite elem_of_older.
    + intros i ([i' r'] & -> & (_ & _ & Hi)%elem_of_older)%list_elem_of_fmap. by exists r'.
    + rewrite Hr. cbn. by rewrite Hc.
  - unfold ahead. rewrite total_fmap. apply total_ext. intros [i r'] (_ & _ & Hi)%elem_of_older.
    unfold room_at. cbn. by rewrite Hi.
Qed.

(** C14: However many workers run, fail or crash, and whatever newer messages are
    accepted meanwhile, a due and unlocked message is left behind by a bounded number of
    successful claims: a batch for every ten attempts that the messages dated no later
    have left, at most eight attempts each; with none of them it is in the next batch. *)
Theorem bounded_overtaking st st' r n :
  reachable s w st -> messages (w_db (s_world st)) !! id = Some r -> m_created_at r = c0 ->
  history n st st' ->
  Z.of_nat (batchSize * n) <= ahead id c0 (w_db (s_world st))
  /\ ahead id c0 (w_db (s_world st)) <= MaxAttempts * Z.of_nat (length (older id c0 (w_db (s_world st)))).
Proof.
  intros Hreach Hr Hc Hh. pose proof (reachable_invariant s w _ Hreach) as Hinv.
  destruct (older_settled _ _ Hr Hc) as (Hnd & Hset & <-). split; [by eapply history_settled|].
  rewrite total_fmap, <- (length_fmap fst). rewrite length_fmap. apply total_bound.
  intros [i r'] (_ & _ & Hi)%elem_of_older. unfold room_at. cbn. rewrite Hi. cbn.
  destruct Hinv as (l & _ & [_ _ _ Hrows _]). destruct (Hrows i r' Hi) as (_ & Hb & _). cbn in Hb.
  pose proof (concluded_nonneg (s_world st) i). unfold room, MaxAttempts in *. lia.
Qed.

End Progress.

(** ** Ten older messages *)

#[local] Existing Instances ascii_tables plain_json_errors plain_postgres plain_runtime.

Definition crowded : world :=
  serving ((str "young", sample_row queued 6 None)
           :: ((fun n => (str "m" ++ format_int (Z.of_nat n), sample_row queued 5 None)) <$> seq 10 10)).

Definition crowded_claim : result (list Claimed) * (list env * world) :=
  run (ClaimMessages clear_store batchSize lockDuration) [calm] crowded.

Lemma crowded_reachable : reachable clear_store sample_worker (Sys crowded []).
Proof.
  exists (Sys crowded []). split; [|done]. split_and!; [done|done|]. cbn [s_world].
  apply (bool_decide_unpack (map_Forall (fun _ r => life r = (queued, 0)) (messages (w_db crowded)))).
  vm_compute. exact I.
Qed.

Lemma crowded_history :
  history clear_store sample_worker (str "young") 6 1 (Sys crowded [])
    (Sys (world_of crowded_claim) (claimed_threads sample_worker (result_of crowded_claim))).
Proof.
  apply (one_overtaking _ _ _ _ calm); [done|reflexivity|]. vm_compute. reflexivity.
Qed.

Lemma bounded_overtaking_witness :
  Z.of_nat (batchSize * 1) <= ahead (str "young") 6 (w_db crowded) /\ ahead (str "young") 6 (w_db crowded) = 80.
Proof.
  split; [|vm_compute; reflexivity].
  apply (bounded_overtaking clear_store sample_worker (str "young") 6 (Sys crowded [])
           (Sys (world_of crowded_claim) (claimed_threads sample_worker (result_of crowded_claim)))
           (sample_row queued 6 None) 1 crowded_reachable).
  - vm_compute. reflexivity.
  - reflexivity.
  - exact crowded_history.
Defined.
